(** * The APSW cursor (src/cursor.c): a shallow embedding and its properties

    The cursor is the state machine that turns a batch of SQL statements and
    a set of bindings into rows.  This file embeds [resetcursor],
    [APSWCursor_dobinding], [APSWCursor_dobindings], [APSWCursor_doexectrace],
    [APSWCursor_dorowtrace], [APSWCursor_step] and the public methods
    ([execute], [executemany], [close], [next] and the trace setters) as
    functions over an explicit world: the C struct, the
    Python error indicator and a log of the calls made to the collaborators
    (SQLite, the statement cache, the user's callbacks and iterators).

    Conventions.
    - C [int] and [Py_ssize_t] values are [Z]; the one narrowing conversion
      in the file ([int sz] receiving a [Py_ssize_t]) is written [to_int].
    - A [NULL] pointer is [None].  Dereferencing one is [Fault].
    - The loop [for(;;)] of [APSWCursor_step] runs on fuel, [step_fuel],
      which is shown to be enough; [APSWCursor_next] takes as fuel the number
      of rounds of [goto again] it may make.
    - Python objects are represented by what cursor.c observes of them.
    - Code of the caller that the cursor runs (the tracers, the executemany
      source, user functions of the engine) is represented by what it
      returns or raises.  Such code is taken to come back without calling
      a method of the cursor and without changing the object that holds
      the bindings; the cursor does not protect itself against either, and
      the properties below are about runs in which neither happens. *)

From Stdlib Require Import ZArith Lia Ascii.
From stdpp Require Import base option list strings gmap.

Local Open Scope Z_scope.

(** ** SQLite result codes and limits *)

Definition SQLITE_OK : Z := 0.
Definition SQLITE_ERROR : Z := 1.
Definition SQLITE_BUSY : Z := 5.
Definition SQLITE_SCHEMA : Z := 17.
Definition SQLITE_TOOBIG : Z := 18.
Definition SQLITE_MISUSE : Z := 21.
Definition SQLITE_RANGE : Z := 25.
Definition SQLITE_ROW : Z := 100.
Definition SQLITE_DONE : Z := 101.

(** Modelled from the spec: the macro [APSW_INT32_MAX] is declared outside
    cursor.c; the spec calls it "a 32-bit signed length boundary". *)
Definition APSW_INT32_MAX : Z := 2147483647.

(** Conversion of a wider integer to a C [int] (two's complement). *)
Definition to_int (z : Z) : Z := (z + 2147483648) mod 4294967296 - 2147483648.

(** [long long] range, for [PyLong_AsLongLong]. *)
Definition LLONG_MIN : Z := -9223372036854775808.
Definition LLONG_MAX : Z := 9223372036854775807.

(** ** Exceptions *)

Inductive exn : Type :=
  (* ExcBindings, with the numbers its four messages report *)
  | ExcBindings_none_supplied (nargs : Z)
  | ExcBindings_no_name (argno : Z)
  | ExcBindings_only_left (nargs avail offset : Z)
  | ExcBindings_supplied (nargs avail offset : Z)
  | ExcIncomplete (many : bool)
  | ExcTraceAbort
  | ExcComplete
  | ExcThreadingViolation
  | ExcConnectionClosed
  | PyExc_TypeError (msg : string)
  | BadBindingType (argno : Z) (tp_name : string)  (* also a TypeError *)
  | PyExc_OverflowError
  | SQLiteError (code : Z)               (* what SET_EXC raises for a code *)
  | PyException (name : string).         (* any other Python exception *)

Definition is_ExcBindings (e : exn) : bool :=
  match e with
  | ExcBindings_none_supplied _ | ExcBindings_no_name _
  | ExcBindings_only_left _ _ _ | ExcBindings_supplied _ _ _ => true
  | _ => false
  end.

Definition is_ExcIncomplete (e : exn) : bool :=
  match e with ExcIncomplete _ => true | _ => false end.

(** The result of a conversion inside the Python C API; when it fails it
    leaves one of Python's own exceptions, [PyException name]. *)
Inductive conversion (A : Type) : Type :=
  | Converted (a : A)
  | ConversionFails (name : string).
Arguments Converted {A} a.
Arguments ConversionFails {A} name.

(** The result of running the caller's code (a callback, an iterator, the
    iteration of an arbitrary sequence): it may raise anything. *)
Inductive pyresult (A : Type) : Type :=
  | Returned (a : A)
  | Raised (e : exn).
Arguments Returned {A} a.
Arguments Raised {A} e.

(** ** Python objects, as the binder sees them *)

(** A unicode object: its characters and what [UNIDATABEGIN] obtains, the
    length in bytes of the encoded text ([strbytes]) or a failure with
    [strdata == NULL]. *)
Record unicode : Type := {
  uni_chars : string;
  uni_strbytes : conversion Z
}.

(** A Python 2 byte string: its bytes and what [PyUnicode_FromObject]
    makes of it. *)
Record pystring : Type := {
  str_val : string;
  str_unicode : conversion unicode
}.

(** An object with the read-buffer interface: what [PyObject_AsReadBuffer]
    returns, and its contents. *)
Record readbuffer : Type := {
  buf_data : string;
  buf_buflen : conversion Z
}.

Inductive PyObject : Type :=
  | Py_None
  | PyInt (v : Z)                     (* Python 2 [int]: a C long *)
  | PyLong (v : Z)                    (* unbounded *)
  | PyFloat (bits : Z)                (* the double, as its 64 bits *)
  | PyUnicode (u : unicode)
  | PyString (s : pystring)           (* Python 2 [str] *)
  | PyReadBuffer (b : readbuffer)
  | ZeroBlobBind (blobsize : Z)
  | PyOtherObject (tp_name : string).

(** ** The engine: values, compiled statements, step results *)

Inductive SqlValue : Type :=
  | SqlNull
  | SqlInteger (v : Z)
  | SqlFloat (bits : Z)
  | SqlText (data : string) (nbytes : Z)
  | SqlBlob (data : string) (nbytes : Z)
  | SqlZeroBlob (n : Z).

(** What one call of [sqlite3_step] produces: its result code, the row when
    the code is [SQLITE_ROW], and the Python exception a user function
    running inside the step may have left behind. *)
Record step_outcome : Type := {
  so_rc : Z;
  so_row : list SqlValue;
  so_raised : option exn
}.

Definition StepRow (row : list SqlValue) : step_outcome :=
  {| so_rc := SQLITE_ROW; so_row := row; so_raised := None |}.
Definition StepDone : step_outcome :=
  {| so_rc := SQLITE_DONE; so_row := []; so_raised := None |}.
Definition StepError (code : Z) : step_outcome :=
  {| so_rc := code; so_row := []; so_raised := None |}.

(** One statement of a batch, as the engine's compiler sees it. *)
Inductive sql_stmt : Type :=
  | Compiles (sql : string) (params : list (option string))
             (prog : list SqlValue -> list step_outcome)
  | Blank (sql : string)               (* nothing to run: a NULL vdbe *)
  | Invalid (sql : string) (code : Z). (* sqlite3_prepare fails *)

(** The text handed to [execute]: its statements in order. *)
Definition query : Type := list sql_stmt.

Definition stmt_sql (s : sql_stmt) : string :=
  match s with Compiles t _ _ | Blank t | Invalid t _ => t end.

(** A compiled statement ([sqlite3_stmt]). *)
Record vdbe : Type := {
  v_params : list (option string);
  v_prog : list SqlValue -> list step_outcome;
  v_bound : list SqlValue;     (* the value of each parameter *)
  v_pc : nat;                  (* steps taken since the last reset *)
  v_rc : Z;                    (* result of the most recent step *)
  v_row : list SqlValue        (* the current row *)
}.

Definition sqlite3_bind_parameter_count (v : option vdbe) : Z :=
  match v with
  | None => 0
  | Some vd => Z.of_nat (length (v_params vd))
  end.

Definition sqlite3_bind_parameter_name (v : option vdbe) (arg : Z) : option string :=
  match v with
  | None => None
  | Some vd =>
      if (1 <=? arg) && (arg <=? Z.of_nat (length (v_params vd)))
      then mjoin (v_params vd !! Z.to_nat (arg - 1))
      else None
  end.

(** [sqlite3_bind_*]: misuse on a NULL or running statement, a range error
    for a bad index, otherwise the parameter takes the value. *)
Definition sqlite3_bind (v : option vdbe) (arg : Z) (val : SqlValue)
  : Z * option vdbe :=
  match v with
  | None => (SQLITE_MISUSE, None)
  | Some vd =>
      if (0 <? v_pc vd)%nat then (SQLITE_MISUSE, v)
      else if (1 <=? arg) && (arg <=? Z.of_nat (length (v_params vd)))
      then (SQLITE_OK,
            Some {| v_params := v_params vd; v_prog := v_prog vd;
                    v_bound := <[Z.to_nat (arg - 1) := val]> (v_bound vd);
                    v_pc := v_pc vd; v_rc := v_rc vd; v_row := v_row vd |})
      else (SQLITE_RANGE, v)
  end.

(** [sqlite3_step]: the next outcome of the program run on the bound
    values; a program that has run out is done. *)
Definition sqlite3_step (vd : vdbe) : step_outcome * vdbe :=
  let o := default StepDone (v_prog vd (v_bound vd) !! v_pc vd) in
  (o, {| v_params := v_params vd; v_prog := v_prog vd;
         v_bound := v_bound vd; v_pc := S (v_pc vd);
         v_rc := so_rc o; v_row := so_row o |}).

(** [sqlite3_reset], as the statement cache calls it when a statement is
    handed back: the error of the most recent step, if it was one. *)
Definition sqlite3_reset_rc (vd : vdbe) : Z :=
  if (0 <? v_pc vd)%nat then
    let low := Z.land (v_rc vd) 255 in
    if (low =? SQLITE_ROW) || (low =? SQLITE_DONE) || (v_rc vd =? SQLITE_OK)
    then SQLITE_OK else v_rc vd
  else SQLITE_OK.

(** ** The statement cache *)

Record APSWStatement : Type := {
  vdbestatement : option vdbe;
  utf8 : query;                 (* the text from this statement on *)
  next : option query           (* what remains after this statement *)
}.

(** [querylen] bytes of [utf8]: the text of this statement alone. *)
Definition statement_sql (st : APSWStatement) : string :=
  match utf8 st with
  | [] => ""%string
  | s :: _ => stmt_sql s
  end.

Definition remaining (rest : query) : option query :=
  match rest with [] => None | _ => Some rest end.

(** Modelled from the spec: statementcache.c is not part of cursor.c; the
    spec gives [prepare(connection, text) -> Handle | error], which
    "compiles the first statement in [text], retains a pointer to the
    remaining unparsed text".  A fresh handle has every parameter NULL. *)
Definition statementcache_prepare (q : query) : Z + APSWStatement :=
  match q with
  | [] => inr {| vdbestatement := None; utf8 := []; next := None |}
  | Blank _ :: rest =>
      inr {| vdbestatement := None; utf8 := q; next := remaining rest |}
  | Invalid _ code :: _ => inl code
  | Compiles _ params prog :: rest =>
      inr {| vdbestatement :=
               Some {| v_params := params; v_prog := prog;
                       v_bound := replicate (length params) SqlNull;
                       v_pc := 0; v_rc := SQLITE_OK; v_row := [] |};
             utf8 := q; next := remaining rest |}
  end.

(** Modelled from the spec: [finalize(cache, handle) -> status]; the status
    is that of [sqlite3_reset]. *)
Definition statementcache_finalize (st : APSWStatement) : Z :=
  match vdbestatement st with
  | None => SQLITE_OK
  | Some vd => sqlite3_reset_rc vd
  end.

(** ** Bindings, iterators and callbacks *)

(** [self->bindings]: a dict, or what [PySequence_Fast] made.  For a dict,
    a list or a tuple that is the caller's own object, of which the cursor
    keeps a reference; the value here is what the object holds, and it
    stays the same through a run only as long as neither the caller nor a
    callback changes the object (see [sequence_changed]). *)
Inductive Bindings : Type :=
  | BDict (d : gmap string PyObject)
  | BSeq (items : list PyObject).

(** A bindings argument as the caller supplies it: a dict, or any other
    object, of which [PySequence_Fast] makes a list or raises. *)
Inductive PyArg : Type :=
  | ArgDict (d : gmap string PyObject)
  | ArgObject (fast : pyresult (list PyObject)).

(** An iterator, by what each [PyIter_Next] will do: yield an object or
    raise.  Exhausted when empty.  The sources considered are those that
    come to an end after finitely many calls and whose code does not call
    the cursor. *)
Definition PyIterator : Type := list (pyresult PyArg).

(** The second argument of [executemany]: [PyObject_GetIter] gives an
    iterator or fails. *)
Definition PyIterable : Type := option PyIterator.

(** What the execution tracer is called with. *)
Inductive TraceBindings : Type :=
  | TB_None
  | TB_Dict (d : gmap string PyObject)
  | TB_Slice (items : list PyObject).

(** The execution tracer's answer: it raised, or returned an object whose
    truth value [PyObject_IsTrue] computes, or fails to compute. *)
Inductive exectrace_result : Type :=
  | ET_raised (e : exn)
  | ET_truth_fails (e : exn)
  | ET_returned (truth : bool).

(** The execution tracer, by its answer to what it is shown.  The tracers
    considered are those that return without calling a method of the
    cursor and without changing the object that holds the bindings: the
    cursor runs them with its in-use flag clear, and what a tracer that
    calls back does to the cursor is not part of this embedding. *)
Definition exec_tracer : Type := string -> TraceBindings -> exectrace_result.

(** What a method returns to Python. *)
Inductive PyRet : Type :=
  | RetNULL                               (* error, or end of iteration *)
  | RetSelf                               (* the cursor *)
  | RetObject (o : PyObject)
  | RetTuple (items : list PyObject).

(** The row tracer, by its answer to the row it is shown; like the
    execution tracer it is taken to leave the cursor and the bindings
    alone. *)
Definition row_tracer : Type := list PyObject -> pyresult PyRet.

Definition is_Py_None (r : PyRet) : bool :=
  match r with RetObject Py_None => true | _ => false end.

(** ** The cursor and its world *)

Inductive cursor_status : Type := C_BEGIN | C_ROW | C_DONE.

Definition status_eqb (a b : cursor_status) : bool :=
  match a, b with
  | C_BEGIN, C_BEGIN | C_ROW, C_ROW | C_DONE, C_DONE => true
  | _, _ => false
  end.

Record APSWCursor : Type := {
  connection_db : bool;              (* self->connection->db is not NULL *)
  inuse : bool;
  statement : option APSWStatement;
  status : cursor_status;
  bindings : option Bindings;
  bindingsoffset : Z;
  emiter : option PyIterator;
  emoriginalquery : option query;
  exectrace : option exec_tracer;
  rowtrace : option row_tracer
}.

(** Calls that leave cursor.c. *)
Inductive event : Type :=
  | EvPrepare (sql : string) (ok : bool)
  | EvNextStatement
  | EvFinalize
  | EvBind (arg : Z) (val : SqlValue)
  | EvStep (sql : string)
  | EvIterNext
  | EvExecTrace (sql : string) (b : TraceBindings)
  | EvRowTrace (row : list PyObject).

Record World : Type := {
  cursor : APSWCursor;
  pyerr : option exn;                (* the Python error indicator *)
  log : list event
}.

Definition set_cursor (c : APSWCursor) (w : World) : World :=
  {| cursor := c; pyerr := pyerr w; log := log w |}.
Definition set_pyerr (e : option exn) (w : World) : World :=
  {| cursor := cursor w; pyerr := e; log := log w |}.
Definition emit (ev : event) (w : World) : World :=
  {| cursor := cursor w; pyerr := pyerr w; log := log w ++ [ev] |}.

Definition set_statement (s : option APSWStatement) (w : World) : World :=
  let c := cursor w in
  set_cursor {| connection_db := connection_db c; inuse := inuse c;
                statement := s; status := status c; bindings := bindings c;
                bindingsoffset := bindingsoffset c; emiter := emiter c;
                emoriginalquery := emoriginalquery c;
                exectrace := exectrace c; rowtrace := rowtrace c |} w.
Definition set_status (s : cursor_status) (w : World) : World :=
  let c := cursor w in
  set_cursor {| connection_db := connection_db c; inuse := inuse c;
                statement := statement c; status := s; bindings := bindings c;
                bindingsoffset := bindingsoffset c; emiter := emiter c;
                emoriginalquery := emoriginalquery c;
                exectrace := exectrace c; rowtrace := rowtrace c |} w.
Definition set_bindings (b : option Bindings) (w : World) : World :=
  let c := cursor w in
  set_cursor {| connection_db := connection_db c; inuse := inuse c;
                statement := statement c; status := status c; bindings := b;
                bindingsoffset := bindingsoffset c; emiter := emiter c;
                emoriginalquery := emoriginalquery c;
                exectrace := exectrace c; rowtrace := rowtrace c |} w.
Definition set_bindingsoffset (o : Z) (w : World) : World :=
  let c := cursor w in
  set_cursor {| connection_db := connection_db c; inuse := inuse c;
                statement := statement c; status := status c;
                bindings := bindings c; bindingsoffset := o;
                emiter := emiter c; emoriginalquery := emoriginalquery c;
                exectrace := exectrace c; rowtrace := rowtrace c |} w.
Definition set_emiter (i : option PyIterator) (w : World) : World :=
  let c := cursor w in
  set_cursor {| connection_db := connection_db c; inuse := inuse c;
                statement := statement c; status := status c;
                bindings := bindings c; bindingsoffset := bindingsoffset c;
                emiter := i; emoriginalquery := emoriginalquery c;
                exectrace := exectrace c; rowtrace := rowtrace c |} w.
Definition set_emoriginalquery (q : option query) (w : World) : World :=
  let c := cursor w in
  set_cursor {| connection_db := connection_db c; inuse := inuse c;
                statement := statement c; status := status c;
                bindings := bindings c; bindingsoffset := bindingsoffset c;
                emiter := emiter c; emoriginalquery := q;
                exectrace := exectrace c; rowtrace := rowtrace c |} w.
Definition set_exectrace (t : option exec_tracer) (w : World) : World :=
  let c := cursor w in
  set_cursor {| connection_db := connection_db c; inuse := inuse c;
                statement := statement c; status := status c;
                bindings := bindings c; bindingsoffset := bindingsoffset c;
                emiter := emiter c; emoriginalquery := emoriginalquery c;
                exectrace := t; rowtrace := rowtrace c |} w.
Definition set_rowtrace (t : option row_tracer) (w : World) : World :=
  let c := cursor w in
  set_cursor {| connection_db := connection_db c; inuse := inuse c;
                statement := statement c; status := status c;
                bindings := bindings c; bindingsoffset := bindingsoffset c;
                emiter := emiter c; emoriginalquery := emoriginalquery c;
                exectrace := exectrace c; rowtrace := t |} w.

(** What a C function of the cursor does to the world. *)
Inductive outcome (A : Type) : Type :=
  | Done (a : A) (w : World)
  | Fault                 (* a NULL dereference or a read out of bounds *)
  | OutOfFuel.
Arguments Done {A} a w.
Arguments Fault {A}.
Arguments OutOfFuel {A}.

Definition bindM {A B : Type} (m : outcome A) (k : A -> World -> outcome B)
  : outcome B :=
  match m with
  | Done a w => k a w
  | Fault => Fault
  | OutOfFuel => OutOfFuel
  end.

Notation "'call' x , w <- m 'in' k" := (bindM m (fun x w => k))
  (at level 10, x name, w name, m at level 100, k at level 200,
   format "'[v' 'call'  x ,  w  <-  m  'in' '/' k ']'").

(** ** The Python error indicator *)

Definition PyErr_Occurred (w : World) : bool :=
  match pyerr w with Some _ => true | None => false end.

Definition PyErr_Format (e : exn) (w : World) : World := set_pyerr (Some e) w.

(** Modelled from the spec: the macro [SET_EXC] is defined outside cursor.c.
    An engine failure is "translated into a typed error carrying the
    engine's code"; an exception that is already pending is kept. *)
Definition SET_EXC (res : Z) (w : World) : World :=
  if negb (res =? SQLITE_OK) && negb (PyErr_Occurred w)
  then PyErr_Format (SQLiteError res) w else w.

(** ** The Value Binder: [APSWCursor_dobinding] *)

(** [PYSQLITE_CUR_CALL(res=sqlite3_bind_*(self->statement->vdbestatement,
    arg, ...))]. *)
Definition bind_call (arg : Z) (val : SqlValue) (w : World) : outcome Z :=
  match statement (cursor w) with
  | None => Fault
  | Some st =>
      let r := sqlite3_bind (vdbestatement st) arg val in
      Done (fst r)
           (emit (EvBind arg val)
              (set_statement
                 (Some {| vdbestatement := snd r; utf8 := utf8 st;
                          next := next st |}) w))
  end.

(** The tail of the function, after the type dispatch. *)
Definition dobinding_finish (res : Z) (w : World) : outcome Z :=
  if negb (res =? SQLITE_OK) then Done (-1) (SET_EXC res w)
  else if PyErr_Occurred w then Done (-1) w
  else Done 0 w.

(** [PyLong_AsLongLong]: the value, or -1 with OverflowError. *)
Definition PyLong_AsLongLong (v : Z) (w : World) : Z * World :=
  if (LLONG_MIN <=? v) && (v <=? LLONG_MAX) then (v, w)
  else (-1, PyErr_Format PyExc_OverflowError w).

Definition high_bit (c : ascii) : bool :=
  match c with Ascii _ _ _ _ _ _ _ b7 => b7 end.

(** Where the scan for a byte with bit 0x80 set stops, as [chk - val]; the
    scan is skipped for strings of 10000 bytes or more. *)
Fixpoint scan_high (bytes : list ascii) : Z :=
  match bytes with
  | [] => 0
  | c :: rest => if high_bit c then 0 else 1 + scan_high rest
  end.

Definition string_chk (val : string) : Z :=
  if Z.of_nat (String.length val) <? 10000
  then scan_high (String.list_ascii_of_string val) else 0.

(** Text through [UNIDATABEGIN .. UNIDATAEND].  [toobig_res] is the value
    [res] takes with the oversize error: the unicode branch leaves it at
    [SQLITE_OK], the Python 2 string branch sets [SQLITE_TOOBIG]. *)
Definition bind_unidata (arg : Z) (u : unicode) (toobig_res : Z) (w : World)
  : outcome Z :=
  match uni_strbytes u with
  | ConversionFails name => Done (-1) (PyErr_Format (PyException name) w)
  | Converted strbytes =>
      if strbytes >? APSW_INT32_MAX
      then dobinding_finish toobig_res (SET_EXC SQLITE_TOOBIG w)
      else call res, w1 <- bind_call arg (SqlText (uni_chars u) strbytes) w in
           dobinding_finish res w1
  end.

Definition APSWCursor_dobinding (arg : Z) (obj : PyObject) (w : World)
  : outcome Z :=
  match obj with
  | Py_None =>
      call res, w1 <- bind_call arg SqlNull w in dobinding_finish res w1
  | PyInt v =>
      call res, w1 <- bind_call arg (SqlInteger v) w in dobinding_finish res w1
  | PyLong n =>
      let r := PyLong_AsLongLong n w in
      call res, w1 <- bind_call arg (SqlInteger (fst r)) (snd r) in
      dobinding_finish res w1
  | PyFloat v =>
      call res, w1 <- bind_call arg (SqlFloat v) w in dobinding_finish res w1
  | PyUnicode u => bind_unidata arg u SQLITE_OK w
  | PyString s =>
      let lenval := Z.of_nat (String.length (str_val s)) in
      if string_chk (str_val s) <? lenval then
        match str_unicode s with
        | ConversionFails name => Done (-1) (PyErr_Format (PyException name) w)
        | Converted str2 => bind_unidata arg str2 SQLITE_TOOBIG w
        end
      else
        call res, w1 <- bind_call arg (SqlText (str_val s) lenval) w in
        dobinding_finish res w1
  | PyReadBuffer b =>
      match buf_buflen b with
      | ConversionFails name => Done (-1) (PyErr_Format (PyException name) w)
      | Converted buflen =>
          if buflen >? APSW_INT32_MAX
          then Done (-1) (SET_EXC SQLITE_TOOBIG w)
          else call res, w1 <- bind_call arg (SqlBlob (buf_data b) buflen) w in
               dobinding_finish res w1
      end
  | ZeroBlobBind blobsize =>
      call res, w1 <- bind_call arg (SqlZeroBlob blobsize) w in
      dobinding_finish res w1
  | PyOtherObject tp_name =>
      Done (-1)
           (PyErr_Format
              (BadBindingType (to_int (arg + bindingsoffset (cursor w))) tp_name)
              w)
  end.

(** ** The Parameter Resolver: [APSWCursor_dobindings] *)

(** [key++]: the name without its first character. *)
Definition strip_marker (key : string) : string :=
  match key with
  | EmptyString => EmptyString
  | String _ rest => rest
  end.

(** [PySequence_Fast_GET_ITEM]: no bounds check in C. *)
Definition PySequence_Fast_GET_ITEM (b : option Bindings) (i : Z)
  : option PyObject :=
  match b with
  | Some (BSeq items) => if i <? 0 then None else items !! Z.to_nat i
  | _ => None
  end.

(** The dictionary loop [for(arg=1;arg<=nargs;arg++)], from the current
    [arg], with [todo] = [nargs - arg + 1] rounds to go. *)
Fixpoint dobindings_dict (d : gmap string PyObject) (arg : Z) (todo : nat)
  (w : World) : outcome Z :=
  match todo with
  | O => Done 0 w
  | S rest =>
      match statement (cursor w) with
      | None => Fault
      | Some st =>
          match sqlite3_bind_parameter_name (vdbestatement st) arg with
          | None => Done (-1) (PyErr_Format (ExcBindings_no_name (arg - 1)) w)
          | Some key =>
              match d !! strip_marker key with
              | None => dobindings_dict d (arg + 1) rest w     (* continue *)
              | Some obj =>
                  call r, w1 <- APSWCursor_dobinding arg obj w in
                  if r =? SQLITE_OK then dobindings_dict d (arg + 1) rest w1
                  else Done (-1) w1
              end
          end
      end
  end.

(** The sequence loop, likewise. *)
Fixpoint dobindings_seq (arg : Z) (todo : nat) (w : World) : outcome Z :=
  match todo with
  | O => Done 0 w
  | S rest =>
      match PySequence_Fast_GET_ITEM (bindings (cursor w))
              (arg - 1 + bindingsoffset (cursor w)) with
      | None => Fault
      | Some obj =>
          call r, w1 <- APSWCursor_dobinding arg obj w in
          if r =? 0 then dobindings_seq (arg + 1) rest w1 else Done (-1) w1
      end
  end.

Definition has_next (st : APSWStatement) : bool :=
  match next st with Some _ => true | None => false end.

Definition APSWCursor_dobindings (w : World) : outcome Z :=
  match statement (cursor w) with
  | None => Fault
  | Some st =>
      let nargs := sqlite3_bind_parameter_count (vdbestatement st) in
      let supplied :=
        match bindings (cursor w) with Some _ => true | None => false end in
      if (nargs =? 0) && negb supplied then Done 0 w
      else if (nargs >? 0) && negb supplied
      then Done (-1) (PyErr_Format (ExcBindings_none_supplied nargs) w)
      else
        match bindings (cursor w) with
        | Some (BDict d) => dobindings_dict d 1 (Z.to_nat nargs) w
        | other =>
            let sz :=
              match other with
              | Some (BSeq items) => to_int (Z.of_nat (length items))
              | _ => 0
              end in
            let offset := bindingsoffset (cursor w) in
            if has_next st && (sz - offset <? nargs)
            then Done (-1)
                   (PyErr_Format (ExcBindings_only_left nargs sz (to_int offset)) w)
            else if negb (has_next st) && negb (sz - offset =? nargs)
            then Done (-1)
                   (PyErr_Format (ExcBindings_supplied nargs sz (to_int offset)) w)
            else
              call r, w1 <- dobindings_seq 1 (Z.to_nat nargs) w in
              if r =? 0
              then Done 0 (set_bindingsoffset
                             (bindingsoffset (cursor w1) + nargs) w1)
              else Done r w1
        end
  end.

(** ** Calls to the statement cache and to iterators *)

(** [INUSE_CALL(statementcache_finalize(...))]. *)
Definition finalize_call (st : APSWStatement) (w : World) : Z * World :=
  (statementcache_finalize st, emit EvFinalize w).

(** [INUSE_CALL(self->statement=statementcache_prepare(...))]; a failing
    prepare leaves its exception behind. *)
Definition prepare_call (q : query) (w : World) : World :=
  let sql := match q with [] => ""%string | s :: _ => stmt_sql s end in
  match statementcache_prepare q with
  | inl code =>
      set_statement None (SET_EXC code (emit (EvPrepare sql false) w))
  | inr st => set_statement (Some st) (emit (EvPrepare sql true) w)
  end.

(** Modelled from the spec: [advance(cache, handle) -> Handle | error]
    "finalizes current, compiles the next statement in the same original
    text".  [self->statement] is NULL when it fails. *)
Definition statementcache_next (st : APSWStatement) (w : World) : outcome Z :=
  match next st with
  | None => Fault
  | Some q =>
      let r := finalize_call st (emit EvNextStatement w) in
      if negb (fst r =? SQLITE_OK) then Done (fst r) (set_statement None (snd r))
      else
        let w1 := prepare_call q (snd r) in
        Done (match statement (cursor w1) with
              | Some _ => SQLITE_OK
              | None => SQLITE_ERROR
              end) w1
  end.

(** The exception by which an iterator written in Python reports its end. *)
Definition PyExc_StopIteration : exn := PyException "StopIteration".

Definition is_StopIteration (e : exn) : bool :=
  match e with
  | PyException name => String.eqb name "StopIteration"
  | _ => false
  end.

(** The end of [PyIter_Next] when the iterator gave nothing:
    [if (PyErr_Occurred() && PyErr_ExceptionMatches(PyExc_StopIteration))
       PyErr_Clear();]. *)
Definition clear_StopIteration (w : World) : World :=
  match pyerr w with
  | Some e => if is_StopIteration e then set_pyerr None w else w
  | None => w
  end.

Arguments clear_StopIteration : simpl never.

(** [PyIter_Next]: the object yielded, or NULL at the end or on an error.
    An iterator of the interpreter ends without raising and leaves the
    error indicator alone; one written in Python ends by raising
    StopIteration, which replaces what was pending and is then cleared. *)
Definition PyIter_Next (it : PyIterator) (w : World)
  : option PyArg * PyIterator * World :=
  match it with
  | [] => (None, [], clear_StopIteration (emit EvIterNext w))
  | Returned a :: rest => (Some a, rest, emit EvIterNext w)
  | Raised e :: rest =>
      (None, rest, clear_StopIteration (PyErr_Format e (emit EvIterNext w)))
  end.

(** ** [resetcursor] *)

(** [if(self->statement) { finalize; if(!force) SET_EXC; statement=0 }]. *)
Definition reset_finalize (forced : bool) (w : World) : Z * World :=
  match statement (cursor w) with
  | Some st =>
      let r := finalize_call st w in
      (fst r,
       set_statement None (if forced then snd r else SET_EXC (fst r) (snd r)))
  | None => (SQLITE_OK, w)
  end.

(** [if(!force && self->status!=C_DONE && nextquery) ...]: statements of
    the batch were left unexecuted. *)
Definition reset_remaining_statements (forced : bool) (nextquery : option query)
  (res : Z) (w : World) : Z * World :=
  if negb forced && negb (status_eqb (status (cursor w)) C_DONE)
     && match nextquery with Some _ => true | None => false end
  then
    if res =? SQLITE_OK
    then (SQLITE_ERROR,
          if PyErr_Occurred w then w else PyErr_Format (ExcIncomplete false) w)
    else (res, w)
  else (res, w).

(** [if(!force && self->status!=C_DONE && self->emiter) ...]: the
    executemany iterator still yields. *)
Definition reset_remaining_iterator (forced : bool) (res : Z) (w : World)
  : Z * World :=
  match emiter (cursor w) with
  | Some it =>
      if negb forced && negb (status_eqb (status (cursor w)) C_DONE) then
        match PyIter_Next it w with
        | (Some _, _, w1) =>
            (SQLITE_ERROR,
             if PyErr_Occurred w1 then w1
             else PyErr_Format (ExcIncomplete true) w1)
        | (None, _, w1) => (res, w1)
        end
      else (res, w)
  | None => (res, w)
  end.

Definition resetcursor (force : Z) (w : World) : Z * World :=
  let forced := negb (force =? 0) in
  let nextquery :=
    match statement (cursor w) with Some st => next st | None => None end in
  (* PyErr_Fetch *)
  let saved := if forced then pyerr w else None in
  let w := if forced then set_pyerr None w else w in
  let w := set_bindingsoffset (-1) (set_bindings None w) in
  let r := reset_finalize forced w in
  let r := reset_remaining_statements forced nextquery (fst r) (snd r) in
  let r := reset_remaining_iterator forced (fst r) (snd r) in
  let w := set_emoriginalquery None (set_emiter None (snd r)) in
  let w := set_status C_DONE w in
  (* PyErr_Restore *)
  let w := match saved with Some e => set_pyerr (Some e) w | None => w end in
  (fst r, w).

(** ** Trace hooks *)

(** [PySequence_GetSlice] on a list or tuple: both ends are clamped. *)
Definition PySequence_GetSlice (items : list PyObject) (i1 i2 : Z)
  : list PyObject :=
  let len := Z.of_nat (length items) in
  let lo := Z.min (Z.max i1 0) len in
  let hi := Z.min (Z.max i2 lo) len in
  take (Z.to_nat (hi - lo)) (drop (Z.to_nat lo) items).

(** "now deal with the bindings": the dict itself, the slice of the
    sequence this statement used, or None. *)
Definition exectrace_bindings (savedbindingsoffset : Z) (w : World)
  : TraceBindings :=
  match bindings (cursor w) with
  | Some (BDict d) => TB_Dict d
  | Some (BSeq items) =>
      TB_Slice (PySequence_GetSlice items savedbindingsoffset
                  (bindingsoffset (cursor w)))
  | None => TB_None
  end.

Definition APSWCursor_doexectrace (savedbindingsoffset : Z) (w : World)
  : outcome Z :=
  match exectrace (cursor w), statement (cursor w) with
  | Some tracer, Some st =>
      let sqlcmd := statement_sql st in
      let b := exectrace_bindings savedbindingsoffset w in
      let w1 := emit (EvExecTrace sqlcmd b) w in
      match tracer sqlcmd b with
      | ET_raised e => Done (-1) (PyErr_Format e w1)
      | ET_truth_fails e => Done (-1) (PyErr_Format e w1)
      | ET_returned true => Done 0 w1
      | ET_returned false => Done (-1) (PyErr_Format ExcTraceAbort w1)
      end
  | _, _ => Fault
  end.

Definition APSWCursor_dorowtrace (row : list PyObject) (w : World)
  : outcome PyRet :=
  match rowtrace (cursor w) with
  | None => Fault
  | Some tracer =>
      let w1 := emit (EvRowTrace row) w in
      match tracer row with
      | Raised e => Done RetNULL (PyErr_Format e w1)
      | Returned r2 => Done r2 w1
      end
  end.

(** ** The pipeline: [APSWCursor_step] *)

(** Storing a dict as it is, or what [PySequence_Fast] makes of the object:
    [self->bindings], and NULL with an exception when that fails. *)
Definition bindings_of_arg (a : PyArg) (w : World) : World :=
  match a with
  | ArgDict d => set_bindings (Some (BDict d)) w
  | ArgObject (Returned items) => set_bindings (Some (BSeq items)) w
  | ArgObject (Raised e) => PyErr_Format e (set_bindings None w)
  end.

(** [PYSQLITE_CUR_CALL(res=(vdbestatement)?(sqlite3_step(...)):(SQLITE_DONE))]. *)
Definition step_call (st : APSWStatement) (w : World) : Z * World :=
  match vdbestatement st with
  | None => (SQLITE_DONE, w)
  | Some vd =>
      let r := sqlite3_step vd in
      let w1 :=
        set_statement
          (Some {| vdbestatement := Some (snd r); utf8 := utf8 st;
                   next := next st |})
          (emit (EvStep (statement_sql st)) w) in
      (so_rc (fst r),
       match so_raised (fst r) with
       | Some e => if PyErr_Occurred w1 then w1 else PyErr_Format e w1
       | None => w1
       end)
  end.

(** From the new statement to the end of the loop body: bind, trace, and
    set the state to [C_BEGIN].  [inl] is a [return NULL]. *)
Definition step_bind_and_trace (w : World) : outcome (unit + unit) :=
  let savedbindingsoffset :=
    match exectrace (cursor w) with
    | Some _ => to_int (bindingsoffset (cursor w))
    | None => 0
    end in
  call r, w1 <- APSWCursor_dobindings w in
  if negb (r =? 0) then Done (inl ()) w1
  else
    match exectrace (cursor w1) with
    | Some _ =>
        call t, w2 <- APSWCursor_doexectrace savedbindingsoffset w1 in
        if negb (t =? 0) then Done (inl ()) w2
        else Done (inr ()) (set_status C_BEGIN w2)
    | None => Done (inr ()) (set_status C_BEGIN w1)
    end.

(** The loop body from "finalise and go again": the original text again in
    executemany mode, otherwise the next statement.  [inl r] is a
    [return r], [inr ()] goes round the loop again. *)
Definition step_next_statement (w : World) : outcome (PyRet + unit) :=
  call res, w1 <-
    match statement (cursor w) with
    | None =>
        match emoriginalquery (cursor w) with
        | None => Fault
        | Some q =>
            let w1 := prepare_call q w in
            Done (match statement (cursor w1) with
                  | Some _ => SQLITE_OK
                  | None => SQLITE_ERROR
                  end) w1
        end
    | Some st1 =>
        call res, w1 <- statementcache_next st1 w in
        Done res (SET_EXC res w1)
    end in
  if negb (res =? SQLITE_OK) then Done (inl RetNULL) w1
  else
    call r, w2 <- step_bind_and_trace w1 in
    match r with
    | inl _ => Done (inl RetNULL) w2
    | inr _ => Done (inr ()) w2
    end.

(** The loop body after a step that returned [SQLITE_DONE]. *)
Definition step_advance (w : World) : outcome (PyRet + unit) :=
  let w := set_status C_DONE w in
  match statement (cursor w) with
  | None => Fault
  | Some st =>
      if has_next st then step_next_statement w
      else
        match emiter (cursor w) with
        | None =>
            (* no more so we finalize *)
            let r := resetcursor 0 w in
            Done (inl (if fst r =? SQLITE_OK then RetSelf else RetNULL)) (snd r)
        | Some it =>
            (* we are in executemany mode *)
            let '(nxt, it1, w1) := PyIter_Next it w in
            let w1 := set_emiter (Some it1) w1 in
            if PyErr_Occurred w1 then Done (inl RetNULL) w1
            else
              match nxt with
              | None =>
                  let r := resetcursor 0 w1 in
                  Done (inl (if fst r =? SQLITE_OK then RetSelf else RetNULL))
                       (snd r)
              | Some a =>
                  let w2 := snd (finalize_call st w1) in
                  let w2 := set_statement None w2 in
                  let w2 := set_bindingsoffset 0 (set_bindings None w2) in
                  let w2 := bindings_of_arg a w2 in
                  match bindings (cursor w2) with
                  | None => Done (inl RetNULL) w2
                  | Some _ => step_next_statement w2
                  end
              end
        end
  end.

Fixpoint APSWCursor_step_loop (fuel : nat) (w : World) : outcome PyRet :=
  match fuel with
  | O => OutOfFuel
  | S fuel' =>
      match statement (cursor w) with
      | None => Fault
      | Some st =>
          let r := step_call st w in
          let res := fst r in
          let w1 := snd r in
          let low := Z.land res 255 in
          if low =? SQLITE_ROW then
            let w2 := set_status C_ROW w1 in
            Done (if PyErr_Occurred w2 then RetNULL else RetSelf) w2
          else if (low =? SQLITE_DONE) && PyErr_Occurred w1 then
            Done RetNULL (set_status C_DONE w1)
          else if low =? SQLITE_DONE then
            call r, w2 <- step_advance w1 in
            match r with
            | inl ret => Done ret w2
            | inr _ => APSWCursor_step_loop fuel' w2
            end
          else
            (* there was an error *)
            let w2 := set_status C_DONE w1 in
            if PyErr_Occurred w2 then Done RetNULL (snd (resetcursor 1 w2))
            else Done RetNULL (snd (resetcursor 0 w2))
      end
  end.

(** A bound on the rounds of the loop.  A round that does not return either
    moves to the next statement of the text or takes one more element from
    the [executemany] iterator and starts the original text again. *)
Definition statements_left (st : option APSWStatement) : nat :=
  match st with
  | Some {| next := Some q |} => S (length q)
  | _ => O
  end.

Definition step_measure (w : World) : nat :=
  let c := cursor w in
  statements_left (statement c)
  + match emiter c with
    | Some it =>
        length it
        * S (S (match emoriginalquery c with Some q => length q | None => O end))
    | None => O
    end.

Definition step_fuel (w : World) : nat := S (step_measure w).

Definition APSWCursor_step (w : World) : outcome PyRet :=
  APSWCursor_step_loop (step_fuel w) w.

(** ** The public methods *)

(** Modelled from the spec: the macros [CHECK_USE] and [CHECK_CLOSED] are
    defined outside cursor.c.  "Every public operation first checks an
    in-use flag; if already set, fail immediately with a threading-violation
    error"; a cursor of a closed connection fails with its own error.
    [Some w'] is the early [return e]. *)
Definition CHECK_USE (w : World) : option World :=
  if inuse (cursor w)
  then Some (if PyErr_Occurred w then w else PyErr_Format ExcThreadingViolation w)
  else None.

Definition CHECK_CLOSED (w : World) : option World :=
  if connection_db (cursor w) then None
  else Some (PyErr_Format ExcConnectionClosed w).

(** The argument tuple of [execute]: empty, or the statements followed by
    further arguments. *)
Inductive execute_args : Type :=
  | NoArgs
  | Args (statements : query) (more : list PyArg).

(** What [execute] and [executemany] share once the statement is prepared. *)
Definition execute_bind_trace_step (w : World) : outcome PyRet :=
  let w := set_bindingsoffset 0 w in
  let savedbindingsoffset :=
    match exectrace (cursor w) with Some _ => 0 | None => -1 end in
  call r, w1 <- APSWCursor_dobindings w in
  if negb (r =? 0) then Done RetNULL w1
  else
    call t, w2 <-
      match exectrace (cursor w1) with
      | Some _ => APSWCursor_doexectrace savedbindingsoffset w1
      | None => Done 0 w1
      end in
    if negb (t =? 0) then Done RetNULL w2
    else APSWCursor_step (set_status C_BEGIN w2).

Definition APSWCursor_execute (args : execute_args) (w : World)
  : outcome PyRet :=
  match CHECK_USE w with Some w' => Done RetNULL w' | None =>
  match CHECK_CLOSED w with Some w' => Done RetNULL w' | None =>
    let r := resetcursor 0 w in
    if negb (fst r =? SQLITE_OK) then Done RetNULL (snd r)
    else
      let w := snd r in
      match args with
      | NoArgs | Args _ (_ :: _ :: _) =>
          Done RetNULL
               (PyErr_Format
                  (PyExc_TypeError
                     "Incorrect number of arguments.  execute(statements [,bindings])")
                  w)
      | Args query more =>
          let w :=
            match more with
            | a :: _ => bindings_of_arg a w
            | [] => w
            end in
          match more, bindings (cursor w) with
          | _ :: _, None => Done RetNULL w
          | _, _ =>
              let w := prepare_call query w in
              match statement (cursor w) with
              | None => Done RetNULL w
              | Some _ => execute_bind_trace_step w
              end
          end
      end
  end end.

(** The argument tuple of [executemany], as ["OO"] parses it: [None] when
    it does not hold exactly two objects. *)
Definition executemany_args : Type := option (query * PyIterable).

Definition APSWCursor_executemany (args : executemany_args) (w : World)
  : outcome PyRet :=
  match CHECK_USE w with Some w' => Done RetNULL w' | None =>
  match CHECK_CLOSED w with Some w' => Done RetNULL w' | None =>
    let r := resetcursor 0 w in
    if negb (fst r =? SQLITE_OK) then Done RetNULL (snd r)
    else
      let w := snd r in
      match args with
      | None =>
          Done RetNULL
               (PyErr_Format
                  (PyExc_TypeError "executemany(statements, sequenceofbindings)") w)
      | Some (query, theiterable) =>
          match theiterable with
          | None =>
              Done RetNULL
                   (PyErr_Format (PyExc_TypeError "2nd parameter must be iterable") w)
          | Some it =>
              let '(nxt, it1, w) := PyIter_Next it (set_emiter (Some it) w) in
              let w := set_emiter (Some it1) w in
              match nxt with
              | None =>
                  if PyErr_Occurred w then Done RetNULL w
                  else Done RetSelf w            (* empty list *)
              | Some a =>
                  let w := bindings_of_arg a w in
                  match bindings (cursor w) with
                  | None => Done RetNULL w
                  | Some _ =>
                      let w := prepare_call query w in
                      match statement (cursor w) with
                      | None => Done RetNULL w
                      | Some st =>
                          let w := set_emoriginalquery (Some (utf8 st)) w in
                          execute_bind_trace_step w
                      end
                  end
              end
          end
      end
  end end.

(** The argument tuple of [close], as ["|i"] parses it: a parse failure, or
    the value of [force], 0 when omitted. *)
Inductive close_args : Type :=
  | CloseBadArgs
  | CloseArgs (force : option Z).

Definition APSWCursor_close (args : close_args) (w : World) : outcome PyRet :=
  match CHECK_USE w with Some w' => Done RetNULL w' | None =>
    if negb (connection_db (cursor w))
    then Done (RetObject Py_None) w
      (* if connection is closed, then we must also be closed *)
    else
      match args with
      | CloseBadArgs =>
          Done RetNULL (PyErr_Format (PyExc_TypeError "close(force=False)") w)
      | CloseArgs force =>
          let r := resetcursor (default 0 force) w in
          if negb (fst r =? SQLITE_OK) then Done RetNULL (snd r)
          else Done (RetObject Py_None) (snd r)
      end
  end.

(** Modelled from the spec: [convert_column_to_pyobject] is defined outside
    cursor.c; the row is "an ordered sequence of column values". *)
Definition convert_column_to_pyobject (v : SqlValue) : PyObject :=
  match v with
  | SqlNull => Py_None
  | SqlInteger n => PyLong n
  | SqlFloat bits => PyFloat bits
  | SqlText data n =>
      PyUnicode {| uni_chars := data; uni_strbytes := Converted n |}
  | SqlBlob data n =>
      PyReadBuffer {| buf_data := data; buf_buflen := Converted n |}
  | SqlZeroBlob n =>
      PyReadBuffer {| buf_data := ""; buf_buflen := Converted n |}
  end.

(** The columns of the current row ([sqlite3_data_count] of them). *)
Definition current_row (st : APSWStatement) : list PyObject :=
  match vdbestatement st with
  | None => []
  | Some vd => convert_column_to_pyobject <$> v_row vd
  end.

(** [next], from [self->status=C_BEGIN] on: the row is built and passed
    through the row tracer.  [inl r] is a [return r], [inr ()] is
    [goto again]. *)
Definition next_row (w : World) : outcome (PyRet + unit) :=
  let w := set_status C_BEGIN w in
  match statement (cursor w) with
  | None => Fault
  | Some st =>
      let retval := current_row st in
      match rowtrace (cursor w) with
      | Some _ =>
          call r2, w1 <- APSWCursor_dorowtrace retval w in
          match r2 with
          | RetNULL => Done (inl RetNULL) w1
          | _ => if is_Py_None r2 then Done (inr ()) w1 else Done (inl r2) w1
          end
      | None => Done (inl (RetTuple retval)) w
      end
  end.

(** [next] from the label [again:]; each round uses one unit of fuel. *)
Fixpoint APSWCursor_next_again (fuel : nat) (w : World) : outcome PyRet :=
  match fuel with
  | O => OutOfFuel
  | S fuel' =>
      call stepped, w <-
        (if status_eqb (status (cursor w)) C_BEGIN
         then APSWCursor_step w
         else Done RetSelf w) in
      match stepped with
      | RetNULL => Done RetNULL w
      | _ =>
          if status_eqb (status (cursor w)) C_DONE then Done RetNULL w
          else
            call r, w <- next_row w in
            match r with
            | inl ret => Done ret w
            | inr _ => APSWCursor_next_again fuel' w
            end
      end
  end.

Definition APSWCursor_next (fuel : nat) (w : World) : outcome PyRet :=
  match CHECK_USE w with Some w' => Done RetNULL w' | None =>
  match CHECK_CLOSED w with Some w' => Done RetNULL w' | None =>
    APSWCursor_next_again fuel w
  end end.

(** [setexectrace] and [setrowtrace]: [None] is Python's None, which removes
    the tracer; [Some (inl _)] is an object that is not callable. *)
Definition APSWCursor_setexectrace (func : option (string + exec_tracer))
  (w : World) : outcome PyRet :=
  match CHECK_USE w with Some w' => Done RetNULL w' | None =>
  match CHECK_CLOSED w with Some w' => Done RetNULL w' | None =>
    match func with
    | Some (inl _) =>
        Done RetNULL (PyErr_Format (PyExc_TypeError "parameter must be callable") w)
    | Some (inr f) => Done (RetObject Py_None) (set_exectrace (Some f) w)
    | None => Done (RetObject Py_None) (set_exectrace None w)
    end
  end end.

Definition APSWCursor_setrowtrace (func : option (string + row_tracer))
  (w : World) : outcome PyRet :=
  match CHECK_USE w with Some w' => Done RetNULL w' | None =>
  match CHECK_CLOSED w with Some w' => Done RetNULL w' | None =>
    match func with
    | Some (inl _) =>
        Done RetNULL (PyErr_Format (PyExc_TypeError "parameter must be callable") w)
    | Some (inr f) => Done (RetObject Py_None) (set_rowtrace (Some f) w)
    | None => Done (RetObject Py_None) (set_rowtrace None w)
    end
  end end.

(** [APSWCursor_init]. *)
Definition APSWCursor_init : World :=
  {| cursor := {| connection_db := true; inuse := false; statement := None;
                  status := C_DONE; bindings := None; bindingsoffset := 0;
                  emiter := None; emoriginalquery := None;
                  exectrace := None; rowtrace := None |};
     pyerr := None; log := [] |}.

(** ** The remaining methods *)

(** [APSWCursor_dealloc].  An exception that is pending is put aside, the
    cursor is reset with force, and the exception is put back; then the
    iterator and the tracers are dropped.  Reference counts and the
    connection's list of dependents are not part of the world. *)
Definition APSWCursor_dealloc (w : World) : World :=
  let have_error := PyErr_Occurred w in
  let saved := pyerr w in
  let w := if have_error then set_pyerr None w else w in
  let w := snd (resetcursor 1 w) in
  let w := if have_error then set_pyerr saved w else w in
  set_rowtrace None (set_exectrace None (set_emiter None w)).

(** [APSWCursor_iter]: the cursor is its own iterator. *)
Definition APSWCursor_iter (w : World) : outcome PyRet :=
  match CHECK_USE w with Some w' => Done RetNULL w' | None =>
  match CHECK_CLOSED w with Some w' => Done RetNULL w' | None =>
    Done RetSelf w
  end end.

(** What a getter returns: NULL, Python's None, or the object kept. *)
Inductive kept (A : Type) : Type :=
  | KeptNULL
  | KeptNone
  | KeptObject (a : A).
Arguments KeptNULL {A}.
Arguments KeptNone {A}.
Arguments KeptObject {A} a.

(** [getexectrace] and [getrowtrace]. *)
Definition APSWCursor_getexectrace (w : World) : outcome (kept exec_tracer) :=
  match CHECK_USE w with Some w' => Done KeptNULL w' | None =>
  match CHECK_CLOSED w with Some w' => Done KeptNULL w' | None =>
    Done (match exectrace (cursor w) with
          | Some f => KeptObject f
          | None => KeptNone
          end) w
  end end.

Definition APSWCursor_getrowtrace (w : World) : outcome (kept row_tracer) :=
  match CHECK_USE w with Some w' => Done KeptNULL w' | None =>
  match CHECK_CLOSED w with Some w' => Done KeptNULL w' | None =>
    Done (match rowtrace (cursor w) with
          | Some f => KeptObject f
          | None => KeptNone
          end) w
  end end.

(** [getconnection]: the connection object, of which the world keeps no
    more than whether its database is open. *)
Definition APSWCursor_getconnection (w : World) : outcome PyRet :=
  match CHECK_USE w with Some w' => Done RetNULL w' | None =>
  match CHECK_CLOSED w with Some w' => Done RetNULL w' | None =>
    Done (RetObject (PyOtherObject "Connection")) w
  end end.

(** [getdescription].  The engine's column metadata and its conversion to
    Python objects ([sqlite3_column_count], and [Py_BuildValue] with
    [convertutf8string] on [sqlite3_column_name] and
    [sqlite3_column_decltype]) are outside cursor.c: they are parameters.
    [column_pair v i] is the pair (name, declared type) of column [i], or
    the failure to build it. *)
Section Description.
Variable sqlite3_column_count : option vdbe -> Z.
Variable column_pair : option vdbe -> Z -> conversion (PyObject * PyObject).

(** The loop [for(i=0;i<ncols;i++)] from [i], with [todo] rounds to go. *)
Fixpoint description_loop (v : option vdbe) (i : Z) (todo : nat)
  : conversion (list (PyObject * PyObject)) :=
  match todo with
  | O => Converted []
  | S rest =>
      match column_pair v i with
      | ConversionFails name => ConversionFails name
      | Converted col =>
          match description_loop v (i + 1) rest with
          | ConversionFails name => ConversionFails name
          | Converted cols => Converted (col :: cols)
          end
      end
  end.

(** [None] is the NULL that goes with an exception. *)
Definition APSWCursor_getdescription (w : World)
  : outcome (option (list (PyObject * PyObject))) :=
  match CHECK_USE w with Some w' => Done None w' | None =>
  match CHECK_CLOSED w with Some w' => Done None w' | None =>
    match statement (cursor w) with
    | None => Done None (PyErr_Format ExcComplete w)
    | Some st =>
        let ncols := sqlite3_column_count (vdbestatement st) in
        match description_loop (vdbestatement st) 0 (Z.to_nat ncols) with
        | Converted pairs => Done (Some pairs) w
        | ConversionFails name => Done None (PyErr_Format (PyException name) w)
        end
    end
  end end.

End Description.

(** * Notions used by the properties *)

(** ** What a binding leaves unchanged *)

(** Two handles for the same compiled statement, differing at most in the
    values of its parameters. *)
Definition vdbe_rebound (v v' : option vdbe) : Prop :=
  match v, v' with
  | None, None => True
  | Some a, Some b =>
      v_params b = v_params a /\ v_prog b = v_prog a /\ v_pc b = v_pc a /\
      v_rc b = v_rc a /\ v_row b = v_row a /\
      length (v_bound b) = length (v_bound a)
  | _, _ => False
  end.

Definition stmt_rebound (st st' : APSWStatement) : Prop :=
  utf8 st' = utf8 st /\ next st' = next st /\
  vdbe_rebound (vdbestatement st) (vdbestatement st').

(** [w'] is [w] after some bind calls: only parameter values, the error
    indicator and the log may differ. *)
Definition rebound (w w' : World) : Prop :=
  exists st st',
    statement (cursor w) = Some st /\ stmt_rebound st st' /\
    cursor w' = cursor (set_statement (Some st') w).

(** The value the binder hands to the engine for an object it accepts. *)
Definition text_value (u : unicode) : option SqlValue :=
  match uni_strbytes u with
  | Converted n =>
      if n >? APSW_INT32_MAX then None else Some (SqlText (uni_chars u) n)
  | ConversionFails _ => None
  end.

Definition engine_value (obj : PyObject) : option SqlValue :=
  match obj with
  | Py_None => Some SqlNull
  | PyInt v => Some (SqlInteger v)
  | PyLong v =>
      if (LLONG_MIN <=? v) && (v <=? LLONG_MAX) then Some (SqlInteger v) else None
  | PyFloat bits => Some (SqlFloat bits)
  | PyUnicode u => text_value u
  | PyString s =>
      if string_chk (str_val s) <? Z.of_nat (String.length (str_val s))
      then match str_unicode s with
           | Converted u => text_value u
           | ConversionFails _ => None
           end
      else Some (SqlText (str_val s) (Z.of_nat (String.length (str_val s))))
  | PyReadBuffer b =>
      match buf_buflen b with
      | Converted n =>
          if n >? APSW_INT32_MAX then None else Some (SqlBlob (buf_data b) n)
      | ConversionFails _ => None
      end
  | ZeroBlobBind n => Some (SqlZeroBlob n)
  | PyOtherObject _ => None
  end.

(** The two ways [APSWCursor_dobinding] ends: 0 after exactly one bind call
    that the engine accepted, or -1 with an exception that is not a
    BindingsError. *)
Definition dobinding_post (arg : Z) (obj : PyObject) (w : World) (r : Z)
  (w' : World) : Prop :=
  rebound w w' /\
  ((r = 0 /\ pyerr w' = None /\
    exists v, engine_value obj = Some v /\ log w' = log w ++ [EvBind arg v])
   \/ (r = -1 /\ exists e, pyerr w' = Some e /\ is_ExcBindings e = false)).

(** The bind calls for a run of values, numbered from [arg]. *)
Fixpoint bind_events (arg : Z) (vals : list SqlValue) : list event :=
  match vals with
  | [] => []
  | v :: rest => EvBind arg v :: bind_events (arg + 1) rest
  end.

(** ** The binder, call by call *)

(** [w'] is [w] after the one engine call that binds [v] at [arg]; the
    error indicator is not constrained. *)
Definition bound_at (arg : Z) (v : SqlValue) (w w' : World) : Prop :=
  exists st,
    statement (cursor w) = Some st /\
    cursor w' =
      cursor (set_statement
                (Some {| vdbestatement :=
                           snd (sqlite3_bind (vdbestatement st) arg v);
                         utf8 := utf8 st; next := next st |}) w) /\
    log w' = log w ++ [EvBind arg v].

Definition bind_rc (w : World) (arg : Z) (v : SqlValue) : Z :=
  match statement (cursor w) with
  | Some st => fst (sqlite3_bind (vdbestatement st) arg v)
  | None => SQLITE_MISUSE
  end.

(** The three ways [APSWCursor_dobinding] ends: bound; refused before any
    engine call; or a call was made and the binding still failed. *)
Inductive dobinding_case (arg : Z) (obj : PyObject) (w : World)
  : Z -> World -> Prop :=
  | dobinding_bound w' v :
      engine_value obj = Some v -> bound_at arg v w w' ->
      bind_rc w arg v = SQLITE_OK -> pyerr w' = None ->
      dobinding_case arg obj w 0 w'
  | dobinding_refused w' e :
      engine_value obj = None -> cursor w' = cursor w -> log w' = log w ->
      pyerr w' = Some e ->
      dobinding_case arg obj w (-1) w'
  | dobinding_failed w' v e :
      bound_at arg v w w' ->
      bind_rc w arg v <> SQLITE_OK \/ engine_value obj = None ->
      pyerr w' = Some e ->
      dobinding_case arg obj w (-1) w'.

(** ** C3: mapping bindings *)

(** The key under which the mapping is asked for parameter [k] (from 0). *)
Definition param_key (params : list (option string)) (k : nat) : option string :=
  strip_marker <$> mjoin (params !! k).

(** What the dictionary loop guarantees, for the parameters from [k] on:
    those whose key is missing keep their value and see no engine call;
    a failure is due to a parameter without a name or to a value that is
    there and cannot be bound. *)
Definition dict_loop_post (d : gmap string PyObject)
  (params : list (option string)) (k : nat) (w : World) (bound : list SqlValue)
  (r : Z) (w' : World) : Prop :=
  exists st' vd' evs,
    statement (cursor w') = Some st' /\ vdbestatement st' = Some vd' /\
    log w' = log w ++ evs /\
    (forall i : nat,
        (i < k)%nat \/ (exists key, param_key params i = Some key /\ d !! key = None) ->
        v_bound vd' !! i = bound !! i) /\
    (forall arg v, EvBind arg v ∈ evs ->
        exists key obj, Z.of_nat k + 1 <= arg /\
          param_key params (Z.to_nat (arg - 1)) = Some key /\
          d !! key = Some obj) /\
    ((r = 0 /\ pyerr w' = None /\
      forall (i : nat) key obj,
        (k <= i)%nat -> param_key params i = Some key -> d !! key = Some obj ->
        exists v, engine_value obj = Some v /\ v_bound vd' !! i = Some v)
     \/
     (r = -1 /\ (exists e, pyerr w' = Some e) /\
      ((exists i : nat, params !! i = Some None) \/
       (exists (i : nat) key obj,
           param_key params i = Some key /\ d !! key = Some obj /\
           engine_value obj = None)))).

(** A statement that returns its parameters as its only row. *)
Definition select_bound (sql : string) (params : list (option string))
  : sql_stmt :=
  Compiles sql params (fun bound => [StepRow bound; StepDone]).

(** The batch [select ?; select ?, ?]. *)
Definition two_selects : query :=
  [select_bound "select ?" [None]; select_bound "select ?, ?" [None; None]].

(** The cursor as [execute("select ?; select ?, ?", (1, 2, 3))] has it when
    it calls the resolver for the first statement. *)
Definition first_of_two : World :=
  set_bindingsoffset 0
    (prepare_call two_selects
       (set_bindings (Some (BSeq [PyLong 1; PyLong 2; PyLong 3]))
          APSWCursor_init)).

(** The world an outcome ends in. *)
Definition world_of {A : Type} (o : outcome A) : World :=
  match o with
  | Done _ w => w
  | _ => APSWCursor_init
  end.

(** The statement [select :a, :b]: one row holding its two parameters. *)
Definition select_a_b : sql_stmt :=
  Compiles "select :a, :b" [Some ":a"%string; Some ":b"%string]
           (fun bound => [StepRow bound; StepDone]).

(** The cursor as [execute("select :a, :b", {"a": 1})] has it when it calls
    the resolver. *)
Definition a_without_b : World :=
  set_bindingsoffset 0
    (prepare_call [select_a_b]
       (set_bindings (Some (BDict {[ "a"%string := PyLong 1 ]}))
          APSWCursor_init)).

(** ** C4: oversize text and blobs *)

(** The length in bytes of a text or blob value as the binder would hand
    it to the engine; [None] for other objects and for text or buffers
    whose conversion fails. *)
Definition encoded_length (obj : PyObject) : option Z :=
  let of_unicode (u : unicode) :=
    match uni_strbytes u with
    | Converted n => Some n
    | ConversionFails _ => None
    end in
  match obj with
  | PyUnicode u => of_unicode u
  | PyString s =>
      if string_chk (str_val s) <? Z.of_nat (String.length (str_val s))
      then match str_unicode s with
           | Converted u => of_unicode u
           | ConversionFails _ => None
           end
      else Some (Z.of_nat (String.length (str_val s)))
  | PyReadBuffer b =>
      match buf_buflen b with
      | Converted n => Some n
      | ConversionFails _ => None
      end
  | _ => None
  end.

(** ** C9: statements without parameters *)

(** The cursor as [execute("select 1")] has it when it calls the resolver,
    before any bindings are stored. *)
Definition select_1 : World :=
  set_bindingsoffset 0
    (prepare_call [select_bound "select 1" []] APSWCursor_init).

(** What the caller of a method sees, the stored bindings apart: the value
    returned, the calls made, the error indicator, the state and the
    statement held. *)
Definition observed (o : outcome PyRet)
  : option (PyRet * list event * option exn * cursor_status
            * option APSWStatement) :=
  match o with
  | Done r w => Some (r, log w, pyerr w, status (cursor w), statement (cursor w))
  | _ => None
  end.

(** ** What the resolver leaves unchanged *)

(** What the resolver may change: the values of the parameters and the
    offset, which stays within the sequence. *)
Definition resolved (w w' : World) : Prop :=
  exists st st' o',
    statement (cursor w) = Some st /\ stmt_rebound st st' /\
    cursor w' = cursor (set_bindingsoffset o' (set_statement (Some st') w)) /\
    (forall items,
        bindings (cursor w) = Some (BSeq items) ->
        0 <= bindingsoffset (cursor w) <= Z.of_nat (length items) ->
        0 <= o' <= Z.of_nat (length items)) /\
    (match bindings (cursor w) with
     | Some (BSeq _) => True
     | _ => o' = bindingsoffset (cursor w)
     end).

(** ** The invariant of the cursor *)

(** The cursor after [resetcursor]. *)
Definition reset_state (c : APSWCursor) : APSWCursor :=
  {| connection_db := connection_db c; inuse := inuse c; statement := None;
     status := C_DONE; bindings := None; bindingsoffset := -1;
     emiter := None; emoriginalquery := None;
     exectrace := exectrace c; rowtrace := rowtrace c |}.

(** What holds of the cursor between two calls of its methods:
    - no call is in progress;
    - without a statement the state is [C_DONE];
    - the statement held can be handed back to the cache without error;
    - while a statement is held and the bindings are a sequence, the offset
      lies within the sequence;
    - in executemany mode with a statement held, the original text is
      known. *)
Definition cursor_inv (w : World) : Prop :=
  inuse (cursor w) = false /\
  (statement (cursor w) = None -> status (cursor w) = C_DONE) /\
  (forall st, statement (cursor w) = Some st ->
              statementcache_finalize st = SQLITE_OK) /\
  (forall st items,
      statement (cursor w) = Some st ->
      bindings (cursor w) = Some (BSeq items) ->
      0 <= bindingsoffset (cursor w) <= Z.of_nat (length items)) /\
  (forall st it,
      statement (cursor w) = Some st -> emiter (cursor w) = Some it ->
      emoriginalquery (cursor w) <> None).

(** ** The cursor after a reset *)

(** The cursor right after a successful [resetcursor], with bindings
    possibly stored since. *)
Definition idle (w : World) : Prop :=
  inuse (cursor w) = false /\ statement (cursor w) = None /\
  status (cursor w) = C_DONE /\ emoriginalquery (cursor w) = None.

(** ** Sequences of calls *)

Definition set_connection_db (b : bool) (w : World) : World :=
  let c := cursor w in
  set_cursor {| connection_db := b; inuse := inuse c;
                statement := statement c; status := status c;
                bindings := bindings c; bindingsoffset := bindingsoffset c;
                emiter := emiter c; emoriginalquery := emoriginalquery c;
                exectrace := exectrace c; rowtrace := rowtrace c |} w.

(** What the program using the cursor can do to it: call a method, or have
    the connection closed under the cursor ([self->connection->db]
    becomes NULL). *)
Inductive operation : Type :=
  | Op_execute (args : execute_args)
  | Op_executemany (args : executemany_args)
  | Op_close (args : close_args)
  | Op_next (fuel : nat)
  | Op_setexectrace (func : option (string + exec_tracer))
  | Op_setrowtrace (func : option (string + row_tracer))
  | Op_connection_closed.

(** A method is entered with no exception pending: the interpreter has
    dealt with the one the previous call may have raised. *)
Definition perform (op : operation) (w : World) : outcome PyRet :=
  let w := set_pyerr None w in
  match op with
  | Op_execute args => APSWCursor_execute args w
  | Op_executemany args => APSWCursor_executemany args w
  | Op_close args => APSWCursor_close args w
  | Op_next fuel => APSWCursor_next fuel w
  | Op_setexectrace func => APSWCursor_setexectrace func w
  | Op_setrowtrace func => APSWCursor_setrowtrace func w
  | Op_connection_closed => Done (RetObject Py_None) (set_connection_db false w)
  end.

Inductive reachable : World -> Prop :=
  | reachable_init : reachable APSWCursor_init
  | reachable_perform (w : World) (op : operation) (r : PyRet) (w' : World) :
      reachable w -> perform op w = Done r w' -> reachable w'.

(** ** One statement at a time *)

(** Statements obtained from the cache and not yet handed back, according
    to the log of calls. *)
Definition borrow_delta (ev : event) : Z :=
  match ev with
  | EvPrepare _ true => 1
  | EvFinalize => -1
  | _ => 0
  end.

Fixpoint borrowed (l : list event) : Z :=
  match l with
  | [] => 0
  | ev :: rest => borrow_delta ev + borrowed rest
  end.

(** Statements the cursor holds. *)
Definition held (w : World) : Z :=
  match statement (cursor w) with Some _ => 1 | None => 0 end.

Definition account (w : World) : Z := borrowed (log w) - held w.

(** A function that neither loses a statement nor holds on to one. *)
Definition keeps_account {A : Type} (f : World -> outcome A) : Prop :=
  forall w r w', f w = Done r w' -> account w' = account w.

(** From [Done a x = Done r w'], replace [w'] by [x] without reducing. *)
Ltac same_world H :=
  cbv zeta in H;
  match type of H with
  | Done _ ?x = Done _ ?y => assert (y = x) as -> by congruence
  end.

(** ** C8: the invariant of the data model *)

(** The invariant as the specification words it. *)
Definition spec_invariant (w : World) : Prop :=
  (forall items,
      bindings (cursor w) = Some (BSeq items) ->
      0 <= bindingsoffset (cursor w) <= Z.of_nat (length items)) /\
  (statement (cursor w) = None -> status (cursor w) = C_DONE).

(** [execute("bogus", (1,))] on a new cursor: the text does not compile. *)
Definition after_failed_prepare : outcome PyRet :=
  perform (Op_execute (Args [Invalid "bogus" SQLITE_ERROR]
                            [ArgObject (Returned [PyLong 1])]))
          APSWCursor_init.

(** The cursor after the caller, or a callback that runs the caller's code,
    has changed the list it handed over as bindings: [self->bindings] is
    that very list ([PySequence_Fast] returns its argument when it is a
    list), so the cursor now sees [items].  No method of the cursor is
    involved; the states that [reachable] describes are those of runs in
    which this does not happen. *)
Definition sequence_changed (items : list PyObject) (w : World) : World :=
  match bindings (cursor w) with
  | Some (BSeq _) => set_bindings (Some (BSeq items)) w
  | _ => w
  end.

(** ** C10: closing a cursor whose connection is closed *)

(** [execute("select ?; select ?, ?", (1, 2, 3))]: the first row is ready,
    the second statement has not run. *)
Definition midway : World :=
  world_of (perform (Op_execute
                       (Args two_selects
                             [ArgObject (Returned [PyLong 1; PyLong 2; PyLong 3])]))
                    APSWCursor_init).

(** The connection is closed under the cursor while the first row of
    [midway] is ready. *)
Definition midway_closed : World := world_of (perform Op_connection_closed midway).

(** ** C7: [executemany] on an empty source *)

(** Calls that hand a statement back or advance an iterator; not one that
    prepares, binds, steps or traces. *)
Definition housekeeping (ev : event) : Prop :=
  ev = EvFinalize \/ ev = EvIterNext.

(** ** C2: abandoning a batch *)

(** Work is left: statements of the batch, or elements of the executemany
    source. *)
Definition work_remains (w : World) : Prop :=
  (exists st q, statement (cursor w) = Some st /\ next st = Some q)
  \/ (exists a rest, emiter (cursor w) = Some (Returned a :: rest)).

(** A call fails with IncompleteExecutionError. *)
Definition raises_incomplete (o : outcome PyRet) : Prop :=
  exists many w', o = Done RetNULL w' /\ pyerr w' = Some (ExcIncomplete many).

(** The abandonment contract as the specification words it: whatever resets
    the cursor while work remains raises IncompleteExecutionError. *)
Definition spec_abandonment (w : World) : Prop :=
  status (cursor w) <> C_DONE -> work_remains w ->
  (forall args, raises_incomplete (perform (Op_execute args) w)) /\
  (forall args, raises_incomplete (perform (Op_executemany args) w)) /\
  raises_incomplete (perform (Op_close (CloseArgs None)) w).

(** The executemany source, if there is one, does not raise when it is
    next asked for an element. *)
Definition source_answers (w : World) : Prop :=
  forall e rest, emiter (cursor w) <> Some (Raised e :: rest).

(** [executemany("select ?; select ?, ?", source)] where the source yields
    [(1, 2, 3)] and then raises ValueError: the first row is ready, the
    second statement has not run. *)
Definition source_raises : PyIterator :=
  [Returned (ArgObject (Returned [PyLong 1; PyLong 2; PyLong 3]));
   Raised (PyException "ValueError")].

Definition midway_many : World :=
  world_of (perform (Op_executemany (Some (two_selects, Some source_raises)))
                    APSWCursor_init).

(** The same with a source written in Python that is at its end after
    [(1, 2, 3)]: its next call raises StopIteration. *)
Definition source_stops : PyIterator :=
  [Returned (ArgObject (Returned [PyLong 1; PyLong 2; PyLong 3]));
   Raised PyExc_StopIteration].

Definition midway_many_stop : World :=
  world_of (perform (Op_executemany (Some (two_selects, Some source_stops)))
                    APSWCursor_init).

(** ** The log only grows *)

Definition extends (w w' : World) : Prop := log w `prefix_of` log w'.

Definition grows {A : Type} (f : World -> outcome A) : Prop :=
  forall w r w', f w = Done r w' -> extends w w'.

(** ** Calls that trace nothing *)

(** The trace call [ev] was answered with a false value by the tracer. *)
Definition vetoed (tr : option exec_tracer) (ev : event) : bool :=
  match tr, ev with
  | Some t, EvExecTrace sql b =>
      match t sql b with ET_returned false => true | _ => false end
  | _, _ => false
  end.

Definition unvetoed (tr : option exec_tracer) (evs : list event) : Prop :=
  Forall (fun ev => vetoed tr ev = false) evs.

(** From [w] to [w'] the tracer stayed and vetoed nothing. *)
Definition ran_on (w w' : World) : Prop :=
  exectrace (cursor w') = exectrace (cursor w) /\
  exists evs, log w' = log w ++ evs /\ unvetoed (exectrace (cursor w)) evs.

(** The same, with the execution state kept. *)
Definition quiet (w w' : World) : Prop :=
  ran_on w w' /\ status (cursor w') = status (cursor w).

Definition quietly {A : Type} (f : World -> outcome A) : Prop :=
  forall w r w', f w = Done r w' -> quiet w w'.

(** [f] takes every world to one that [R] relates to it. *)
Definition related (R : World -> World -> Prop) {A : Type}
  (f : World -> outcome A) : Prop :=
  forall w r w', f w = Done r w' -> R w w'.

(** A statement no step was taken on, and a cursor that holds no other. *)
Definition unstepped (st : APSWStatement) : Prop :=
  match vdbestatement st with
  | Some vd => v_pc vd = 0%nat
  | None => True
  end.

Definition fresh (w : World) : Prop :=
  forall st, statement (cursor w) = Some st -> unstepped st.

(** ** A vetoed statement *)

(** The new events [evs] end with a trace call that the tracer answered
    with a false value: the statement traced is still held, no step was
    taken on it, the state is [s], and AbortError is pending. *)
Definition stopped_at (tr : option exec_tracer) (s : cursor_status)
  (evs : list event) (w' : World) : Prop :=
  exists evs0 st b,
    evs = evs0 ++ [EvExecTrace (statement_sql st) b] /\ unvetoed tr evs0 /\
    vetoed tr (EvExecTrace (statement_sql st) b) = true /\
    statement (cursor w') = Some st /\ unstepped st /\
    status (cursor w') = s /\ pyerr w' = Some ExcTraceAbort.

(** What a call has done when it returns: nothing vetoed, or it stopped at
    the veto and [failed]. *)
Definition trace_result (tr : option exec_tracer) (failed : Prop)
  (s : cursor_status) (w w' : World) : Prop :=
  exists evs, log w' = log w ++ evs /\
    (unvetoed tr evs \/ (stopped_at tr s evs w' /\ failed)).

Definition traced (failed : Prop) (s : cursor_status) (w w' : World) : Prop :=
  exectrace (cursor w') = exectrace (cursor w) /\
  trace_result (exectrace (cursor w)) failed s w w'.

(** The event is a call of the execution tracer. *)
Definition is_trace (ev : event) : bool :=
  match ev with EvExecTrace _ _ => true | _ => false end.

(** ** After the veto *)

(** A statement is held while the state is [C_DONE]: this is how a veto
    leaves the cursor. *)
Definition parked (st : APSWStatement) (w : World) : Prop :=
  statement (cursor w) = Some st /\ status (cursor w) = C_DONE.

(** A program: one operation after the other. *)
Fixpoint perform_all (ops : list operation) (w : World) : outcome unit :=
  match ops with
  | [] => Done () w
  | op :: ops => call r, w1 <- perform op w in perform_all ops w1
  end.

(** ** C5: the veto of an execution tracer *)

(** A tracer that vetoes every statement. *)
Definition veto_all : exec_tracer := fun _ _ => ET_returned false.

(** The cursor with that tracer installed, and then with the statement of
    [execute("select 1")] prepared. *)
Definition vetoing : World := set_exectrace (Some veto_all) APSWCursor_init.
Definition vetoing_select_1 : World := set_exectrace (Some veto_all) select_1.

(** [execute("select ?; select ?, ?", (1, 2, 3))] on that cursor. *)
Definition vetoed_execute : operation :=
  Op_execute (Args two_selects
                   [ArgObject (Returned [PyLong 1; PyLong 2; PyLong 3])]).

(** ** C6: the row tracer *)

(** The cursor as [next] leaves it when it has passed the row of [st] to
    the row tracer: the state is [C_BEGIN] again. *)
Definition after_row (st : APSWStatement) (w : World) : World :=
  emit (EvRowTrace (current_row st)) (set_status C_BEGIN w).

(** [next], called on [w], has the row of the cursor [wr] in hand: the row
    was ready, or the call stepped the statement to it. *)
Definition row_fetched (w wr : World) : Prop :=
  (status (cursor w) = C_ROW /\ wr = w) \/
  (status (cursor w) = C_BEGIN /\
   exists r, APSWCursor_step w = Done r wr /\ r <> RetNULL /\
             status (cursor wr) = C_ROW).

(** A table of three rows, 1, 2 and 3. *)
Definition three_rows : sql_stmt :=
  Compiles "select x from t" []
    (fun _ => [StepRow [SqlInteger 1]; StepRow [SqlInteger 2];
               StepRow [SqlInteger 3]; StepDone]).

(** A row tracer that skips the row [(2,)] and doubles every other row. *)
Definition skip_two : row_tracer :=
  fun row =>
    match row with
    | [PyLong 2] => Returned (RetObject Py_None)
    | _ => Returned (RetTuple (row ++ row))
    end.

(** [execute("select x from t")] with that tracer, and the cursor after one
    and after two calls of [next]. *)
Definition tracing_rows : World :=
  world_of (perform (Op_execute (Args [three_rows] []))
                    (set_rowtrace (Some skip_two) APSWCursor_init)).
Definition tracing_rows_1 : World := world_of (perform (Op_next 2) tracing_rows).
Definition tracing_rows_3 : World := world_of (perform (Op_next 2) tracing_rows_1).

(** The statement a cursor holds (an empty handle when it holds none). *)
Definition held_statement (w : World) : APSWStatement :=
  default {| vdbestatement := None; utf8 := []; next := None |}
          (statement (cursor w)).

(** The cursor after the step that [next] takes on [tracing_rows_1]. *)
Definition tracing_rows_2 : World := world_of (APSWCursor_step tracing_rows_1).

(** ** The scan of a Python 2 string *)

(** No byte has bit 0x80 set. *)
Definition seven_bit (val : string) : Prop :=
  Forall (fun c => high_bit c = false) (String.list_ascii_of_string val).

(** Two byte strings whose conversion to unicode fails: ["abc"], and the
    single byte 0xE9. *)
Definition plain_abc : pystring :=
  {| str_val := "abc"; str_unicode := ConversionFails "UnicodeDecodeError" |}.
Definition latin_e_acute : pystring :=
  {| str_val := String (Ascii.ascii_of_nat 233) EmptyString;
     str_unicode := ConversionFails "UnicodeDecodeError" |}.

(** ** A cursor whose connection is closed *)

(** The call was refused because the connection is closed: it returned
    [null] and left the world as it was, but for ConnectionClosedError. *)
Definition refused {A : Type} (null : A) (w : World) (o : outcome A) : Prop :=
  o = Done null (PyErr_Format ExcConnectionClosed w).

(** The operation is a method other than [close]. *)
Definition needs_connection (op : operation) : bool :=
  match op with
  | Op_close _ | Op_connection_closed => false
  | _ => true
  end.

(** ** What [close] returns *)

(** The statement held, if any, is the last of its batch. *)
Definition batch_done (w : World) : Prop :=
  forall st, statement (cursor w) = Some st -> next st = None.


(** The execution is not over and the executemany source raises [e], which
    is not StopIteration, when it is asked for its next element. *)
Definition source_raising (w : World) (e : exn) : Prop :=
  status (cursor w) <> C_DONE /\ is_StopIteration e = false /\
  exists rest, emiter (cursor w) = Some (Raised e :: rest).

(** A source that yields no element: an iterator of the interpreter that is
    at its end, or one written in Python whose first answer is to raise
    StopIteration. *)
Definition source_is_empty (it : PyIterator) : Prop :=
  it = [] \/
  exists e rest, it = Raised e :: rest /\ is_StopIteration e = true.


(** [executemany("select ?", source)] where the source yields [(1,)] and
    then raises ValueError: the row of the first run is ready. *)
Definition one_then_raise : World :=
  world_of
    (perform
       (Op_executemany
          (Some ([select_bound "select ?" [None]],
                 Some [Returned (ArgObject (Returned [PyLong 1]));
                       Raised (PyException "ValueError")])))
       APSWCursor_init).

(** ** What the execution tracer is shown *)

Definition is_bind (ev : event) : bool :=
  match ev with EvBind _ _ => true | _ => false end.

(** From [w] to [w'] the engine was called to bind values and for nothing
    else, and no tracer was called. *)
Definition binds_only (w w' : World) : Prop :=
  exists evs, log w' = log w ++ evs /\ Forall (fun ev => is_bind ev = true) evs.

(** A tracer that lets every statement run. *)
Definition allow_all : exec_tracer := fun _ _ => ET_returned true.

(** The cursor of [execute("select ?; select ?, ?", (1, 2, 3))] with that
    tracer, when the second statement has been prepared: the first
    statement took one value. *)
Definition second_of_two : World :=
  set_exectrace (Some allow_all)
    (set_bindingsoffset 1
       (prepare_call [select_bound "select ?, ?" [None; None]]
          (set_bindings (Some (BSeq [PyLong 1; PyLong 2; PyLong 3]))
             APSWCursor_init))).

(** ** What only the setters change *)

(** The fields of the cursor that no method but [setexectrace] and
    [setrowtrace] writes: the connection, the in-use flag and the tracers. *)
Definition hooks (w : World)
  : bool * bool * option exec_tracer * option row_tracer :=
  (connection_db (cursor w), inuse (cursor w),
   exectrace (cursor w), rowtrace (cursor w)).

Definition same_hooks (w w' : World) : Prop := hooks w' = hooks w.

(** The operation is a call of [execute], [executemany], [close] or
    [next]. *)
Definition runs_statements (op : operation) : bool :=
  match op with
  | Op_execute _ | Op_executemany _ | Op_close _ | Op_next _ => true
  | _ => false
  end.

(** What the setters take for a tracer, and what the getters return. *)
Definition as_argument {A : Type} (t : option A) : option (string + A) :=
  match t with Some f => Some (inr f) | None => None end.

Definition as_kept {A : Type} (t : option A) : kept A :=
  match t with Some f => KeptObject f | None => KeptNone end.

(** Both tracers installed on a new cursor, then [execute("select x from
    t")], a call of [next] and [close()]. *)
Definition traced_session : list operation :=
  [Op_setexectrace (as_argument (Some allow_all));
   Op_setrowtrace (as_argument (Some skip_two));
   Op_execute (Args [three_rows] []); Op_next 2; Op_close (CloseArgs None)].

Definition after_traced_session : World :=
  world_of (perform_all traced_session APSWCursor_init).

(** ** How long [next] can go on *)

(** The outcomes that the program of the statement held has left. *)
Definition rows_left (w : World) : nat :=
  match statement (cursor w) with
  | Some {| vdbestatement := Some vd |} =>
      length (v_prog vd (v_bound vd)) - v_pc vd
  | _ => 0
  end.

(** The rounds of [again:] within one statement: one for each outcome left,
    and one more while a row is waiting. *)
Definition rounds_left (w : World) : nat :=
  2 * rows_left w + (if status_eqb (status (cursor w)) C_ROW then 1 else 0).

(** ** A step that fails *)

(** The outcome of the next step of a compiled statement. *)
Definition next_outcome (vd : vdbe) : step_outcome :=
  default StepDone (v_prog vd (v_bound vd) !! v_pc vd).

(** A batch of two statements, the first of which fails when stepped with
    the code SQLITE_BUSY. *)
Definition busy_then_select : query :=
  [Compiles "update t set x = 1" [] (fun _ => [StepError SQLITE_BUSY]);
   select_bound "select 1" []].

(** The cursor of [execute] on that batch when the first statement has been
    prepared. *)
Definition busy_prepared : World :=
  set_status C_BEGIN
    (set_bindingsoffset 0 (prepare_call busy_then_select APSWCursor_init)).

(** ** Iterating over the rows of a statement *)

(** A text of one statement without parameters, whose program is [prog]. *)
Definition one_statement (sql : string) (prog : list SqlValue -> list step_outcome)
  : query :=
  [Compiles sql [] prog].

(** The cursor in the course of [execute(sql)] and the calls of [next] that
    follow: it holds the statement, [k] steps were taken, the state is [s]
    and the current row is [row]; no row tracer is installed. *)
Definition iterating (sql : string) (prog : list SqlValue -> list step_outcome)
  (k : nat) (s : cursor_status) (row : list SqlValue) (w : World) : Prop :=
  exists rc b off oq et,
    cursor w
    = {| connection_db := true; inuse := false;
         statement :=
           Some {| vdbestatement :=
                     Some {| v_params := []; v_prog := prog; v_bound := [];
                             v_pc := k; v_rc := rc; v_row := row |};
                   utf8 := one_statement sql prog; next := None |};
         status := s; bindings := b; bindingsoffset := off; emiter := None;
         emoriginalquery := oq; exectrace := et; rowtrace := None |}.

(** The row as [next] returns it. *)
Definition row_tuple (row : list SqlValue) : PyRet :=
  RetTuple (convert_column_to_pyobject <$> row).

(** [n] calls of [next], and what they returned. *)
Fixpoint fetch (n : nat) (w : World) : outcome (list PyRet) :=
  match n with
  | O => Done [] w
  | S n =>
      call r, w1 <- perform (Op_next 1) w in
      call rs, w2 <- fetch n w1 in
      Done (r :: rs) w2
  end.

(** ** [executemany] on a statement that returns no row *)

(** The text of one statement with the parameters [params]. *)
Definition many_statement (sql : string) (params : list (option string))
  (prog : list SqlValue -> list step_outcome) : query :=
  [Compiles sql params prog].

(** An element of the source: a sequence of values. *)
Definition element (items : list PyObject) : pyresult PyArg :=
  Returned (ArgObject (Returned items)).

(** With the values [vals] the statement returns no row. *)
Definition yields_nothing (prog : list SqlValue -> list step_outcome)
  (vals : list SqlValue) : Prop :=
  default StepDone (prog vals !! 0%nat) = StepDone.

(** The element [items] gives one value to each parameter, [vals] as the
    engine takes them, and the statement then returns no row. *)
Definition fits (params : list (option string))
  (prog : list SqlValue -> list step_outcome)
  (items : list PyObject) (vals : list SqlValue) : Prop :=
  length items = length params /\ mapM engine_value items = Some vals /\
  yields_nothing prog vals.

(** The cursor in the course of [executemany]: the statement is prepared
    and holds the values [bound], the state is [C_BEGIN] and the source has
    the elements [it] left; no execution tracer is installed. *)
Definition many_ready (sql : string) (params : list (option string))
  (prog : list SqlValue -> list step_outcome) (it : PyIterator)
  (bound : list SqlValue) (w : World) : Prop :=
  pyerr w = None /\
  exists db rc row b off rt,
    cursor w
    = {| connection_db := db; inuse := false;
         statement :=
           Some {| vdbestatement :=
                     Some {| v_params := params; v_prog := prog;
                             v_bound := bound; v_pc := 0; v_rc := rc;
                             v_row := row |};
                   utf8 := many_statement sql params prog; next := None |};
         status := C_BEGIN; bindings := b; bindingsoffset := off;
         emiter := Some it;
         emoriginalquery := Some (many_statement sql params prog);
         exectrace := None; rowtrace := rt |}.

(** What [step] adds to the log from the first step of one run of the
    statement on: for each element left, the step, the question to the
    source, the statement handed back, prepared again and bound; at the
    end the step, the question that the source answers with its end, and
    the statement handed back. *)
Fixpoint many_log (sql : string) (valss : list (list SqlValue)) : list event :=
  match valss with
  | [] => [EvStep sql; EvIterNext; EvFinalize]
  | vals :: rest =>
      [EvStep sql; EvIterNext; EvFinalize; EvPrepare sql true]
        ++ bind_events 1 vals ++ many_log sql rest
  end.

(** ** A row tracer that raises *)

(** A row tracer that raises ValueError on the row [(2,)]. *)
Definition raise_on_two : row_tracer :=
  fun row =>
    match row with
    | [PyLong 2] => Raised (PyException "ValueError")
    | _ => Returned (RetTuple row)
    end.

(** [execute("select x from t")] with that tracer, the cursor after one
    call of [next], and after the step that the second call takes. *)
Definition raising_rows : World :=
  world_of (perform (Op_execute (Args [three_rows] []))
                    (set_rowtrace (Some raise_on_two) APSWCursor_init)).
Definition raising_rows_1 : World := world_of (perform (Op_next 2) raising_rows).
Definition raising_rows_2 : World := world_of (APSWCursor_step raising_rows_1).

(** ** A batch of statements that return no row *)

(** Every statement of the batch compiles; the values of [items] from
    position [o] on are shared out among the statements in order, each
    taking as many as it has parameters, [valss] as the engine takes them;
    none is left over, and with its values no statement returns a row. *)
Fixpoint batch_fits (q : query) (items : list PyObject) (o : nat)
  (valss : list (list SqlValue)) : Prop :=
  match q, valss with
  | [], [] => o = length items
  | Compiles _ params prog :: rest, vals :: valss' =>
      mapM engine_value (take (length params) (drop o items)) = Some vals /\
      (o + length params <= length items)%nat /\
      yields_nothing prog vals /\
      batch_fits rest items (o + length params) valss'
  | _, _ => False
  end.

(** The cursor in the course of [execute] on a batch: the statement [sql],
    which [rest] follows, is prepared and holds the values [bound]; the
    bindings are the sequence [items], of which [o] are used; the state is
    [C_BEGIN] and no execution tracer is installed. *)
Definition batch_ready (sql : string) (params : list (option string))
  (prog : list SqlValue -> list step_outcome) (rest : query)
  (items : list PyObject) (bound : list SqlValue) (o : nat) (w : World)
  : Prop :=
  pyerr w = None /\
  exists db rc row oq rt,
    cursor w
    = {| connection_db := db; inuse := false;
         statement :=
           Some {| vdbestatement :=
                     Some {| v_params := params; v_prog := prog;
                             v_bound := bound; v_pc := 0; v_rc := rc;
                             v_row := row |};
                   utf8 := Compiles sql params prog :: rest;
                   next := remaining rest |};
         status := C_BEGIN; bindings := Some (BSeq items);
         bindingsoffset := Z.of_nat o; emiter := None;
         emoriginalquery := oq; exectrace := None; rowtrace := rt |}.

(** What [step] adds to the log from the first step of a statement on:
    the step, and for each statement that follows the move to it, the
    statement before it handed back, the statement prepared and bound, and
    its step; the last statement is handed back by the reset. *)
Fixpoint batch_steps (q : query) (valss : list (list SqlValue)) : list event :=
  match q with
  | [] => []
  | s :: rest =>
      EvStep (stmt_sql s)
      :: match rest, valss with
         | s' :: _, vals' :: valss' =>
             [EvNextStatement; EvFinalize; EvPrepare (stmt_sql s') true]
               ++ bind_events 1 vals' ++ batch_steps rest valss'
         | _, _ => [EvFinalize]
         end
  end.

(** ** C1: a sequence longer than a C [int] can count *)

(** A list of 2^32 + 1 objects, and [execute("select ?", long_sequence)]. *)
Definition long_sequence : list PyObject :=
  replicate (Z.to_nat 4294967297) (PyLong 7).

Definition execute_long : operation :=
  Op_execute (Args [select_bound "select ?" [None]]
                   [ArgObject (Returned long_sequence)]).

(** ** C9: [execute] of statements without parameters *)









(** ** C5: no step before the tracer is asked *)

(** The text of the statement the cursor holds. *)
Definition held_sql (w : World) : option string :=
  statement_sql <$> statement (cursor w).

(** The statement that the tracer was shown last, after the events [evs]
    and with [cur] shown before them: a call of the tracer shows the
    statement it is called with, and a prepare brings in a statement that
    has not been shown. *)
Fixpoint shown_after (cur : option string) (evs : list event)
  : option string :=
  match evs with
  | [] => cur
  | EvPrepare _ _ :: rest => shown_after None rest
  | EvExecTrace sql _ :: rest => shown_after (Some sql) rest
  | _ :: rest => shown_after cur rest
  end.

(** Every step among the events [evs] is a step of the statement that the
    tracer was shown last: between the prepare of a statement and its
    first step the tracer was called with it. *)
Fixpoint steps_shown (cur : option string) (evs : list event) : Prop :=
  match evs with
  | [] => True
  | EvStep sql :: rest => cur = Some sql /\ steps_shown cur rest
  | EvPrepare _ _ :: rest => steps_shown None rest
  | EvExecTrace sql _ :: rest => steps_shown (Some sql) rest
  | _ :: rest => steps_shown cur rest
  end.

Definition is_step (ev : event) : bool :=
  match ev with EvStep _ => true | _ => false end.

(** The event is a prepare or a call of the execution tracer. *)
Definition is_mark (ev : event) : bool :=
  match ev with EvPrepare _ _ | EvExecTrace _ _ => true | _ => false end.

(** From [w] to [w'] no step was taken. *)
Definition stepless (w w' : World) : Prop :=
  exists evs, log w' = log w ++ evs /\ Forall (fun ev => is_step ev = false) evs.

(** The same, and the events are no prepare and no trace call either. *)
Definition unmarked (w w' : World) : Prop :=
  exists evs, log w' = log w ++ evs /\
    Forall (fun ev => is_step ev = false) evs /\
    Forall (fun ev => is_mark ev = false) evs.

(** From [w] to [w'] no step was taken; when [ok] holds the statement held
    at the end has been shown to the tracer since it was prepared, and
    otherwise the state is [s]. *)
Definition consulted (ok : Prop) (s : cursor_status) (w w' : World) : Prop :=
  exists evs, log w' = log w ++ evs /\
    Forall (fun ev => is_step ev = false) evs /\
    (ok -> forall cur, shown_after cur evs = held_sql w') /\
    (~ ok -> status (cursor w') = s).

(** From [w] to [w'] every step was taken on the statement shown, with the
    statement held by [w] taken as shown; at the end the execution is over
    or the statement held is the one shown. *)
Definition stepped_shown (w w' : World) : Prop :=
  exists evs, log w' = log w ++ evs /\ steps_shown (held_sql w) evs /\
    (status (cursor w') = C_DONE \/
     shown_after (held_sql w) evs = held_sql w').

(** From [w] to [w'] every step was taken on a statement shown to the
    tracer on the way. *)
Definition always_shown (w w' : World) : Prop :=
  exists evs, log w' = log w ++ evs /\ forall cur, steps_shown cur evs.

(** A tracer that vetoes the statement [select 2] and no other, and the
    cursor with it after [execute("select 1; select 2")] and one call of
    [next]: the row of the first statement has been fetched. *)
Definition veto_select_2 : exec_tracer :=
  fun sql _ => ET_returned (negb (String.eqb sql "select 2")).

Definition before_select_2 : World :=
  world_of
    (perform (Op_next 2)
       (world_of
          (perform (Op_execute (Args [select_bound "select 1" [];
                                      select_bound "select 2" []] []))
                   (set_exectrace (Some veto_select_2) APSWCursor_init)))).

(** * Properties *)

(** ** What a binding leaves unchanged *)

Lemma vdbe_rebound_refl v : vdbe_rebound v v.
Proof. destruct v; simpl; auto 10. Qed.

Lemma vdbe_rebound_trans a b c :
  vdbe_rebound a b -> vdbe_rebound b c -> vdbe_rebound a c.
Proof.
  destruct a, b, c; simpl; try tauto.
  intros (? & ? & ? & ? & ? & ?) (? & ? & ? & ? & ? & ?).
  repeat split; congruence.
Qed.

Lemma stmt_rebound_refl st : stmt_rebound st st.
Proof. repeat split. apply vdbe_rebound_refl. Qed.

Lemma stmt_rebound_trans a b c :
  stmt_rebound a b -> stmt_rebound b c -> stmt_rebound a c.
Proof.
  intros (? & ? & ?) (? & ? & ?). repeat split; try congruence.
  eapply vdbe_rebound_trans; eauto.
Qed.

Lemma rebound_refl w st : statement (cursor w) = Some st -> rebound w w.
Proof.
  intros H. exists st, st. split; [done|]. split; [apply stmt_rebound_refl|].
  destruct w as [c e l]; destruct c; simpl in *. by subst.
Qed.

Lemma rebound_trans a b c : rebound a b -> rebound b c -> rebound a c.
Proof.
  intros (s1 & s2 & H1 & R1 & E1) (s2' & s3 & H2 & R2 & E2).
  rewrite E1 in H2. simpl in H2. injection H2 as <-.
  exists s1, s3. split; [done|]. split; [eapply stmt_rebound_trans; eauto|].
  rewrite E2. unfold set_statement, set_cursor. simpl. rewrite E1. reflexivity.
Qed.

Lemma rebound_set_pyerr w w' e : rebound w w' -> rebound w (set_pyerr e w').
Proof. intros (s & s' & ? & ? & ?). exists s, s'. auto. Qed.

Lemma sqlite3_bind_rebound v arg val :
  vdbe_rebound v (snd (sqlite3_bind v arg val)).
Proof.
  destruct v as [vd|]; simpl; [|done].
  destruct (0 <? v_pc vd)%nat; simpl; [auto 10|].
  destruct ((1 <=? arg) && (arg <=? Z.of_nat (length (v_params vd)))); simpl;
    [|auto 10].
  repeat split. apply length_insert.
Qed.

Lemma bind_call_spec arg val w st :
  statement (cursor w) = Some st ->
  exists w',
    bind_call arg val w = Done (fst (sqlite3_bind (vdbestatement st) arg val)) w'
    /\ rebound w w' /\ pyerr w' = pyerr w
    /\ log w' = log w ++ [EvBind arg val].
Proof.
  intros H. unfold bind_call. rewrite H. eexists. split; [reflexivity|].
  split; [|done].
  eexists st, _. split; [done|]. split; [|reflexivity].
  repeat split. apply sqlite3_bind_rebound.
Qed.

Lemma bind_and_finish_spec arg val w st :
  statement (cursor w) = Some st -> pyerr w = None ->
  exists r w',
    (call res, w1 <- bind_call arg val w in dobinding_finish res w1) = Done r w'
    /\ rebound w w'
    /\ ((r = 0 /\ pyerr w' = None /\ log w' = log w ++ [EvBind arg val])
        \/ (r = -1 /\ exists e, pyerr w' = Some e /\ is_ExcBindings e = false)).
Proof.
  intros Hst Herr.
  destruct (bind_call_spec arg val w st Hst) as (w1 & -> & Hr & He & Hl).
  simpl. unfold dobinding_finish.
  destruct (fst (sqlite3_bind (vdbestatement st) arg val) =? SQLITE_OK) eqn:Hrc;
    simpl.
  - unfold PyErr_Occurred. rewrite He, Herr.
    do 2 eexists. split; [reflexivity|]. split; [done|]. left. by rewrite He.
  - unfold SET_EXC, PyErr_Occurred. rewrite Hrc, He, Herr. simpl.
    do 2 eexists. split; [reflexivity|]. split; [by apply rebound_set_pyerr|].
    right. eauto.
Qed.

Lemma raise_spec w st e :
  statement (cursor w) = Some st -> is_ExcBindings e = false ->
  rebound w (PyErr_Format e w) /\
  exists e', pyerr (PyErr_Format e w) = Some e' /\ is_ExcBindings e' = false.
Proof.
  intros Hst He. split; [|by exists e].
  apply rebound_set_pyerr. by eapply rebound_refl.
Qed.

Lemma SET_EXC_TOOBIG_spec w :
  pyerr w = None ->
  SET_EXC SQLITE_TOOBIG w = PyErr_Format (SQLiteError SQLITE_TOOBIG) w.
Proof. intros H. unfold SET_EXC, PyErr_Occurred. by rewrite H. Qed.

Lemma bind_unidata_spec arg u toobig_res w st :
  statement (cursor w) = Some st -> pyerr w = None ->
  exists r w',
    bind_unidata arg u toobig_res w = Done r w' /\ rebound w w' /\
    ((r = 0 /\ pyerr w' = None /\
      exists v, text_value u = Some v /\ log w' = log w ++ [EvBind arg v])
     \/ (r = -1 /\ exists e, pyerr w' = Some e /\ is_ExcBindings e = false)).
Proof.
  intros Hst Herr. unfold bind_unidata, text_value.
  destruct (uni_strbytes u) as [strbytes|name].
  - destruct (strbytes >? APSW_INT32_MAX) eqn:Hbig.
    + rewrite SET_EXC_TOOBIG_spec by done.
      destruct (raise_spec w st (SQLiteError SQLITE_TOOBIG) Hst eq_refl)
        as (Hr & e & He & Hn).
      unfold dobinding_finish, SET_EXC, PyErr_Occurred. rewrite He.
      destruct (toobig_res =? SQLITE_OK); simpl; eauto 10.
    + destruct (bind_and_finish_spec arg (SqlText (uni_chars u) strbytes) w st
                  Hst Herr) as (r & w' & -> & Hr & [(-> & ? & ?)|H]);
        eauto 12.
  - destruct (raise_spec w st (PyException name) Hst eq_refl) as (Hr & H).
    eauto 10.
Qed.

Lemma dobinding_spec arg obj w st :
  statement (cursor w) = Some st -> pyerr w = None ->
  exists r w',
    APSWCursor_dobinding arg obj w = Done r w' /\ dobinding_post arg obj w r w'.
Proof.
  intros Hst Herr. unfold dobinding_post.
  destruct obj as [|v|v|bits|u|s|b|n|tp]; simpl.
  - destruct (bind_and_finish_spec arg SqlNull w st Hst Herr)
      as (r & w' & -> & Hr & [(-> & ? & ?)|H]); eauto 12.
  - destruct (bind_and_finish_spec arg (SqlInteger v) w st Hst Herr)
      as (r & w' & -> & Hr & [(-> & ? & ?)|H]); eauto 12.
  - unfold PyLong_AsLongLong.
    destruct ((LLONG_MIN <=? v) && (v <=? LLONG_MAX)); simpl.
    + destruct (bind_and_finish_spec arg (SqlInteger v) w st Hst Herr)
        as (r & w' & -> & Hr & [(-> & ? & ?)|H]); eauto 12.
    + destruct (raise_spec w st PyExc_OverflowError Hst eq_refl)
        as (Hr0 & e & He & Hn).
      destruct (bind_call_spec arg (SqlInteger (-1))
                  (PyErr_Format PyExc_OverflowError w) st Hst)
        as (w1 & -> & Hr & He1 & Hl).
      simpl. unfold dobinding_finish, SET_EXC, PyErr_Occurred.
      rewrite He1, He.
      assert (rebound w w1) by exact (rebound_trans _ _ _ Hr0 Hr).
      exists (-1), w1. split.
      { by destruct (fst (sqlite3_bind (vdbestatement st) arg (SqlInteger (-1)))
                     =? SQLITE_OK). }
      split; [done|]. right. split; [done|]. exists e. by rewrite He1.
  - destruct (bind_and_finish_spec arg (SqlFloat bits) w st Hst Herr)
      as (r & w' & -> & Hr & [(-> & ? & ?)|H]); eauto 12.
  - apply (bind_unidata_spec arg u SQLITE_OK w st Hst Herr).
  - destruct (string_chk (str_val s) <? Z.of_nat (String.length (str_val s))).
    + destruct (str_unicode s) as [str2|name].
      * apply (bind_unidata_spec arg str2 SQLITE_TOOBIG w st Hst Herr).
      * destruct (raise_spec w st (PyException name) Hst eq_refl) as (Hr & H).
        eauto 10.
    + destruct (bind_and_finish_spec arg
                  (SqlText (str_val s) (Z.of_nat (String.length (str_val s))))
                  w st Hst Herr)
        as (r & w' & -> & Hr & [(-> & ? & ?)|H]); eauto 12.
  - destruct (buf_buflen b) as [buflen|name].
    + destruct (buflen >? APSW_INT32_MAX).
      * rewrite SET_EXC_TOOBIG_spec by done.
        destruct (raise_spec w st (SQLiteError SQLITE_TOOBIG) Hst eq_refl)
          as (Hr & H).
        eauto 10.
      * destruct (bind_and_finish_spec arg (SqlBlob (buf_data b) buflen) w st
                    Hst Herr)
          as (r & w' & -> & Hr & [(-> & ? & ?)|H]); eauto 12.
    + destruct (raise_spec w st (PyException name) Hst eq_refl) as (Hr & H).
      eauto 10.
  - destruct (bind_and_finish_spec arg (SqlZeroBlob n) w st Hst Herr)
      as (r & w' & -> & Hr & [(-> & ? & ?)|H]); eauto 12.
  - destruct (raise_spec w st
                (BadBindingType (to_int (arg + bindingsoffset (cursor w))) tp)
                Hst eq_refl) as (Hr & H).
    eauto 10.
Qed.

Lemma rebound_fields w w' :
  rebound w w' ->
  bindings (cursor w') = bindings (cursor w) /\
  bindingsoffset (cursor w') = bindingsoffset (cursor w) /\
  status (cursor w') = status (cursor w) /\
  emiter (cursor w') = emiter (cursor w) /\
  emoriginalquery (cursor w') = emoriginalquery (cursor w) /\
  exectrace (cursor w') = exectrace (cursor w) /\
  rowtrace (cursor w') = rowtrace (cursor w) /\
  inuse (cursor w') = inuse (cursor w) /\
  connection_db (cursor w') = connection_db (cursor w).
Proof. intros (s & s' & _ & _ & ->). simpl. auto 10. Qed.

Lemma rebound_statement w w' st :
  rebound w w' -> statement (cursor w) = Some st ->
  exists st', statement (cursor w') = Some st' /\ stmt_rebound st st'.
Proof.
  intros (s & s' & H1 & H2 & ->) H. rewrite H in H1. injection H1 as <-.
  by exists s'.
Qed.

Lemma dobindings_seq_spec items :
  forall (todo : nat) (arg : Z) (w : World) (st : APSWStatement),
    statement (cursor w) = Some st -> pyerr w = None ->
    bindings (cursor w) = Some (BSeq items) ->
    0 <= arg - 1 + bindingsoffset (cursor w) ->
    arg - 1 + bindingsoffset (cursor w) + Z.of_nat todo
      <= Z.of_nat (length items) ->
    exists r w',
      dobindings_seq arg todo w = Done r w' /\ rebound w w' /\
      ((r = 0 /\ pyerr w' = None /\
        exists vals,
          mapM engine_value
            (take todo
               (drop (Z.to_nat (arg - 1 + bindingsoffset (cursor w))) items))
          = Some vals
          /\ log w' = log w ++ bind_events arg vals)
       \/ (r = -1 /\ exists e, pyerr w' = Some e /\ is_ExcBindings e = false)).
Proof.
  induction todo as [|todo IH]; intros arg w st Hst Herr Hb Hlo Hhi.
  - exists 0, w. split; [done|]. split; [by eapply rebound_refl|]. left.
    split; [done|]. split; [done|]. exists []. split; [done|].
    simpl. by rewrite app_nil_r.
  - simpl dobindings_seq. unfold PySequence_Fast_GET_ITEM. rewrite Hb.
    set (k := arg - 1 + bindingsoffset (cursor w)) in *.
    destruct (k <? 0) eqn:Hk; [lia|].
    destruct (lookup_lt_is_Some_2 items (Z.to_nat k)) as [obj Hobj]; [lia|].
    rewrite Hobj.
    destruct (dobinding_spec arg obj w st Hst Herr)
      as (r & w1 & -> & Hr & [(-> & He1 & v & Hv & Hl)|(-> & e & He & Hn)]).
    + simpl bindM. change (0 =? 0) with true. cbv iota.
      destruct (rebound_fields _ _ Hr) as (Hb1 & Ho1 & _).
      destruct (rebound_statement _ _ _ Hr Hst) as (st1 & Hst1 & _).
      destruct (IH (arg + 1) w1 st1 Hst1 He1) as (r & w2 & -> & Hr2 & Hpost).
      { by rewrite Hb1. }
      { rewrite Ho1. lia. }
      { rewrite Ho1. lia. }
      exists r, w2. split; [done|].
      split; [eapply rebound_trans; eauto|].
      destruct Hpost as [(-> & He2 & vals & Hvals & Hl2)|H]; [left|by right].
      split; [done|]. split; [done|]. exists (v :: vals). split.
      * rewrite (drop_S _ _ _ Hobj). simpl. rewrite Hv. simpl.
        rewrite Ho1 in Hvals.
        replace (Z.to_nat (arg + 1 - 1 + bindingsoffset (cursor w)))
          with (S (Z.to_nat k)) in Hvals by lia.
        by rewrite Hvals.
      * rewrite Hl2, Hl. simpl. by rewrite <- app_assoc.
    + simpl. exists (-1), w1. split; [done|]. split; [done|]. right. eauto.
Qed.

Lemma to_int_small z : -2147483648 <= z <= 2147483647 -> to_int z = z.
Proof. intros H. unfold to_int. rewrite Z.mod_small; lia. Qed.

(** A C [int] never exceeds the non-negative size it was converted from. *)
Lemma to_int_le z : 0 <= z -> to_int z <= z.
Proof.
  intros H. unfold to_int.
  pose proof (Z.mod_pos_bound (z + 2147483648) 4294967296 eq_refl).
  destruct (Z_lt_le_dec z 2147483648).
  - rewrite Z.mod_small; lia.
  - lia.
Qed.

(** ** C1: the arity check of sequence bindings *)

(** The arity check for a sequence whose length fits the C [int] that
    receives it.  A statement is bound from a flat sequence [items], which
    holds [available] values, of which earlier statements of the batch
    consumed [offset]; the statement declares [n] parameters.  If another
    statement follows, the resolver fails with a BindingsError exactly when
    [available - offset < n]; if none follows, exactly when
    [available - offset <> n].  When it succeeds, the bind calls it made are
    those for positions 1..n with the values of [items[offset .. offset+n)],
    in order, and the offset has become [offset + n].  The other
    preconditions are the function's own assertions (no exception pending,
    a non-negative offset). *)
Lemma dobindings_sequence_arity (w : World) (st : APSWStatement)
  (items : list PyObject) :
  statement (cursor w) = Some st ->
  bindings (cursor w) = Some (BSeq items) ->
  pyerr w = None ->
  0 <= bindingsoffset (cursor w) ->
  Z.of_nat (length items) <= 2147483647 ->
  let n := sqlite3_bind_parameter_count (vdbestatement st) in
  let offset := bindingsoffset (cursor w) in
  let available := Z.of_nat (length items) in
  exists r w',
    APSWCursor_dobindings w = Done r w' /\
    (r = 0 \/ r = -1) /\
    ((exists e, r = -1 /\ pyerr w' = Some e /\ is_ExcBindings e = true) <->
     (if has_next st then available - offset < n else available - offset <> n))
    /\
    (r = 0 ->
     pyerr w' = None /\
     bindingsoffset (cursor w') = offset + n /\
     exists vals,
       mapM engine_value (take (Z.to_nat n) (drop (Z.to_nat offset) items))
       = Some vals
       /\ log w' = log w ++ bind_events 1 vals).
Proof.
  intros Hst Hb Herr Hoff Hlen n offset available.
  assert (Hn : 0 <= n).
  { subst n. unfold sqlite3_bind_parameter_count.
    destruct (vdbestatement st); lia. }
  unfold APSWCursor_dobindings. rewrite Hst, Hb. fold n. fold offset.
  rewrite !andb_false_r. rewrite to_int_small by lia. fold available.
  destruct (has_next st) eqn:Hnext; simpl andb.
  - destruct (available - offset <? n) eqn:Hcmp.
    + do 2 eexists. split; [reflexivity|]. split; [by right|]. split.
      * split; [lia|]. intros _. eexists. by repeat split.
      * intros [=].
    + destruct (dobindings_seq_spec items (Z.to_nat n) 1 w st Hst Herr Hb)
        as (r & w1 & -> & Hr & Hpost); [fold offset; lia ..|].
      destruct (rebound_fields _ _ Hr) as (_ & Ho1 & _).
      destruct Hpost as [(-> & He & vals & Hvals & Hl)|(-> & e & He & Hne)];
        simpl.
      * do 2 eexists. split; [reflexivity|]. split; [by left|]. split.
        { split; [intros (? & [=] & _)|lia]. }
        intros _. simpl. split; [done|]. split; [by rewrite Ho1|].
        exists vals. split; [|done].
        replace (1 - 1 + bindingsoffset (cursor w)) with offset in Hvals
          by (subst offset; lia).
        done.
      * do 2 eexists. split; [reflexivity|]. split; [by right|]. split.
        { split; [|lia]. intros (e' & _ & He' & Hb').
          rewrite He in He'. injection He' as <-. congruence. }
        intros [=].
  - destruct (available - offset =? n) eqn:Hcmp; simpl.
    + destruct (dobindings_seq_spec items (Z.to_nat n) 1 w st Hst Herr Hb)
        as (r & w1 & -> & Hr & Hpost); [fold offset; lia ..|].
      destruct (rebound_fields _ _ Hr) as (_ & Ho1 & _).
      destruct Hpost as [(-> & He & vals & Hvals & Hl)|(-> & e & He & Hne)];
        simpl.
      * do 2 eexists. split; [reflexivity|]. split; [by left|]. split.
        { split; [intros (? & [=] & _)|lia]. }
        intros _. simpl. split; [done|]. split; [by rewrite Ho1|].
        exists vals. split; [|done].
        replace (1 - 1 + bindingsoffset (cursor w)) with offset in Hvals
          by (subst offset; lia).
        done.
      * do 2 eexists. split; [reflexivity|]. split; [by right|]. split.
        { split; [|lia]. intros (e' & _ & He' & Hb').
          rewrite He in He'. injection He' as <-. congruence. }
        intros [=].
    + do 2 eexists. split; [reflexivity|]. split; [by right|]. split.
      * split; [lia|]. intros _. eexists. by repeat split.
      * intros [=].
Qed.

(** ** The binder, call by call *)

Lemma bind_and_finish_cases arg val w st :
  statement (cursor w) = Some st -> pyerr w = None ->
  exists r w',
    (call res, w1 <- bind_call arg val w in dobinding_finish res w1) = Done r w'
    /\ bound_at arg val w w'
    /\ ((r = 0 /\ pyerr w' = None /\ bind_rc w arg val = SQLITE_OK)
        \/ (r = -1 /\ (exists e, pyerr w' = Some e)
            /\ bind_rc w arg val <> SQLITE_OK)).
Proof.
  intros Hst Herr. unfold bind_call, bind_rc. rewrite Hst. simpl.
  unfold dobinding_finish, SET_EXC, PyErr_Occurred. simpl. rewrite Herr.
  destruct (fst (sqlite3_bind (vdbestatement st) arg val) =? SQLITE_OK) eqn:Hrc;
    simpl; do 2 eexists; (split; [reflexivity|]);
    (split; [exists st; by repeat split|]).
  - left. repeat split; [done|]. by apply Z.eqb_eq.
  - right. split; [done|]. split; [by eexists|]. by apply Z.eqb_neq.
Qed.

Lemma bind_unidata_cases arg u toobig_res w st :
  statement (cursor w) = Some st -> pyerr w = None ->
  exists r w',
    bind_unidata arg u toobig_res w = Done r w' /\
    ((r = 0 /\ pyerr w' = None /\
      exists v, text_value u = Some v /\ bound_at arg v w w'
                /\ bind_rc w arg v = SQLITE_OK)
     \/ (r = -1 /\ text_value u = None /\ cursor w' = cursor w /\
         log w' = log w /\ exists e, pyerr w' = Some e)
     \/ (r = -1 /\ exists v e, bound_at arg v w w'
                               /\ bind_rc w arg v <> SQLITE_OK
                               /\ pyerr w' = Some e)).
Proof.
  intros Hst Herr. unfold bind_unidata, text_value.
  destruct (uni_strbytes u) as [strbytes|name].
  - destruct (strbytes >? APSW_INT32_MAX) eqn:Hbig.
    + rewrite SET_EXC_TOOBIG_spec by done.
      unfold dobinding_finish, SET_EXC, PyErr_Occurred. simpl.
      destruct (toobig_res =? SQLITE_OK); simpl; do 2 eexists;
        (split; [reflexivity|]); right; left; eauto 10.
    + destruct (bind_and_finish_cases arg (SqlText (uni_chars u) strbytes) w st
                  Hst Herr)
        as (r & w' & -> & Hb & [(-> & ? & ?)|(-> & (e & ?) & ?)]);
        do 2 eexists; (split; [reflexivity|]); [left|right; right]; eauto 10.
  - do 2 eexists. split; [reflexivity|]. right; left. simpl. eauto 10.
Qed.

Lemma dobinding_cases arg obj w st :
  statement (cursor w) = Some st -> pyerr w = None ->
  exists r w',
    APSWCursor_dobinding arg obj w = Done r w' /\ dobinding_case arg obj w r w'.
Proof.
  intros Hst Herr.
  assert (Hsimple : forall val,
    engine_value obj = Some val ->
    exists r w',
      (call res, w1 <- bind_call arg val w in dobinding_finish res w1)
      = Done r w' /\ dobinding_case arg obj w r w').
  { intros val Hv.
    destruct (bind_and_finish_cases arg val w st Hst Herr)
      as (r & w' & -> & Hb & [(-> & ? & ?)|(-> & (e & ?) & ?)]);
      do 2 eexists; (split; [reflexivity|]).
    - by eapply dobinding_bound.
    - eapply dobinding_failed; eauto. }
  assert (Htext : forall u tr,
    engine_value obj = text_value u ->
    exists r w',
      bind_unidata arg u tr w = Done r w' /\ dobinding_case arg obj w r w').
  { intros u tr Hv.
    destruct (bind_unidata_cases arg u tr w st Hst Herr)
      as (r & w' & -> & [(-> & ? & v & Hv' & ? & ?)
                        |[(-> & Hv' & ? & ? & e & ?)
                         |(-> & v & e & ? & ? & ?)]]);
      do 2 eexists; (split; [reflexivity|]).
    - eapply dobinding_bound; eauto. congruence.
    - eapply dobinding_refused; eauto. congruence.
    - eapply dobinding_failed; eauto. }
  destruct obj as [|v|v|bits|u|s|b|n|tp]; simpl;
    try (by apply Hsimple).
  - unfold PyLong_AsLongLong.
    destruct ((LLONG_MIN <=? v) && (v <=? LLONG_MAX)) eqn:Hrange; simpl.
    + apply Hsimple. simpl. by rewrite Hrange.
    + unfold bind_call. simpl. rewrite Hst. simpl.
      unfold dobinding_finish, SET_EXC, PyErr_Occurred. simpl.
      exists (-1). eexists. split.
      { by destruct (fst (sqlite3_bind (vdbestatement st) arg (SqlInteger (-1)))
                     =? SQLITE_OK). }
      eapply dobinding_failed with (v := SqlInteger (-1)).
      * exists st. by repeat split.
      * right. simpl. by rewrite Hrange.
      * reflexivity.
  - by apply Htext.
  - destruct (string_chk (str_val s) <? Z.of_nat (String.length (str_val s)))
      eqn:Hchk.
    + destruct (str_unicode s) as [str2|name] eqn:Hu.
      * apply Htext. simpl. by rewrite Hchk, Hu.
      * do 2 eexists. split; [reflexivity|].
        eapply dobinding_refused; try reflexivity. simpl. by rewrite Hchk, Hu.
    + apply Hsimple. simpl. by rewrite Hchk.
  - destruct (buf_buflen b) as [buflen|name] eqn:Hlen.
    + destruct (buflen >? APSW_INT32_MAX) eqn:Hbig.
      * rewrite SET_EXC_TOOBIG_spec by done.
        do 2 eexists. split; [reflexivity|].
        eapply dobinding_refused; try reflexivity. simpl. by rewrite Hlen, Hbig.
      * apply Hsimple. simpl. by rewrite Hlen, Hbig.
    + do 2 eexists. split; [reflexivity|].
      eapply dobinding_refused; try reflexivity. simpl. by rewrite Hlen.
  - do 2 eexists. split; [reflexivity|].
    eapply dobinding_refused; reflexivity.
Qed.

(** ** C3: mapping bindings *)

Lemma sqlite3_bind_fresh vd (k : nat) v :
  v_pc vd = 0%nat -> (k < length (v_params vd))%nat ->
  sqlite3_bind (Some vd) (Z.of_nat k + 1) v =
    (SQLITE_OK,
     Some {| v_params := v_params vd; v_prog := v_prog vd;
             v_bound := <[k := v]> (v_bound vd);
             v_pc := v_pc vd; v_rc := v_rc vd; v_row := v_row vd |}).
Proof.
  intros Hpc Hk. unfold sqlite3_bind. rewrite Hpc. simpl.
  replace ((1 <=? Z.of_nat k + 1) &&
           (Z.of_nat k + 1 <=? Z.of_nat (length (v_params vd)))) with true
    by (symmetry; apply andb_true_iff; split; apply Z.leb_le; lia).
  by replace (Z.to_nat (Z.of_nat k + 1 - 1)) with k by lia.
Qed.

Lemma dobindings_dict_spec d :
  forall (todo k : nat) (w : World) (st : APSWStatement) (vd : vdbe),
    statement (cursor w) = Some st -> vdbestatement st = Some vd ->
    pyerr w = None -> v_pc vd = 0%nat ->
    length (v_bound vd) = length (v_params vd) ->
    (k + todo = length (v_params vd))%nat ->
    exists r w',
      dobindings_dict d (Z.of_nat k + 1) todo w = Done r w' /\
      dict_loop_post d (v_params vd) k w (v_bound vd) r w'.
Proof.
  induction todo as [|todo IH]; intros k w st vd Hst Hvd Herr Hpc Hlen Hk.
  - exists 0, w. split; [done|]. exists st, vd, []. rewrite app_nil_r.
    repeat split; try done.
    + intros arg v H. by apply elem_of_nil in H.
    + left. repeat split; try done. intros i key obj Hi Hkey.
      unfold param_key in Hkey. rewrite lookup_ge_None_2 in Hkey by lia. done.
  - simpl dobindings_dict. rewrite Hst.
    unfold sqlite3_bind_parameter_name. rewrite Hvd.
    replace ((1 <=? Z.of_nat k + 1) &&
             (Z.of_nat k + 1 <=? Z.of_nat (length (v_params vd)))) with true
      by (symmetry; apply andb_true_iff; split; apply Z.leb_le; lia).
    replace (Z.to_nat (Z.of_nat k + 1 - 1)) with k by lia.
    destruct (lookup_lt_is_Some_2 (v_params vd) k) as [name Hname]; [lia|].
    rewrite Hname. simpl mjoin.
    assert (Hpk : param_key (v_params vd) k = strip_marker <$> name).
    { unfold param_key. by rewrite Hname. }
    replace (Z.of_nat k + 1 + 1) with (Z.of_nat (S k) + 1) by lia.
    destruct name as [key|]; simpl in Hpk.
    + destruct (d !! strip_marker key) as [obj|] eqn:Hd.
      * destruct (dobinding_cases (Z.of_nat k + 1) obj w st Hst Herr)
          as (r & w1 & -> & Hcase).
        simpl bindM.
        assert (Hrc : forall v, bind_rc w (Z.of_nat k + 1) v = SQLITE_OK).
        { intros v. unfold bind_rc. rewrite Hst, Hvd.
          rewrite sqlite3_bind_fresh by (done || lia). done. }
        inversion Hcase as [w1' v Hv Hb _ He1|w1' e Hv Hc Hl He1
                           |w1' v e Hb Hwhy He1]; subst.
        -- change (0 =? SQLITE_OK) with true. cbv iota.
           destruct Hb as (st0 & Hst0 & Hc & Hl).
           rewrite Hst in Hst0. injection Hst0 as <-.
           rewrite Hvd, sqlite3_bind_fresh in Hc by (done || lia).
           simpl in Hc.
           set (vd1 := {| v_params := v_params vd; v_prog := v_prog vd;
                          v_bound := <[k:=v]> (v_bound vd); v_pc := v_pc vd;
                          v_rc := v_rc vd; v_row := v_row vd |}) in Hc.
           set (st1 := {| vdbestatement := Some vd1; utf8 := utf8 st;
                          next := next st |}) in Hc.
           destruct (IH (S k) w1 st1 vd1) as (r & w2 & -> & Hpost);
             try done.
           { by rewrite Hc. }
           { simpl. by rewrite length_insert. }
           { simpl. lia. }
           exists r, w2. split; [done|].
           destruct Hpost as (st' & vd' & evs & Hst' & Hvd' & Hl2 & Hun & Hev
                              & Hres).
           exists st', vd', (EvBind (Z.of_nat k + 1) v :: evs).
           split; [done|]. split; [done|].
           split; [rewrite Hl2, Hl; by rewrite <- app_assoc|].
           split; [|split].
           ++ intros i Hi. rewrite Hun.
              ** simpl. apply list_lookup_insert_ne.
                 destruct Hi as [Hi|(key' & Hk' & Hd')]; [lia|].
                 intros <-. simpl in Hk'. congruence.
              ** destruct Hi as [Hi|Hi]; [left; lia|by right].
           ++ intros arg v' Hin. apply elem_of_cons in Hin as [Heq|Hin].
              ** injection Heq as -> ->. exists (strip_marker key), obj.
                 split; [lia|].
                 replace (Z.to_nat (Z.of_nat k + 1 - 1)) with k by lia. done.
              ** destruct (Hev arg v' Hin) as (key' & obj' & ? & ? & ?).
                 exists key', obj'. split; [lia|done].
           ++ destruct Hres as [(-> & He2 & Hall)|(-> & He2 & Hwhy)];
                [left|right; done].
              split; [done|]. split; [done|].
              intros i key' obj' Hi Hk' Hd'.
              destruct (decide (i = k)) as [->|Hne].
              ** exists v. simpl in Hk'.
                 assert (obj' = obj) as -> by congruence.
                 split; [done|]. rewrite Hun by (left; lia). simpl.
                 apply list_lookup_insert_eq. lia.
              ** apply (Hall i key' obj'); [lia|done..].
        -- change (-1 =? SQLITE_OK) with false. cbv iota.
           exists (-1), w1. split; [done|].
           exists st, vd, []. rewrite Hc, Hl, app_nil_r.
           repeat split; try done.
           { intros arg v H. by apply elem_of_nil in H. }
           right. split; [done|]. split; [by eexists|]. right.
           exists k, (strip_marker key), obj. done.
        -- change (-1 =? SQLITE_OK) with false. cbv iota.
           destruct Hwhy as [Hbad|Hv]; [by rewrite Hrc in Hbad|].
           destruct Hb as (st0 & Hst0 & Hc & Hl).
           rewrite Hst in Hst0. injection Hst0 as <-.
           rewrite Hvd, sqlite3_bind_fresh in Hc by (done || lia).
           simpl in Hc.
           exists (-1), w1. split; [done|].
           eexists _, _, [EvBind (Z.of_nat k + 1) v].
           rewrite Hc. simpl.
           split; [reflexivity|]. split; [reflexivity|]. split; [done|].
           split; [|split].
           ++ intros i Hi. simpl. apply list_lookup_insert_ne.
              destruct Hi as [Hi|(key' & Hk' & Hd')]; [lia|].
              intros <-. simpl in Hk'. congruence.
           ++ intros arg v' Hin. apply list_elem_of_singleton in Hin.
              injection Hin as -> ->. exists (strip_marker key), obj.
              split; [lia|].
              replace (Z.to_nat (Z.of_nat k + 1 - 1)) with k by lia. done.
           ++ right. split; [done|]. split; [by eexists|]. right.
              exists k, (strip_marker key), obj. done.
      * destruct (IH (S k) w st vd) as (r & w2 & -> & Hpost); try done; [lia|].
        exists r, w2. split; [done|].
        destruct Hpost as (st' & vd' & evs & Hst' & Hvd' & Hl2 & Hun & Hev
                           & Hres).
        exists st', vd', evs. repeat split; try done.
        -- intros i Hi. apply Hun.
           destruct Hi as [Hi|Hi]; [|by right].
           destruct (decide (i = k)) as [->|Hne]; [right|left; lia].
           by exists (strip_marker key).
        -- intros arg v' Hin.
           destruct (Hev arg v' Hin) as (key' & obj' & ? & ? & ?).
           exists key', obj'. split; [lia|done].
        -- destruct Hres as [(-> & He2 & Hall)|(-> & He2 & Hwhy)];
             [left|right; done].
           split; [done|]. split; [done|].
           intros i key' obj' Hi Hk' Hd'.
           destruct (decide (i = k)) as [->|Hne]; [congruence|].
           apply (Hall i key' obj'); [lia|done..].
    + exists (-1). eexists. split; [reflexivity|].
      exists st, vd, []. simpl. rewrite app_nil_r.
      repeat split; try done.
      { intros arg v H. by apply elem_of_nil in H. }
      right. split; [done|]. split; [by eexists|]. left. by exists k.
Qed.

Lemma dobindings_sequence_arity_witness :
  exists r w',
    APSWCursor_dobindings first_of_two = Done r w' /\
    (r = 0 \/ r = -1) /\
    ((exists e, r = -1 /\ pyerr w' = Some e /\ is_ExcBindings e = true) <->
     3 - 0 < 1) /\
    (r = 0 ->
     pyerr w' = None /\
     bindingsoffset (cursor w') = 0 + 1 /\
     exists vals,
       mapM engine_value (take 1 (drop 0 [PyLong 1; PyLong 2; PyLong 3]))
       = Some vals
       /\ log w' = log first_of_two ++ bind_events 1 vals).
Proof.
  apply (dobindings_sequence_arity first_of_two
           {| vdbestatement :=
                Some {| v_params := [None];
                        v_prog := fun bound => [StepRow bound; StepDone];
                        v_bound := [SqlNull]; v_pc := 0; v_rc := SQLITE_OK;
                        v_row := [] |};
              utf8 := two_selects;
              next := Some [select_bound "select ?, ?" [None; None]] |}
           [PyLong 1; PyLong 2; PyLong 3]);
    [reflexivity | reflexivity | reflexivity | simpl; lia | simpl; lia].
Defined.

(** C3.  With a mapping as bindings, on a statement as the cache hands it
    out (not yet stepped, every parameter NULL): each parameter whose
    stripped name is not a key of the mapping is NULL after the resolver
    ran, and no engine call was made for it; and if the resolver fails, the
    cause is a parameter without a name or a value that is present and
    cannot be bound, never a missing key.  In particular
    [execute("select :a, :b", {"a": 1})] yields the row [(1, None)] and then
    the end of the data. *)
Theorem mapping_missing_key_binds_null :
  (forall (w : World) (st : APSWStatement) (vd : vdbe)
          (d : gmap string PyObject),
      statement (cursor w) = Some st -> vdbestatement st = Some vd ->
      bindings (cursor w) = Some (BDict d) -> pyerr w = None ->
      v_pc vd = 0%nat ->
      v_bound vd = replicate (length (v_params vd)) SqlNull ->
      exists r w' st' vd' evs,
        APSWCursor_dobindings w = Done r w' /\
        statement (cursor w') = Some st' /\ vdbestatement st' = Some vd' /\
        log w' = log w ++ evs /\
        (forall (i : nat) key,
            param_key (v_params vd) i = Some key -> d !! key = None ->
            v_bound vd' !! i = Some SqlNull /\
            forall v, EvBind (Z.of_nat i + 1) v ∉ evs) /\
        ((r = 0 /\ pyerr w' = None) \/
         (r = -1 /\ (exists e, pyerr w' = Some e) /\
          ((exists i : nat, v_params vd !! i = Some None) \/
           (exists (i : nat) key obj,
               param_key (v_params vd) i = Some key /\ d !! key = Some obj /\
               engine_value obj = None)))))
  /\
  (exists w1 w2 w3,
      APSWCursor_execute (Args [select_a_b] [ArgDict {[ "a"%string := PyLong 1 ]}])
        APSWCursor_init = Done RetSelf w1 /\
      APSWCursor_next 2 w1 = Done (RetTuple [PyLong 1; Py_None]) w2 /\
      APSWCursor_next 2 w2 = Done RetNULL w3 /\
      pyerr w1 = None /\ pyerr w2 = None /\ pyerr w3 = None /\
      status (cursor w3) = C_DONE).
Proof.
  split.
  - intros w st vd d Hst Hvd Hb Herr Hpc Hfresh.
    destruct (dobindings_dict_spec d (length (v_params vd)) 0 w st vd)
      as (r & w' & Hrun & st' & vd' & evs & Hst' & Hvd' & Hl & Hun & Hev & Hres);
      try done.
    { rewrite Hfresh. apply length_replicate. }
    exists r, w', st', vd', evs. split.
    { unfold APSWCursor_dobindings. rewrite Hst, Hb, Hvd. simpl.
      rewrite !andb_false_r. by rewrite Nat2Z.id. }
    do 3 (split; [done|]). split.
    + intros i key Hkey Hd. split.
      * rewrite Hun by (right; eauto). rewrite Hfresh.
        apply lookup_replicate_2. apply lookup_lt_is_Some.
        unfold param_key in Hkey. destruct (v_params vd !! i); [eauto|done].
      * intros v Hin. destruct (Hev _ _ Hin) as (key' & obj & _ & Hk' & Hd').
        replace (Z.to_nat (Z.of_nat i + 1 - 1)) with i in Hk' by lia.
        congruence.
    + destruct Hres as [(-> & ? & _)|(-> & ? & ?)]; [by left|by right].
  - set (e1 := APSWCursor_execute
                 (Args [select_a_b] [ArgDict {[ "a"%string := PyLong 1 ]}])
                 APSWCursor_init).
    set (w1 := world_of e1).
    set (w2 := world_of (APSWCursor_next 2 w1)).
    exists w1, w2, (world_of (APSWCursor_next 2 w2)).
    do 6 (split; [vm_compute; reflexivity|]). vm_compute; reflexivity.
Qed.

Lemma mapping_missing_key_binds_null_witness :
  exists r w' st' vd' evs,
    APSWCursor_dobindings a_without_b = Done r w' /\
    statement (cursor w') = Some st' /\ vdbestatement st' = Some vd' /\
    log w' = log a_without_b ++ evs /\
    (forall (i : nat) key,
        param_key [Some ":a"%string; Some ":b"%string] i = Some key ->
        ({[ "a"%string := PyLong 1 ]} : gmap string PyObject) !! key = None ->
        v_bound vd' !! i = Some SqlNull /\
        forall v, EvBind (Z.of_nat i + 1) v ∉ evs) /\
    ((r = 0 /\ pyerr w' = None) \/
     (r = -1 /\ (exists e, pyerr w' = Some e) /\
      ((exists i : nat,
           [Some ":a"%string; Some ":b"%string] !! i = Some None) \/
       (exists (i : nat) key obj,
           param_key [Some ":a"%string; Some ":b"%string] i = Some key /\
           ({[ "a"%string := PyLong 1 ]} : gmap string PyObject) !! key
           = Some obj /\
           engine_value obj = None)))).
Proof.
  apply (proj1 mapping_missing_key_binds_null a_without_b
           {| vdbestatement :=
                Some {| v_params := [Some ":a"%string; Some ":b"%string];
                        v_prog := fun bound => [StepRow bound; StepDone];
                        v_bound := [SqlNull; SqlNull]; v_pc := 0;
                        v_rc := SQLITE_OK; v_row := [] |};
              utf8 := [select_a_b]; next := None |}
           {| v_params := [Some ":a"%string; Some ":b"%string];
              v_prog := fun bound => [StepRow bound; StepDone];
              v_bound := [SqlNull; SqlNull]; v_pc := 0;
              v_rc := SQLITE_OK; v_row := [] |}
           {[ "a"%string := PyLong 1 ]});
    reflexivity.
Defined.

(** ** C4: oversize text and blobs *)

Lemma string_chk_short val :
  (string_chk val <? Z.of_nat (String.length val)) = false ->
  Z.of_nat (String.length val) < 10000.
Proof.
  unfold string_chk. intros H.
  destruct (Z.of_nat (String.length val) <? 10000) eqn:Hlt; [lia|].
  apply Z.ltb_ge in H. lia.
Qed.

(** C4.  A text or blob value whose encoded length exceeds the 32-bit
    signed maximum makes the binder fail with the "too big" error
    ([SQLITE_TOOBIG]) without any engine call: the log of calls and the
    whole cursor, statement included, are as before. *)
Theorem dobinding_oversize (arg : Z) (obj : PyObject) (w : World) (n : Z) :
  pyerr w = None ->
  encoded_length obj = Some n ->
  n > APSW_INT32_MAX ->
  exists w',
    APSWCursor_dobinding arg obj w = Done (-1) w' /\
    pyerr w' = Some (SQLiteError SQLITE_TOOBIG) /\
    log w' = log w /\
    cursor w' = cursor w.
Proof.
  intros Herr Hlen Hbig.
  assert (Hunidata : forall u tr,
    uni_strbytes u = Converted n ->
    (tr = SQLITE_OK \/ tr = SQLITE_TOOBIG) ->
    exists w',
      bind_unidata arg u tr w = Done (-1) w' /\
      pyerr w' = Some (SQLiteError SQLITE_TOOBIG) /\
      log w' = log w /\ cursor w' = cursor w).
  { intros u tr Hu Htr. unfold bind_unidata. rewrite Hu.
    replace (n >? APSW_INT32_MAX) with true by (symmetry; lia).
    rewrite SET_EXC_TOOBIG_spec by done.
    unfold dobinding_finish, SET_EXC, PyErr_Occurred. simpl.
    destruct Htr as [-> | ->]; simpl; eauto. }
  destruct obj as [|v|v|bits|u|s|b|m|tp]; simpl in Hlen; try discriminate;
    simpl.
  - destruct (uni_strbytes u) as [k|] eqn:Hu; [|discriminate].
    injection Hlen as ->. apply Hunidata; auto.
  - destruct (string_chk (str_val s) <? Z.of_nat (String.length (str_val s)))
      eqn:Hchk.
    + destruct (str_unicode s) as [str2|]; [|discriminate].
      destruct (uni_strbytes str2) as [k|] eqn:Hu; [|discriminate].
      injection Hlen as ->. apply Hunidata; auto.
    + apply string_chk_short in Hchk. injection Hlen as <-.
      unfold APSW_INT32_MAX in Hbig. lia.
  - destruct (buf_buflen b) as [k|]; [|discriminate].
    injection Hlen as ->.
    replace (n >? APSW_INT32_MAX) with true by (symmetry; lia).
    rewrite SET_EXC_TOOBIG_spec by done. eauto.
Qed.

Lemma dobinding_oversize_witness :
  exists w',
    APSWCursor_dobinding 1
      (PyUnicode {| uni_chars := "x"; uni_strbytes := Converted 78187493520 |})
      APSWCursor_init = Done (-1) w' /\
    pyerr w' = Some (SQLiteError SQLITE_TOOBIG) /\
    log w' = log APSWCursor_init /\
    cursor w' = cursor APSWCursor_init.
Proof.
  apply (dobinding_oversize 1 _ APSWCursor_init 78187493520);
    [reflexivity | reflexivity | reflexivity].
Defined.

(** ** C9: statements without parameters *)

(** For a statement that declares no parameter, the resolver succeeds
    when no bindings were supplied, when the empty sequence was, and when
    the empty mapping was; in all three cases it returns 0 and leaves the
    world as it found it: nothing is bound, no call is made, no exception
    is set.  The offset is 0, as [execute] sets it before it binds. *)
Lemma dobindings_no_parameters (w : World) (st : APSWStatement) :
  statement (cursor w) = Some st ->
  sqlite3_bind_parameter_count (vdbestatement st) = 0 ->
  bindingsoffset (cursor w) = 0 ->
  APSWCursor_dobindings (set_bindings None w) = Done 0 (set_bindings None w) /\
  APSWCursor_dobindings (set_bindings (Some (BSeq [])) w)
    = Done 0 (set_bindings (Some (BSeq [])) w) /\
  APSWCursor_dobindings (set_bindings (Some (BDict ∅)) w)
    = Done 0 (set_bindings (Some (BDict ∅)) w).
Proof.
  intros Hst Hn Hoff. unfold APSWCursor_dobindings. simpl.
  rewrite Hst, Hn, Hoff. simpl. split; [done|]. split; [|done].
  change (to_int 0) with 0. simpl.
  destruct (has_next st); simpl; rewrite Hoff; clear - Hoff;
    destruct w as [[] ? ?]; simpl in *; by subst.
Qed.

Lemma dobindings_no_parameters_witness :
  APSWCursor_dobindings (set_bindings None select_1)
    = Done 0 (set_bindings None select_1) /\
  APSWCursor_dobindings (set_bindings (Some (BSeq [])) select_1)
    = Done 0 (set_bindings (Some (BSeq [])) select_1) /\
  APSWCursor_dobindings (set_bindings (Some (BDict ∅)) select_1)
    = Done 0 (set_bindings (Some (BDict ∅)) select_1).
Proof.
  apply (dobindings_no_parameters select_1
           {| vdbestatement :=
                Some {| v_params := [];
                        v_prog := fun bound => [StepRow bound; StepDone];
                        v_bound := []; v_pc := 0; v_rc := SQLITE_OK;
                        v_row := [] |};
              utf8 := [select_bound "select 1" []]; next := None |});
    reflexivity.
Defined.

(** [execute("select 1")], [execute("select 1", [])] and
    [execute("select 1", {})] on a new cursor are alike: the first row is
    ready and nothing was bound. *)
Example execute_select_1_alike :
  let run more :=
    observed (APSWCursor_execute (Args [select_bound "select 1" []] more)
                                 APSWCursor_init) in
  run [ArgObject (Returned [])] = run [] /\
  run [ArgDict ∅] = run [] /\
  exists st,
    run [] = Some (RetSelf, [EvPrepare "select 1" true; EvStep "select 1"],
                   None, C_ROW, Some st).
Proof.
  split; [vm_compute; reflexivity|]. split; [vm_compute; reflexivity|].
  eexists. vm_compute. reflexivity.
Qed.

(** ** The resolver never faults on a held statement *)

Lemma dobinding_finish_total res w :
  exists r, dobinding_finish res w = Done r (SET_EXC res w).
Proof.
  unfold dobinding_finish, SET_EXC.
  destruct (negb (res =? SQLITE_OK)); simpl; [eauto|].
  destruct (PyErr_Occurred w); eauto.
Qed.

Lemma SET_EXC_cursor res w : cursor (SET_EXC res w) = cursor w.
Proof. unfold SET_EXC. by destruct (_ && _). Qed.

Lemma SET_EXC_log res w : log (SET_EXC res w) = log w.
Proof. unfold SET_EXC. by destruct (_ && _). Qed.

Lemma rebound_cursor w w1 w2 :
  rebound w w1 -> cursor w2 = cursor w1 -> rebound w w2.
Proof. intros (s & s' & H1 & H2 & H3) H. exists s, s'. rewrite H. auto. Qed.

Lemma rebound_from w0 w w' :
  cursor w = cursor w0 -> rebound w w' -> rebound w0 w'.
Proof.
  intros H (s & s' & H1 & H2 & Hc). exists s, s'.
  split; [by rewrite <- H|]. split; [done|].
  rewrite Hc. unfold set_statement, set_cursor. simpl. by rewrite H.
Qed.

Lemma bind_and_finish_total arg val w st :
  statement (cursor w) = Some st ->
  exists r w',
    (call res, w1 <- bind_call arg val w in dobinding_finish res w1) = Done r w'
    /\ rebound w w'.
Proof.
  intros Hst.
  destruct (bind_call_spec arg val w st Hst) as (w1 & -> & Hr & _).
  simpl.
  destruct (dobinding_finish_total
              (fst (sqlite3_bind (vdbestatement st) arg val)) w1) as [r ->].
  do 2 eexists. split; [done|].
  eapply rebound_cursor; [done|]. apply SET_EXC_cursor.
Qed.

Lemma bind_unidata_total arg u tr w st :
  statement (cursor w) = Some st ->
  exists r w', bind_unidata arg u tr w = Done r w' /\ rebound w w'.
Proof.
  intros Hst. unfold bind_unidata.
  destruct (uni_strbytes u) as [strbytes|name].
  - destruct (strbytes >? APSW_INT32_MAX).
    + destruct (dobinding_finish_total tr (SET_EXC SQLITE_TOOBIG w)) as [r ->].
      do 2 eexists. split; [done|].
      eapply rebound_cursor; [by eapply rebound_refl|].
      by rewrite !SET_EXC_cursor.
    + by eapply bind_and_finish_total.
  - do 2 eexists. split; [done|].
    apply rebound_set_pyerr. by eapply rebound_refl.
Qed.

Lemma dobinding_total arg obj w st :
  statement (cursor w) = Some st ->
  exists r w', APSWCursor_dobinding arg obj w = Done r w' /\ rebound w w'.
Proof.
  intros Hst.
  assert (Hraise : forall e, rebound w (PyErr_Format e w)).
  { intros e. apply rebound_set_pyerr. by eapply rebound_refl. }
  destruct obj as [|v|v|bits|u|s|b|n|tp]; simpl;
    try (by eapply bind_and_finish_total); try (by eapply bind_unidata_total).
  - unfold PyLong_AsLongLong.
    destruct ((LLONG_MIN <=? v) && (v <=? LLONG_MAX)); simpl.
    + by eapply bind_and_finish_total.
    + destruct (bind_and_finish_total arg (SqlInteger (-1))
                  (PyErr_Format PyExc_OverflowError w) st Hst)
        as (r & w' & -> & Hr).
      do 2 eexists. split; [done|]. eapply rebound_from; [|exact Hr]. done.
  - destruct (string_chk (str_val s) <? Z.of_nat (String.length (str_val s))).
    + destruct (str_unicode s); [by eapply bind_unidata_total|eauto].
    + by eapply bind_and_finish_total.
  - destruct (buf_buflen b) as [buflen|name]; [|eauto].
    destruct (buflen >? APSW_INT32_MAX); [|by eapply bind_and_finish_total].
    do 2 eexists. split; [done|].
    eapply rebound_cursor; [by eapply rebound_refl|]. apply SET_EXC_cursor.
  - eauto.
Qed.

Lemma dobindings_seq_total items :
  forall (todo : nat) (arg : Z) (w : World) (st : APSWStatement),
    statement (cursor w) = Some st ->
    bindings (cursor w) = Some (BSeq items) ->
    0 <= arg - 1 + bindingsoffset (cursor w) ->
    arg - 1 + bindingsoffset (cursor w) + Z.of_nat todo
      <= Z.of_nat (length items) ->
    exists r w', dobindings_seq arg todo w = Done r w' /\ rebound w w'.
Proof.
  induction todo as [|todo IH]; intros arg w st Hst Hb Hlo Hhi.
  - exists 0, w. split; [done|]. by eapply rebound_refl.
  - simpl dobindings_seq. unfold PySequence_Fast_GET_ITEM. rewrite Hb.
    set (k := arg - 1 + bindingsoffset (cursor w)) in *.
    destruct (k <? 0) eqn:Hk; [lia|].
    destruct (lookup_lt_is_Some_2 items (Z.to_nat k)) as [obj ->]; [lia|].
    destruct (dobinding_total arg obj w st Hst) as (r & w1 & -> & Hr).
    simpl bindM. destruct (r =? 0); [|eauto].
    destruct (rebound_fields _ _ Hr) as (Hb1 & Ho1 & _).
    destruct (rebound_statement _ _ _ Hr Hst) as (st1 & Hst1 & _).
    destruct (IH (arg + 1) w1 st1 Hst1) as (r' & w2 & -> & Hr2).
    { by rewrite Hb1. }
    { rewrite Ho1. lia. }
    { rewrite Ho1. lia. }
    do 2 eexists. split; [done|]. eapply rebound_trans; eauto.
Qed.

Lemma dobindings_dict_total d :
  forall (todo : nat) (arg : Z) (w : World) (st : APSWStatement),
    statement (cursor w) = Some st ->
    exists r w', dobindings_dict d arg todo w = Done r w' /\ rebound w w'.
Proof.
  induction todo as [|todo IH]; intros arg w st Hst.
  - exists 0, w. split; [done|]. by eapply rebound_refl.
  - simpl dobindings_dict. rewrite Hst.
    destruct (sqlite3_bind_parameter_name (vdbestatement st) arg) as [key|].
    + destruct (d !! strip_marker key) as [obj|]; [|by eapply IH].
      destruct (dobinding_total arg obj w st Hst) as (r & w1 & -> & Hr).
      simpl bindM. destruct (r =? SQLITE_OK); [|eauto].
      destruct (rebound_statement _ _ _ Hr Hst) as (st1 & Hst1 & _).
      destruct (IH (arg + 1) w1 st1 Hst1) as (r' & w2 & -> & Hr2).
      do 2 eexists. split; [done|]. eapply rebound_trans; eauto.
    + do 2 eexists. split; [done|].
      apply rebound_set_pyerr. by eapply rebound_refl.
Qed.

Lemma rebound_resolved w w' :
  rebound w w' -> resolved w w'.
Proof.
  intros (st & st' & Hst & Hr & Hc).
  exists st, st', (bindingsoffset (cursor w)).
  split; [done|]. split; [done|]. split.
  - rewrite Hc. by destruct w as [[] ? ?].
  - split; [auto|]. by destruct (bindings (cursor w)) as [[]|].
Qed.

Lemma dobindings_total w st :
  statement (cursor w) = Some st ->
  (forall items, bindings (cursor w) = Some (BSeq items) ->
                 0 <= bindingsoffset (cursor w)) ->
  exists r w', APSWCursor_dobindings w = Done r w' /\ resolved w w'.
Proof.
  intros Hst Hoff. unfold APSWCursor_dobindings. rewrite Hst.
  set (nargs := sqlite3_bind_parameter_count (vdbestatement st)).
  assert (Hn : 0 <= nargs).
  { subst nargs. unfold sqlite3_bind_parameter_count.
    destruct (vdbestatement st); lia. }
  assert (Hraise : forall e, resolved w (PyErr_Format e w)).
  { intros e. apply rebound_resolved, rebound_set_pyerr. by eapply rebound_refl. }
  destruct (bindings (cursor w)) as [[d|items]|] eqn:Hb; simpl.
  - rewrite !andb_false_r.
    destruct (dobindings_dict_total d (Z.to_nat nargs) 1 w st Hst)
      as (r & w' & -> & Hr).
    do 2 eexists. split; [done|]. by apply rebound_resolved.
  - rewrite !andb_false_r.
    specialize (Hoff items eq_refl).
    pose proof (to_int_le (Z.of_nat (length items)) ltac:(lia)) as Hsz.
    set (sz := to_int (Z.of_nat (length items))) in *.
    assert (Hgo : sz - bindingsoffset (cursor w) >= nargs ->
      exists r w',
        (call r, w1 <- dobindings_seq 1 (Z.to_nat nargs) w in
         if r =? 0
         then Done 0 (set_bindingsoffset (bindingsoffset (cursor w1) + nargs) w1)
         else Done r w1) = Done r w' /\ resolved w w').
    { intros Hroom.
      destruct (dobindings_seq_total items (Z.to_nat nargs) 1 w st Hst Hb)
        as (r & w1 & -> & Hr); [lia..|].
      simpl bindM. destruct (r =? 0); [|by eauto using rebound_resolved].
      do 2 eexists. split; [done|].
      destruct Hr as (s & s' & Hs & Hsr & Hc).
      exists s, s', (bindingsoffset (cursor w) + nargs).
      split; [done|]. split; [done|]. split.
      - unfold set_bindingsoffset, set_cursor. simpl. rewrite Hc. done.
      - rewrite Hb. split; [|done]. intros ? [= <-] ?. lia. }
    destruct (has_next st); simpl.
    + destruct (sz - bindingsoffset (cursor w) <? nargs) eqn:Hcmp; [eauto|].
      apply Hgo. lia.
    + destruct (sz - bindingsoffset (cursor w) =? nargs) eqn:Hcmp; simpl;
        [|eauto].
      apply Hgo. lia.
  - destruct (nargs =? 0) eqn:H0; simpl.
    + do 2 eexists. split; [done|]. apply rebound_resolved.
      by eapply rebound_refl.
    + replace (nargs >? 0) with true by (symmetry; lia). simpl. eauto.
Qed.

(** ** The invariant of the cursor *)

Lemma reset_finalize_cursor forced w :
  cursor (snd (reset_finalize forced w)) = cursor (set_statement None w).
Proof.
  unfold reset_finalize, finalize_call.
  destruct (statement (cursor w)) eqn:H; simpl.
  - destruct forced; by rewrite ?SET_EXC_cursor.
  - destruct w as [[] ? ?]. simpl in *. by subst.
Qed.

Lemma reset_remaining_statements_cursor forced nq res w :
  cursor (snd (reset_remaining_statements forced nq res w)) = cursor w.
Proof.
  unfold reset_remaining_statements.
  destruct (_ && _); [|done]. destruct (res =? SQLITE_OK); [|done].
  simpl. by destruct (PyErr_Occurred w).
Qed.

Lemma clear_StopIteration_cases w :
  clear_StopIteration w = w \/
  pyerr w <> None /\ clear_StopIteration w = set_pyerr None w.
Proof.
  unfold clear_StopIteration. destruct (pyerr w) as [e|] eqn:He; [|by left].
  destruct (is_StopIteration e); [by right|by left].
Qed.

Lemma clear_StopIteration_cursor w : cursor (clear_StopIteration w) = cursor w.
Proof. by destruct (clear_StopIteration_cases w) as [->|[_ ->]]. Qed.

Lemma clear_StopIteration_log w : log (clear_StopIteration w) = log w.
Proof. by destruct (clear_StopIteration_cases w) as [->|[_ ->]]. Qed.

Lemma clear_StopIteration_none w :
  pyerr w = None -> clear_StopIteration w = w.
Proof. unfold clear_StopIteration. by intros ->. Qed.

Lemma PyIter_Next_log it w :
  log (snd (PyIter_Next it w)) = log w ++ [EvIterNext].
Proof.
  destruct it as [|[] ?]; cbn [PyIter_Next snd];
    by rewrite ?clear_StopIteration_log.
Qed.

Ltac clear_StopIteration_split :=
  match goal with
  | |- context [clear_StopIteration ?w] =>
      destruct (clear_StopIteration_cases w) as [->|[_ ->]]
  end.

Lemma PyIter_Next_cursor it w :
  cursor (snd (PyIter_Next it w)) = cursor w.
Proof.
  destruct it as [|[] ?]; cbn [PyIter_Next snd];
    by rewrite ?clear_StopIteration_cursor.
Qed.

Lemma reset_remaining_iterator_cursor forced res w :
  cursor (snd (reset_remaining_iterator forced res w)) = cursor w.
Proof.
  unfold reset_remaining_iterator.
  destruct (emiter (cursor w)) as [it|]; [|done].
  destruct (_ && _); [|done].
  pose proof (PyIter_Next_cursor it w) as H.
  destruct (PyIter_Next it w) as [[[a|] it1] w1]; simpl in *; [|done].
  by destruct (PyErr_Occurred w1).
Qed.

Lemma resetcursor_cursor force w :
  cursor (snd (resetcursor force w)) = reset_state (cursor w).
Proof.
  unfold resetcursor.
  set (forced := negb (force =? 0)).
  set (w0 := set_bindingsoffset (-1)
               (set_bindings None (if forced then set_pyerr None w else w))).
  set (r1 := reset_finalize forced w0).
  set (r2 := reset_remaining_statements forced _ (fst r1) (snd r1)).
  set (r3 := reset_remaining_iterator forced (fst r2) (snd r2)).
  assert (H3 : cursor (snd r3) = cursor (set_statement None w0)).
  { subst r3 r2 r1.
    by rewrite reset_remaining_iterator_cursor,
      reset_remaining_statements_cursor, reset_finalize_cursor. }
  assert (Hgoal : cursor (set_status C_DONE
                    (set_emoriginalquery None (set_emiter None (snd r3))))
                  = reset_state (cursor w)).
  { unfold set_status, set_emoriginalquery, set_emiter, set_cursor. simpl.
    rewrite H3. subst w0. by destruct forced. }
  simpl. by destruct (if forced then pyerr w else None).
Qed.

Lemma cursor_inv_ext w w' :
  cursor w' = cursor w -> cursor_inv w -> cursor_inv w'.
Proof. unfold cursor_inv. by intros ->. Qed.

Lemma cursor_inv_reset force w :
  inuse (cursor w) = false -> cursor_inv (snd (resetcursor force w)).
Proof.
  intros H. unfold cursor_inv. rewrite resetcursor_cursor. simpl.
  repeat split; done.
Qed.

Lemma resetcursor_fields force w :
  let c := cursor (snd (resetcursor force w)) in
  statement c = None /\ status c = C_DONE /\ bindings c = None /\
  emiter c = None /\ emoriginalquery c = None /\ bindingsoffset c = -1 /\
  inuse c = inuse (cursor w) /\ connection_db c = connection_db (cursor w) /\
  exectrace c = exectrace (cursor w) /\ rowtrace c = rowtrace (cursor w).
Proof. cbv zeta. rewrite resetcursor_cursor. simpl. auto 10. Qed.

(** A statement as [statementcache_prepare] returns it. *)
Lemma prepared_statement q st :
  statementcache_prepare q = inr st ->
  statementcache_finalize st = SQLITE_OK /\
  (statements_left (Some st) <= length q)%nat /\
  utf8 st = q.
Proof.
  unfold statementcache_prepare.
  destruct q as [|[sql params prog|sql|sql code] rest]; intros [= <-];
    (split; [reflexivity|]); simpl; try (split; [lia|done]);
    destruct rest; simpl; split; (lia || done).
Qed.

Lemma prepare_call_cursor q w :
  cursor (prepare_call q w) =
  cursor (set_statement
            (match statementcache_prepare q with
             | inl _ => None
             | inr st => Some st
             end) w).
Proof.
  unfold prepare_call. destruct (statementcache_prepare q); simpl; [|done].
  by rewrite SET_EXC_cursor.
Qed.

Lemma stmt_rebound_finalize st st' :
  stmt_rebound st st' ->
  statementcache_finalize st' = statementcache_finalize st.
Proof.
  intros (_ & _ & H). unfold statementcache_finalize, sqlite3_reset_rc.
  destruct (vdbestatement st) as [a|], (vdbestatement st') as [b|];
    simpl in H; try done.
  destruct H as (_ & _ & -> & -> & _). done.
Qed.

Lemma stmt_rebound_left st st' :
  stmt_rebound st st' -> statements_left (Some st') = statements_left (Some st).
Proof. intros (_ & H & _). destruct st, st'. simpl in *. by subst. Qed.

Lemma doexectrace_total saved w st t :
  statement (cursor w) = Some st -> exectrace (cursor w) = Some t ->
  exists r w',
    APSWCursor_doexectrace saved w = Done r w' /\ cursor w' = cursor w.
Proof.
  intros Hst Ht. unfold APSWCursor_doexectrace. rewrite Hst, Ht.
  destruct (t _ _) as [e|e|[]]; eauto.
Qed.

(** The resolver keeps the invariant and the measure of the loop. *)
Lemma resolved_inv w w' :
  resolved w w' -> cursor_inv w ->
  cursor_inv w' /\ is_Some (statement (cursor w')) /\
  step_measure w' = step_measure w /\
  exectrace (cursor w') = exectrace (cursor w) /\
  status (cursor w') = status (cursor w).
Proof.
  intros (st & st' & o' & Hst & Hr & Hc & Ho & Hd)
         (Hu & Hn & Hj & He & Hh).
  unfold cursor_inv, step_measure. rewrite Hc. simpl.
  split; [|split; [eauto|split]].
  - split; [done|]. split; [done|]. split; [|split].
    + intros ? [= <-]. rewrite (stmt_rebound_finalize _ _ Hr). eauto.
    + intros ? items [= <-] Hb. eauto.
    + intros ? it [= <-] Hit. eauto.
  - rewrite Hst. f_equal. apply (stmt_rebound_left _ _ Hr).
  - done.
Qed.

Lemma step_bind_and_trace_spec w :
  cursor_inv w -> is_Some (statement (cursor w)) ->
  exists r w',
    step_bind_and_trace w = Done r w' /\
    cursor_inv w' /\ is_Some (statement (cursor w')) /\
    step_measure w' = step_measure w.
Proof.
  intros Hinv [st Hst]. unfold step_bind_and_trace.
  destruct (dobindings_total w st Hst) as (r & w1 & -> & Hres).
  { intros items Hb. destruct Hinv as (_ & _ & _ & He & _).
    by destruct (He st items Hst Hb). }
  destruct (resolved_inv _ _ Hres Hinv) as (Hinv1 & [st1 Hst1] & Hm & Het & _).
  simpl bindM. destruct (negb (r =? 0)); [eauto 10|].
  assert (Hbegin : forall w2,
    cursor w2 = cursor w1 ->
    cursor_inv (set_status C_BEGIN w2) /\
    is_Some (statement (cursor (set_status C_BEGIN w2))) /\
    step_measure (set_status C_BEGIN w2) = step_measure w).
  { intros w2 Hc. rewrite <- Hm. unfold cursor_inv, step_measure. simpl.
    rewrite Hc. destruct Hinv1 as (? & ? & ? & ? & ?).
    split; [|split; [eauto|done]].
    split; [done|]. split; [congruence|]. auto. }
  destruct (exectrace (cursor w1)) as [t|] eqn:Ht.
  - destruct (doexectrace_total
                (match exectrace (cursor w) with
                 | Some _ => to_int (bindingsoffset (cursor w))
                 | None => 0
                 end) w1 st1 t Hst1 Ht) as (r2 & w2 & -> & Hc).
    simpl bindM. destruct (negb (r2 =? 0)).
    + do 2 eexists. split; [done|].
      split; [by eapply cursor_inv_ext|].
      rewrite <- Hm. unfold step_measure. rewrite Hc. eauto.
    + do 2 eexists. split; [done|]. by apply Hbegin.
  - do 2 eexists. split; [done|]. by apply Hbegin.
Qed.

Lemma emit_cursor ev w : cursor (emit ev w) = cursor w.
Proof. done. Qed.

(** The invariant once a statement fresh from the cache is installed. *)
Lemma cursor_inv_install w0 w1 st' :
  cursor w1 = cursor (set_statement (Some st') w0) ->
  inuse (cursor w0) = false ->
  statementcache_finalize st' = SQLITE_OK ->
  (forall items, bindings (cursor w0) = Some (BSeq items) ->
                 0 <= bindingsoffset (cursor w0) <= Z.of_nat (length items)) ->
  (forall it, emiter (cursor w0) = Some it -> emoriginalquery (cursor w0) <> None) ->
  cursor_inv w1.
Proof.
  intros Hc Hu Hj He Hh. unfold cursor_inv. rewrite Hc. simpl.
  split; [done|]. split; [done|]. split; [by intros ? [= <-]|]. split; eauto.
Qed.

Lemma cursor_inv_no_statement w :
  inuse (cursor w) = false -> statement (cursor w) = None ->
  status (cursor w) = C_DONE -> cursor_inv w.
Proof.
  intros Hu Hs Hd. unfold cursor_inv. rewrite Hs.
  split; [done|]. split; [done|]. split; [done|]. split; done.
Qed.

Lemma step_next_statement_next w st1 q :
  cursor_inv w -> status (cursor w) = C_DONE ->
  statement (cursor w) = Some st1 -> next st1 = Some q ->
  exists r w',
    step_next_statement w = Done r w' /\ cursor_inv w' /\
    (r = inr () ->
     is_Some (statement (cursor w')) /\
     (step_measure w' < step_measure w)%nat).
Proof.
  intros Hinv Hdone Hst Hnext.
  pose proof Hinv as (Hu & _ & Hj & He & Hh).
  unfold step_next_statement, statementcache_next. rewrite Hst, Hnext.
  unfold finalize_call. cbn [fst snd]. rewrite (Hj st1 Hst).
  change (negb (SQLITE_OK =? SQLITE_OK)) with false. cbv iota.
  set (w0 := emit EvFinalize (emit EvNextStatement w)).
  pose proof (prepare_call_cursor q w0) as Hc.
  destruct (statementcache_prepare q) as [code|st'] eqn:Hprep.
  - simpl in Hc. rewrite Hc. simpl bindM.
    change (negb (SQLITE_ERROR =? SQLITE_OK)) with true. cbv iota.
    do 2 eexists. split; [done|]. split; [|done].
    apply cursor_inv_no_statement; rewrite SET_EXC_cursor, Hc; done.
  - simpl in Hc. rewrite Hc. simpl bindM.
    change (negb (SQLITE_OK =? SQLITE_OK)) with false. cbv iota.
    destruct (prepared_statement q st' Hprep) as (Hfin & Hleft & _).
    set (w1 := SET_EXC SQLITE_OK (prepare_call q w0)).
    assert (Hc1 : cursor w1 = cursor (set_statement (Some st') w)).
    { subst w1. by rewrite SET_EXC_cursor, Hc. }
    assert (Hinv1 : cursor_inv w1).
    { eapply cursor_inv_install; eauto. }
    destruct (step_bind_and_trace_spec w1 Hinv1)
      as (r & w2 & -> & Hinv2 & Hsome & Hm).
    { rewrite Hc1. simpl. eauto. }
    simpl bindM. destruct r as [[]|[]]; do 2 eexists; (split; [done|]);
      (split; [done|]); [done|].
    intros _. split; [done|]. rewrite Hm. unfold step_measure.
    rewrite Hc1. simpl. rewrite Hst.
    change (match st' with
            | {| next := Some q0 |} => S (length q0)
            | {| next := None |} => 0%nat
            end) with (statements_left (Some st')).
    simpl statements_left at 2. destruct st1 as [v1 u1 n1]. simpl in Hnext.
    subst n1. lia.
Qed.

Lemma step_next_statement_again w q :
  inuse (cursor w) = false -> status (cursor w) = C_DONE ->
  statement (cursor w) = None -> emoriginalquery (cursor w) = Some q ->
  (forall items, bindings (cursor w) = Some (BSeq items) ->
                 0 <= bindingsoffset (cursor w) <= Z.of_nat (length items)) ->
  exists r w',
    step_next_statement w = Done r w' /\ cursor_inv w' /\
    (r = inr () ->
     is_Some (statement (cursor w')) /\
     (step_measure w' <= length q + step_measure w)%nat).
Proof.
  intros Hu Hdone Hst Hq He.
  unfold step_next_statement. rewrite Hst, Hq.
  pose proof (prepare_call_cursor q w) as Hc.
  destruct (statementcache_prepare q) as [code|st'] eqn:Hprep.
  - simpl in Hc. rewrite Hc. simpl bindM.
    change (negb (SQLITE_ERROR =? SQLITE_OK)) with true. cbv iota.
    do 2 eexists. split; [done|]. split; [|done].
    apply cursor_inv_no_statement; rewrite Hc; done.
  - simpl in Hc. rewrite Hc. simpl bindM.
    change (negb (SQLITE_OK =? SQLITE_OK)) with false. cbv iota.
    destruct (prepared_statement q st' Hprep) as (Hfin & Hleft & _).
    assert (Hinv1 : cursor_inv (prepare_call q w)).
    { apply (cursor_inv_install w _ st'); [done..|].
      intros it _. by rewrite Hq. }
    destruct (step_bind_and_trace_spec _ Hinv1)
      as (r & w2 & -> & Hinv2 & Hsome & Hm).
    { rewrite Hc. simpl. eauto. }
    simpl bindM. destruct r as [[]|[]]; do 2 eexists; (split; [done|]);
      (split; [done|]); [done|].
    intros _. split; [done|]. rewrite Hm. unfold step_measure.
    rewrite Hc. simpl. rewrite Hst.
    change (match st' with
            | {| next := Some q0 |} => S (length q0)
            | {| next := None |} => 0%nat
            end) with (statements_left (Some st')).
    simpl statements_left at 2. lia.
Qed.

Lemma cursor_inv_set_status_done w :
  cursor_inv w -> cursor_inv (set_status C_DONE w).
Proof.
  intros (? & ? & ? & ? & ?). unfold cursor_inv. simpl. auto.
Qed.

Lemma cursor_inv_set_emiter w it1 w' :
  cursor_inv w -> is_Some (emiter (cursor w)) ->
  cursor w' = cursor (set_emiter (Some it1) w) -> cursor_inv w'.
Proof.
  intros (? & ? & ? & ? & Hh) [it Hit] Hc. unfold cursor_inv. rewrite Hc.
  simpl. do 4 (split; [done|]). intros st it' Hs _. eapply Hh; eauto.
Qed.

Lemma step_advance_spec w :
  cursor_inv w -> is_Some (statement (cursor w)) ->
  exists r w',
    step_advance w = Done r w' /\ cursor_inv w' /\
    (r = inr () ->
     is_Some (statement (cursor w')) /\
     (step_measure w' < step_measure w)%nat).
Proof.
  intros Hinv [st Hst]. unfold step_advance.
  pose proof (cursor_inv_set_status_done w Hinv) as Hinvd.
  set (wd := set_status C_DONE w) in *.
  assert (Hstd : statement (cursor wd) = Some st) by done.
  assert (Hmd : step_measure wd = step_measure w) by done.
  rewrite Hstd. unfold has_next.
  destruct (next st) as [q|] eqn:Hnext.
  { rewrite <- Hmd. by apply (step_next_statement_next wd st q). }
  pose proof Hinvd as (Hu & _ & Hj & He & Hh).
  destruct (emiter (cursor wd)) as [it|] eqn:Hit.
  - (* executemany mode *)
    destruct (emoriginalquery (cursor wd)) as [q|] eqn:Hq;
      [|by destruct (Hh st it Hstd eq_refl)].
    destruct it as [|[a|e] it1];
      cbn -[resetcursor step_next_statement bindings_of_arg].
    + (* the iterator is exhausted *)
      unfold PyErr_Occurred.
      destruct (clear_StopIteration_cases (emit EvIterNext wd)) as [->|[_ ->]];
        cbn -[resetcursor step_next_statement bindings_of_arg];
        [destruct (pyerr w)|].
      * do 2 eexists. split; [done|]. split; [|done].
        by apply (cursor_inv_set_emiter wd []).
      * do 2 eexists. split; [done|]. split; [|done].
        by apply cursor_inv_reset.
      * do 2 eexists. split; [done|]. split; [|done].
        by apply cursor_inv_reset.
    + (* it yields [a] *)
      unfold PyErr_Occurred.
      cbn -[resetcursor step_next_statement bindings_of_arg].
      destruct (pyerr w).
      { do 2 eexists. split; [done|]. split; [|done].
        by apply (cursor_inv_set_emiter wd it1). }
      set (w2 := bindings_of_arg a _).
      assert (Hw2 : inuse (cursor w2) = false /\ status (cursor w2) = C_DONE /\
                    statement (cursor w2) = None /\
                    emoriginalquery (cursor w2) = Some q /\
                    emiter (cursor w2) = Some it1 /\
                    bindingsoffset (cursor w2) = 0).
      { subst w2. destruct a as [d|[items|e]]; simpl; auto 10. }
      destruct Hw2 as (Hu2 & Hd2 & Hs2 & Hq2 & Hit2 & Ho2).
      destruct (bindings (cursor w2)) as [b|] eqn:Hb2.
      * destruct (step_next_statement_again w2 q Hu2 Hd2 Hs2 Hq2)
          as (r & w' & -> & Hinv' & Hr).
        { intros items _. rewrite Ho2. lia. }
        do 2 eexists. split; [done|]. split; [done|].
        intros ->. destruct (Hr eq_refl) as (Hsome & Hm). split; [done|].
        assert (step_measure w2 = (length it1 * S (S (length q)))%nat) as Hm2.
        { unfold step_measure. by rewrite Hs2, Hit2, Hq2. }
        assert (step_measure w
                = (statements_left (Some st)
                   + S (length it1) * S (S (length q)))%nat) as Hm0.
        { rewrite <- Hmd. unfold step_measure. by rewrite Hstd, Hit, Hq. }
        lia.
      * do 2 eexists. split; [done|]. split; [|done].
        by apply cursor_inv_no_statement.
    + (* it raises *)
      unfold PyErr_Occurred.
      clear_StopIteration_split;
        cbn -[resetcursor step_next_statement bindings_of_arg].
      * do 2 eexists. split; [done|]. split; [|done].
        by apply (cursor_inv_set_emiter wd it1).
      * do 2 eexists. split; [done|]. split; [|done].
        by apply cursor_inv_reset.
  - do 2 eexists. split; [done|]. split; [|done].
    by apply cursor_inv_reset.
Qed.

Lemma step_call_spec st w :
  statement (cursor w) = Some st ->
  exists st1,
    cursor (snd (step_call st w)) = cursor (set_statement (Some st1) w) /\
    next st1 = next st /\
    (Z.land (fst (step_call st w)) 255 = SQLITE_ROW \/
     Z.land (fst (step_call st w)) 255 = SQLITE_DONE ->
     statementcache_finalize st1 = SQLITE_OK).
Proof.
  intros Hst. unfold step_call.
  destruct (vdbestatement st) as [vd|] eqn:Hvd.
  - exists {| vdbestatement := Some (snd (sqlite3_step vd)); utf8 := utf8 st;
              next := next st |}.
    split; [|split; [reflexivity|]].
    + cbn [fst snd]. destruct (so_raised _); [|reflexivity].
      by destruct (PyErr_Occurred _).
    + cbn [fst snd]. unfold statementcache_finalize, sqlite3_reset_rc. simpl.
      intros [-> | ->]; simpl; by rewrite ?orb_true_r.
  - exists st. split; [|split; [done|]].
    + destruct w as [[] ? ?]. simpl in *. by subst.
    + intros _. unfold statementcache_finalize. by rewrite Hvd.
Qed.

Lemma cursor_inv_set_statement w w' st1 :
  cursor_inv w -> is_Some (statement (cursor w)) ->
  cursor w' = cursor (set_statement (Some st1) w) ->
  statementcache_finalize st1 = SQLITE_OK ->
  cursor_inv w'.
Proof.
  intros (? & ? & ? & He & Hh) [st Hst] Hc Hj. unfold cursor_inv.
  rewrite Hc. simpl. split; [done|]. split; [done|].
  split; [by intros ? [= <-]|]. split; eauto.
Qed.

Lemma cursor_inv_set_status s w :
  cursor_inv w -> is_Some (statement (cursor w)) ->
  cursor_inv (set_status s w).
Proof.
  intros (? & ? & ? & ? & ?) [st Hst]. unfold cursor_inv. simpl.
  split; [done|]. split; [by rewrite Hst|]. auto.
Qed.

(** The loop of [APSWCursor_step] ends within its fuel, without a fault,
    and leaves the invariant. *)
Lemma step_loop_inv :
  forall (fuel : nat) (w : World),
    cursor_inv w -> is_Some (statement (cursor w)) ->
    (step_measure w < fuel)%nat ->
    exists r w', APSWCursor_step_loop fuel w = Done r w' /\ cursor_inv w'.
Proof.
  induction fuel as [|fuel IH]; intros w Hinv Hsome Hfuel; [lia|].
  destruct Hsome as [st Hst]. cbn [APSWCursor_step_loop]. rewrite Hst.
  destruct (step_call_spec st w Hst) as (st1 & Hc & Hnext & Hfin).
  set (res := fst (step_call st w)) in *.
  set (w1 := snd (step_call st w)) in *.
  assert (Hpost : Z.land res 255 = SQLITE_ROW \/ Z.land res 255 = SQLITE_DONE ->
                  cursor_inv w1 /\ is_Some (statement (cursor w1)) /\
                  step_measure w1 = step_measure w).
  { intros Hlow. split; [|split].
    - eapply cursor_inv_set_statement; eauto.
    - rewrite Hc. simpl. eauto.
    - unfold step_measure. rewrite Hc. simpl. rewrite Hst.
      destruct st, st1. simpl in *. by subst. }
  destruct (Z.land res 255 =? SQLITE_ROW) eqn:Hrow.
  { apply Z.eqb_eq in Hrow. destruct Hpost as (Hinv1 & Hs1 & _); [auto|].
    do 2 eexists. split; [done|]. by apply cursor_inv_set_status. }
  destruct (Z.land res 255 =? SQLITE_DONE) eqn:Hdone.
  - apply Z.eqb_eq in Hdone. destruct Hpost as (Hinv1 & Hs1 & Hm1); [auto|].
    cbn [andb]. destruct (PyErr_Occurred w1).
    { do 2 eexists. split; [done|]. by apply cursor_inv_set_status. }
    destruct (step_advance_spec w1 Hinv1 Hs1) as (r & w2 & -> & Hinv2 & Hr).
    cbn [bindM]. destruct r as [ret|[]]; [eauto|].
    destruct (Hr eq_refl) as (Hs2 & Hm2). apply IH; [done|done|lia].
  - cbn [andb]. assert (Hu : inuse (cursor w1) = false).
    { rewrite Hc. simpl. by destruct Hinv. }
    destruct (PyErr_Occurred (set_status C_DONE w1));
      do 2 eexists; (split; [done|]); by apply cursor_inv_reset.
Qed.

Lemma step_inv w :
  cursor_inv w -> is_Some (statement (cursor w)) ->
  exists r w', APSWCursor_step w = Done r w' /\ cursor_inv w'.
Proof.
  intros. apply step_loop_inv; try done. unfold step_fuel. lia.
Qed.

(** ** The methods keep the invariant *)

Lemma execute_bind_trace_step_inv w st :
  inuse (cursor w) = false ->
  statement (cursor w) = Some st -> statementcache_finalize st = SQLITE_OK ->
  (forall it, emiter (cursor w) = Some it -> emoriginalquery (cursor w) <> None) ->
  exists r w', execute_bind_trace_step w = Done r w' /\ cursor_inv w'.
Proof.
  intros Hu Hst Hfin Hh. unfold execute_bind_trace_step.
  set (w0 := set_bindingsoffset 0 w).
  assert (Hinv0 : cursor_inv w0).
  { unfold cursor_inv. simpl. rewrite Hst. split; [done|]. split; [done|].
    split; [by intros ? [= <-]|]. split; [intros; lia|eauto]. }
  destruct (dobindings_total w0 st Hst) as (r & w1 & -> & Hres).
  { intros. simpl. lia. }
  destruct (resolved_inv _ _ Hres Hinv0) as (Hinv1 & [st1 Hst1] & _).
  cbn [bindM]. destruct (negb (r =? 0)); [eauto|].
  assert (Hgo : forall w2, cursor w2 = cursor w1 ->
    exists r w', APSWCursor_step (set_status C_BEGIN w2) = Done r w'
                 /\ cursor_inv w').
  { intros w2 Hc. apply step_inv.
    - apply cursor_inv_set_status; [by eapply cursor_inv_ext|].
      rewrite Hc. eauto.
    - simpl. rewrite Hc. eauto. }
  destruct (exectrace (cursor w1)) as [t|] eqn:Ht.
  - destruct (doexectrace_total
                (match exectrace (cursor w0) with Some _ => 0 | None => -1 end)
                w1 st1 t Hst1 Ht) as (r2 & w2 & -> & Hc).
    cbn [bindM]. destruct (negb (r2 =? 0)); [|by apply Hgo].
    do 2 eexists. split; [done|]. by eapply cursor_inv_ext.
  - cbn [bindM]. change (negb (0 =? 0)) with false. cbv iota. by apply Hgo.
Qed.

Lemma bindings_of_arg_cursor a w :
  exists b, cursor (bindings_of_arg a w) = cursor (set_bindings b w).
Proof. destruct a as [d|[items|e]]; simpl; eauto. Qed.

Lemma idle_inv w : idle w -> cursor_inv w.
Proof. intros (? & ? & ? & ?). by apply cursor_inv_no_statement. Qed.

Lemma idle_ext w w' b it :
  idle w -> cursor w' = cursor (set_emiter it (set_bindings b w)) -> idle w'.
Proof. intros (? & ? & ? & ?) Hc. unfold idle. by rewrite Hc. Qed.

Lemma idle_same w w' : idle w -> cursor w' = cursor w -> idle w'.
Proof. intros H Hc. unfold idle. by rewrite Hc. Qed.

Lemma resetcursor_idle force w :
  inuse (cursor w) = false -> idle (snd (resetcursor force w)) /\
  emiter (cursor (snd (resetcursor force w))) = None.
Proof.
  intros Hu. unfold idle. rewrite resetcursor_cursor. simpl. auto.
Qed.

Lemma prepare_and_run_inv q w :
  idle w -> emiter (cursor w) = None ->
  exists r w',
    match statement (cursor (prepare_call q w)) with
    | None => Done RetNULL (prepare_call q w)
    | Some _ => execute_bind_trace_step (prepare_call q w)
    end = Done r w' /\ cursor_inv w'.
Proof.
  intros (Hu & Hs & Hd & Hq) Hit.
  pose proof (prepare_call_cursor q w) as Hp.
  destruct (statementcache_prepare q) as [code|st] eqn:Hprep.
  - rewrite Hp. cbn [set_statement set_cursor cursor statement].
    do 2 eexists. split; [reflexivity|].
    apply cursor_inv_no_statement; by rewrite Hp.
  - rewrite Hp. cbn [set_statement set_cursor cursor statement].
    destruct (prepared_statement _ _ Hprep) as (Hfin & _).
    apply (execute_bind_trace_step_inv _ st); rewrite ?Hp; try done.
    cbn [set_statement set_cursor cursor emiter]. by rewrite Hit.
Qed.

Lemma execute_inv args w :
  cursor_inv w ->
  exists r w', APSWCursor_execute args w = Done r w' /\ cursor_inv w'.
Proof.
  intros Hinv. pose proof Hinv as (Hu & _).
  unfold APSWCursor_execute, CHECK_USE, CHECK_CLOSED. rewrite Hu.
  destruct (connection_db (cursor w)) eqn:Hdb.
  2:{ do 2 eexists. split; [reflexivity|]. by eapply cursor_inv_ext. }
  destruct (resetcursor_idle 0 w Hu) as (Hidle & Hit).
  destruct (resetcursor 0 w) as [res wr]. cbn [fst snd] in *.
  destruct (negb (res =? SQLITE_OK)).
  { do 2 eexists. split; [reflexivity|]. by apply idle_inv. }
  destruct args as [|statements more].
  { do 2 eexists. split; [reflexivity|]. apply idle_inv.
    by eapply idle_same. }
  destruct more as [|a [|a' more]].
  - by apply prepare_and_run_inv.
  - destruct (bindings_of_arg_cursor a wr) as [b Hc].
    assert (Hidle2 : idle (bindings_of_arg a wr)).
    { apply (idle_ext wr _ b (emiter (cursor wr))); [done|].
      rewrite Hc. by destruct wr as [[] ? ?]. }
    destruct (bindings (cursor (bindings_of_arg a wr))).
    + apply prepare_and_run_inv; [done|]. rewrite Hc. exact Hit.
    + do 2 eexists. split; [reflexivity|]. by apply idle_inv.
  - do 2 eexists. split; [reflexivity|]. apply idle_inv. by eapply idle_same.
Qed.

Lemma idle_set_emiter it w : idle w -> idle (set_emiter it w).
Proof. by intros (? & ? & ? & ?). Qed.

Lemma idle_emit ev w : idle w -> idle (emit ev w).
Proof. by intros (? & ? & ? & ?). Qed.

Lemma idle_set_pyerr e w : idle w -> idle (set_pyerr e w).
Proof. by intros (? & ? & ? & ?). Qed.

Lemma idle_bindings_of_arg a w : idle w -> idle (bindings_of_arg a w).
Proof. intros (? & ? & ? & ?). by destruct a as [d|[items|e]]. Qed.

Lemma executemany_inv args w :
  cursor_inv w ->
  exists r w', APSWCursor_executemany args w = Done r w' /\ cursor_inv w'.
Proof.
  intros Hinv. pose proof Hinv as (Hu & _).
  unfold APSWCursor_executemany, CHECK_USE, CHECK_CLOSED. rewrite Hu.
  destruct (connection_db (cursor w)) eqn:Hdb.
  2:{ do 2 eexists. split; [reflexivity|]. by eapply cursor_inv_ext. }
  destruct (resetcursor_idle 0 w Hu) as (Hidle & Hit).
  destruct (resetcursor 0 w) as [res wr]. cbn [fst snd] in *.
  destruct (negb (res =? SQLITE_OK)).
  { do 2 eexists. split; [reflexivity|]. by apply idle_inv. }
  destruct args as [[query [it|]]|].
  2,3: do 2 eexists; (split; [reflexivity|]); apply idle_inv;
       by eapply idle_same.
  destruct it as [|[a|e] it1]; cbn -[bindings_of_arg prepare_call].
  - unfold PyErr_Occurred. clear_StopIteration_split; cbn.
    + destruct (pyerr wr); do 2 eexists; (split; [reflexivity|]);
        by apply idle_inv, idle_set_emiter, idle_emit, idle_set_emiter.
    + do 2 eexists; (split; [reflexivity|]).
      by apply idle_inv, idle_set_emiter, idle_set_pyerr, idle_emit,
        idle_set_emiter.
  - set (w2 := bindings_of_arg a _).
    assert (Hidle2 : idle w2).
    { by apply idle_bindings_of_arg, idle_set_emiter, idle_emit,
        idle_set_emiter. }
    clearbody w2.
    destruct (bindings (cursor w2)).
    2:{ do 2 eexists. split; [reflexivity|]. by apply idle_inv. }
    pose proof (prepare_call_cursor query w2) as Hp.
    destruct Hidle2 as (Hu2 & Hs2 & Hd2 & Hq2).
    destruct (statementcache_prepare query) as [code|st] eqn:Hprep.
    + rewrite Hp. cbn [set_statement set_cursor cursor statement].
      do 2 eexists. split; [reflexivity|].
      apply cursor_inv_no_statement; by rewrite Hp.
    + rewrite Hp. cbn [set_statement set_cursor cursor statement].
      destruct (prepared_statement _ _ Hprep) as (Hfin & _).
      apply (execute_bind_trace_step_inv _ st); try done.
      * cbn. by rewrite Hp.
      * cbn. by rewrite Hp.
  - clear_StopIteration_split; cbn; do 2 eexists; (split; [reflexivity|]);
      apply idle_inv, idle_set_emiter, idle_set_pyerr;
      try apply idle_set_pyerr; by apply idle_emit, idle_set_emiter.
Qed.

Lemma close_inv args w :
  cursor_inv w ->
  exists r w', APSWCursor_close args w = Done r w' /\ cursor_inv w'.
Proof.
  intros Hinv. pose proof Hinv as (Hu & _).
  unfold APSWCursor_close, CHECK_USE. rewrite Hu.
  destruct (connection_db (cursor w)); cbn [negb]; [|eauto].
  destruct args as [|force].
  - do 2 eexists. split; [reflexivity|]. by eapply cursor_inv_ext.
  - pose proof (cursor_inv_reset (default 0 force) w Hu).
    destruct (resetcursor (default 0 force) w) as [res wr]. cbn [fst snd] in *.
    destruct (negb (res =? SQLITE_OK)); eauto.
Qed.

Lemma dorowtrace_total row w t :
  rowtrace (cursor w) = Some t ->
  exists r w',
    APSWCursor_dorowtrace row w = Done r w' /\ cursor w' = cursor w.
Proof.
  intros Ht. unfold APSWCursor_dorowtrace. rewrite Ht.
  destruct (t row); eauto.
Qed.

Lemma next_row_inv w :
  cursor_inv w -> status (cursor w) <> C_DONE ->
  exists r w', next_row w = Done r w' /\ cursor_inv w'.
Proof.
  intros Hinv Hnd. unfold next_row.
  destruct (statement (cursor w)) as [st|] eqn:Hst.
  2:{ destruct Hinv as (_ & Hb & _). by specialize (Hb Hst). }
  assert (Hinv2 : cursor_inv (set_status C_BEGIN w))
    by (apply cursor_inv_set_status; eauto).
  assert (Hst2 : statement (cursor (set_status C_BEGIN w)) = Some st) by done.
  cbv zeta. set (wb := set_status C_BEGIN w) in *. clearbody wb.
  rewrite Hst2.
  destruct (rowtrace (cursor wb)) as [t|] eqn:Ht; [|eauto].
  destruct (dorowtrace_total (current_row st) wb t Ht)
    as (r2 & w2 & -> & Hc).
  cbn [bindM].
  assert (Hinv3 : cursor_inv w2) by (by eapply cursor_inv_ext).
  destruct r2 as [| |o|items]; eauto.
  destruct (is_Py_None (RetObject o)); eauto.
Qed.

(** [next] never faults on a cursor that satisfies the invariant, and
    leaves it satisfied. *)
Lemma next_again_inv :
  forall (fuel : nat) (w : World),
    cursor_inv w ->
    match APSWCursor_next_again fuel w with
    | Done _ w' => cursor_inv w'
    | Fault => False
    | OutOfFuel => True
    end.
Proof.
  induction fuel as [|fuel IH]; intros w Hinv; [done|].
  cbn [APSWCursor_next_again].
  assert (Hstep : exists r w1,
    (if status_eqb (status (cursor w)) C_BEGIN
     then APSWCursor_step w else Done RetSelf w) = Done r w1 /\ cursor_inv w1).
  { destruct (status (cursor w)) eqn:Hs; cbn [status_eqb]; eauto.
    apply step_inv; [done|].
    destruct (statement (cursor w)) eqn:Hst; [eauto|].
    destruct Hinv as (_ & Hb & _). specialize (Hb Hst). congruence. }
  destruct Hstep as (r & w1 & -> & Hinv1). cbn [bindM].
  assert (Hrest :
    match
      (if status_eqb (status (cursor w1)) C_DONE then Done RetNULL w1
       else
         call r, w <- next_row w1 in
         match r with
         | inl ret => Done ret w
         | inr _ => APSWCursor_next_again fuel w
         end)
    with
    | Done _ w' => cursor_inv w'
    | Fault => False
    | OutOfFuel => True
    end).
  { destruct (status (cursor w1)) eqn:Hs; cbn [status_eqb]; try done;
      (destruct (next_row_inv w1 Hinv1) as (r' & w2 & -> & Hinv2);
       [congruence|]); cbn [bindM]; (destruct r' as [ret|[]]; [done|]);
      by apply IH. }
  by destruct r.
Qed.

(** ** Sequences of calls *)

Lemma cursor_inv_set_exectrace t w :
  cursor_inv w -> cursor_inv (set_exectrace t w).
Proof. by intros (? & ? & ? & ? & ?). Qed.

Lemma cursor_inv_set_rowtrace t w :
  cursor_inv w -> cursor_inv (set_rowtrace t w).
Proof. by intros (? & ? & ? & ? & ?). Qed.

Lemma cursor_inv_set_connection_db b w :
  cursor_inv w -> cursor_inv (set_connection_db b w).
Proof. by intros (? & ? & ? & ? & ?). Qed.

Lemma perform_inv op w r w' :
  cursor_inv w -> perform op w = Done r w' -> cursor_inv w'.
Proof.
  intros Hinv Hrun. unfold perform in Hrun.
  assert (Hinv0 : cursor_inv (set_pyerr None w)) by (by eapply cursor_inv_ext).
  set (w0 := set_pyerr None w) in *. clearbody w0.
  destruct op as [args|args|args|fuel|func|func|].
  - destruct (execute_inv args w0 Hinv0) as (? & ? & H & ?). congruence.
  - destruct (executemany_inv args w0 Hinv0) as (? & ? & H & ?). congruence.
  - destruct (close_inv args w0 Hinv0) as (? & ? & H & ?). congruence.
  - unfold APSWCursor_next, CHECK_USE, CHECK_CLOSED in Hrun.
    destruct Hinv0 as (Hu & Hrest). rewrite Hu in Hrun.
    destruct (connection_db (cursor w0)).
    + pose proof (next_again_inv fuel w0 (conj Hu Hrest)) as H.
      by rewrite Hrun in H.
    + injection Hrun as _ <-. by apply (cursor_inv_ext w0).
  - unfold APSWCursor_setexectrace, CHECK_USE, CHECK_CLOSED in Hrun.
    pose proof Hinv0 as (Hu & _). rewrite Hu in Hrun.
    destruct (connection_db (cursor w0));
      [|injection Hrun as _ <-; by apply (cursor_inv_ext w0)].
    destruct func as [[name|f]|]; injection Hrun as _ <-;
      (by apply (cursor_inv_ext w0)) || by apply cursor_inv_set_exectrace.
  - unfold APSWCursor_setrowtrace, CHECK_USE, CHECK_CLOSED in Hrun.
    pose proof Hinv0 as (Hu & _). rewrite Hu in Hrun.
    destruct (connection_db (cursor w0));
      [|injection Hrun as _ <-; by apply (cursor_inv_ext w0)].
    destruct func as [[name|f]|]; injection Hrun as _ <-;
      (by apply (cursor_inv_ext w0)) || by apply cursor_inv_set_rowtrace.
  - injection Hrun as _ <-. by apply cursor_inv_set_connection_db.
Qed.

Lemma reachable_inv w : reachable w -> cursor_inv w.
Proof.
  induction 1 as [|w op r w' _ IH Hrun].
  - by apply cursor_inv_no_statement.
  - by eapply perform_inv.
Qed.

(** ** One statement at a time *)

Lemma borrowed_app l l' : borrowed (l ++ l') = borrowed l + borrowed l'.
Proof. induction l as [|ev l IH]; simpl; lia. Qed.

Lemma account_same w w' :
  log w' = log w -> cursor w' = cursor w -> account w' = account w.
Proof. intros Hl Hc. unfold account, held. by rewrite Hl, Hc. Qed.

Lemma account_SET_EXC res w : account (SET_EXC res w) = account w.
Proof. apply account_same; [apply SET_EXC_log|apply SET_EXC_cursor]. Qed.

Lemma keeps_bind {A B : Type} (m : World -> outcome A)
  (k : A -> World -> outcome B) :
  keeps_account m -> (forall a, keeps_account (k a)) ->
  keeps_account (fun w => bindM (m w) k).
Proof.
  intros Hm Hk w r w' H. destruct (m w) as [a w1| |] eqn:Hmw; try done.
  simpl in H. rewrite (Hk a _ _ _ H). eauto.
Qed.

Lemma keeps_bind_at {A B : Type} (m : outcome A) (k : A -> World -> outcome B)
  (w0 : World) r w' :
  bindM m k = Done r w' ->
  (forall a w1, m = Done a w1 -> account w1 = account w0) ->
  (forall a, keeps_account (k a)) ->
  account w' = account w0.
Proof.
  intros H Hm Hk. destruct m as [a w1| |]; try done.
  simpl in H. rewrite (Hk a _ _ _ H). eauto.
Qed.

Lemma bind_call_account arg val : keeps_account (bind_call arg val).
Proof.
  intros w r w' H. unfold bind_call in H.
  destruct (statement (cursor w)) eqn:Hst; [|done]. injection H as _ <-.
  unfold account, held. simpl. rewrite Hst, borrowed_app. simpl. lia.
Qed.

Lemma dobinding_finish_account res : keeps_account (dobinding_finish res).
Proof.
  intros w r w' H. destruct (dobinding_finish_total res w) as [r' Hf].
  rewrite Hf in H. injection H as _ <-. apply account_SET_EXC.
Qed.

Lemma bind_then_finish_account arg val :
  keeps_account
    (fun w => call res, w1 <- bind_call arg val w in dobinding_finish res w1).
Proof.
  apply (keeps_bind (bind_call arg val)).
  - apply bind_call_account.
  - intros res. apply dobinding_finish_account.
Qed.

Lemma bind_unidata_account arg u tr : keeps_account (bind_unidata arg u tr).
Proof.
  intros w r w' H. unfold bind_unidata in H.
  destruct (uni_strbytes u) as [n|name].
  - destruct (n >? APSW_INT32_MAX).
    + rewrite (dobinding_finish_account _ _ _ _ H). apply account_SET_EXC.
    + exact (bind_then_finish_account arg _ w r w' H).
  - by injection H as _ <-.
Qed.

Lemma dobinding_account arg obj : keeps_account (APSWCursor_dobinding arg obj).
Proof.
  intros w r w' H.
  destruct obj as [|v|v|bits|u|s|b|n|tp]; simpl in H;
    try (exact (bind_then_finish_account arg _ w r w' H));
    try (exact (bind_unidata_account arg _ _ w r w' H)).
  - rewrite (bind_then_finish_account arg _ _ r w' H).
    unfold PyLong_AsLongLong. by destruct (_ && _).
  - destruct (string_chk _ <? _).
    + destruct (str_unicode s);
        [exact (bind_unidata_account arg _ _ w r w' H)|].
      by injection H as _ <-.
    + exact (bind_then_finish_account arg _ w r w' H).
  - destruct (buf_buflen b) as [n|]; [|by injection H as _ <-].
    destruct (n >? APSW_INT32_MAX).
    + injection H as _ <-. apply account_SET_EXC.
    + exact (bind_then_finish_account arg _ w r w' H).
  - by injection H as _ <-.
Qed.

Lemma dobindings_seq_account todo :
  forall arg, keeps_account (dobindings_seq arg todo).
Proof.
  induction todo as [|todo IH]; intros arg w r w' H; simpl in H.
  - by injection H as _ <-.
  - destruct (PySequence_Fast_GET_ITEM _ _) as [obj|]; [|done].
    eapply keeps_bind_at; [exact H|..].
    + intros a w1. apply dobinding_account.
    + intros a w1 r1 w2 H1. destruct (a =? 0); [by eapply IH|].
      by injection H1 as _ <-.
Qed.

Lemma dobindings_dict_account d todo :
  forall arg, keeps_account (dobindings_dict d arg todo).
Proof.
  induction todo as [|todo IH]; intros arg w r w' H; simpl in H.
  - by injection H as _ <-.
  - destruct (statement (cursor w)) as [st|]; [|done].
    destruct (sqlite3_bind_parameter_name _ _) as [key|];
      [|by injection H as _ <-].
    destruct (d !! strip_marker key) as [obj|]; [|by eapply IH].
    eapply keeps_bind_at; [exact H|..].
    + intros a w1. apply dobinding_account.
    + intros a w1 r1 w2 H1. destruct (a =? SQLITE_OK); [by eapply IH|].
      by injection H1 as _ <-.
Qed.

Lemma account_set_bindingsoffset o w :
  account (set_bindingsoffset o w) = account w.
Proof. done. Qed.

Lemma dobindings_account : keeps_account APSWCursor_dobindings.
Proof.
  intros w r w' H. unfold APSWCursor_dobindings in H.
  destruct (statement (cursor w)) as [st|]; [|done].
  destruct ((_ =? 0) && _); [by injection H as _ <-|].
  destruct ((_ >? 0) && _); [by injection H as _ <-|].
  assert (Hseq : forall sz,
    (if has_next st
        && (sz - bindingsoffset (cursor w)
            <? sqlite3_bind_parameter_count (vdbestatement st))
     then Done (-1)
            (PyErr_Format
               (ExcBindings_only_left
                  (sqlite3_bind_parameter_count (vdbestatement st)) sz
                  (to_int (bindingsoffset (cursor w)))) w)
     else if negb (has_next st)
             && negb (sz - bindingsoffset (cursor w)
                      =? sqlite3_bind_parameter_count (vdbestatement st))
     then Done (-1)
            (PyErr_Format
               (ExcBindings_supplied
                  (sqlite3_bind_parameter_count (vdbestatement st)) sz
                  (to_int (bindingsoffset (cursor w)))) w)
     else
       call r, w1 <-
         dobindings_seq 1
           (Z.to_nat (sqlite3_bind_parameter_count (vdbestatement st))) w in
       if r =? 0
       then Done 0
              (set_bindingsoffset
                 (bindingsoffset (cursor w1)
                  + sqlite3_bind_parameter_count (vdbestatement st)) w1)
       else Done r w1) = Done r w' -> account w' = account w).
  { clear H. intros sz Hs.
    destruct (has_next st && _); [by injection Hs as _ <-|].
    destruct (negb (has_next st) && _); [by injection Hs as _ <-|].
    eapply keeps_bind_at; [exact Hs|..].
    - intros a w1. apply dobindings_seq_account.
    - intros a w1 r1 w2 H1. cbv beta in H1.
      destruct (a =? 0); by injection H1 as _ <-. }
  destruct (bindings (cursor w)) as [[d|items]|].
  - by eapply dobindings_dict_account.
  - by eapply Hseq.
  - by eapply Hseq.
Qed.

Lemma doexectrace_account saved : keeps_account (APSWCursor_doexectrace saved).
Proof.
  intros w r w' H. unfold APSWCursor_doexectrace in H.
  destruct (exectrace (cursor w)) as [t|]; [|done].
  destruct (statement (cursor w)) as [st|] eqn:Hst; [|done].
  destruct (t _ _) as [e|e|[]]; injection H as _ <-;
    unfold account, held; simpl; rewrite borrowed_app; simpl; lia.
Qed.

Lemma dorowtrace_account row : keeps_account (APSWCursor_dorowtrace row).
Proof.
  intros w r w' H. unfold APSWCursor_dorowtrace in H.
  destruct (rowtrace (cursor w)) as [t|]; [|done].
  destruct (t row); injection H as _ <-;
    unfold account, held; simpl; rewrite borrowed_app; simpl; lia.
Qed.

Lemma account_emit_quiet ev w :
  borrow_delta ev = 0 -> account (emit ev w) = account w.
Proof.
  intros H. unfold account, held. simpl. rewrite borrowed_app. simpl. lia.
Qed.

Lemma prepare_call_account q w :
  account (prepare_call q w) = account w + held w.
Proof.
  unfold prepare_call. destruct (statementcache_prepare q).
  - unfold account, held. simpl. rewrite SET_EXC_log. simpl.
    rewrite borrowed_app. simpl. destruct (statement (cursor w)); lia.
  - unfold account, held. simpl. rewrite borrowed_app. simpl.
    destruct (statement (cursor w)); lia.
Qed.

Lemma finalize_account st w :
  account (set_statement None (snd (finalize_call st w)))
  = account w + held w - 1.
Proof.
  unfold account, held. simpl. rewrite borrowed_app. simpl.
  destruct (statement (cursor w)); lia.
Qed.

Lemma statementcache_next_account st w r w' :
  statement (cursor w) = Some st ->
  statementcache_next st w = Done r w' -> account w' = account w.
Proof.
  intros Hst H. unfold statementcache_next in H.
  destruct (next st) as [q|]; [|done].
  assert (Hh : held w = 1) by (unfold held; by rewrite Hst).
  cbv zeta in H. unfold finalize_call in H. cbn [fst snd] in H.
  destruct (negb _); injection H as _ <-.
  - unfold account, held in *. simpl. rewrite !borrowed_app. simpl. lia.
  - rewrite prepare_call_account. unfold account, held in *. simpl.
    rewrite !borrowed_app. simpl. lia.
Qed.

Lemma step_call_account st w :
  statement (cursor w) = Some st ->
  account (snd (step_call st w)) = account w.
Proof.
  intros Hst. unfold step_call. destruct (vdbestatement st); [|done].
  cbn [snd].
  assert (forall w1 : World, account
            (match so_raised (fst (sqlite3_step v)) with
             | Some e => if PyErr_Occurred w1 then w1 else PyErr_Format e w1
             | None => w1
             end) = account w1) as ->.
  { intros w1. destruct (so_raised _); [|done]. by destruct (PyErr_Occurred w1). }
  unfold account, held. simpl. rewrite Hst, borrowed_app. simpl. lia.
Qed.

Lemma reset_finalize_account forced w :
  account (snd (reset_finalize forced w)) = account w.
Proof.
  unfold reset_finalize. destruct (statement (cursor w)) as [st|] eqn:Hst;
    [|done].
  cbn [snd]. unfold account, held. simpl.
  destruct forced; rewrite ?SET_EXC_log; simpl; rewrite borrowed_app, Hst;
    simpl; lia.
Qed.

Lemma reset_remaining_statements_account forced nq res w :
  account (snd (reset_remaining_statements forced nq res w)) = account w.
Proof.
  unfold reset_remaining_statements.
  destruct (_ && _); [|done]. destruct (res =? SQLITE_OK); [|done].
  simpl. by destruct (PyErr_Occurred w).
Qed.

Lemma PyIter_Next_account it w : account (snd (PyIter_Next it w)) = account w.
Proof.
  destruct it as [|[a|e] it1]; simpl; unfold account, held;
    rewrite ?clear_StopIteration_cursor, ?clear_StopIteration_log; simpl;
    rewrite borrowed_app; simpl; lia.
Qed.

Lemma reset_remaining_iterator_account forced res w :
  account (snd (reset_remaining_iterator forced res w)) = account w.
Proof.
  unfold reset_remaining_iterator.
  destruct (emiter (cursor w)) as [it|]; [|done].
  destruct (_ && _); [|done].
  pose proof (PyIter_Next_account it w) as H.
  destruct (PyIter_Next it w) as [[[a|] it1] w1]; simpl in *; [|done].
  by destruct (PyErr_Occurred w1).
Qed.

Lemma resetcursor_account force w :
  account (snd (resetcursor force w)) = account w.
Proof.
  unfold resetcursor.
  set (forced := negb (force =? 0)).
  set (w0 := set_bindingsoffset (-1)
               (set_bindings None (if forced then set_pyerr None w else w))).
  assert (H0 : account w0 = account w) by (subst w0; by destruct forced).
  set (r1 := reset_finalize forced w0).
  set (r2 := reset_remaining_statements forced _ (fst r1) (snd r1)).
  set (r3 := reset_remaining_iterator forced (fst r2) (snd r2)).
  assert (H3 : account (snd r3) = account w).
  { subst r3 r2 r1.
    by rewrite reset_remaining_iterator_account,
      reset_remaining_statements_account, reset_finalize_account. }
  cbn [snd]. rewrite <- H3.
  by destruct (if forced then pyerr w else None).
Qed.

Lemma step_bind_and_trace_account : keeps_account step_bind_and_trace.
Proof.
  intros w r w' H. unfold step_bind_and_trace in H.
  eapply keeps_bind_at; [exact H|..].
  - intros a w1. apply dobindings_account.
  - intros a w1 r1 w2 H1. cbv beta in H1.
    destruct (negb (a =? 0)); [by injection H1 as _ <-|].
    destruct (exectrace (cursor w1)); [|by injection H1 as _ <-].
    eapply keeps_bind_at; [exact H1|..].
    + intros b w3. apply doexectrace_account.
    + intros b w3 r3 w4 H3. cbv beta in H3.
      destruct (negb (b =? 0)); by injection H3 as _ <-.
Qed.

Lemma step_next_statement_account : keeps_account step_next_statement.
Proof.
  intros w r w' H. unfold step_next_statement in H.
  eapply keeps_bind_at; [exact H|..].
  - intros a w1 H1.
    destruct (statement (cursor w)) as [st1|] eqn:Hst.
    + eapply keeps_bind_at; [exact H1|..].
      * intros b w2. by apply statementcache_next_account.
      * intros b w2 r2 w3 H2. injection H2 as _ <-. apply account_SET_EXC.
    + destruct (emoriginalquery (cursor w)); [|done]. injection H1 as _ <-.
      rewrite prepare_call_account. unfold held. rewrite Hst. lia.
  - intros a w1 r1 w2 H1. cbv beta in H1.
    destruct (negb (a =? SQLITE_OK)); [by injection H1 as _ <-|].
    eapply keeps_bind_at; [exact H1|..].
    + intros b w3. apply step_bind_and_trace_account.
    + intros b w3 r3 w4 H3. cbv beta in H3.
      destruct b; by injection H3 as _ <-.
Qed.

Lemma step_advance_account : keeps_account step_advance.
Proof.
  intros w r w' H. unfold step_advance in H.
  set (wd := set_status C_DONE w) in *.
  assert (Hd : account wd = account w) by done.
  destruct (statement (cursor wd)) as [st|] eqn:Hst; [|done].
  rewrite <- Hd. clearbody wd.
  destruct (has_next st); [exact (step_next_statement_account _ _ _ H)|].
  destruct (emiter (cursor wd)) as [it|].
  2:{ same_world H. apply resetcursor_account. }
  pose proof (PyIter_Next_account it wd) as Hn.
  pose proof (PyIter_Next_cursor it wd) as Hc.
  destruct (PyIter_Next it wd) as [[nxt it1] w1]. cbn [snd] in Hn, Hc.
  rewrite <- Hn.
  set (w1' := set_emiter (Some it1) w1) in *.
  assert (H1 : account w1' = account w1) by done.
  assert (Hst1 : statement (cursor w1') = Some st).
  { subst w1'. simpl. by rewrite Hc. }
  rewrite <- H1. clearbody w1'.
  destruct (PyErr_Occurred w1'); [by injection H as _ <-|].
  destruct nxt as [a|].
  2:{ same_world H. apply resetcursor_account. }
  set (w2 := bindings_of_arg a _) in *.
  assert (H2 : account w2 = account w1').
  { subst w2.
    transitivity (account (set_statement None (snd (finalize_call st w1')))).
    - by destruct a as [d|[items|e]].
    - rewrite finalize_account. unfold held. rewrite Hst1. lia. }
  rewrite <- H2. clearbody w2.
  destruct (bindings (cursor w2)); [|by injection H as _ <-].
  exact (step_next_statement_account _ _ _ H).
Qed.

Lemma step_loop_account fuel : keeps_account (APSWCursor_step_loop fuel).
Proof.
  induction fuel as [|fuel IH]; intros w r w' H; [done|].
  cbn [APSWCursor_step_loop] in H.
  destruct (statement (cursor w)) as [st|] eqn:Hst; [|done].
  pose proof (step_call_account st w Hst) as H1.
  set (res := fst (step_call st w)) in *.
  set (w1 := snd (step_call st w)) in *. clearbody res w1.
  rewrite <- H1.
  destruct (Z.land res 255 =? SQLITE_ROW); [by injection H as _ <-|].
  destruct (Z.land res 255 =? SQLITE_DONE); cbn [andb] in H.
  - destruct (PyErr_Occurred w1); [by injection H as _ <-|].
    eapply keeps_bind_at; [exact H|..].
    + intros a w2. apply step_advance_account.
    + intros a w2 r2 w3 H2. cbv beta in H2.
      destruct a as [ret|[]]; [by injection H2 as _ <-|]. by eapply IH.
  - destruct (PyErr_Occurred _); same_world H;
      by rewrite resetcursor_account.
Qed.

Lemma execute_bind_trace_step_account : keeps_account execute_bind_trace_step.
Proof.
  intros w r w' H. unfold execute_bind_trace_step in H.
  set (w0 := set_bindingsoffset 0 w) in *.
  assert (H0 : account w0 = account w) by done. rewrite <- H0. clearbody w0.
  eapply keeps_bind_at; [exact H|..].
  - intros a w1. apply dobindings_account.
  - intros a w1 r1 w2 H1. cbv beta in H1.
    destruct (negb (a =? 0)); [by injection H1 as _ <-|].
    eapply keeps_bind_at; [exact H1|..].
    + intros b w3 H3. destruct (exectrace (cursor w1)).
      * by eapply doexectrace_account.
      * by injection H3 as _ <-.
    + intros b w3 r3 w4 H3. cbv beta in H3.
      destruct (negb (b =? 0)); [by injection H3 as _ <-|].
      unfold APSWCursor_step in H3.
      by rewrite (step_loop_account _ _ _ _ H3).
Qed.

Lemma bindings_of_arg_account a w : account (bindings_of_arg a w) = account w.
Proof. by destruct a as [d|[items|e]]. Qed.

Lemma execute_account args : keeps_account (APSWCursor_execute args).
Proof.
  intros w r w' H.
  assert (Hnone : statement (cursor (snd (resetcursor 0 w))) = None).
  { by rewrite resetcursor_cursor. }
  unfold APSWCursor_execute in H.
  destruct (CHECK_USE w) as [wu|] eqn:Hu.
  { injection H as _ <-. unfold CHECK_USE in Hu.
    destruct (inuse (cursor w)); [|done]. injection Hu as <-.
    by destruct (PyErr_Occurred w). }
  destruct (CHECK_CLOSED w) as [wc|] eqn:Hc.
  { injection H as _ <-. unfold CHECK_CLOSED in Hc.
    destruct (connection_db (cursor w)); [done|]. by injection Hc as <-. }
  pose proof (resetcursor_account 0 w) as Hr.
  destruct (resetcursor 0 w) as [res wr]. cbn [fst snd] in *.
  rewrite <- Hr. clear Hr Hu Hc.
  destruct (negb (res =? SQLITE_OK)); [by injection H as _ <-|].
  destruct args as [|statements more]; [by injection H as _ <-|].
  assert (Hrun : forall w2,
    statement (cursor w2) = None ->
    match statement (cursor (prepare_call statements w2)) with
    | None => Done RetNULL (prepare_call statements w2)
    | Some _ => execute_bind_trace_step (prepare_call statements w2)
    end = Done r w' -> account w' = account w2).
  { intros w2 Hs2 H2.
    assert (Hp : account (prepare_call statements w2) = account w2).
    { rewrite prepare_call_account. unfold held. rewrite Hs2. lia. }
    rewrite <- Hp.
    destruct (statement (cursor (prepare_call statements w2)));
      [exact (execute_bind_trace_step_account _ _ _ H2)
      |by injection H2 as _ <-]. }
  destruct more as [|a [|a' more]].
  - by apply Hrun.
  - rewrite <- (bindings_of_arg_account a wr).
    destruct (bindings (cursor (bindings_of_arg a wr)));
      [|by injection H as _ <-].
    apply Hrun; [|done]. by destruct a as [d|[items|e]].
  - by injection H as _ <-.
Qed.

Lemma executemany_account args : keeps_account (APSWCursor_executemany args).
Proof.
  intros w r w' H.
  assert (Hnone : statement (cursor (snd (resetcursor 0 w))) = None).
  { by rewrite resetcursor_cursor. }
  unfold APSWCursor_executemany in H.
  destruct (CHECK_USE w) as [wu|] eqn:Hu.
  { injection H as _ <-. unfold CHECK_USE in Hu.
    destruct (inuse (cursor w)); [|done]. injection Hu as <-.
    by destruct (PyErr_Occurred w). }
  destruct (CHECK_CLOSED w) as [wc|] eqn:Hc.
  { injection H as _ <-. unfold CHECK_CLOSED in Hc.
    destruct (connection_db (cursor w)); [done|]. by injection Hc as <-. }
  pose proof (resetcursor_account 0 w) as Hr.
  destruct (resetcursor 0 w) as [res wr]. cbn [fst snd] in *.
  rewrite <- Hr. clear Hr Hu Hc.
  destruct (negb (res =? SQLITE_OK)); [by injection H as _ <-|].
  destruct args as [[query [it|]]|]; [|by injection H as _ <-..].
  set (w0 := set_emiter (Some it) wr) in *.
  assert (H0 : account w0 = account wr /\ statement (cursor w0) = None) by done.
  destruct H0 as (H0 & Hs0). rewrite <- H0. clearbody w0.
  pose proof (PyIter_Next_account it w0) as Hn.
  pose proof (PyIter_Next_cursor it w0) as Hc.
  destruct (PyIter_Next it w0) as [[nxt it1] w1]. cbn [snd] in Hn, Hc.
  rewrite <- Hn.
  set (w1' := set_emiter (Some it1) w1) in *.
  assert (H1 : account w1' = account w1 /\ statement (cursor w1') = None).
  { subst w1'. split; [done|]. simpl. by rewrite Hc. }
  destruct H1 as (H1 & Hs1). rewrite <- H1. clearbody w1'.
  destruct nxt as [a|].
  2:{ destruct (PyErr_Occurred w1'); by injection H as _ <-. }
  set (w2 := bindings_of_arg a w1') in *.
  assert (H2 : account w2 = account w1' /\ statement (cursor w2) = None).
  { subst w2. split; [apply bindings_of_arg_account|].
    by destruct a as [d|[items|e]]. }
  destruct H2 as (H2 & Hs2). rewrite <- H2. clearbody w2.
  destruct (bindings (cursor w2)); [|by injection H as _ <-].
  assert (Hp : account (prepare_call query w2) = account w2).
  { rewrite prepare_call_account. unfold held. rewrite Hs2. lia. }
  rewrite <- Hp.
  destruct (statement (cursor (prepare_call query w2))) as [st|];
    [|by injection H as _ <-].
  rewrite (execute_bind_trace_step_account _ _ _ H). done.
Qed.

Lemma close_account args : keeps_account (APSWCursor_close args).
Proof.
  intros w r w' H. unfold APSWCursor_close in H.
  destruct (CHECK_USE w) as [wu|] eqn:Hu.
  { injection H as _ <-. unfold CHECK_USE in Hu.
    destruct (inuse (cursor w)); [|done]. injection Hu as <-.
    by destruct (PyErr_Occurred w). }
  destruct (negb (connection_db (cursor w))); [by injection H as _ <-|].
  destruct args as [|force]; [by injection H as _ <-|].
  pose proof (resetcursor_account (default 0 force) w) as Hr.
  destruct (resetcursor (default 0 force) w) as [res wr]. cbn [fst snd] in *.
  destruct (negb (res =? SQLITE_OK)); by injection H as _ <-.
Qed.

Lemma next_row_account : keeps_account next_row.
Proof.
  intros w r w' H. unfold next_row in H.
  set (wb := set_status C_BEGIN w) in *.
  assert (Hb : account wb = account w) by done. rewrite <- Hb. clearbody wb.
  destruct (statement (cursor wb)) as [st|]; [|done].
  destruct (rowtrace (cursor wb)) as [t|]; [|by injection H as _ <-].
  eapply keeps_bind_at; [exact H|..].
  - intros x w1. apply dorowtrace_account.
  - intros x w1 r1 w2 H1. cbv beta in H1.
    destruct x as [| |o|items]; try (by injection H1 as _ <-).
    destruct (is_Py_None (RetObject o)); by injection H1 as _ <-.
Qed.

Lemma next_again_account fuel : keeps_account (APSWCursor_next_again fuel).
Proof.
  induction fuel as [|fuel IH]; intros w r w' H; [done|].
  cbn [APSWCursor_next_again] in H.
  eapply keeps_bind_at; [exact H|..].
  - intros x w1 H1. destruct (status_eqb _ _); [|by injection H1 as _ <-].
    exact (step_loop_account _ _ _ _ H1).
  - intros x w1 r1 w2 H1. cbv beta in H1.
    assert (Hrest :
      (if status_eqb (status (cursor w1)) C_DONE then Done RetNULL w1
       else
         call r, w <- next_row w1 in
         match r with
         | inl ret => Done ret w
         | inr _ => APSWCursor_next_again fuel w
         end) = Done r1 w2 -> account w2 = account w1).
    { clear H1. intros H2.
      destruct (status_eqb (status (cursor w1)) C_DONE);
        [by injection H2 as _ <-|].
      eapply keeps_bind_at; [exact H2|..].
      - intros b w3. apply next_row_account.
      - intros b w3 r3 w4 H3. cbv beta in H3.
        destruct b as [ret|[]]; [by injection H3 as _ <-|]. by eapply IH. }
    destruct x; try (by apply Hrest). by injection H1 as _ <-.
Qed.

Lemma perform_account op : keeps_account (perform op).
Proof.
  intros w r w' H. unfold perform in H.
  set (w0 := set_pyerr None w) in *.
  assert (H0 : account w0 = account w) by done. rewrite <- H0. clearbody w0.
  destruct op as [args|args|args|fuel|func|func|].
  - exact (execute_account _ _ _ _ H).
  - exact (executemany_account _ _ _ _ H).
  - exact (close_account _ _ _ _ H).
  - unfold APSWCursor_next in H.
    destruct (CHECK_USE w0) as [wu|] eqn:Hu.
    { injection H as _ <-. unfold CHECK_USE in Hu.
      destruct (inuse (cursor w0)); [|done]. injection Hu as <-.
      by destruct (PyErr_Occurred w0). }
    destruct (CHECK_CLOSED w0) as [wc|] eqn:Hc.
    { injection H as _ <-. unfold CHECK_CLOSED in Hc.
      destruct (connection_db (cursor w0)); [done|]. by injection Hc as <-. }
    exact (next_again_account _ _ _ _ H).
  - unfold APSWCursor_setexectrace in H.
    destruct (CHECK_USE w0) as [wu|] eqn:Hu.
    { injection H as _ <-. unfold CHECK_USE in Hu.
      destruct (inuse (cursor w0)); [|done]. injection Hu as <-.
      by destruct (PyErr_Occurred w0). }
    destruct (CHECK_CLOSED w0) as [wc|] eqn:Hc.
    { injection H as _ <-. unfold CHECK_CLOSED in Hc.
      destruct (connection_db (cursor w0)); [done|]. by injection Hc as <-. }
    destruct func as [[name|f]|]; by injection H as _ <-.
  - unfold APSWCursor_setrowtrace in H.
    destruct (CHECK_USE w0) as [wu|] eqn:Hu.
    { injection H as _ <-. unfold CHECK_USE in Hu.
      destruct (inuse (cursor w0)); [|done]. injection Hu as <-.
      by destruct (PyErr_Occurred w0). }
    destruct (CHECK_CLOSED w0) as [wc|] eqn:Hc.
    { injection H as _ <-. unfold CHECK_CLOSED in Hc.
      destruct (connection_db (cursor w0)); [done|]. by injection Hc as <-. }
    destruct func as [[name|f]|]; by injection H as _ <-.
  - by injection H as _ <-.
Qed.

(** Every statement the cursor obtained it has handed back, except the one
    it holds. *)
Lemma reachable_account w : reachable w -> borrowed (log w) = held w.
Proof.
  induction 1 as [|w op r w' _ IH Hrun].
  - reflexivity.
  - pose proof (perform_account op w r w' Hrun) as H.
    unfold account in H. lia.
Qed.

(** ** C8: the invariant of the data model *)

Lemma after_failed_prepare_reachable :
  reachable (world_of after_failed_prepare).
Proof.
  apply (reachable_perform APSWCursor_init
           (Op_execute (Args [Invalid "bogus" SQLITE_ERROR]
                             [ArgObject (Returned [PyLong 1])]))
           RetNULL);
    [apply reachable_init|]. vm_compute. reflexivity.
Defined.

(** After [execute("bogus", (1,))] the bindings are the sequence [(1,)]
    and the offset is still the -1 that [resetcursor] left: the statement
    could not be prepared, and [execute] sets the offset to 0 only once it
    has one. *)
Lemma offset_after_failed_prepare :
  reachable (world_of after_failed_prepare) /\
  ~ spec_invariant (world_of after_failed_prepare).
Proof.
  split.
  - apply after_failed_prepare_reachable.
  - intros [H _]. specialize (H [PyLong 1]).
    assert (Hb : bindings (cursor (world_of after_failed_prepare))
                 = Some (BSeq [PyLong 1])) by (vm_compute; reflexivity).
    specialize (H Hb).
    assert (Ho : bindingsoffset (cursor (world_of after_failed_prepare)) = -1)
      by (vm_compute; reflexivity).
    rewrite Ho in H. lia.
Qed.

(** The bound on the offset is one on the sequence as the resolver last
    saw it.  After [execute("select ?; select ?, ?", L)] with the list
    [L = [1, 2, 3]] the first statement has taken one value; when the
    caller then empties [L], which is the object the cursor holds, the
    statement is still held and the offset is 1, above the length 0. *)
Lemma bound_lost_when_sequence_changes :
  reachable midway /\
  (exists st, statement (cursor (sequence_changed [] midway)) = Some st) /\
  bindings (cursor (sequence_changed [] midway)) = Some (BSeq []) /\
  bindingsoffset (cursor (sequence_changed [] midway)) = 1 /\
  ~ spec_invariant (sequence_changed [] midway).
Proof.
  split.
  { apply (reachable_perform APSWCursor_init
             (Op_execute
                (Args two_selects
                      [ArgObject (Returned [PyLong 1; PyLong 2; PyLong 3])]))
             RetSelf);
      [apply reachable_init|]. vm_compute. reflexivity. }
  split; [eexists; vm_compute; reflexivity|].
  split; [vm_compute; reflexivity|]. split; [vm_compute; reflexivity|].
  intros [H _]. specialize (H []).
  assert (Hb : bindings (cursor (sequence_changed [] midway))
               = Some (BSeq [])) by (vm_compute; reflexivity).
  specialize (H Hb).
  assert (Ho : bindingsoffset (cursor (sequence_changed [] midway)) = 1)
    by (vm_compute; reflexivity).
  rewrite Ho in H. cbn in H. lia.
Qed.

(** C8, as stated, fails, in two ways.  Without a statement the offset is
    not kept within the sequence: after [execute("bogus", (1,))] it is -1.
    And the sequence is the caller's own list: when the caller empties it
    while the cursor holds a statement, the offset is above its length. *)
Lemma spec_invariant_fails :
  (reachable (world_of after_failed_prepare) /\
   ~ spec_invariant (world_of after_failed_prepare)) /\
  (reachable midway /\ ~ spec_invariant (sequence_changed [] midway)).
Proof.
  split; [exact offset_after_failed_prepare|].
  destruct bound_lost_when_sequence_changes as (Hr & _ & _ & _ & Hn).
  by split.
Qed.

(** C8, amended.  In every state the cursor reaches by calls of its
    methods, in runs in which the callbacks return without calling the
    cursor and nobody changes the sequence of bindings behind it: the
    statements it obtained from the cache and has not handed back are the
    one it holds, if it holds one, and none otherwise (so at most one at
    any time); while it holds a statement and its bindings are a sequence,
    the offset lies between 0 and the length of the sequence; and when it
    holds no statement its state is [C_DONE]. *)
Theorem cursor_invariant (w : World) :
  reachable w ->
  (borrowed (log w) = held w /\ 0 <= held w <= 1) /\
  (forall st items,
      statement (cursor w) = Some st ->
      bindings (cursor w) = Some (BSeq items) ->
      0 <= bindingsoffset (cursor w) <= Z.of_nat (length items)) /\
  (statement (cursor w) = None -> status (cursor w) = C_DONE).
Proof.
  intros Hreach. pose proof (reachable_inv w Hreach) as (_ & Hb & _ & He & _).
  split; [|by split].
  split; [by apply reachable_account|].
  unfold held. destruct (statement (cursor w)); lia.
Qed.

Lemma cursor_invariant_witness :
  let w := world_of after_failed_prepare in
  (borrowed (log w) = held w /\ 0 <= held w <= 1) /\
  (forall st items,
      statement (cursor w) = Some st ->
      bindings (cursor w) = Some (BSeq items) ->
      0 <= bindingsoffset (cursor w) <= Z.of_nat (length items)) /\
  (statement (cursor w) = None -> status (cursor w) = C_DONE).
Proof.
  exact (cursor_invariant (world_of after_failed_prepare)
           after_failed_prepare_reachable).
Defined.

(** ** C10: closing a cursor whose connection is closed *)

Lemma midway_closed_reachable : reachable midway_closed.
Proof.
  apply (reachable_perform midway Op_connection_closed (RetObject Py_None));
    [|vm_compute; reflexivity].
  apply (reachable_perform APSWCursor_init
           (Op_execute
              (Args two_selects
                    [ArgObject (Returned [PyLong 1; PyLong 2; PyLong 3])]))
           RetSelf);
    [apply reachable_init|]. vm_compute. reflexivity.
Qed.

Lemma midway_closed_pending :
  connection_db (cursor midway_closed) = false /\
  status (cursor midway_closed) = C_ROW /\
  exists st q, statement (cursor midway_closed) = Some st /\ next st = Some q.
Proof.
  split; [vm_compute; reflexivity|]. split; [vm_compute; reflexivity|].
  exists (default {| vdbestatement := None; utf8 := []; next := None |}
                  (statement (cursor midway_closed))),
         [select_bound "select ?, ?" [None; None]].
  split; vm_compute; reflexivity.
Qed.

(** C10.  In every state the cursor can reach, when its connection is
    closed, [close] returns None and changes nothing, whatever its arguments
    (force or not, even arguments it could not parse) and whatever the
    cursor still holds: no exception is set and no call is made. *)
Theorem close_on_closed_connection (args : close_args) (w : World) :
  reachable w ->
  connection_db (cursor w) = false ->
  APSWCursor_close args w = Done (RetObject Py_None) w.
Proof.
  intros Hreach Hdb. destruct (reachable_inv w Hreach) as (Hu & _).
  unfold APSWCursor_close, CHECK_USE. by rewrite Hu, Hdb.
Qed.

Lemma close_on_closed_connection_witness :
  APSWCursor_close (CloseArgs None) midway_closed
    = Done (RetObject Py_None) midway_closed /\
  APSWCursor_close (CloseArgs (Some 1)) midway_closed
    = Done (RetObject Py_None) midway_closed.
Proof.
  destruct midway_closed_pending as (Hdb & _).
  split; apply (close_on_closed_connection _ midway_closed);
    [apply midway_closed_reachable|exact Hdb
    |apply midway_closed_reachable|exact Hdb].
Defined.

(** ** C7: [executemany] on an empty source *)

(** What a reset adds to the log: the statement held is handed back first,
    and the iterator may be asked once. *)
Lemma resetcursor_events force w :
  exists evs,
    log (snd (resetcursor force w))
    = log w ++ match statement (cursor w) with
               | Some _ => [EvFinalize]
               | None => []
               end ++ evs
    /\ Forall housekeeping evs.
Proof.
  unfold resetcursor.
  set (forced := negb (force =? 0)).
  set (w0 := set_bindingsoffset (-1)
               (set_bindings None (if forced then set_pyerr None w else w))).
  assert (H0 : log w0 = log w) by (subst w0; by destruct forced).
  assert (Hs0 : statement (cursor w0) = statement (cursor w))
    by (subst w0; by destruct forced).
  clearbody w0.
  set (r1 := reset_finalize forced w0).
  assert (H1 : log (snd r1)
               = log w ++ match statement (cursor w) with
                          | Some _ => [EvFinalize]
                          | None => []
                          end).
  { subst r1. unfold reset_finalize, finalize_call. rewrite <- Hs0.
    destruct (statement (cursor w0)).
    - cbn [snd]. destruct forced; simpl; rewrite ?SET_EXC_log; simpl;
        by rewrite H0.
    - by rewrite app_nil_r. }
  set (r2 := reset_remaining_statements forced _ (fst r1) (snd r1)).
  assert (H2 : log (snd r2) = log (snd r1)).
  { subst r2. unfold reset_remaining_statements.
    destruct (_ && _); [|done]. destruct (_ =? SQLITE_OK); [|done].
    simpl. by destruct (PyErr_Occurred _). }
  set (r3 := reset_remaining_iterator forced (fst r2) (snd r2)).
  assert (H3 : exists evs, log (snd r3) = log (snd r2) ++ evs
                           /\ Forall housekeeping evs).
  { subst r3. unfold reset_remaining_iterator.
    destruct (emiter (cursor (snd r2))) as [it|];
      [|exists []; rewrite app_nil_r; by split].
    destruct (_ && _); [|exists []; rewrite app_nil_r; by split].
    exists [EvIterNext]. split; [|constructor; [by right|constructor]].
    destruct it as [|[a|e] it1]; simpl; rewrite ?clear_StopIteration_log;
      try done.
    by destruct (PyErr_Occurred _). }
  clearbody r1 r2 r3.
  destruct H3 as (e3 & H3 & F3).
  exists e3. split; [|done].
  cbn [snd].
  assert (Hl : forall w1 : World,
    log (match (if forced then pyerr w else None) with
         | Some e => set_pyerr (Some e) w1
         | None => w1
         end) = log w1).
  { intros w1. by destruct (if forced then pyerr w else None). }
  rewrite Hl. simpl. rewrite H3, H2, H1. by rewrite app_assoc.
Qed.

Lemma resetcursor_log force w :
  exists evs,
    log (snd (resetcursor force w)) = log w ++ evs /\ Forall housekeeping evs.
Proof.
  destruct (resetcursor_events force w) as (evs & H & Hk).
  eexists. split; [exact H|]. apply Forall_app. split; [|done].
  destruct (statement (cursor w)); [|constructor].
  constructor; [by left|constructor].
Qed.

(** C7.  [executemany(text, source)] with a source that yields nothing
    (an iterator at its end, or one that answers the first request by raising
    StopIteration), called when the cursor can be reset (nothing was left unfinished), is a
    no-op that succeeds: it returns the cursor, sets no exception, and
    after the reset it asks the iterator once and does nothing else.  No
    statement is prepared, bound, stepped or traced; the cursor holds no
    statement and no bindings and is in the state [C_DONE]. *)
Theorem executemany_empty_source (statements : query) (it : PyIterator)
    (w : World) :
  source_is_empty it ->
  inuse (cursor w) = false ->
  connection_db (cursor w) = true ->
  fst (resetcursor 0 w) = SQLITE_OK ->
  pyerr (snd (resetcursor 0 w)) = None ->
  exists w' evs,
    APSWCursor_executemany (Some (statements, Some it)) w = Done RetSelf w' /\
    pyerr w' = None /\
    log w' = log w ++ evs /\ Forall housekeeping evs /\
    statement (cursor w') = None /\ bindings (cursor w') = None /\
    status (cursor w') = C_DONE.
Proof.
  intros Hit Hu Hdb Hres Herr.
  destruct (resetcursor_log 0 w) as (evs & Hl & Hf).
  pose proof (resetcursor_fields 0 w) as Hfields. cbv zeta in Hfields.
  destruct Hfields as (Hs & Hd & Hb & _).
  unfold APSWCursor_executemany, CHECK_USE, CHECK_CLOSED. rewrite Hu, Hdb.
  destruct (resetcursor 0 w) as [res wr]. cbn [fst snd] in *. subst res.
  change (negb (SQLITE_OK =? SQLITE_OK)) with false. cbv iota.
  destruct Hit as [->|(e & rest & -> & He)].
  - cbn. rewrite clear_StopIteration_none by exact Herr.
    unfold PyErr_Occurred. cbn. rewrite Herr.
    do 2 eexists. split; [reflexivity|]. cbn.
    split; [done|]. split; [|split]; [|apply Forall_app; split; [exact Hf|]|done].
    + rewrite Hl. by rewrite <- app_assoc.
    + constructor; [by right|constructor].
  - cbn. unfold clear_StopIteration, PyErr_Format. cbn. rewrite He.
    unfold PyErr_Occurred. cbn.
    do 2 eexists. split; [reflexivity|]. cbn.
    split; [done|]. split; [|split]; [|apply Forall_app; split; [exact Hf|]|done].
    + rewrite Hl. by rewrite <- app_assoc.
    + constructor; [by right|constructor].
Qed.

Lemma executemany_empty_source_witness :
  source_is_empty [] /\
  exists w' evs,
    APSWCursor_executemany (Some (two_selects, Some [])) APSWCursor_init
      = Done RetSelf w' /\
    pyerr w' = None /\
    log w' = log APSWCursor_init ++ evs /\ Forall housekeeping evs /\
    statement (cursor w') = None /\ bindings (cursor w') = None /\
    status (cursor w') = C_DONE.
Proof.
  split; [by left|].
  apply (executemany_empty_source two_selects [] APSWCursor_init);
    [by left|vm_compute; reflexivity..].
Defined.

(** ** C2: abandoning a batch *)

Lemma resetcursor_incomplete w :
  cursor_inv w -> pyerr w = None ->
  status (cursor w) <> C_DONE -> work_remains w -> source_answers w ->
  fst (resetcursor 0 w) = SQLITE_ERROR /\
  exists many, pyerr (snd (resetcursor 0 w)) = Some (ExcIncomplete many).
Proof.
  intros (_ & Hb & Hj & _) Herr Hnd Hwork Hsrc.
  destruct (statement (cursor w)) as [st|] eqn:Hst; [|by specialize (Hb eq_refl)].
  specialize (Hj st eq_refl). clear Hb.
  unfold resetcursor, reset_finalize, reset_remaining_statements,
    reset_remaining_iterator, finalize_call, work_remains, source_answers in *.
  destruct w as [c e l]. destruct c as [db iu s stt b off it oq et rt].
  cbn in *. subst e s. rewrite Hj. cbn.
  destruct stt; [| |done]; cbn.
  - destruct Hwork as [(st' & q & [= <-] & ->)|(a & rest & ->)]; cbn.
    + destruct it as [[|[a|e] it]|]; cbn; eauto.
      by destruct (Hsrc e it).
    + destruct (next st); cbn; eauto.
  - destruct Hwork as [(st' & q & [= <-] & ->)|(a & rest & ->)]; cbn.
    + destruct it as [[|[a|e] it]|]; cbn; eauto.
      by destruct (Hsrc e it).
    + destruct (next st); cbn; eauto.
Qed.

Lemma resetcursor_forced force w :
  force <> 0 ->
  (forall st, statement (cursor w) = Some st ->
              statementcache_finalize st = SQLITE_OK) ->
  fst (resetcursor force w) = SQLITE_OK /\
  pyerr (snd (resetcursor force w)) = pyerr w.
Proof.
  intros Hf Hj.
  unfold resetcursor, reset_finalize, reset_remaining_statements,
    reset_remaining_iterator, finalize_call.
  replace (force =? 0) with false by (symmetry; by apply Z.eqb_neq).
  destruct w as [c e l]. destruct c as [db iu s stt b off it oq et rt].
  cbn in *. destruct s as [st|]; cbn.
  - rewrite (Hj st eq_refl). destruct it, e; done.
  - destruct it, e; done.
Qed.

Lemma midway_reachable : reachable midway.
Proof.
  apply (reachable_perform APSWCursor_init
           (Op_execute
              (Args two_selects
                    [ArgObject (Returned [PyLong 1; PyLong 2; PyLong 3])]))
           RetSelf);
    [apply reachable_init|]. vm_compute. reflexivity.
Qed.

Lemma midway_many_reachable : reachable midway_many.
Proof.
  apply (reachable_perform APSWCursor_init
           (Op_executemany (Some (two_selects, Some source_raises)))
           RetSelf);
    [apply reachable_init|]. vm_compute. reflexivity.
Qed.

Lemma midway_many_work :
  status (cursor midway_many) <> C_DONE /\ work_remains midway_many.
Proof.
  split; [vm_compute; discriminate|]. left.
  exists (default {| vdbestatement := None; utf8 := []; next := None |}
                  (statement (cursor midway_many))),
         [select_bound "select ?, ?" [None; None]].
  split; vm_compute; reflexivity.
Qed.

Lemma midway_many_close :
  perform (Op_close (CloseArgs None)) midway_many
  = Done RetNULL (world_of (perform (Op_close (CloseArgs None)) midway_many)).
Proof. vm_compute. reflexivity. Qed.

Lemma midway_many_error :
  pyerr (world_of (perform (Op_close (CloseArgs None)) midway_many))
  = Some (PyException "ValueError").
Proof. vm_compute. reflexivity. Qed.

Lemma midway_many_open : connection_db (cursor midway_many) = true.
Proof. vm_compute. reflexivity. Qed.

Lemma midway_many_stop_reachable : reachable midway_many_stop.
Proof.
  apply (reachable_perform APSWCursor_init
           (Op_executemany (Some (two_selects, Some source_stops)))
           RetSelf);
    [apply reachable_init|]. vm_compute. reflexivity.
Qed.

(** C2.  The contract holds in all its cases except where the reset
    runs into the executemany source.  After the first row of
    [executemany("select ?; select ?, ?", source)], with the second
    statement still to run, [close()] resets the cursor: [resetcursor]
    raises IncompleteExecutionError for the remaining text and then asks
    the source for its next element with that error pending.  A source
    that raises ValueError there makes the call fail with ValueError; a
    source written in Python that is at its end raises StopIteration, which
    [PyIter_Next] clears, and the call returns NULL with no exception at
    all.  In neither case is IncompleteExecutionError raised, so the
    contract as the specification words it does not hold in these states. *)
Theorem abandonment_masked :
  (reachable midway_many /\ connection_db (cursor midway_many) = true /\
   status (cursor midway_many) <> C_DONE /\ work_remains midway_many /\
   exists w',
     perform (Op_close (CloseArgs None)) midway_many = Done RetNULL w' /\
     pyerr w' = Some (PyException "ValueError")) /\
  (reachable midway_many_stop /\
   connection_db (cursor midway_many_stop) = true /\
   status (cursor midway_many_stop) <> C_DONE /\
   work_remains midway_many_stop /\
   exists w',
     perform (Op_close (CloseArgs None)) midway_many_stop = Done RetNULL w' /\
     pyerr w' = None) /\
  ~ spec_abandonment midway_many /\ ~ spec_abandonment midway_many_stop.
Proof.
  assert (Hstop : status (cursor midway_many_stop) <> C_DONE /\
                  work_remains midway_many_stop).
  { split; [vm_compute; discriminate|]. left.
    exists (default {| vdbestatement := None; utf8 := []; next := None |}
                    (statement (cursor midway_many_stop))),
           [select_bound "select ?, ?" [None; None]].
    split; vm_compute; reflexivity. }
  assert (Hclose : perform (Op_close (CloseArgs None)) midway_many_stop
                   = Done RetNULL
                       (world_of (perform (Op_close (CloseArgs None))
                                          midway_many_stop)))
    by (vm_compute; reflexivity).
  assert (Hnone : pyerr (world_of (perform (Op_close (CloseArgs None))
                                           midway_many_stop)) = None)
    by (vm_compute; reflexivity).
  destruct midway_many_work as [Hnd Hwork]. destruct Hstop as [Hnd' Hwork'].
  split; [|split; [|split]].
  - split; [apply midway_many_reachable|]. split; [apply midway_many_open|].
    split; [exact Hnd|]. split; [exact Hwork|].
    eexists. split; [apply midway_many_close|apply midway_many_error].
  - split; [apply midway_many_stop_reachable|].
    split; [vm_compute; reflexivity|].
    split; [exact Hnd'|]. split; [exact Hwork'|].
    eexists. split; [exact Hclose|exact Hnone].
  - unfold spec_abandonment, raises_incomplete. intros H.
    destruct (H Hnd Hwork) as (_ & _ & many & w' & Hrun & Herr).
    rewrite midway_many_close in Hrun.
    assert (w' = world_of (perform (Op_close (CloseArgs None)) midway_many))
      as -> by congruence.
    rewrite midway_many_error in Herr. discriminate Herr.
  - unfold spec_abandonment, raises_incomplete. intros H.
    destruct (H Hnd' Hwork') as (_ & _ & many & w' & Hrun & Herr).
    rewrite Hclose in Hrun.
    assert (w' = world_of (perform (Op_close (CloseArgs None))
                                   midway_many_stop))
      as -> by congruence.
    rewrite Hnone in Herr. discriminate Herr.
Qed.

(** Where the source does not raise when the reset asks it, the contract
    holds.  In a state the cursor can reach, with the connection open:
    - if the state is not [C_DONE] and work remains (statements of the batch
      or elements of the executemany source), then [resetcursor(force=0)],
      entered with no exception pending, fails with
      IncompleteExecutionError, and so do [execute], [executemany] and
      [close] without force, which return NULL right after it;
    - [close] with force succeeds whatever remains: it returns None, leaves
      the error indicator as it found it (an exception pending before the
      call is still the one pending after it, and none appears), and the
      cursor holds no statement, bindings, iterator or original text and is
      in the state [C_DONE]. *)
Lemma abandoned_execution (w : World) :
  reachable w ->
  connection_db (cursor w) = true ->
  (status (cursor w) <> C_DONE -> work_remains w -> source_answers w ->
   exists many w',
     resetcursor 0 (set_pyerr None w) = (SQLITE_ERROR, w') /\
     pyerr w' = Some (ExcIncomplete many) /\
     (forall args, perform (Op_execute args) w = Done RetNULL w') /\
     (forall args, perform (Op_executemany args) w = Done RetNULL w') /\
     perform (Op_close (CloseArgs None)) w = Done RetNULL w' /\
     perform (Op_close (CloseArgs (Some 0))) w = Done RetNULL w')
  /\
  (forall (force : Z) (pending : option exn),
      force <> 0 ->
      exists w',
        APSWCursor_close (CloseArgs (Some force)) (set_pyerr pending w)
          = Done (RetObject Py_None) w' /\
        pyerr w' = pending /\
        cursor w' = reset_state (cursor w)).
Proof.
  intros Hreach Hdb. pose proof (reachable_inv w Hreach) as Hinv.
  pose proof Hinv as (Hu & _ & Hj & _). split.
  - intros Hnd Hwork Hsrc.
    assert (Hinv0 : cursor_inv (set_pyerr None w)) by (by eapply cursor_inv_ext).
    destruct (resetcursor_incomplete (set_pyerr None w) Hinv0 eq_refl Hnd Hwork
                Hsrc)
      as (Hres & many & Hpy).
    exists many, (snd (resetcursor 0 (set_pyerr None w))).
    unfold perform, APSWCursor_execute, APSWCursor_executemany, APSWCursor_close,
      CHECK_USE, CHECK_CLOSED. cbn [set_pyerr cursor]. rewrite Hu, Hdb.
    cbn [negb default from_option id].
    destruct (resetcursor 0 (set_pyerr None w)) as [res w']. cbn [fst snd] in *.
    subst res.
    change (negb (SQLITE_ERROR =? SQLITE_OK)) with true. cbv iota. auto 10.
  - intros force pending Hf.
    destruct (resetcursor_forced force (set_pyerr pending w) Hf Hj)
      as (Hres & Hpy).
    pose proof (resetcursor_cursor force (set_pyerr pending w)) as Hc.
    exists (snd (resetcursor force (set_pyerr pending w))).
    unfold APSWCursor_close, CHECK_USE. cbn [set_pyerr cursor].
    rewrite Hu, Hdb. cbn [negb default from_option id].
    destruct (resetcursor force (set_pyerr pending w)) as [res w'].
    cbn [fst snd] in *. subst res.
    change (negb (SQLITE_OK =? SQLITE_OK)) with false. cbv iota. auto.
Qed.

Lemma midway_work :
  connection_db (cursor midway) = true /\
  status (cursor midway) <> C_DONE /\ work_remains midway.
Proof.
  split; [vm_compute; reflexivity|].
  split; [vm_compute; discriminate|]. left.
  exists (default {| vdbestatement := None; utf8 := []; next := None |}
                  (statement (cursor midway))),
         [select_bound "select ?, ?" [None; None]].
  split; vm_compute; reflexivity.
Qed.

Lemma abandoned_execution_witness :
  (exists many w',
      resetcursor 0 (set_pyerr None midway) = (SQLITE_ERROR, w') /\
      pyerr w' = Some (ExcIncomplete many) /\
      (forall args, perform (Op_execute args) midway = Done RetNULL w') /\
      (forall args, perform (Op_executemany args) midway = Done RetNULL w') /\
      perform (Op_close (CloseArgs None)) midway = Done RetNULL w' /\
      perform (Op_close (CloseArgs (Some 0))) midway = Done RetNULL w') /\
  (exists w',
      APSWCursor_close (CloseArgs (Some 1)) (set_pyerr (Some ExcComplete) midway)
        = Done (RetObject Py_None) w' /\
      pyerr w' = Some ExcComplete /\
      cursor w' = reset_state (cursor midway)).
Proof.
  destruct midway_work as (Hdb & Hnd & Hwork).
  destruct (abandoned_execution midway midway_reachable Hdb) as [Hreset Hforce].
  split.
  - apply (Hreset Hnd Hwork). intros e rest. vm_compute. discriminate.
  - apply (Hforce 1 (Some ExcComplete)). lia.
Defined.

(** ** The log only grows *)

Lemma extends_refl w : extends w w.
Proof. unfold extends. reflexivity. Qed.

Lemma extends_trans a b c : extends a b -> extends b c -> extends a c.
Proof. unfold extends. intros. by etrans. Qed.

Lemma extends_same w w' : log w' = log w -> extends w w'.
Proof. unfold extends. by intros ->. Qed.

Lemma extends_emit ev w : extends w (emit ev w).
Proof. unfold extends. simpl. by apply prefix_app_r. Qed.

Lemma extends_emit_on ev w w1 : log w1 = log w -> extends w (emit ev w1).
Proof. unfold extends. simpl. intros ->. by apply prefix_app_r. Qed.

Lemma extends_SET_EXC res w : extends w (SET_EXC res w).
Proof. apply extends_same, SET_EXC_log. Qed.

Lemma extends_log w0 w w' : log w = log w0 -> extends w w' -> extends w0 w'.
Proof. unfold extends. by intros ->. Qed.

Lemma grows_bind_at {A B : Type} (m : outcome A) (k : A -> World -> outcome B)
  (w0 : World) r w' :
  bindM m k = Done r w' ->
  (forall a w1, m = Done a w1 -> extends w0 w1) ->
  (forall a, grows (k a)) ->
  extends w0 w'.
Proof.
  intros H Hm Hk. destruct m as [a w1| |]; try done.
  simpl in H. eapply extends_trans; [by eapply Hm|]. by eapply Hk.
Qed.

(** ** Calls that trace nothing *)

Lemma ran_on_refl w : ran_on w w.
Proof.
  split; [done|]. exists []. rewrite app_nil_r. split; [done|constructor].
Qed.

Lemma ran_on_trans a b c : ran_on a b -> ran_on b c -> ran_on a c.
Proof.
  intros (Ht1 & evs1 & Hl1 & Hv1) (Ht2 & evs2 & Hl2 & Hv2).
  split; [congruence|]. exists (evs1 ++ evs2).
  split; [by rewrite Hl2, Hl1, app_assoc|].
  apply Forall_app. split; [done|]. by rewrite <- Ht1.
Qed.

Lemma ran_on_same w w' :
  log w' = log w -> exectrace (cursor w') = exectrace (cursor w) -> ran_on w w'.
Proof.
  intros Hl Ht. split; [done|]. exists []. rewrite app_nil_r.
  split; [done|constructor].
Qed.

Lemma ran_on_emit ev w w1 :
  log w1 = log w -> exectrace (cursor w1) = exectrace (cursor w) ->
  vetoed (exectrace (cursor w)) ev = false -> ran_on w (emit ev w1).
Proof.
  intros Hl Ht Hv. split; [done|]. exists [ev]. simpl. rewrite Hl.
  split; [done|]. by constructor.
Qed.

Lemma ran_on_extends w w' : ran_on w w' -> extends w w'.
Proof.
  intros (_ & evs & Hl & _). unfold extends. rewrite Hl. by apply prefix_app_r.
Qed.

Lemma quiet_refl w : quiet w w.
Proof. split; [apply ran_on_refl|done]. Qed.

Lemma quiet_trans a b c : quiet a b -> quiet b c -> quiet a c.
Proof.
  intros [H1 S1] [H2 S2]. split; [by eapply ran_on_trans|congruence].
Qed.

Lemma quiet_same w w' : log w' = log w -> cursor w' = cursor w -> quiet w w'.
Proof.
  intros Hl Hc. split; [apply ran_on_same|]; by rewrite ?Hc.
Qed.

Lemma quiet_fields w w' :
  log w' = log w -> exectrace (cursor w') = exectrace (cursor w) ->
  status (cursor w') = status (cursor w) -> quiet w w'.
Proof. intros Hl Ht Hs. split; [by apply ran_on_same|done]. Qed.

Lemma quiet_SET_EXC res w : quiet w (SET_EXC res w).
Proof. apply quiet_same; [apply SET_EXC_log|apply SET_EXC_cursor]. Qed.

Lemma quiet_from w0 w w' :
  log w = log w0 -> cursor w = cursor w0 -> quiet w w' -> quiet w0 w'.
Proof. intros Hl Hc. apply quiet_trans. by apply quiet_same. Qed.

Lemma quiet_extends w w' : quiet w w' -> extends w w'.
Proof. intros [H _]. by apply ran_on_extends. Qed.

Lemma quietly_bind_at {A B : Type} (m : outcome A)
  (k : A -> World -> outcome B) (w0 : World) r w' :
  bindM m k = Done r w' ->
  (forall a w1, m = Done a w1 -> quiet w0 w1) ->
  (forall a, quietly (k a)) ->
  quiet w0 w'.
Proof.
  intros H Hm Hk. destruct m as [a w1| |]; try done.
  simpl in H. eapply quiet_trans; [by eapply Hm|]. by eapply Hk.
Qed.

Lemma bind_call_quiet arg val : quietly (bind_call arg val).
Proof.
  intros w r w' H. unfold bind_call in H.
  destruct (statement (cursor w)); [|done]. same_world H.
  split; [|done]. apply ran_on_emit; try done.
  by destruct (exectrace (cursor w)).
Qed.

(** The binder and the resolver change the cursor only through [bind_call]
    and the offset.  A relation between worlds that holds across those two,
    across changes of the error indicator alone, and is transitive, holds
    across the whole resolver. *)
Section Binder.
Variable R : World -> World -> Prop.
Hypothesis R_trans : forall a b c, R a b -> R b c -> R a c.
Hypothesis R_same :
  forall w w', log w' = log w -> cursor w' = cursor w -> R w w'.
Hypothesis R_bind_call :
  forall arg val w r w', bind_call arg val w = Done r w' -> R w w'.
Hypothesis R_offset : forall o w, R w (set_bindingsoffset o w).

Lemma R_refl w : R w w.
Proof. by apply R_same. Qed.

Lemma R_SET_EXC res w : R w (SET_EXC res w).
Proof. apply R_same; [apply SET_EXC_log|apply SET_EXC_cursor]. Qed.

Lemma R_from w0 w w' :
  log w = log w0 -> cursor w = cursor w0 -> R w w' -> R w0 w'.
Proof. intros Hl Hc. apply R_trans. by apply R_same. Qed.

Lemma related_bind_at {A B : Type} (m : outcome A)
  (k : A -> World -> outcome B) (w0 : World) r w' :
  bindM m k = Done r w' ->
  (forall a w1, m = Done a w1 -> R w0 w1) ->
  (forall a, related R (k a)) ->
  R w0 w'.
Proof.
  intros H Hm Hk. destruct m as [a w1| |]; try done.
  simpl in H. eapply R_trans; [by eapply Hm|]. by eapply Hk.
Qed.

Lemma dobinding_finish_related res : related R (dobinding_finish res).
Proof.
  intros w r w' H. destruct (dobinding_finish_total res w) as [r' Hf].
  rewrite Hf in H. same_world H. apply R_SET_EXC.
Qed.

Lemma bind_then_finish_related arg val :
  related R (fun w => call res, w1 <- bind_call arg val w in dobinding_finish res w1).
Proof.
  intros w r w' H. eapply related_bind_at; [exact H|..].
  - intros a w1. apply R_bind_call.
  - intros a. apply dobinding_finish_related.
Qed.

Lemma bind_unidata_related arg u tr : related R (bind_unidata arg u tr).
Proof.
  intros w r w' H. unfold bind_unidata in H.
  destruct (uni_strbytes u) as [n|name].
  - destruct (n >? APSW_INT32_MAX).
    + eapply R_trans; [apply (R_SET_EXC SQLITE_TOOBIG)|].
      exact (dobinding_finish_related _ _ _ _ H).
    + exact (bind_then_finish_related arg _ w r w' H).
  - same_world H. by apply R_same.
Qed.

Lemma dobinding_related arg obj : related R (APSWCursor_dobinding arg obj).
Proof.
  intros w r w' H.
  destruct obj as [|v|v|bits|u|s|b|n|tp]; simpl in H;
    try exact (bind_then_finish_related arg _ w r w' H);
    try exact (bind_unidata_related arg _ _ w r w' H).
  - eapply R_from; [| |exact (bind_then_finish_related arg _ _ r w' H)];
      unfold PyLong_AsLongLong; by destruct (_ && _).
  - destruct (string_chk _ <? _).
    + destruct (str_unicode s);
        [exact (bind_unidata_related arg _ _ w r w' H)|].
      same_world H. by apply R_same.
    + exact (bind_then_finish_related arg _ w r w' H).
  - destruct (buf_buflen b) as [n|];
      [|same_world H; by apply R_same].
    destruct (n >? APSW_INT32_MAX).
    + same_world H. apply R_SET_EXC.
    + exact (bind_then_finish_related arg _ w r w' H).
  - same_world H. by apply R_same.
Qed.

Lemma dobindings_seq_related todo : forall arg, related R (dobindings_seq arg todo).
Proof.
  induction todo as [|todo IH]; intros arg w r w' H; simpl in H.
  - same_world H. apply R_refl.
  - destruct (PySequence_Fast_GET_ITEM _ _) as [obj|]; [|done].
    eapply related_bind_at; [exact H|..].
    + intros a w1. apply dobinding_related.
    + intros a w1 r1 w2 H1. cbv beta in H1. destruct (a =? 0); [by eapply IH|].
      same_world H1. apply R_refl.
Qed.

Lemma dobindings_dict_related d todo :
  forall arg, related R (dobindings_dict d arg todo).
Proof.
  induction todo as [|todo IH]; intros arg w r w' H; simpl in H.
  - same_world H. apply R_refl.
  - destruct (statement (cursor w)) as [st|]; [|done].
    destruct (sqlite3_bind_parameter_name _ _) as [key|];
      [|same_world H; by apply R_same].
    destruct (d !! strip_marker key) as [obj|]; [|by eapply IH].
    eapply related_bind_at; [exact H|..].
    + intros a w1. apply dobinding_related.
    + intros a w1 r1 w2 H1. cbv beta in H1.
      destruct (a =? SQLITE_OK); [by eapply IH|].
      same_world H1. apply R_refl.
Qed.

Lemma dobindings_related : related R APSWCursor_dobindings.
Proof.
  intros w r w' H. unfold APSWCursor_dobindings in H.
  destruct (statement (cursor w)) as [st|]; [|done].
  destruct ((_ =? 0) && _); [same_world H; apply R_refl|].
  destruct ((_ >? 0) && _); [same_world H; by apply R_same|].
  assert (Hseq : forall sz,
    (if has_next st
        && (sz - bindingsoffset (cursor w)
            <? sqlite3_bind_parameter_count (vdbestatement st))
     then Done (-1)
            (PyErr_Format
               (ExcBindings_only_left
                  (sqlite3_bind_parameter_count (vdbestatement st)) sz
                  (to_int (bindingsoffset (cursor w)))) w)
     else if negb (has_next st)
             && negb (sz - bindingsoffset (cursor w)
                      =? sqlite3_bind_parameter_count (vdbestatement st))
     then Done (-1)
            (PyErr_Format
               (ExcBindings_supplied
                  (sqlite3_bind_parameter_count (vdbestatement st)) sz
                  (to_int (bindingsoffset (cursor w)))) w)
     else
       call r, w1 <-
         dobindings_seq 1
           (Z.to_nat (sqlite3_bind_parameter_count (vdbestatement st))) w in
       if r =? 0
       then Done 0
              (set_bindingsoffset
                 (bindingsoffset (cursor w1)
                  + sqlite3_bind_parameter_count (vdbestatement st)) w1)
       else Done r w1) = Done r w' -> R w w').
  { clear H. intros sz Hs.
    destruct (has_next st && _); [same_world Hs; by apply R_same|].
    destruct (negb (has_next st) && _); [same_world Hs; by apply R_same|].
    eapply related_bind_at; [exact Hs|..].
    - intros a w1. apply dobindings_seq_related.
    - intros a w1 r1 w2 H1. cbv beta in H1.
      destruct (a =? 0); same_world H1; [|apply R_refl].
      apply R_offset. }
  destruct (bindings (cursor w)) as [[d|items]|].
  - by eapply dobindings_dict_related.
  - by eapply Hseq.
  - by eapply Hseq.
Qed.

End Binder.

Lemma dobindings_quiet : quietly APSWCursor_dobindings.
Proof.
  apply (dobindings_related quiet quiet_trans quiet_same bind_call_quiet).
  intros o w. by apply quiet_fields.
Qed.

Lemma bind_call_fresh arg val w r w' :
  bind_call arg val w = Done r w' -> fresh w -> fresh w'.
Proof.
  unfold bind_call. destruct (statement (cursor w)) as [st|] eqn:Hst; [|done].
  intros [= _ <-] Hf st' [= <-]. specialize (Hf st Hst).
  pose proof (sqlite3_bind_rebound (vdbestatement st) arg val) as Hr.
  unfold unstepped in *. cbn [vdbestatement].
  destruct (vdbestatement st) as [vd|], (snd (sqlite3_bind _ arg val)) as [vd'|];
    try done.
  destruct Hr as (_ & _ & Hpc & _). congruence.
Qed.

(** Binding leaves an unstepped statement unstepped. *)
Lemma dobindings_fresh w r w' :
  APSWCursor_dobindings w = Done r w' -> fresh w -> fresh w'.
Proof.
  apply (dobindings_related (fun w w' => fresh w -> fresh w')); clear.
  - auto.
  - intros w w' _ Hc. unfold fresh. by rewrite Hc.
  - apply bind_call_fresh.
  - done.
Qed.

Lemma dobindings_grows : grows APSWCursor_dobindings.
Proof. intros w r w' H. exact (quiet_extends _ _ (dobindings_quiet _ _ _ H)). Qed.

Lemma doexectrace_grows saved : grows (APSWCursor_doexectrace saved).
Proof.
  intros w r w' H. unfold APSWCursor_doexectrace in H.
  destruct (exectrace (cursor w)) as [t|]; [|done].
  destruct (statement (cursor w)) as [st|]; [|done].
  destruct (t _ _) as [e|e|[]]; same_world H; by apply extends_emit_on.
Qed.

Lemma dorowtrace_grows row : grows (APSWCursor_dorowtrace row).
Proof.
  intros w r w' H. unfold APSWCursor_dorowtrace in H.
  destruct (rowtrace (cursor w)) as [t|]; [|done].
  destruct (t row); same_world H; by apply extends_emit_on.
Qed.

Lemma prepare_call_extends q w : extends w (prepare_call q w).
Proof.
  unfold prepare_call. destruct (statementcache_prepare q).
  - unfold extends. simpl. rewrite SET_EXC_log. simpl. by apply prefix_app_r.
  - by apply extends_emit_on.
Qed.

Lemma statementcache_next_grows st : grows (statementcache_next st).
Proof.
  intros w r w' H. unfold statementcache_next in H.
  destruct (next st) as [q|]; [|done].
  cbv zeta in H. unfold finalize_call in H. cbn [fst snd] in H.
  assert (H0 : extends w (emit EvFinalize (emit EvNextStatement w))).
  { eapply extends_trans; apply extends_emit. }
  destruct (negb _); same_world H.
  - eapply extends_trans; [exact H0|]. by apply extends_same.
  - eapply extends_trans; [exact H0|]. apply prepare_call_extends.
Qed.

Lemma step_call_extends st w : extends w (snd (step_call st w)).
Proof.
  unfold step_call. destruct (vdbestatement st); [|apply extends_refl].
  cbn [snd].
  eapply extends_trans; [apply (extends_emit (EvStep (statement_sql st)))|].
  apply extends_same.
  destruct (so_raised _); [|done]. by destruct (PyErr_Occurred _).
Qed.

Lemma PyIter_Next_extends it w : extends w (snd (PyIter_Next it w)).
Proof. unfold extends. rewrite PyIter_Next_log. by apply prefix_app_r. Qed.

Lemma resetcursor_extends force w : extends w (snd (resetcursor force w)).
Proof.
  destruct (resetcursor_log force w) as (evs & H & _).
  unfold extends. rewrite H. by apply prefix_app_r.
Qed.

Lemma step_bind_and_trace_grows : grows step_bind_and_trace.
Proof.
  intros w r w' H. unfold step_bind_and_trace in H.
  eapply grows_bind_at; [exact H|..].
  - intros a w1. apply dobindings_grows.
  - intros a w1 r1 w2 H1. cbv beta in H1.
    destruct (negb (a =? 0)); [same_world H1; apply extends_refl|].
    destruct (exectrace (cursor w1));
      [|same_world H1; by apply extends_same].
    eapply grows_bind_at; [exact H1|..].
    + intros b w3. apply doexectrace_grows.
    + intros b w3 r3 w4 H3. cbv beta in H3.
      destruct (negb (b =? 0)); same_world H3; by apply extends_same.
Qed.

Lemma step_next_statement_grows : grows step_next_statement.
Proof.
  intros w r w' H. unfold step_next_statement in H.
  eapply grows_bind_at; [exact H|..].
  - intros a w1 H1.
    destruct (statement (cursor w)) as [st1|].
    + eapply grows_bind_at; [exact H1|..].
      * intros b w2. apply statementcache_next_grows.
      * intros b w2 r2 w3 H2. same_world H2. apply extends_SET_EXC.
    + destruct (emoriginalquery (cursor w)); [|done]. same_world H1.
      apply prepare_call_extends.
  - intros a w1 r1 w2 H1. cbv beta in H1.
    destruct (negb (a =? SQLITE_OK)); [same_world H1; apply extends_refl|].
    eapply grows_bind_at; [exact H1|..].
    + intros b w3. apply step_bind_and_trace_grows.
    + intros b w3 r3 w4 H3. cbv beta in H3.
      destruct b; same_world H3; apply extends_refl.
Qed.

Lemma step_advance_grows : grows step_advance.
Proof.
  intros w r w' H. unfold step_advance in H.
  set (wd := set_status C_DONE w) in *.
  assert (Hd : log wd = log w) by done.
  apply (extends_log w wd); [done|]. clearbody wd.
  destruct (statement (cursor wd)) as [st|]; [|done].
  destruct (has_next st); [exact (step_next_statement_grows _ _ _ H)|].
  destruct (emiter (cursor wd)) as [it|].
  2:{ same_world H. apply resetcursor_extends. }
  pose proof (PyIter_Next_extends it wd) as Hn.
  destruct (PyIter_Next it wd) as [[nxt it1] w1]. cbn [snd] in Hn.
  eapply extends_trans; [exact Hn|].
  set (w1' := set_emiter (Some it1) w1) in *.
  apply (extends_log w1 w1'); [done|]. clearbody w1'.
  destruct (PyErr_Occurred w1'); [same_world H; apply extends_refl|].
  destruct nxt as [a|].
  2:{ same_world H. apply resetcursor_extends. }
  set (w2 := bindings_of_arg a _) in *.
  assert (H2 : extends w1' w2).
  { subst w2. unfold finalize_call. cbn [snd].
    eapply extends_trans; [apply (extends_emit EvFinalize)|].
    apply extends_same. by destruct a as [d|[items|e]]. }
  eapply extends_trans; [exact H2|]. clearbody w2.
  destruct (bindings (cursor w2)); [|same_world H; apply extends_refl].
  exact (step_next_statement_grows _ _ _ H).
Qed.

Lemma step_loop_grows fuel : grows (APSWCursor_step_loop fuel).
Proof.
  induction fuel as [|fuel IH]; intros w r w' H; [done|].
  cbn [APSWCursor_step_loop] in H.
  destruct (statement (cursor w)) as [st|]; [|done].
  pose proof (step_call_extends st w) as H1.
  set (res := fst (step_call st w)) in *.
  set (w1 := snd (step_call st w)) in *. clearbody res w1.
  eapply extends_trans; [exact H1|].
  destruct (Z.land res 255 =? SQLITE_ROW);
    [same_world H; by apply extends_same|].
  destruct (Z.land res 255 =? SQLITE_DONE); cbn [andb] in H.
  - destruct (PyErr_Occurred w1); [same_world H; by apply extends_same|].
    eapply grows_bind_at; [exact H|..].
    + intros a w2. apply step_advance_grows.
    + intros a w2 r2 w3 H2. cbv beta in H2.
      destruct a as [ret|[]]; [same_world H2; apply extends_refl|].
      by eapply IH.
  - destruct (PyErr_Occurred _); same_world H;
      (eapply extends_log; [|apply resetcursor_extends]); done.
Qed.

Lemma execute_bind_trace_step_grows : grows execute_bind_trace_step.
Proof.
  intros w r w' H. unfold execute_bind_trace_step in H.
  set (w0 := set_bindingsoffset 0 w) in *.
  apply (extends_log w w0); [done|]. clearbody w0.
  eapply grows_bind_at; [exact H|..].
  - intros a w1. apply dobindings_grows.
  - intros a w1 r1 w2 H1. cbv beta in H1.
    destruct (negb (a =? 0)); [same_world H1; apply extends_refl|].
    eapply grows_bind_at; [exact H1|..].
    + intros b w3 H3. destruct (exectrace (cursor w1)).
      * by eapply doexectrace_grows.
      * same_world H3. apply extends_refl.
    + intros b w3 r3 w4 H3. cbv beta in H3.
      destruct (negb (b =? 0)); [same_world H3; apply extends_refl|].
      unfold APSWCursor_step in H3.
      eapply extends_log; [|exact (step_loop_grows _ _ _ _ H3)]. done.
Qed.

(** After the reset, [execute] only adds to the log. *)
Lemma execute_grows_from_reset args w r w' :
  inuse (cursor w) = false -> connection_db (cursor w) = true ->
  APSWCursor_execute args w = Done r w' ->
  extends (snd (resetcursor 0 w)) w'.
Proof.
  intros Hu Hdb H. unfold APSWCursor_execute, CHECK_USE, CHECK_CLOSED in H.
  rewrite Hu, Hdb in H.
  destruct (resetcursor 0 w) as [res wr]. cbn [fst snd] in *.
  destruct (negb (res =? SQLITE_OK)); [same_world H; apply extends_refl|].
  destruct args as [|statements more];
    [same_world H; by apply extends_same|].
  assert (Hrun : forall w2,
    match statement (cursor (prepare_call statements w2)) with
    | None => Done RetNULL (prepare_call statements w2)
    | Some _ => execute_bind_trace_step (prepare_call statements w2)
    end = Done r w' -> extends w2 w').
  { intros w2 H2.
    eapply extends_trans; [apply (prepare_call_extends statements)|].
    destruct (statement (cursor (prepare_call statements w2)));
      [exact (execute_bind_trace_step_grows _ _ _ H2)
      |same_world H2; apply extends_refl]. }
  destruct more as [|a [|a' more]].
  - by apply Hrun.
  - apply (extends_log wr (bindings_of_arg a wr));
      [by destruct a as [d|[items|e]]|].
    destruct (bindings (cursor (bindings_of_arg a wr)));
      [|same_world H; apply extends_refl].
    by apply Hrun.
  - same_world H. by apply extends_same.
Qed.

Lemma executemany_grows_from_reset args w r w' :
  inuse (cursor w) = false -> connection_db (cursor w) = true ->
  APSWCursor_executemany args w = Done r w' ->
  extends (snd (resetcursor 0 w)) w'.
Proof.
  intros Hu Hdb H. unfold APSWCursor_executemany, CHECK_USE, CHECK_CLOSED in H.
  rewrite Hu, Hdb in H.
  destruct (resetcursor 0 w) as [res wr]. cbn [fst snd] in *.
  destruct (negb (res =? SQLITE_OK)); [same_world H; apply extends_refl|].
  destruct args as [[query [it|]]|];
    [|same_world H; by apply extends_same..].
  set (w0 := set_emiter (Some it) wr) in *.
  apply (extends_log wr w0); [done|]. clearbody w0.
  pose proof (PyIter_Next_extends it w0) as Hn.
  destruct (PyIter_Next it w0) as [[nxt it1] w1]. cbn [snd] in Hn.
  eapply extends_trans; [exact Hn|].
  set (w1' := set_emiter (Some it1) w1) in *.
  apply (extends_log w1 w1'); [done|]. clearbody w1'.
  destruct nxt as [a|].
  2:{ destruct (PyErr_Occurred w1'); same_world H; apply extends_refl. }
  set (w2 := bindings_of_arg a w1') in *.
  apply (extends_log w1' w2); [subst w2; by destruct a as [d|[items|e]]|].
  clearbody w2.
  destruct (bindings (cursor w2)); [|same_world H; apply extends_refl].
  eapply extends_trans; [apply (prepare_call_extends query)|].
  destruct (statement (cursor (prepare_call query w2))) as [st|];
    [|same_world H; apply extends_refl].
  eapply extends_log; [|exact (execute_bind_trace_step_grows _ _ _ H)]. done.
Qed.

(** ** A vetoed statement *)

Lemma ran_on_traced failed s w w' : ran_on w w' -> traced failed s w w'.
Proof. intros (Ht & evs & Hl & Hv). split; [done|]. exists evs. auto. Qed.

Lemma traced_ran_on failed s w w' :
  traced failed s w w' -> ~ failed -> ran_on w w'.
Proof.
  intros (Ht & evs & Hl & [Hv|[_ Hf]]) Hn; [|done].
  split; [done|]. by exists evs.
Qed.

Lemma traced_after failed s w w1 w2 :
  ran_on w w1 -> traced failed s w1 w2 -> traced failed s w w2.
Proof.
  intros (Ht1 & evs1 & Hl1 & Hv1) (Ht2 & evs2 & Hl2 & Hres).
  split; [congruence|]. exists (evs1 ++ evs2).
  split; [by rewrite Hl2, Hl1, app_assoc|].
  rewrite Ht1 in Hres. destruct Hres as [Hv2|[Hs Hf]].
  - left. apply Forall_app. by split.
  - right. split; [|done].
    destruct Hs as (evs0 & st & b & -> & Hv0 & Hveto & Hrest).
    exists (evs1 ++ evs0), st, b. rewrite app_assoc.
    split; [done|]. split; [|done]. apply Forall_app. by split.
Qed.

Lemma traced_weaken (f1 f2 : Prop) s w w' :
  traced f1 s w w' -> (f1 -> f2) -> traced f2 s w w'.
Proof.
  intros (Ht & evs & Hl & Hres) Hf. split; [done|]. exists evs.
  split; [done|]. destruct Hres as [Hv|[Hs H1]]; auto.
Qed.

Lemma quiet_traced failed s w w' : quiet w w' -> traced failed s w w'.
Proof. intros [H _]. by apply ran_on_traced. Qed.

(** The tracer is asked once; a false answer is the veto. *)
Lemma doexectrace_traced saved w r w' :
  fresh w ->
  APSWCursor_doexectrace saved w = Done r w' ->
  traced (r = -1) (status (cursor w)) w w' /\ cursor w' = cursor w /\
  (r = 0 \/ r = -1).
Proof.
  unfold APSWCursor_doexectrace. intros Hfresh H.
  destruct (exectrace (cursor w)) as [t|] eqn:Ht; [|done].
  destruct (statement (cursor w)) as [st|] eqn:Hst; [|done].
  destruct (t (statement_sql st) (exectrace_bindings saved w)) as [e|e|[]] eqn:Hv;
    injection H as <- <-; (split; [|split; [done|auto]]).
  1-3: apply ran_on_traced, ran_on_emit; try done;
    unfold vetoed; by rewrite Ht, Hv.
  split; [simpl; by rewrite Ht|].
  exists [EvExecTrace (statement_sql st) (exectrace_bindings saved w)].
  split; [done|]. right. split; [|done].
  exists [], st, (exectrace_bindings saved w).
  split; [done|]. split; [constructor|].
  split; [unfold vetoed; by rewrite Ht, Hv|].
  split; [done|]. split; [by apply Hfresh|done].
Qed.

Lemma quiet_events evs w w' :
  log w' = log w ++ evs -> forallb (fun ev => negb (is_trace ev)) evs = true ->
  exectrace (cursor w') = exectrace (cursor w) ->
  status (cursor w') = status (cursor w) -> quiet w w'.
Proof.
  intros Hl Hn Ht Hs. split; [|done]. split; [done|]. exists evs.
  split; [done|]. apply Forall_forall. intros ev Hin.
  apply list_elem_of_In in Hin.
  pose proof (proj1 (forallb_forall _ _) Hn ev Hin) as Hev.
  destruct ev; try done; by destruct (exectrace (cursor w)).
Qed.

Lemma prepare_call_quiet q w : quiet w (prepare_call q w).
Proof.
  unfold prepare_call. destruct (statementcache_prepare q).
  - eapply quiet_events; simpl; rewrite ?SET_EXC_log, ?SET_EXC_cursor; done.
  - by eapply quiet_events.
Qed.

Lemma statementcache_next_quiet st : quietly (statementcache_next st).
Proof.
  intros w r w' H. unfold statementcache_next in H.
  destruct (next st) as [q|]; [|done].
  cbv zeta in H. unfold finalize_call in H. cbn [fst snd] in H.
  assert (H0 : quiet w (emit EvFinalize (emit EvNextStatement w))).
  { apply (quiet_events [EvNextStatement; EvFinalize]); try done.
    simpl. by rewrite <- app_assoc. }
  destruct (negb _); same_world H.
  - eapply quiet_trans; [exact H0|]. by apply quiet_fields.
  - eapply quiet_trans; [exact H0|]. apply prepare_call_quiet.
Qed.

Lemma step_call_quiet st w : quiet w (snd (step_call st w)).
Proof.
  unfold step_call. destruct (vdbestatement st); [|apply quiet_refl].
  cbn [snd].
  assert (H0 : quiet w
    (set_statement
       (Some {| vdbestatement := Some (snd (sqlite3_step v)); utf8 := utf8 st;
                next := next st |})
       (emit (EvStep (statement_sql st)) w))).
  { by apply (quiet_events [EvStep (statement_sql st)]). }
  eapply quiet_trans; [exact H0|]. apply quiet_same;
    (destruct (so_raised _); [|done]); by destruct (PyErr_Occurred _).
Qed.

Lemma PyIter_Next_quiet it w : quiet w (snd (PyIter_Next it w)).
Proof.
  apply (quiet_events [EvIterNext]);
    [apply PyIter_Next_log|done|by rewrite PyIter_Next_cursor..].
Qed.

Lemma resetcursor_ran_on force w : ran_on w (snd (resetcursor force w)).
Proof.
  destruct (resetcursor_fields force w) as (_ & _ & _ & _ & _ & _ & _ & _ & Ht & _).
  split; [done|].
  destruct (resetcursor_log force w) as (evs & Hl & Hk). exists evs.
  split; [done|]. eapply Forall_impl; [exact Hk|].
  intros ev [-> | ->]; by destruct (exectrace (cursor w)).
Qed.

Lemma bindings_of_arg_quiet a w : quiet w (bindings_of_arg a w).
Proof. apply quiet_fields; by destruct a as [d|[items|e]]. Qed.

(** A statement comes unstepped from the cache. *)
Lemma prepare_call_fresh q w : fresh (prepare_call q w).
Proof.
  intros st. rewrite prepare_call_cursor.
  cbn [set_statement set_cursor cursor statement].
  destruct q as [|[sql params prog|sql|sql code] rest]; by intros [= <-].
Qed.

Lemma statementcache_next_fresh st w r w' :
  statementcache_next st w = Done r w' -> fresh w'.
Proof.
  unfold statementcache_next. destruct (next st) as [q|]; [|done].
  cbv zeta. destruct (negb _); intros H; same_world H.
  - by intros st'.
  - apply prepare_call_fresh.
Qed.

Lemma step_bind_and_trace_traced w r w' :
  fresh w ->
  step_bind_and_trace w = Done r w' ->
  traced (r = inl ()) (status (cursor w)) w w'.
Proof.
  unfold step_bind_and_trace. intros Hfresh H.
  destruct (APSWCursor_dobindings w) as [a w1| |] eqn:Hb; try done.
  pose proof (dobindings_fresh _ _ _ Hb Hfresh) as Hfresh1.
  destruct (dobindings_quiet _ _ _ Hb) as [Hq Hs]. cbn [bindM] in H.
  destruct (negb (a =? 0)); [same_world H; by apply ran_on_traced|].
  destruct (exectrace (cursor w1)) as [t|].
  2:{ same_world H. apply ran_on_traced.
      eapply ran_on_trans; [exact Hq|]. by apply ran_on_same. }
  destruct (APSWCursor_doexectrace _ w1) as [b w2| |] eqn:Ht; try done.
  destruct (doexectrace_traced _ _ _ _ Hfresh1 Ht) as (Htr & Hc & Hb01).
  rewrite Hs in Htr. cbn [bindM] in H.
  destruct (negb (b =? 0)) eqn:Hb0.
  - injection H as <- <-. eapply traced_after; [exact Hq|].
    eapply traced_weaken; [exact Htr|done].
  - same_world H. apply ran_on_traced. eapply ran_on_trans; [exact Hq|].
    eapply ran_on_trans; [eapply traced_ran_on; [exact Htr|]|by apply ran_on_same].
    intros ->. done.
Qed.

Lemma step_next_statement_traced w r w' :
  step_next_statement w = Done r w' ->
  traced (r = inl RetNULL) (status (cursor w)) w w'.
Proof.
  unfold step_next_statement. intros H.
  match type of H with bindM ?m _ = _ => destruct m as [res w1| |] eqn:Hm end;
    try done.
  assert (Hq : quiet w w1 /\ fresh w1).
  { destruct (statement (cursor w)) as [st1|].
    - destruct (statementcache_next st1 w) as [res0 w0| |] eqn:Hn; try done.
      cbn [bindM] in Hm. same_world Hm. split.
      + eapply quiet_trans; [exact (statementcache_next_quiet _ _ _ _ Hn)|].
        apply quiet_SET_EXC.
      + intros st'. rewrite SET_EXC_cursor.
        apply (statementcache_next_fresh _ _ _ _ Hn).
    - destruct (emoriginalquery (cursor w)); [|done]. same_world Hm.
      split; [apply prepare_call_quiet|apply prepare_call_fresh]. }
  clear Hm. destruct Hq as [[Hq Hs] Hfresh]. cbn [bindM] in H.
  destruct (negb (res =? SQLITE_OK)); [same_world H; by apply ran_on_traced|].
  destruct (step_bind_and_trace w1) as [b w2| |] eqn:Hb; try done.
  pose proof (step_bind_and_trace_traced _ _ _ Hfresh Hb) as Htr.
  rewrite Hs in Htr.
  cbn [bindM] in H. eapply traced_after; [exact Hq|].
  destruct b as [[]|[]]; injection H as <- <-;
    (eapply traced_weaken; [exact Htr|done]).
Qed.

Lemma step_advance_traced w r w' :
  step_advance w = Done r w' -> traced (r = inl RetNULL) C_DONE w w'.
Proof.
  unfold step_advance. intros H.
  set (wd := set_status C_DONE w) in *.
  assert (Hd : ran_on w wd) by (by apply ran_on_same).
  assert (Hsd : status (cursor wd) = C_DONE) by done.
  eapply traced_after; [exact Hd|]. clearbody wd. clear Hd.
  destruct (statement (cursor wd)) as [st|]; [|done].
  destruct (has_next st).
  { rewrite <- Hsd. by apply step_next_statement_traced. }
  destruct (emiter (cursor wd)) as [it|].
  2:{ same_world H. apply ran_on_traced, resetcursor_ran_on. }
  pose proof (PyIter_Next_quiet it wd) as Hn.
  destruct (PyIter_Next it wd) as [[nxt it1] w1]. cbn [snd] in Hn.
  set (w1' := set_emiter (Some it1) w1) in *.
  assert (Hq1 : quiet wd w1').
  { eapply quiet_trans; [exact Hn|]. by apply quiet_fields. }
  clearbody w1'. destruct Hq1 as [Hq1 Hs1].
  eapply traced_after; [exact Hq1|].
  destruct (PyErr_Occurred w1'); [same_world H; apply ran_on_traced, ran_on_refl|].
  destruct nxt as [a|].
  2:{ same_world H. apply ran_on_traced, resetcursor_ran_on. }
  set (w2 := bindings_of_arg a _) in *.
  assert (Hq2 : quiet w1' w2).
  { subst w2. eapply quiet_trans; [|apply bindings_of_arg_quiet].
    by apply (quiet_events [EvFinalize]). }
  clearbody w2. destruct Hq2 as [Hq2 Hs2].
  eapply traced_after; [exact Hq2|].
  destruct (bindings (cursor w2));
    [|same_world H; apply ran_on_traced, ran_on_refl].
  replace C_DONE with (status (cursor w2)) by congruence.
  by apply step_next_statement_traced.
Qed.

Lemma step_loop_traced fuel : forall w r w',
  APSWCursor_step_loop fuel w = Done r w' -> traced (r = RetNULL) C_DONE w w'.
Proof.
  induction fuel as [|fuel IH]; intros w r w' H; [done|].
  cbn [APSWCursor_step_loop] in H.
  destruct (statement (cursor w)) as [st|]; [|done].
  destruct (step_call_quiet st w) as [H1 _].
  set (res := fst (step_call st w)) in *.
  set (w1 := snd (step_call st w)) in *. clearbody res w1.
  eapply traced_after; [exact H1|].
  destruct (Z.land res 255 =? SQLITE_ROW);
    [same_world H; by apply ran_on_traced, ran_on_same|].
  destruct (Z.land res 255 =? SQLITE_DONE); cbn [andb] in H.
  - destruct (PyErr_Occurred w1);
      [same_world H; by apply ran_on_traced, ran_on_same|].
    destruct (step_advance w1) as [a w2| |] eqn:Ha; try done.
    pose proof (step_advance_traced _ _ _ Ha) as Htr. cbn [bindM] in H.
    destruct a as [ret|[]].
    + injection H as <- <-. eapply traced_weaken; [exact Htr|congruence].
    + eapply traced_after; [|by eapply IH].
      eapply traced_ran_on; [exact Htr|done].
  - destruct (PyErr_Occurred _); same_world H; apply ran_on_traced;
      (eapply ran_on_trans; [|apply resetcursor_ran_on]); by apply ran_on_same.
Qed.

Lemma execute_bind_trace_step_traced w r w' :
  status (cursor w) = C_DONE -> fresh w ->
  execute_bind_trace_step w = Done r w' -> traced (r = RetNULL) C_DONE w w'.
Proof.
  unfold execute_bind_trace_step. intros Hdone Hfresh H.
  set (w0 := set_bindingsoffset 0 w) in *.
  assert (H0 : quiet w w0) by (by apply quiet_fields).
  assert (Hfresh0 : fresh w0) by done.
  clearbody w0. destruct H0 as [H0 Hs0].
  eapply traced_after; [exact H0|].
  destruct (APSWCursor_dobindings w0) as [a w1| |] eqn:Hb; try done.
  pose proof (dobindings_fresh _ _ _ Hb Hfresh0) as Hfresh1.
  destruct (dobindings_quiet _ _ _ Hb) as [Hq Hs]. cbn [bindM] in H.
  eapply traced_after; [exact Hq|].
  destruct (negb (a =? 0)); [same_world H; apply ran_on_traced, ran_on_refl|].
  assert (Hstep : forall w2, ran_on w1 w2 ->
    APSWCursor_step (set_status C_BEGIN w2) = Done r w' ->
    traced (r = RetNULL) C_DONE w1 w').
  { intros w2 H2 Hst. eapply traced_after; [exact H2|].
    eapply traced_after; [|exact (step_loop_traced _ _ _ _ Hst)].
    by apply ran_on_same. }
  destruct (exectrace (cursor w1)) as [t|].
  2:{ cbn [bindM] in H. change (negb (0 =? 0)) with false in H. cbv iota in H.
      apply (Hstep w1); [apply ran_on_refl|done]. }
  destruct (APSWCursor_doexectrace _ w1) as [b w2| |] eqn:Ht; try done.
  destruct (doexectrace_traced _ _ _ _ Hfresh1 Ht) as (Htr & Hc & Hb01).
  cbn [bindM] in H.
  replace (status (cursor w1)) with C_DONE in Htr by congruence.
  destruct (negb (b =? 0)) eqn:Hb0.
  - injection H as <- <-. eapply traced_weaken; [exact Htr|done].
  - apply (Hstep w2); [|done]. eapply traced_ran_on; [exact Htr|].
    intros ->. done.
Qed.

Lemma prepare_and_run_traced q w r w' :
  status (cursor w) = C_DONE ->
  match statement (cursor (prepare_call q w)) with
  | None => Done RetNULL (prepare_call q w)
  | Some _ => execute_bind_trace_step (prepare_call q w)
  end = Done r w' ->
  traced (r = RetNULL) C_DONE w w'.
Proof.
  intros Hd H. destruct (prepare_call_quiet q w) as [Hq Hs].
  eapply traced_after; [exact Hq|].
  destruct (statement (cursor (prepare_call q w)));
    [|same_world H; apply ran_on_traced, ran_on_refl].
  apply execute_bind_trace_step_traced;
    [congruence|apply prepare_call_fresh|done].
Qed.

Lemma execute_traced args w r w' :
  APSWCursor_execute args w = Done r w' -> traced (r = RetNULL) C_DONE w w'.
Proof.
  unfold APSWCursor_execute, CHECK_USE, CHECK_CLOSED. intros H.
  destruct (inuse (cursor w));
    [same_world H; apply ran_on_traced, ran_on_same;
     by destruct (PyErr_Occurred w)|].
  destruct (connection_db (cursor w));
    [|same_world H; by apply ran_on_traced, ran_on_same].
  pose proof (resetcursor_ran_on 0 w) as Hr.
  destruct (resetcursor_fields 0 w) as (_ & Hd & _).
  destruct (resetcursor 0 w) as [res wr]. cbn [fst snd] in *.
  eapply traced_after; [exact Hr|].
  destruct (negb (res =? SQLITE_OK));
    [same_world H; apply ran_on_traced, ran_on_refl|].
  destruct args as [|statements more];
    [same_world H; by apply ran_on_traced, ran_on_same|].
  destruct more as [|a [|a' more]].
  - by apply (prepare_and_run_traced statements).
  - destruct (bindings_of_arg_quiet a wr) as [Hq Hs].
    eapply traced_after; [exact Hq|].
    destruct (bindings (cursor (bindings_of_arg a wr)));
      [|same_world H; apply ran_on_traced, ran_on_refl].
    apply (prepare_and_run_traced statements); [congruence|done].
  - same_world H. by apply ran_on_traced, ran_on_same.
Qed.

Lemma executemany_traced args w r w' :
  APSWCursor_executemany args w = Done r w' -> traced (r = RetNULL) C_DONE w w'.
Proof.
  unfold APSWCursor_executemany, CHECK_USE, CHECK_CLOSED. intros H.
  destruct (inuse (cursor w));
    [same_world H; apply ran_on_traced, ran_on_same;
     by destruct (PyErr_Occurred w)|].
  destruct (connection_db (cursor w));
    [|same_world H; by apply ran_on_traced, ran_on_same].
  pose proof (resetcursor_ran_on 0 w) as Hr.
  destruct (resetcursor_fields 0 w) as (_ & Hd & _).
  destruct (resetcursor 0 w) as [res wr]. cbn [fst snd] in *.
  eapply traced_after; [exact Hr|].
  destruct (negb (res =? SQLITE_OK));
    [same_world H; apply ran_on_traced, ran_on_refl|].
  destruct args as [[query [it|]]|];
    [|same_world H; by apply ran_on_traced, ran_on_same..].
  set (w0 := set_emiter (Some it) wr) in *.
  assert (Hq0 : quiet wr w0) by (by apply quiet_fields). clearbody w0.
  pose proof (PyIter_Next_quiet it w0) as Hn.
  destruct (PyIter_Next it w0) as [[nxt it1] w1]. cbn [snd] in Hn.
  set (w1' := set_emiter (Some it1) w1) in *.
  assert (Hq1 : quiet wr w1').
  { eapply quiet_trans; [exact Hq0|]. eapply quiet_trans; [exact Hn|].
    by apply quiet_fields. }
  clearbody w1'. clear Hq0 Hn. destruct Hq1 as [Hq1 Hs1].
  eapply traced_after; [exact Hq1|].
  destruct nxt as [a|].
  2:{ destruct (PyErr_Occurred w1'); same_world H; apply ran_on_traced, ran_on_refl. }
  destruct (bindings_of_arg_quiet a w1') as [Hq2 Hs2].
  set (w2 := bindings_of_arg a w1') in *. clearbody w2.
  eapply traced_after; [exact Hq2|].
  destruct (bindings (cursor w2));
    [|same_world H; apply ran_on_traced, ran_on_refl].
  destruct (prepare_call_quiet query w2) as [Hq3 Hs3].
  pose proof (prepare_call_fresh query w2) as Hfresh3.
  set (w3 := prepare_call query w2) in *. clearbody w3.
  eapply traced_after; [exact Hq3|].
  destruct (statement (cursor w3)) as [st|];
    [|same_world H; apply ran_on_traced, ran_on_refl].
  eapply traced_after; [|apply execute_bind_trace_step_traced; [| |exact H]].
  - by apply ran_on_same.
  - simpl. congruence.
  - done.
Qed.

Lemma close_ran_on args w r w' :
  APSWCursor_close args w = Done r w' -> ran_on w w'.
Proof.
  unfold APSWCursor_close, CHECK_USE. intros H.
  destruct (inuse (cursor w));
    [same_world H; apply ran_on_same; by destruct (PyErr_Occurred w)|].
  destruct (negb (connection_db (cursor w))); [same_world H; apply ran_on_refl|].
  destruct args as [|force]; [same_world H; by apply ran_on_same|].
  cbv zeta in H. destruct (negb _); same_world H; apply resetcursor_ran_on.
Qed.

Lemma dorowtrace_quiet row : quietly (APSWCursor_dorowtrace row).
Proof.
  intros w r w' H. unfold APSWCursor_dorowtrace in H.
  destruct (rowtrace (cursor w)) as [t|]; [|done].
  destruct (t row); same_world H; by apply (quiet_events [EvRowTrace row]).
Qed.

Lemma next_row_ran_on w r w' : next_row w = Done r w' -> ran_on w w'.
Proof.
  unfold next_row. intros H.
  set (w0 := set_status C_BEGIN w) in *.
  assert (H0 : ran_on w w0) by (by apply ran_on_same). clearbody w0.
  eapply ran_on_trans; [exact H0|].
  destruct (statement (cursor w0)); [|done].
  destruct (rowtrace (cursor w0)); [|same_world H; apply ran_on_refl].
  destruct (APSWCursor_dorowtrace _ w0) as [r2 w1| |] eqn:Hr; try done.
  destruct (dorowtrace_quiet _ _ _ _ Hr) as [Hq _]. cbn [bindM] in H.
  destruct r2; try destruct (is_Py_None _); by same_world H.
Qed.

Lemma next_again_traced fuel : forall w r w',
  APSWCursor_next_again fuel w = Done r w' -> traced (r = RetNULL) C_DONE w w'.
Proof.
  induction fuel as [|fuel IH]; intros w r w' H; [done|].
  cbn [APSWCursor_next_again] in H.
  match type of H with bindM ?m _ = _ => destruct m as [s w1| |] eqn:Hm end;
    try done.
  assert (Htr : traced (s = RetNULL) C_DONE w w1).
  { destruct (status_eqb _ _).
    - exact (step_loop_traced _ _ _ _ Hm).
    - injection Hm as <- <-. apply ran_on_traced, ran_on_refl. }
  clear Hm. cbn [bindM] in H.
  assert (Hgo :
    (if status_eqb (status (cursor w1)) C_DONE then Done RetNULL w1
     else call r0, w2 <- next_row w1 in
          match r0 with
          | inl ret => Done ret w2
          | inr _ => APSWCursor_next_again fuel w2
          end) = Done r w' -> s <> RetNULL -> traced (r = RetNULL) C_DONE w w').
  { intros Hk Hs. eapply traced_after; [by eapply traced_ran_on|].
    destruct (status_eqb _ _); [same_world Hk; apply ran_on_traced, ran_on_refl|].
    destruct (next_row w1) as [r0 w2| |] eqn:Hn; try done.
    pose proof (next_row_ran_on _ _ _ Hn) as Hq. cbn [bindM] in Hk.
    eapply traced_after; [exact Hq|].
    destruct r0 as [ret|[]]; [same_world Hk; apply ran_on_traced, ran_on_refl|].
    by eapply IH. }
  destruct s; try (by apply Hgo).
  injection H as <- <-. eapply traced_weaken; [exact Htr|done].
Qed.

Lemma next_traced fuel w r w' :
  APSWCursor_next fuel w = Done r w' -> traced (r = RetNULL) C_DONE w w'.
Proof.
  unfold APSWCursor_next, CHECK_USE, CHECK_CLOSED. intros H.
  destruct (inuse (cursor w));
    [same_world H; apply ran_on_traced, ran_on_same;
     by destruct (PyErr_Occurred w)|].
  destruct (connection_db (cursor w));
    [|same_world H; by apply ran_on_traced, ran_on_same].
  by eapply next_again_traced.
Qed.

(** Every method: what it added to the log holds no vetoed trace call, or
    ends with it, and the method failed. *)
Lemma perform_traced op w r w' :
  perform op w = Done r w' ->
  trace_result (exectrace (cursor w)) (r = RetNULL) C_DONE w w'.
Proof.
  unfold perform. intros H.
  set (w0 := set_pyerr None w) in *.
  assert (Hl : log w0 = log w) by done.
  assert (Ht : exectrace (cursor w0) = exectrace (cursor w)) by done.
  clearbody w0. rewrite <- Ht. unfold trace_result. rewrite <- Hl.
  assert (Hquiet : log w' = log w0 ->
    exists evs, log w' = log w0 ++ evs /\
      (unvetoed (exectrace (cursor w0)) evs \/
       stopped_at (exectrace (cursor w0)) C_DONE evs w' /\ r = RetNULL)).
  { intros E. exists []. rewrite app_nil_r. split; [done|]. left. constructor. }
  destruct op as [args|args|args|fuel|func|func|].
  - by destruct (execute_traced _ _ _ _ H).
  - by destruct (executemany_traced _ _ _ _ H).
  - destruct (close_ran_on _ _ _ _ H) as (_ & evs & E & Hv). exists evs. auto.
  - by destruct (next_traced _ _ _ _ H).
  - apply Hquiet. unfold APSWCursor_setexectrace, CHECK_USE, CHECK_CLOSED in H.
    destruct (inuse (cursor w0));
      [same_world H; by destruct (PyErr_Occurred w0)|].
    destruct (connection_db (cursor w0)); [|by same_world H].
    destruct func as [[name|f]|]; by same_world H.
  - apply Hquiet. unfold APSWCursor_setrowtrace, CHECK_USE, CHECK_CLOSED in H.
    destruct (inuse (cursor w0));
      [same_world H; by destruct (PyErr_Occurred w0)|].
    destruct (connection_db (cursor w0)); [|by same_world H].
    destruct func as [[name|f]|]; by same_world H.
  - apply Hquiet. by same_world H.
Qed.

(** ** After the veto *)

Lemma perform_extends op w r w' : perform op w = Done r w' -> extends w w'.
Proof.
  intros H. destruct (perform_traced _ _ _ _ H) as (evs & Hl & _).
  unfold extends. rewrite Hl. by apply prefix_app_r.
Qed.

Lemma perform_all_extends ops : forall w wn,
  perform_all ops w = Done () wn -> extends w wn.
Proof.
  induction ops as [|op ops IH]; intros w wn H; simpl in H.
  - injection H as <-. apply extends_refl.
  - destruct (perform op w) as [r w1| |] eqn:Hp; try done. cbn [bindM] in H.
    eapply extends_trans; [by eapply perform_extends|by apply IH].
Qed.

Lemma extends_events w w' :
  extends w w' -> exists evs, log w' = log w ++ evs.
Proof. intros [evs H]. by exists evs. Qed.

(** The next thing any method does with a parked statement is to hand it
    back to the cache. *)
Lemma perform_parked op st w r w' :
  parked st w -> perform op w = Done r w' ->
  (log w' = log w /\ parked st w') \/
  (exists evs, log w' = log w ++ EvFinalize :: evs).
Proof.
  intros [Hst Hdone] H. unfold perform in H.
  set (w0 := set_pyerr None w) in *.
  assert (Hl : log w0 = log w) by done.
  assert (Hp : parked st w0) by done.
  clearbody w0. rewrite <- Hl. clear Hl Hst Hdone. destruct Hp as [Hst Hdone].
  assert (Hreset : forall force, exists evs,
    log (snd (resetcursor force w0)) = log w0 ++ EvFinalize :: evs).
  { intros force. destruct (resetcursor_events force w0) as (evs & He & _).
    rewrite Hst in He. by exists evs. }
  assert (Hlater : forall w1,
    extends (snd (resetcursor 0 w0)) w1 ->
    exists evs, log w1 = log w0 ++ EvFinalize :: evs).
  { intros w1 Hx. destruct (extends_events _ _ Hx) as (evs1 & H1).
    destruct (Hreset 0) as (evs0 & H0). exists (evs0 ++ evs1).
    rewrite H1, H0. by rewrite <- app_assoc. }
  destruct op as [args|args|args|fuel|func|func|].
  - destruct (inuse (cursor w0)) eqn:Hu.
    { unfold APSWCursor_execute, CHECK_USE in H. rewrite Hu in H.
      same_world H. left. by destruct (PyErr_Occurred w0). }
    destruct (connection_db (cursor w0)) eqn:Hdb.
    2:{ unfold APSWCursor_execute, CHECK_USE, CHECK_CLOSED in H.
        rewrite Hu, Hdb in H. same_world H. by left. }
    right. apply Hlater. by eapply execute_grows_from_reset.
  - destruct (inuse (cursor w0)) eqn:Hu.
    { unfold APSWCursor_executemany, CHECK_USE in H. rewrite Hu in H.
      same_world H. left. by destruct (PyErr_Occurred w0). }
    destruct (connection_db (cursor w0)) eqn:Hdb.
    2:{ unfold APSWCursor_executemany, CHECK_USE, CHECK_CLOSED in H.
        rewrite Hu, Hdb in H. same_world H. by left. }
    right. apply Hlater. by eapply executemany_grows_from_reset.
  - unfold APSWCursor_close, CHECK_USE in H.
    destruct (inuse (cursor w0));
      [same_world H; left; by destruct (PyErr_Occurred w0)|].
    destruct (negb (connection_db (cursor w0))); [same_world H; by left|].
    destruct args as [|force]; [same_world H; by left|].
    cbv zeta in H. right. destruct (negb _); same_world H; apply Hreset.
  - left. unfold APSWCursor_next, CHECK_USE, CHECK_CLOSED in H.
    destruct (inuse (cursor w0));
      [same_world H; by destruct (PyErr_Occurred w0)|].
    destruct (connection_db (cursor w0)); [|by same_world H].
    destruct fuel as [|fuel]; [done|]. cbn [APSWCursor_next_again] in H.
    rewrite Hdone in H. cbn in H. rewrite Hdone in H. cbn in H.
    by same_world H.
  - left. unfold APSWCursor_setexectrace, CHECK_USE, CHECK_CLOSED in H.
    destruct (inuse (cursor w0));
      [same_world H; by destruct (PyErr_Occurred w0)|].
    destruct (connection_db (cursor w0)); [|by same_world H].
    destruct func as [[name|f]|]; by same_world H.
  - left. unfold APSWCursor_setrowtrace, CHECK_USE, CHECK_CLOSED in H.
    destruct (inuse (cursor w0));
      [same_world H; by destruct (PyErr_Occurred w0)|].
    destruct (connection_db (cursor w0)); [|by same_world H].
    destruct func as [[name|f]|]; by same_world H.
  - left. by same_world H.
Qed.

Lemma perform_all_parked st ops : forall w wn,
  parked st w -> perform_all ops w = Done () wn ->
  log wn = log w \/ exists evs, log wn = log w ++ EvFinalize :: evs.
Proof.
  induction ops as [|op ops IH]; intros w wn Hp H; simpl in H.
  - injection H as <-. by left.
  - destruct (perform op w) as [r w1| |] eqn:Hop; try done. cbn [bindM] in H.
    destruct (perform_parked _ _ _ _ _ Hp Hop) as [[Hl Hp1]|(evs & Hl)].
    + rewrite <- Hl. by apply IH.
    + right. destruct (extends_events _ _ (perform_all_extends _ _ _ H))
        as (evs1 & H1).
      exists (evs ++ evs1). rewrite H1, Hl. by rewrite <- app_assoc.
Qed.

Lemma vetoed_last tr evs0 final before ev after :
  before ++ ev :: after = evs0 ++ [final] ->
  unvetoed tr evs0 -> vetoed tr ev = true ->
  after = [] /\ ev = final.
Proof.
  intros E Hv Hev. destruct after as [|x after] using rev_ind.
  - apply app_inj_tail in E. by destruct E.
  - clear IHafter. exfalso.
    rewrite app_comm_cons, app_assoc in E. apply app_inj_tail in E.
    destruct E as [<- _]. apply Forall_app in Hv. destruct Hv as [_ Hv].
    apply Forall_cons in Hv. destruct Hv as [Hv _]. congruence.
Qed.

(** ** C5: the veto of an execution tracer *)

(** With an execution tracer [t] installed:
    - when [t] answers the statement about to run with a false value,
      [APSWCursor_doexectrace] fails with AbortError pending, having done
      nothing but the trace call;
    - in whatever a method ([execute], [executemany], [next], ...) adds to
      the log, a trace call that [t] answered with a false value is the last
      event: the method returned NULL with AbortError pending, and the
      statement traced is held in state [C_DONE] with no step taken on it.
      Whatever is called afterwards, the log stays as it is or goes on with
      the statement being handed back to the cache: the statement is never
      stepped and yields no row. *)
Lemma exectrace_veto_parks (w : World) (t : exec_tracer) :
  exectrace (cursor w) = Some t ->
  (forall saved st,
      statement (cursor w) = Some st ->
      t (statement_sql st) (exectrace_bindings saved w) = ET_returned false ->
      APSWCursor_doexectrace saved w
      = Done (-1)
          (PyErr_Format ExcTraceAbort
             (emit (EvExecTrace (statement_sql st) (exectrace_bindings saved w))
                   w)))
  /\
  (forall op r w' sql b before after,
      perform op w = Done r w' ->
      log w' = log w ++ before ++ EvExecTrace sql b :: after ->
      t sql b = ET_returned false ->
      after = [] /\ r = RetNULL /\ pyerr w' = Some ExcTraceAbort /\
      (exists st, parked st w' /\ statement_sql st = sql /\ unstepped st) /\
      (forall ops wn,
          perform_all ops w' = Done () wn ->
          log wn = log w' \/ exists evs, log wn = log w' ++ EvFinalize :: evs)).
Proof.
  intros Ht. split.
  - intros saved st Hst Hv. unfold APSWCursor_doexectrace.
    by rewrite Ht, Hst, Hv.
  - intros op r w' sql b before after Hop Hlog Hv.
    assert (Hveto : vetoed (Some t) (EvExecTrace sql b) = true)
      by (simpl; by rewrite Hv).
    destruct (perform_traced _ _ _ _ Hop) as (evs & Hl & Hres).
    rewrite Ht in Hres. rewrite Hl in Hlog. apply app_inv_head in Hlog.
    subst evs. destruct Hres as [Hun|[Hstop ->]].
    { apply Forall_app in Hun. destruct Hun as [_ Hun].
      apply Forall_cons in Hun. destruct Hun as [Hun _]. congruence. }
    destruct Hstop
      as (evs0 & st & b0 & E & Hun & _ & Hst & Hpc & Hdone & Herr).
    destruct (vetoed_last _ _ _ _ _ _ E Hun Hveto) as [-> Hev].
    injection Hev as -> ->.
    split; [done|]. split; [done|]. split; [done|]. split.
    + by exists st.
    + intros ops wn Hall. by apply (perform_all_parked st ops).
Qed.

(** ** C6: the row tracer *)

(** C6.  [next] with a row tracer installed, once it has a row in hand (the
    row was ready, or [next] stepped the statement to it), on a cursor that
    is not in use and whose connection is open:
    - if the tracer returns a value other than None, [next] returns that
      very value;
    - if the tracer returns None, [next] goes back to [again:] and fetches
      the next row.
    In both cases the cursor is the same afterwards ([after_row]: the state
    is [C_BEGIN], the statement stands after the row traced), so a skipped
    row is the only one missing: the call goes on to return what the next
    call would have returned had the row been delivered. *)
Theorem rowtrace_replaces_or_skips (w wr : World) (st : APSWStatement)
    (tracer : row_tracer) (fuel : nat) :
  inuse (cursor w) = false -> connection_db (cursor w) = true ->
  row_fetched w wr ->
  statement (cursor wr) = Some st -> rowtrace (cursor wr) = Some tracer ->
  (forall v,
      tracer (current_row st) = Returned v ->
      v <> RetNULL -> is_Py_None v = false ->
      APSWCursor_next (S fuel) w = Done v (after_row st wr)) /\
  (tracer (current_row st) = Returned (RetObject Py_None) ->
   APSWCursor_next (S fuel) w = APSWCursor_next_again fuel (after_row st wr)).
Proof.
  intros Hu Hdb Hrow Hst Htr.
  assert (Hnext : APSWCursor_next (S fuel) w
                  = call r, w1 <- next_row wr in
                    match r with
                    | inl ret => Done ret w1
                    | inr _ => APSWCursor_next_again fuel w1
                    end).
  { unfold APSWCursor_next, CHECK_USE, CHECK_CLOSED. rewrite Hu, Hdb.
    cbn [APSWCursor_next_again].
    destruct Hrow as [[Hs ->]|(Hs & r & Hstep & Hr & Hs')].
    - rewrite Hs. cbn [status_eqb bindM]. by rewrite Hs.
    - rewrite Hs. cbn [status_eqb]. rewrite Hstep. cbn [bindM].
      rewrite Hs'. by destruct r. }
  assert (Hrow' : next_row wr
                  = match tracer (current_row st) with
                    | Raised e =>
                        Done (inl RetNULL) (PyErr_Format e (after_row st wr))
                    | Returned RetNULL => Done (inl RetNULL) (after_row st wr)
                    | Returned r2 =>
                        if is_Py_None r2 then Done (inr ()) (after_row st wr)
                        else Done (inl r2) (after_row st wr)
                    end).
  { unfold next_row, APSWCursor_dorowtrace.
    cbn [set_status set_cursor cursor statement rowtrace].
    rewrite Hst, Htr. cbn [set_status set_cursor cursor statement rowtrace].
    unfold after_row.
    by destruct (tracer (current_row st)) as [[]|]. }
  rewrite Hnext, Hrow'. split.
  - intros v -> Hv Hnone. destruct v; try done; cbn [bindM]; by rewrite ?Hnone.
  - by intros ->.
Qed.

Lemma tracing_rows_ready :
  inuse (cursor tracing_rows) = false /\
  connection_db (cursor tracing_rows) = true /\
  row_fetched tracing_rows tracing_rows /\
  statement (cursor tracing_rows) = Some (held_statement tracing_rows) /\
  rowtrace (cursor tracing_rows) = Some skip_two /\
  skip_two (current_row (held_statement tracing_rows))
  = Returned (RetTuple [PyLong 1; PyLong 1]).
Proof.
  split; [vm_compute; reflexivity|]. split; [vm_compute; reflexivity|].
  split; [left; split; [vm_compute|]; reflexivity|].
  split; [vm_compute; reflexivity|]. split; vm_compute; reflexivity.
Qed.

Lemma tracing_rows_stepped :
  inuse (cursor tracing_rows_1) = false /\
  connection_db (cursor tracing_rows_1) = true /\
  row_fetched tracing_rows_1 tracing_rows_2 /\
  statement (cursor tracing_rows_2) = Some (held_statement tracing_rows_2) /\
  rowtrace (cursor tracing_rows_2) = Some skip_two /\
  skip_two (current_row (held_statement tracing_rows_2))
  = Returned (RetObject Py_None).
Proof.
  split; [vm_compute; reflexivity|]. split; [vm_compute; reflexivity|].
  split.
  { right. split; [vm_compute; reflexivity|]. exists RetSelf.
    split; [vm_compute; reflexivity|]. split; [discriminate|].
    vm_compute. reflexivity. }
  split; [vm_compute; reflexivity|]. split; vm_compute; reflexivity.
Qed.

Lemma rowtrace_replaces_or_skips_witness :
  APSWCursor_next 2 tracing_rows
  = Done (RetTuple [PyLong 1; PyLong 1])
         (after_row (held_statement tracing_rows) tracing_rows) /\
  APSWCursor_next 2 tracing_rows_1
  = APSWCursor_next_again 1
      (after_row (held_statement tracing_rows_2) tracing_rows_2) /\
  perform (Op_next 2) tracing_rows
  = Done (RetTuple [PyLong 1; PyLong 1]) tracing_rows_1 /\
  perform (Op_next 2) tracing_rows_1
  = Done (RetTuple [PyLong 3; PyLong 3]) tracing_rows_3 /\
  perform (Op_next 2) tracing_rows_3
  = Done RetNULL (world_of (perform (Op_next 2) tracing_rows_3)) /\
  pyerr (world_of (perform (Op_next 2) tracing_rows_3)) = None.
Proof.
  split.
  { destruct tracing_rows_ready as (Hu & Hdb & Hrow & Hst & Htr & Hv).
    apply (proj1 (rowtrace_replaces_or_skips tracing_rows tracing_rows
                    (held_statement tracing_rows) skip_two 1
                    Hu Hdb Hrow Hst Htr)); [exact Hv|discriminate|reflexivity]. }
  split.
  { destruct tracing_rows_stepped as (Hu & Hdb & Hrow & Hst & Htr & Hv).
    exact (proj2 (rowtrace_replaces_or_skips tracing_rows_1 tracing_rows_2
                    (held_statement tracing_rows_2) skip_two 1
                    Hu Hdb Hrow Hst Htr) Hv). }
  split; [vm_compute; reflexivity|]. split; [vm_compute; reflexivity|].
  split; vm_compute; reflexivity.
Defined.

(** * Further properties of the code *)

(** ** The scan of a Python 2 string *)

Lemma scan_high_le bytes : 0 <= scan_high bytes <= Z.of_nat (length bytes).
Proof.
  induction bytes as [|c rest IH]; simpl; [lia|].
  destruct (high_bit c); lia.
Qed.

Lemma scan_high_all bytes :
  scan_high bytes = Z.of_nat (length bytes) <->
  Forall (fun c => high_bit c = false) bytes.
Proof.
  induction bytes as [|c rest IH]; simpl.
  - split; [constructor|done].
  - pose proof (scan_high_le rest). destruct (high_bit c) eqn:Hc.
    + split; [lia|]. intros H0. apply Forall_cons in H0. destruct H0. congruence.
    + rewrite Forall_cons. split.
      * intros E. split; [done|]. apply IH. lia.
      * intros [_ Hr]. apply IH in Hr. lia.
Qed.

Lemma length_list_ascii val :
  length (String.list_ascii_of_string val) = String.length val.
Proof. induction val as [|c rest IH]; simpl; congruence. Qed.

(** X1.  A Python 2 [str] is handed to the engine as it is exactly when it
    is shorter than 10000 bytes and none of its bytes has bit 0x80 set (the
    empty string included); every other [str] goes through its conversion
    to unicode, and a failure of that conversion is the exception raised,
    with no engine call. *)
Theorem string_binding_route (arg : Z) (s : pystring) (w : World) :
  let lenval := Z.of_nat (String.length (str_val s)) in
  (lenval < 10000 /\ seven_bit (str_val s) ->
   APSWCursor_dobinding arg (PyString s) w
   = call res, w1 <- bind_call arg (SqlText (str_val s) lenval) w in
     dobinding_finish res w1) /\
  (~ (lenval < 10000 /\ seven_bit (str_val s)) ->
   APSWCursor_dobinding arg (PyString s) w
   = match str_unicode s with
     | ConversionFails name => Done (-1) (PyErr_Format (PyException name) w)
     | Converted str2 => bind_unidata arg str2 SQLITE_TOOBIG w
     end).
Proof.
  intros lenval.
  assert (Hroute :
    (string_chk (str_val s) <? lenval) = false <->
    lenval < 10000 /\ seven_bit (str_val s)).
  { unfold string_chk, seven_bit. fold lenval.
    pose proof (scan_high_le (String.list_ascii_of_string (str_val s))) as Hle.
    pose proof (scan_high_all (String.list_ascii_of_string (str_val s))) as Hall.
    rewrite length_list_ascii in Hle, Hall. fold lenval in Hle, Hall.
    destruct (lenval <? 10000) eqn:Hlt.
    - rewrite Z.ltb_ge. split.
      + intros H. split; [lia|]. apply Hall. lia.
      + intros [_ H]. apply Hall in H. lia.
    - rewrite Z.ltb_ge. split; [|lia]. intros H. subst lenval. lia. }
  cbn [APSWCursor_dobinding]. fold lenval. split.
  - intros H. apply Hroute in H. by rewrite H.
  - intros H. destruct (string_chk (str_val s) <? lenval) eqn:Hc; [done|].
    destruct H. by apply Hroute.
Qed.

Lemma string_binding_route_witness :
  APSWCursor_dobinding 1 (PyString plain_abc) first_of_two
  = (call res, w1 <- bind_call 1 (SqlText "abc" 3) first_of_two in
     dobinding_finish res w1) /\
  APSWCursor_dobinding 1 (PyString latin_e_acute) first_of_two
  = Done (-1) (PyErr_Format (PyException "UnicodeDecodeError") first_of_two).
Proof.
  split.
  - apply (proj1 (string_binding_route 1 plain_abc first_of_two)).
    split; [simpl; lia|]. unfold seven_bit. simpl. by repeat constructor.
  - apply (proj2 (string_binding_route 1 latin_e_acute first_of_two)).
    intros [_ H]. unfold seven_bit in H. simpl in H.
    apply Forall_cons in H. destruct H as [H _]. discriminate H.
Defined.

(** ** Integers that do not fit *)

(** X2.  A Python integer outside the range of a signed 64-bit integer
    makes the binder fail with OverflowError, yet the engine is still
    called: [PyLong_AsLongLong] returns -1 with the exception set, and that
    -1 is handed to [sqlite3_bind_int64] before the exception is looked
    at.  The statement ends up with -1 bound at that position whenever the
    engine accepts the call. *)
Theorem long_overflow_still_binds (arg n : Z) (w : World) (st : APSWStatement) :
  statement (cursor w) = Some st -> pyerr w = None ->
  n < LLONG_MIN \/ LLONG_MAX < n ->
  exists w',
    APSWCursor_dobinding arg (PyLong n) w = Done (-1) w' /\
    pyerr w' = Some PyExc_OverflowError /\
    bound_at arg (SqlInteger (-1)) w w'.
Proof.
  intros Hst Herr Hn. cbn [APSWCursor_dobinding]. unfold PyLong_AsLongLong.
  replace ((LLONG_MIN <=? n) && (n <=? LLONG_MAX)) with false
    by (symmetry; apply andb_false_iff; lia).
  cbn [fst snd]. unfold bind_call. cbn [PyErr_Format set_pyerr cursor].
  rewrite Hst. cbn [bindM].
  set (r := sqlite3_bind (vdbestatement st) arg (SqlInteger (-1))).
  unfold dobinding_finish, SET_EXC, PyErr_Occurred. cbn.
  destruct (negb (fst r =? SQLITE_OK)); cbn;
    (eexists; split; [reflexivity|]); (split; [done|]); exists st; by subst r.
Qed.

Lemma long_overflow_still_binds_witness :
  exists w',
    APSWCursor_dobinding 1 (PyLong 9223372036854775808) first_of_two
    = Done (-1) w' /\
    pyerr w' = Some PyExc_OverflowError /\
    bound_at 1 (SqlInteger (-1)) first_of_two w'.
Proof.
  apply (long_overflow_still_binds 1 9223372036854775808 first_of_two
           (held_statement first_of_two));
    [reflexivity|reflexivity|]. right. reflexivity.
Defined.

(** ** Deallocation *)

(** A forced reset calls the engine once at most, to hand the statement
    back; it leaves the error indicator as it found it. *)
Lemma resetcursor_forced_log force w :
  force <> 0 ->
  log (snd (resetcursor force w))
  = log w ++ match statement (cursor w) with
             | Some _ => [EvFinalize]
             | None => []
             end /\
  pyerr (snd (resetcursor force w)) = pyerr w.
Proof.
  intros Hf.
  unfold resetcursor, reset_finalize, reset_remaining_statements,
    reset_remaining_iterator, finalize_call.
  replace (force =? 0) with false by (symmetry; by apply Z.eqb_neq).
  destruct w as [c e l]. destruct c as [db iu s stt b off it oq et rt].
  cbn. destruct s as [st|]; cbn.
  - destruct it, e; done.
  - rewrite app_nil_r. destruct it, e; done.
Qed.

(** X3.  Deallocating a cursor raises nothing and loses nothing: the error
    indicator is afterwards what it was before (the assertion after the
    forced reset holds: no exception is pending there), the only engine
    call is the one that hands back the statement the cursor held, the
    executemany iterator is not asked for an element, and the cursor keeps
    no statement, bindings, iterator or tracer.  For a cursor in a
    reachable state every statement taken from the cache has then been
    handed back. *)
Theorem dealloc_releases (w : World) :
  reachable w ->
  let w' := APSWCursor_dealloc w in
  pyerr (snd (resetcursor 1
                (if PyErr_Occurred w then set_pyerr None w else w))) = None /\
  pyerr w' = pyerr w /\
  log w' = log w ++ match statement (cursor w) with
                    | Some _ => [EvFinalize]
                    | None => []
                    end /\
  statement (cursor w') = None /\ bindings (cursor w') = None /\
  emiter (cursor w') = None /\ exectrace (cursor w') = None /\
  rowtrace (cursor w') = None /\ status (cursor w') = C_DONE /\
  borrowed (log w') = 0.
Proof.
  intros Hreach. cbv zeta.
  pose proof (reachable_account w Hreach) as Hacc.
  unfold APSWCursor_dealloc.
  set (w0 := if PyErr_Occurred w then set_pyerr None w else w).
  assert (Hc0 : cursor w0 = cursor w /\ log w0 = log w /\ pyerr w0 = None).
  { subst w0. unfold PyErr_Occurred. by destruct (pyerr w) eqn:He. }
  destruct Hc0 as (Hc0 & Hl0 & He0).
  destruct (resetcursor_forced_log 1 w0) as (Hlog & Herr); [done|].
  rewrite Hc0, Hl0 in Hlog. rewrite He0 in Herr.
  pose proof (resetcursor_fields 1 w0) as Hf. cbv zeta in Hf.
  destruct Hf as (Hs & Hd & Hb & _).
  remember (snd (resetcursor 1 w0)) as w1 eqn:Hw1. clear Hw1.
  clearbody w0.
  assert (Hpend : PyErr_Occurred w = false -> pyerr w = None).
  { unfold PyErr_Occurred. by destruct (pyerr w). }
  destruct w1 as [c1 e1 l1]. cbn in Hlog, Herr, Hs, Hd, Hb. subst e1 l1.
  destruct (PyErr_Occurred w); cbn; rewrite ?Hs, ?Hd, ?Hb, ?borrowed_app, ?Hacc;
    (split; [done|]); (split; [reflexivity || (symmetry; by apply Hpend)|]);
    do 7 (split; [done|]); unfold held; by destruct (statement (cursor w)).
Qed.

Lemma dealloc_releases_witness :
  pyerr (APSWCursor_dealloc midway) = pyerr midway /\
  log (APSWCursor_dealloc midway) = log midway ++ [EvFinalize] /\
  borrowed (log (APSWCursor_dealloc midway)) = 0.
Proof.
  destruct (dealloc_releases midway midway_reachable)
    as (_ & He & Hl & _ & _ & _ & _ & _ & _ & Hb).
  split; [exact He|]. split; [exact Hl|exact Hb].
Defined.

(** ** A cursor whose connection is closed *)

Lemma perform_closed op w r w' :
  inuse (cursor w) = false -> connection_db (cursor w) = false ->
  perform op w = Done r w' ->
  cursor w' = cursor w /\ log w' = log w /\
  (needs_connection op = true ->
   r = RetNULL /\ pyerr w' = Some ExcConnectionClosed).
Proof.
  intros Hu Hdb H.
  destruct op; unfold perform in H; cbn [needs_connection];
    [unfold APSWCursor_execute in H|unfold APSWCursor_executemany in H
    |unfold APSWCursor_close in H|unfold APSWCursor_next in H
    |unfold APSWCursor_setexectrace in H|unfold APSWCursor_setrowtrace in H|];
    unfold CHECK_USE, CHECK_CLOSED in H;
    cbn [set_pyerr cursor] in H; rewrite ?Hu, ?Hdb in H; cbn [negb] in H;
    injection H as <- <-; destruct w as [[] ? ?]; cbn in *; subst; by auto.
Qed.

(** X4.  Once the connection has been closed under a cursor, the cursor is
    inert.  Every method other than [close] is refused with
    ConnectionClosedError, and whatever methods are called, in whatever
    order, the fields of the cursor and the log of engine calls stay as they
    were: a statement the cursor still holds is never stepped, and never
    handed back to the cache either. *)
Theorem closed_connection_inert (w : World) :
  inuse (cursor w) = false -> connection_db (cursor w) = false ->
  (forall args, refused RetNULL w (APSWCursor_execute args w)) /\
  (forall args, refused RetNULL w (APSWCursor_executemany args w)) /\
  (forall fuel, refused RetNULL w (APSWCursor_next fuel w)) /\
  refused RetNULL w (APSWCursor_iter w) /\
  (forall func, refused RetNULL w (APSWCursor_setexectrace func w)) /\
  (forall func, refused RetNULL w (APSWCursor_setrowtrace func w)) /\
  refused KeptNULL w (APSWCursor_getexectrace w) /\
  refused KeptNULL w (APSWCursor_getrowtrace w) /\
  refused RetNULL w (APSWCursor_getconnection w) /\
  (forall count pair,
      refused None w (APSWCursor_getdescription count pair w)) /\
  forall ops, exists wn,
    perform_all ops w = Done () wn /\
    cursor wn = cursor w /\ log wn = log w.
Proof.
  intros Hu Hdb.
  unfold refused, APSWCursor_execute, APSWCursor_executemany, APSWCursor_next,
    APSWCursor_iter, APSWCursor_setexectrace, APSWCursor_setrowtrace,
    APSWCursor_getexectrace, APSWCursor_getrowtrace, APSWCursor_getconnection,
    APSWCursor_getdescription, CHECK_USE, CHECK_CLOSED.
  rewrite Hu, Hdb. do 10 (split; [done|]).
  intros ops. revert w Hu Hdb.
  induction ops as [|op ops IH]; intros w Hu Hdb; [by exists w|].
  cbn [perform_all].
  assert (Hrun : exists r w1, perform op w = Done r w1).
  { destruct op; unfold perform;
      [unfold APSWCursor_execute|unfold APSWCursor_executemany
      |unfold APSWCursor_close|unfold APSWCursor_next
      |unfold APSWCursor_setexectrace|unfold APSWCursor_setrowtrace|];
      unfold CHECK_USE, CHECK_CLOSED; cbn [set_pyerr cursor];
      rewrite ?Hu, ?Hdb; cbn [negb]; eauto. }
  destruct Hrun as (r & w1 & Hrun). rewrite Hrun. cbn [bindM].
  destruct (perform_closed _ _ _ _ Hu Hdb Hrun) as (Hc & Hl & _).
  destruct (IH w1) as (wn & Hn & Hcn & Hln); [by rewrite Hc..|].
  exists wn. split; [done|]. by rewrite Hcn, Hln, Hc, Hl.
Qed.

Lemma closed_connection_inert_witness :
  exists wn,
    perform_all [Op_next 1; Op_execute NoArgs; Op_close (CloseArgs None)]
                midway_closed = Done () wn /\
    cursor wn = cursor midway_closed /\ log wn = log midway_closed.
Proof.
  destruct (closed_connection_inert midway_closed) as (_ & _ & _ & _ & _ & _
    & _ & _ & _ & _ & H); [reflexivity|reflexivity|].
  exact (H [Op_next 1; Op_execute NoArgs; Op_close (CloseArgs None)]).
Defined.

(** ** What [close] returns *)



Lemma one_then_raise_source :
  batch_done one_then_raise /\
  source_raising one_then_raise (PyException "ValueError").
Proof.
  split.
  - intros st Hst. vm_compute in Hst. by injection Hst as <-.
  - split; [vm_compute; discriminate|]. split; [reflexivity|].
    exists []. vm_compute. reflexivity.
Qed.



(** The case arises: after [executemany("select ?", source)] whose source
    yields one element and then raises ValueError, [close()] returns None
    while ValueError is pending. *)
Example close_none_with_ValueError :
  exists w',
    perform (Op_close (CloseArgs None)) one_then_raise
    = Done (RetObject Py_None) w' /\
    pyerr w' = Some (PyException "ValueError").
Proof. eexists. split; vm_compute; reflexivity. Qed.

(** ** What the execution tracer is shown *)

Lemma binds_only_trans a b c : binds_only a b -> binds_only b c -> binds_only a c.
Proof.
  intros (e1 & H1 & F1) (e2 & H2 & F2). exists (e1 ++ e2). split.
  - by rewrite H2, H1, app_assoc.
  - by apply Forall_app.
Qed.

Lemma binds_only_same w w' : log w' = log w -> binds_only w w'.
Proof. intros H. exists []. split; [by rewrite app_nil_r|constructor]. Qed.

Lemma dobindings_binds_only : related binds_only APSWCursor_dobindings.
Proof.
  apply (dobindings_related binds_only binds_only_trans).
  - intros w w' H _. by apply binds_only_same.
  - intros arg val w r w'. unfold bind_call.
    destruct (statement (cursor w)); [|done]. intros [= _ <-].
    exists [EvBind arg val]. split; [done|]. by repeat constructor.
  - intros o w. by apply binds_only_same.
Qed.

(** The slice [items[lo:lo+n]] when it lies within the sequence. *)
Lemma PySequence_GetSlice_within items lo n :
  0 <= lo -> 0 <= n -> lo + n <= Z.of_nat (length items) ->
  PySequence_GetSlice items lo (lo + n)
  = take (Z.to_nat n) (drop (Z.to_nat lo) items).
Proof.
  intros Hlo Hn Hhi. unfold PySequence_GetSlice.
  rewrite (Z.max_l lo 0) by lia.
  rewrite (Z.min_l lo) by lia.
  rewrite (Z.max_l (lo + n) lo) by lia.
  rewrite (Z.min_l (lo + n)) by lia.
  by replace (lo + n - lo) with n by lia.
Qed.

(** The resolver on a sequence: what it leaves when it succeeds. *)
Lemma dobindings_seq_result w st items :
  statement (cursor w) = Some st ->
  bindings (cursor w) = Some (BSeq items) ->
  pyerr w = None ->
  0 <= bindingsoffset (cursor w) ->
  Z.of_nat (length items) <= 2147483647 ->
  let n := sqlite3_bind_parameter_count (vdbestatement st) in
  let offset := bindingsoffset (cursor w) in
  exists r w1,
    APSWCursor_dobindings w = Done r w1 /\
    ((r = -1 /\ exists e, pyerr w1 = Some e) \/
     (r = 0 /\ pyerr w1 = None /\
      offset + n <= Z.of_nat (length items) /\
      bindingsoffset (cursor w1) = offset + n /\
      bindings (cursor w1) = Some (BSeq items) /\
      exectrace (cursor w1) = exectrace (cursor w) /\
      status (cursor w1) = status (cursor w) /\
      (exists st1, statement (cursor w1) = Some st1 /\ stmt_rebound st st1) /\
      exists vals,
        mapM engine_value (take (Z.to_nat n) (drop (Z.to_nat offset) items))
        = Some vals /\
        log w1 = log w ++ bind_events 1 vals)).
Proof.
  intros Hst Hb Herr Hoff Hlen n offset.
  assert (Hn : 0 <= n).
  { subst n. unfold sqlite3_bind_parameter_count.
    destruct (vdbestatement st); lia. }
  assert (Hrun : offset + n <= Z.of_nat (length items) ->
            exists r w1,
              (call r, w1 <- dobindings_seq 1 (Z.to_nat n) w in
               if r =? 0
               then Done 0 (set_bindingsoffset
                              (bindingsoffset (cursor w1) + n) w1)
               else Done r w1) = Done r w1 /\
              ((r = -1 /\ exists e, pyerr w1 = Some e) \/
               (r = 0 /\ pyerr w1 = None /\
                offset + n <= Z.of_nat (length items) /\
                bindingsoffset (cursor w1) = offset + n /\
                bindings (cursor w1) = Some (BSeq items) /\
                exectrace (cursor w1) = exectrace (cursor w) /\
                status (cursor w1) = status (cursor w) /\
                (exists st1, statement (cursor w1) = Some st1 /\
                             stmt_rebound st st1) /\
                exists vals,
                  mapM engine_value
                    (take (Z.to_nat n) (drop (Z.to_nat offset) items))
                  = Some vals /\
                  log w1 = log w ++ bind_events 1 vals))).
  { intros Hfit.
    destruct (dobindings_seq_spec items (Z.to_nat n) 1 w st Hst Herr Hb)
      as (r & w1 & -> & Hr & Hpost); [fold offset; lia ..|].
    destruct (rebound_fields _ _ Hr) as (Hb1 & Ho1 & Hs1 & _ & _ & Ht1 & _).
    destruct (rebound_statement _ _ _ Hr Hst) as (st1 & Hst1 & Hreb).
    destruct Hpost as [(-> & He & vals & Hvals & Hl)|(-> & e & He & _)];
      cbn [bindM].
    - change (0 =? 0) with true. cbv iota.
      do 2 eexists. split; [reflexivity|]. right.
      cbn [cursor set_bindingsoffset set_cursor bindingsoffset bindings
             exectrace status statement pyerr log].
      rewrite Ho1, Hb1, Hb, Ht1, Hs1, Hst1.
      do 8 (split; [by eauto|]). exists vals. split; [|done].
      replace (1 - 1 + bindingsoffset (cursor w)) with offset in Hvals
        by (subst offset; lia).
      done.
    - change (-1 =? 0) with false. cbv iota.
      do 2 eexists. split; [reflexivity|]. left. eauto. }
  unfold APSWCursor_dobindings. rewrite Hst, Hb. fold n. fold offset.
  rewrite !andb_false_r. rewrite to_int_small by lia.
  destruct (has_next st); cbn [andb negb].
  - destruct (Z.of_nat (length items) - offset <? n) eqn:Hcmp.
    + do 2 eexists. split; [reflexivity|]. left. split; [done|]. by eexists.
    + apply Hrun. lia.
  - destruct (Z.of_nat (length items) - offset =? n) eqn:Hcmp; cbn [negb].
    + apply Hrun. lia.
    + do 2 eexists. split; [reflexivity|]. left. split; [done|]. by eexists.
Qed.

(** X6.  When a statement of a batch is bound from a sequence and an
    execution tracer is installed, the step pipeline either fails in the
    resolver, and then the tracer is not called, or calls the tracer once,
    after the last bind call, with the text of that statement alone and
    with exactly the objects that were just bound to it: the slice
    [items[offset : offset+n]] of the sequence, not the whole sequence.
    The tracer's answer decides: a true value lets the statement run
    (state C_BEGIN), a false value raises AbortError, an exception of the
    tracer is passed on. *)
Theorem exectrace_sees_bound_slice (w : World) (st : APSWStatement)
  (items : list PyObject) (t : exec_tracer) :
  statement (cursor w) = Some st ->
  bindings (cursor w) = Some (BSeq items) ->
  exectrace (cursor w) = Some t ->
  pyerr w = None ->
  0 <= bindingsoffset (cursor w) ->
  Z.of_nat (length items) <= 2147483647 ->
  let n := sqlite3_bind_parameter_count (vdbestatement st) in
  let offset := bindingsoffset (cursor w) in
  let slice := take (Z.to_nat n) (drop (Z.to_nat offset) items) in
  exists r w',
    step_bind_and_trace w = Done r w' /\
    ((r = inl () /\ (exists e, pyerr w' = Some e) /\ binds_only w w') \/
     (exists vals,
         mapM engine_value slice = Some vals /\
         log w' = log w ++ bind_events 1 vals
                        ++ [EvExecTrace (statement_sql st) (TB_Slice slice)] /\
         match t (statement_sql st) (TB_Slice slice) with
         | ET_returned true =>
             r = inr () /\ pyerr w' = None /\ status (cursor w') = C_BEGIN
         | ET_returned false => r = inl () /\ pyerr w' = Some ExcTraceAbort
         | ET_raised e | ET_truth_fails e => r = inl () /\ pyerr w' = Some e
         end)).
Proof.
  intros Hst Hb Ht Herr Hoff Hlen n offset slice.
  assert (Hn : 0 <= n).
  { subst n. unfold sqlite3_bind_parameter_count.
    destruct (vdbestatement st); lia. }
  destruct (dobindings_seq_result w st items Hst Hb Herr Hoff Hlen)
    as (r & w1 & Hrun & Hres).
  unfold step_bind_and_trace. rewrite Ht, Hrun. cbn [bindM].
  destruct Hres as [(-> & e & He)
                   |(-> & He & Hfit & Ho1 & Hb1 & Ht1 & Hs1
                     & (st1 & Hst1 & Hu & _) & vals & Hvals & Hl)].
  - change (negb (-1 =? 0)) with true. cbv iota.
    do 2 eexists. split; [reflexivity|]. left.
    split; [done|]. split; [by eexists|].
    by apply (dobindings_binds_only w (-1) w1).
  - change (negb (0 =? 0)) with false. cbv iota.
    rewrite Ht1, Ht. fold offset n in Ho1, Hfit.
    unfold APSWCursor_doexectrace, exectrace_bindings.
    rewrite Ht1, Ht, Hst1, Hb1, Ho1.
    replace (statement_sql st1) with (statement_sql st)
      by (unfold statement_sql; by rewrite Hu).
    rewrite to_int_small by (fold offset; lia). fold offset.
    rewrite PySequence_GetSlice_within by (fold offset; lia).
    fold slice.
    destruct (t (statement_sql st) (TB_Slice slice)) as [e|e|[]];
      cbn [bindM];
      [change (negb (-1 =? 0)) with true
      |change (negb (-1 =? 0)) with true
      |change (negb (0 =? 0)) with false
      |change (negb (-1 =? 0)) with true]; cbv iota;
      (do 2 eexists; split; [reflexivity|]); right; exists vals;
      (split; [exact Hvals|]);
      cbn [log emit PyErr_Format set_pyerr set_status set_cursor pyerr
             cursor status];
      rewrite Hl, <- app_assoc; by repeat split.
Qed.

Lemma exectrace_sees_bound_slice_witness :
  exists r w',
    step_bind_and_trace second_of_two = Done r w' /\
    ((r = inl () /\ (exists e, pyerr w' = Some e) /\
      binds_only second_of_two w') \/
     (exists vals,
         mapM engine_value [PyLong 2; PyLong 3] = Some vals /\
         log w' = log second_of_two ++ bind_events 1 vals
                    ++ [EvExecTrace "select ?, ?"
                          (TB_Slice [PyLong 2; PyLong 3])] /\
         r = inr () /\ pyerr w' = None /\ status (cursor w') = C_BEGIN)).
Proof.
  apply (exectrace_sees_bound_slice second_of_two
           (held_statement second_of_two)
           [PyLong 1; PyLong 2; PyLong 3] allow_all);
    [reflexivity|reflexivity|reflexivity|reflexivity|done|done].
Defined.

(** ** Bindings from a mapping *)

(** The dictionary loop succeeds only if every parameter it visits has a
    name. *)
Lemma dobindings_dict_named d :
  forall (todo k : nat) (w : World) (st : APSWStatement) (vd : vdbe) w',
    statement (cursor w) = Some st -> vdbestatement st = Some vd ->
    dobindings_dict d (Z.of_nat k + 1) todo w = Done 0 w' ->
    (k + todo <= length (v_params vd))%nat ->
    forall i : nat, (k <= i < k + todo)%nat -> v_params vd !! i <> Some None.
Proof.
  induction todo as [|todo IH]; intros k w st vd w' Hst Hvd Hrun Hk i Hi;
    [lia|].
  simpl dobindings_dict in Hrun. rewrite Hst, Hvd in Hrun.
  unfold sqlite3_bind_parameter_name in Hrun.
  replace ((1 <=? Z.of_nat k + 1)
           && (Z.of_nat k + 1 <=? Z.of_nat (length (v_params vd))))
    with true in Hrun by (symmetry; apply andb_true_iff; lia).
  replace (Z.to_nat (Z.of_nat k + 1 - 1)) with k in Hrun by lia.
  destruct (v_params vd !! k) as [[key|]|] eqn:Hkey;
    simpl (mjoin _) in Hrun; cbv iota beta in Hrun; try discriminate Hrun.
  assert (Hnext : forall w1 st1,
             statement (cursor w1) = Some st1 -> stmt_rebound st st1 ->
             dobindings_dict d (Z.of_nat (S k) + 1) todo w1 = Done 0 w' ->
             v_params vd !! i <> Some None).
  { intros w1 st1 Hst1 (_ & _ & Hv) Hrun1.
    destruct (decide (i = k)) as [->|Hne]; [by rewrite Hkey|].
    rewrite Hvd in Hv. unfold vdbe_rebound in Hv.
    destruct (vdbestatement st1) as [vd1|] eqn:Hvd1; [|done].
    destruct Hv as (Hp & _). rewrite <- Hp.
    apply (IH (S k) w1 st1 vd1 w' Hst1 Hvd1 Hrun1); [rewrite Hp|]; lia. }
  replace (Z.of_nat k + 1 + 1) with (Z.of_nat (S k) + 1) in Hrun by lia.
  destruct (d !! strip_marker key) as [obj|].
  - destruct (dobinding_total (Z.of_nat k + 1) obj w st Hst)
      as (r & w1 & Hb & Hr).
    rewrite Hb in Hrun. cbn [bindM] in Hrun.
    destruct (r =? SQLITE_OK); [|discriminate Hrun].
    destruct (rebound_statement _ _ _ Hr Hst) as (st1 & Hst1 & Hreb).
    by apply (Hnext w1 st1).
  - apply (Hnext w st); [done|apply stmt_rebound_refl|done].
Qed.

(** X7.  Binding from a mapping succeeds exactly when every parameter of
    the statement has a name and every object the mapping holds under the
    name of a parameter is one the binder accepts.  After a success each
    parameter whose name is a key holds the value of that key as the
    engine takes it.  Keys that name no parameter play no part. *)
Theorem mapping_binds_present_keys (w : World) (st : APSWStatement)
  (vd : vdbe) (d : gmap string PyObject) :
  statement (cursor w) = Some st -> vdbestatement st = Some vd ->
  bindings (cursor w) = Some (BDict d) -> pyerr w = None ->
  v_pc vd = 0%nat -> length (v_bound vd) = length (v_params vd) ->
  exists r w',
    APSWCursor_dobindings w = Done r w' /\
    (r = 0 \/ r = -1) /\
    (r = 0 <->
     (forall i : nat, v_params vd !! i <> Some None) /\
     (forall (i : nat) key obj,
         param_key (v_params vd) i = Some key -> d !! key = Some obj ->
         engine_value obj <> None)) /\
    (r = 0 ->
     pyerr w' = None /\
     exists st' vd',
       statement (cursor w') = Some st' /\ vdbestatement st' = Some vd' /\
       forall (i : nat) key obj,
         param_key (v_params vd) i = Some key -> d !! key = Some obj ->
         exists v, engine_value obj = Some v /\ v_bound vd' !! i = Some v).
Proof.
  intros Hst Hvd Hb Herr Hpc Hlen.
  destruct (dobindings_dict_spec d (length (v_params vd)) 0 w st vd)
    as (r & w' & Hrun & st' & vd' & evs & Hst' & Hvd' & Hl & Hun & Hev & Hres);
    try done.
  assert (Hdo : APSWCursor_dobindings w = Done r w').
  { unfold APSWCursor_dobindings. rewrite Hst, Hb, Hvd. simpl.
    rewrite !andb_false_r. by rewrite Nat2Z.id. }
  exists r, w'. split; [exact Hdo|].
  destruct Hres as [(-> & He & Hall)|(-> & He & Hwhy)].
  - split; [by left|]. split.
    + split; [intros _|done]. split.
      * intros i. destruct (decide (i < length (v_params vd))%nat) as [Hi|Hi].
        -- apply (dobindings_dict_named d (length (v_params vd)) 0 w st vd w'
                    Hst Hvd Hrun); lia.
        -- rewrite lookup_ge_None_2 by lia. done.
      * intros i key obj Hkey Hd.
        destruct (Hall i key obj) as (v & -> & _); [lia|done..].
    + intros _. split; [done|]. exists st', vd'. do 2 (split; [done|]).
      intros i key obj Hkey Hd. apply (Hall i key obj); [lia|done..].
  - split; [by right|]. split.
    + split; [done|]. intros (Hnamed & Hok). exfalso.
      destruct Hwhy as [(i & Hi)|(i & key & obj & Hkey & Hd & Hno)].
      * by apply (Hnamed i).
      * by apply (Hok i key obj).
    + done.
Qed.

Lemma mapping_binds_present_keys_witness :
  exists r w',
    APSWCursor_dobindings a_without_b = Done r w' /\
    (r = 0 \/ r = -1) /\
    (r = 0 <->
     (forall i : nat,
         [Some ":a"%string; Some ":b"%string] !! i <> Some None) /\
     (forall (i : nat) key obj,
         param_key [Some ":a"%string; Some ":b"%string] i = Some key ->
         ({[ "a"%string := PyLong 1 ]} : gmap string PyObject) !! key
         = Some obj ->
         engine_value obj <> None)) /\
    (r = 0 ->
     pyerr w' = None /\
     exists st' vd',
       statement (cursor w') = Some st' /\ vdbestatement st' = Some vd' /\
       forall (i : nat) key obj,
         param_key [Some ":a"%string; Some ":b"%string] i = Some key ->
         ({[ "a"%string := PyLong 1 ]} : gmap string PyObject) !! key
         = Some obj ->
         exists v, engine_value obj = Some v /\ v_bound vd' !! i = Some v).
Proof.
  apply (mapping_binds_present_keys a_without_b
           (held_statement a_without_b)
           {| v_params := [Some ":a"%string; Some ":b"%string];
              v_prog := fun bound => [StepRow bound; StepDone];
              v_bound := [SqlNull; SqlNull]; v_pc := 0; v_rc := SQLITE_OK;
              v_row := [] |});
    reflexivity.
Defined.

(** ** The description of the columns *)

Lemma description_loop_spec pair v :
  forall (todo : nat) (i : Z),
    match description_loop pair v i todo with
    | Converted cols =>
        length cols = todo /\
        forall (k : nat) col,
          cols !! k = Some col -> pair v (i + Z.of_nat k) = Converted col
    | ConversionFails name =>
        exists k : nat,
          (k < todo)%nat /\ pair v (i + Z.of_nat k) = ConversionFails name /\
          forall j : nat,
            (j < k)%nat -> exists col, pair v (i + Z.of_nat j) = Converted col
    end.
Proof.
  induction todo as [|todo IH]; intros i; cbn [description_loop].
  - split; [done|]. intros k col H. by rewrite lookup_nil in H.
  - destruct (pair v i) as [col|name] eqn:Hcol.
    + specialize (IH (i + 1)).
      destruct (description_loop pair v (i + 1) todo) as [cols|name].
      * destruct IH as (Hlen & Hcols). split; [by rewrite length_cons, Hlen|].
        intros [|k] c Hk.
        -- injection Hk as <-. by rewrite Z.add_0_r.
        -- replace (i + Z.of_nat (S k)) with (i + 1 + Z.of_nat k) by lia.
           by apply Hcols.
      * destruct IH as (k & Hk & Hfail & Hbefore). exists (S k).
        split; [lia|]. split.
        -- by replace (i + Z.of_nat (S k)) with (i + 1 + Z.of_nat k) by lia.
        -- intros [|j] Hj; [rewrite Z.add_0_r; eauto|].
           replace (i + Z.of_nat (S j)) with (i + 1 + Z.of_nat j) by lia.
           apply Hbefore. lia.
    + exists 0%nat. split; [lia|]. split; [by rewrite Z.add_0_r|]. lia.
Qed.

(** X8.  [getdescription] on a cursor that is free and whose connection is
    open never changes the cursor and calls neither the statement cache nor
    a tracer.  It fails with ExecutionCompleteError exactly when the
    cursor holds no statement.  When a statement is held it returns one
    pair for each column the engine reports, in column order, and leaves no
    exception behind; unless building a pair fails, in which case the
    exception is that of the first column that fails.  (The engine
    reports no negative number of columns.) *)
Theorem getdescription_columns (count : option vdbe -> Z)
  (pair : option vdbe -> Z -> conversion (PyObject * PyObject)) (w : World) :
  (forall v, 0 <= count v) ->
  inuse (cursor w) = false -> connection_db (cursor w) = true ->
  pyerr w = None ->
  exists r w',
    APSWCursor_getdescription count pair w = Done r w' /\
    cursor w' = cursor w /\ log w' = log w /\
    (pyerr w' = Some ExcComplete <-> statement (cursor w) = None) /\
    (statement (cursor w) = None -> r = None) /\
    forall st,
      statement (cursor w) = Some st ->
      let v := vdbestatement st in
      match r with
      | Some cols =>
          w' = w /\ length cols = Z.to_nat (count v) /\
          forall (k : nat) col,
            cols !! k = Some col -> pair v (Z.of_nat k) = Converted col
      | None =>
          exists (k : nat) name,
            Z.of_nat k < count v /\
            pair v (Z.of_nat k) = ConversionFails name /\
            pyerr w' = Some (PyException name) /\
            forall j : nat,
              (j < k)%nat -> exists col, pair v (Z.of_nat j) = Converted col
      end.
Proof.
  intros _ Hu Hdb Herr.
  unfold APSWCursor_getdescription, CHECK_USE, CHECK_CLOSED.
  rewrite Hu, Hdb.
  destruct (statement (cursor w)) as [st|] eqn:Hst.
  - pose proof (description_loop_spec pair (vdbestatement st)
                  (Z.to_nat (count (vdbestatement st))) 0) as Hloop.
    destruct (description_loop pair (vdbestatement st) 0
                (Z.to_nat (count (vdbestatement st)))) as [cols|name].
    + destruct Hloop as (Hlen & Hcols).
      do 2 eexists. split; [reflexivity|]. do 2 (split; [done|]).
      split; [by rewrite Herr|]. split; [done|].
      intros st' [= <-]. cbv zeta. by repeat split.
    + destruct Hloop as (k & Hk & Hfail & Hbefore).
      do 2 eexists. split; [reflexivity|]. do 2 (split; [done|]).
      split; [done|]. split; [done|].
      intros st' [= <-]. cbv zeta. exists k, name.
      split; [lia|]. by repeat split.
  - do 2 eexists. split; [reflexivity|]. by repeat split.
Qed.

Lemma getdescription_columns_witness :
  exists r w',
    APSWCursor_getdescription
      (fun _ => 2)
      (fun _ i => Converted (PyLong i, Py_None)) midway = Done r w' /\
    cursor w' = cursor midway /\ log w' = log midway /\
    r = Some [(PyLong 0, Py_None); (PyLong 1, Py_None)].
Proof.
  destruct (getdescription_columns
              (fun _ => 2) (fun _ i => Converted (PyLong i, Py_None)) midway)
    as (r & w' & Hrun & Hc & Hl & _); [done|reflexivity..|].
  exists r, w'. do 3 (split; [done|]).
  vm_compute in Hrun. by injection Hrun as <- _.
Defined.

(** ** What only the setters change *)

Lemma same_hooks_refl w : same_hooks w w.
Proof. done. Qed.

Lemma same_hooks_trans a b c : same_hooks a b -> same_hooks b c -> same_hooks a c.
Proof. unfold same_hooks. congruence. Qed.

Lemma same_hooks_cursor w w' : cursor w' = cursor w -> same_hooks w w'.
Proof. unfold same_hooks, hooks. by intros ->. Qed.

Lemma same_hooks_from w0 w w' :
  hooks w = hooks w0 -> same_hooks w w' -> same_hooks w0 w'.
Proof. unfold same_hooks. congruence. Qed.

Lemma same_hooks_then w w1 w' :
  same_hooks w w1 -> hooks w' = hooks w1 -> same_hooks w w'.
Proof. unfold same_hooks. congruence. Qed.

Lemma same_hooks_SET_EXC res w : same_hooks w (SET_EXC res w).
Proof. apply same_hooks_cursor, SET_EXC_cursor. Qed.

Lemma resetcursor_hooks force w : same_hooks w (snd (resetcursor force w)).
Proof. unfold same_hooks, hooks. by rewrite resetcursor_cursor. Qed.

Lemma prepare_call_hooks q w : same_hooks w (prepare_call q w).
Proof. unfold same_hooks, hooks. by rewrite prepare_call_cursor. Qed.

Lemma PyIter_Next_hooks it w : same_hooks w (snd (PyIter_Next it w)).
Proof. apply same_hooks_cursor, PyIter_Next_cursor. Qed.

Lemma bindings_of_arg_hooks a w : same_hooks w (bindings_of_arg a w).
Proof. by destruct a as [d|[items|e]]. Qed.

Lemma step_call_hooks st w : same_hooks w (snd (step_call st w)).
Proof.
  unfold step_call. destruct (vdbestatement st); [|done]. cbn [snd].
  destruct (so_raised _); [|done]. by destruct (PyErr_Occurred _).
Qed.

Lemma dobindings_hooks : related same_hooks APSWCursor_dobindings.
Proof.
  apply (dobindings_related same_hooks same_hooks_trans).
  - intros w w' _. apply same_hooks_cursor.
  - intros arg val w r w'. unfold bind_call.
    destruct (statement (cursor w)); [|done]. by intros [= _ <-].
  - done.
Qed.

Lemma doexectrace_hooks saved : related same_hooks (APSWCursor_doexectrace saved).
Proof.
  intros w r w' H. unfold APSWCursor_doexectrace in H.
  destruct (exectrace (cursor w)) as [t|] eqn:Ht; [|done].
  destruct (statement (cursor w)) as [st|]; [|done].
  destruct (t _ _) as [e|e|[]]; same_world H;
    unfold same_hooks, hooks; cbn; by rewrite Ht.
Qed.

Lemma dorowtrace_hooks row : related same_hooks (APSWCursor_dorowtrace row).
Proof.
  intros w r w' H. unfold APSWCursor_dorowtrace in H.
  destruct (rowtrace (cursor w)) as [t|] eqn:Ht; [|done].
  destruct (t row); same_world H; unfold same_hooks, hooks; cbn; by rewrite Ht.
Qed.

Lemma statementcache_next_hooks st : related same_hooks (statementcache_next st).
Proof.
  intros w r w' H. unfold statementcache_next in H.
  destruct (next st) as [q|]; [|done].
  cbv zeta in H. unfold finalize_call in H. cbn [fst snd] in H.
  destruct (negb _); same_world H; [done|].
  eapply same_hooks_from; [|apply prepare_call_hooks]. done.
Qed.

Lemma step_bind_and_trace_hooks : related same_hooks step_bind_and_trace.
Proof.
  intros w r w' H. unfold step_bind_and_trace in H.
  eapply (related_bind_at same_hooks same_hooks_trans); [exact H|..].
  - intros a w1. apply dobindings_hooks.
  - intros a w1 r1 w2 H1. cbv beta in H1.
    destruct (negb (a =? 0)); [same_world H1; apply same_hooks_refl|].
    destruct (exectrace (cursor w1)); [|by same_world H1].
    eapply (related_bind_at same_hooks same_hooks_trans); [exact H1|..].
    + intros b w3. apply doexectrace_hooks.
    + intros b w3 r3 w4 H3. cbv beta in H3.
      destruct (negb (b =? 0)); by same_world H3.
Qed.

Lemma step_next_statement_hooks : related same_hooks step_next_statement.
Proof.
  intros w r w' H. unfold step_next_statement in H.
  eapply (related_bind_at same_hooks same_hooks_trans); [exact H|..].
  - intros a w1 H1.
    destruct (statement (cursor w)) as [st1|].
    + eapply (related_bind_at same_hooks same_hooks_trans); [exact H1|..].
      * intros b w2. apply statementcache_next_hooks.
      * intros b w2 r2 w3 H2. same_world H2. apply same_hooks_SET_EXC.
    + destruct (emoriginalquery (cursor w)); [|done]. same_world H1.
      apply prepare_call_hooks.
  - intros a w1 r1 w2 H1. cbv beta in H1.
    destruct (negb (a =? SQLITE_OK)); [same_world H1; apply same_hooks_refl|].
    eapply (related_bind_at same_hooks same_hooks_trans); [exact H1|..].
    + intros b w3. apply step_bind_and_trace_hooks.
    + intros b w3 r3 w4 H3. cbv beta in H3.
      destruct b; same_world H3; apply same_hooks_refl.
Qed.

Lemma step_advance_hooks : related same_hooks step_advance.
Proof.
  intros w r w' H. unfold step_advance in H.
  set (wd := set_status C_DONE w) in *.
  apply (same_hooks_from w wd); [done|]. clearbody wd.
  destruct (statement (cursor wd)) as [st|]; [|done].
  destruct (has_next st); [exact (step_next_statement_hooks _ _ _ H)|].
  destruct (emiter (cursor wd)) as [it|].
  2:{ same_world H. apply resetcursor_hooks. }
  pose proof (PyIter_Next_hooks it wd) as Hn.
  destruct (PyIter_Next it wd) as [[nxt it1] w1]. cbn [snd] in Hn.
  eapply same_hooks_trans; [exact Hn|].
  set (w1' := set_emiter (Some it1) w1) in *.
  apply (same_hooks_from w1 w1'); [done|]. clearbody w1'.
  destruct (PyErr_Occurred w1'); [same_world H; apply same_hooks_refl|].
  destruct nxt as [a|].
  2:{ same_world H. apply resetcursor_hooks. }
  set (w2 := bindings_of_arg a _) in *.
  assert (H2 : same_hooks w1' w2).
  { subst w2. eapply same_hooks_trans; [|apply bindings_of_arg_hooks]. done. }
  eapply same_hooks_trans; [exact H2|]. clearbody w2.
  destruct (bindings (cursor w2)); [|same_world H; apply same_hooks_refl].
  exact (step_next_statement_hooks _ _ _ H).
Qed.

Lemma step_loop_hooks fuel : related same_hooks (APSWCursor_step_loop fuel).
Proof.
  induction fuel as [|fuel IH]; intros w r w' H; [done|].
  cbn [APSWCursor_step_loop] in H.
  destruct (statement (cursor w)) as [st|]; [|done].
  pose proof (step_call_hooks st w) as H1.
  set (res := fst (step_call st w)) in *.
  set (w1 := snd (step_call st w)) in *. clearbody res w1.
  eapply same_hooks_trans; [exact H1|].
  destruct (Z.land res 255 =? SQLITE_ROW); [by same_world H|].
  destruct (Z.land res 255 =? SQLITE_DONE); cbn [andb] in H.
  - destruct (PyErr_Occurred w1); [by same_world H|].
    eapply (related_bind_at same_hooks same_hooks_trans); [exact H|..].
    + intros a w2. apply step_advance_hooks.
    + intros a w2 r2 w3 H2. cbv beta in H2.
      destruct a as [ret|[]]; [same_world H2; apply same_hooks_refl|].
      by eapply IH.
  - destruct (PyErr_Occurred _); same_world H;
      (eapply same_hooks_from; [|apply resetcursor_hooks]); done.
Qed.

Lemma execute_bind_trace_step_hooks : related same_hooks execute_bind_trace_step.
Proof.
  intros w r w' H. unfold execute_bind_trace_step in H.
  set (w0 := set_bindingsoffset 0 w) in *.
  apply (same_hooks_from w w0); [done|]. clearbody w0.
  eapply (related_bind_at same_hooks same_hooks_trans); [exact H|..].
  - intros a w1. apply dobindings_hooks.
  - intros a w1 r1 w2 H1. cbv beta in H1.
    destruct (negb (a =? 0)); [same_world H1; apply same_hooks_refl|].
    eapply (related_bind_at same_hooks same_hooks_trans); [exact H1|..].
    + intros b w3 H3. destruct (exectrace (cursor w1)).
      * by eapply doexectrace_hooks.
      * same_world H3. apply same_hooks_refl.
    + intros b w3 r3 w4 H3. cbv beta in H3.
      destruct (negb (b =? 0)); [same_world H3; apply same_hooks_refl|].
      unfold APSWCursor_step in H3.
      eapply same_hooks_from; [|exact (step_loop_hooks _ _ _ _ H3)]. done.
Qed.

Lemma checks_hooks w :
  (forall w0, CHECK_USE w = Some w0 -> same_hooks w w0) /\
  (forall w0, CHECK_CLOSED w = Some w0 -> same_hooks w w0).
Proof.
  unfold CHECK_USE, CHECK_CLOSED. split; intros w0.
  - destruct (inuse (cursor w)); [|done]. intros [= <-].
    by destruct (PyErr_Occurred w).
  - destruct (connection_db (cursor w)); [done|]. by intros [= <-].
Qed.

Lemma execute_hooks args : related same_hooks (APSWCursor_execute args).
Proof.
  intros w r w' H. unfold APSWCursor_execute in H.
  destruct (checks_hooks w) as (Huse & Hclosed).
  destruct (CHECK_USE w) as [w0|]; [same_world H; by apply Huse|].
  destruct (CHECK_CLOSED w) as [w0|]; [same_world H; by apply Hclosed|].
  clear Huse Hclosed.
  pose proof (resetcursor_hooks 0 w) as Hr.
  destruct (resetcursor 0 w) as [res wr]. cbn [fst snd] in *.
  eapply same_hooks_trans; [exact Hr|]. clear Hr.
  destruct (negb (res =? SQLITE_OK)); [same_world H; apply same_hooks_refl|].
  destruct args as [|statements more]; [by same_world H|].
  assert (Hrun : forall w2,
    match statement (cursor (prepare_call statements w2)) with
    | None => Done RetNULL (prepare_call statements w2)
    | Some _ => execute_bind_trace_step (prepare_call statements w2)
    end = Done r w' -> same_hooks w2 w').
  { intros w2 H2.
    eapply same_hooks_trans; [apply (prepare_call_hooks statements)|].
    destruct (statement (cursor (prepare_call statements w2)));
      [exact (execute_bind_trace_step_hooks _ _ _ H2)
      |same_world H2; apply same_hooks_refl]. }
  destruct more as [|a [|a' more]].
  - by apply Hrun.
  - eapply same_hooks_trans; [apply (bindings_of_arg_hooks a)|].
    destruct (bindings (cursor (bindings_of_arg a wr)));
      [|same_world H; apply same_hooks_refl].
    by apply Hrun.
  - by same_world H.
Qed.

Lemma executemany_hooks args : related same_hooks (APSWCursor_executemany args).
Proof.
  intros w r w' H. unfold APSWCursor_executemany in H.
  destruct (checks_hooks w) as (Huse & Hclosed).
  destruct (CHECK_USE w) as [w0|]; [same_world H; by apply Huse|].
  destruct (CHECK_CLOSED w) as [w0|]; [same_world H; by apply Hclosed|].
  clear Huse Hclosed.
  pose proof (resetcursor_hooks 0 w) as Hr.
  destruct (resetcursor 0 w) as [res wr]. cbn [fst snd] in *.
  eapply same_hooks_trans; [exact Hr|]. clear Hr.
  destruct (negb (res =? SQLITE_OK)); [same_world H; apply same_hooks_refl|].
  destruct args as [[query [it|]]|]; [|by same_world H..].
  set (w0 := set_emiter (Some it) wr) in *.
  apply (same_hooks_from wr w0); [done|]. clearbody w0.
  pose proof (PyIter_Next_hooks it w0) as Hn.
  destruct (PyIter_Next it w0) as [[nxt it1] w1]. cbn [snd] in Hn.
  eapply same_hooks_trans; [exact Hn|].
  set (w1' := set_emiter (Some it1) w1) in *.
  apply (same_hooks_from w1 w1'); [done|]. clearbody w1'.
  destruct nxt as [a|].
  2:{ destruct (PyErr_Occurred w1'); same_world H; apply same_hooks_refl. }
  eapply same_hooks_trans; [apply (bindings_of_arg_hooks a)|].
  set (w2 := bindings_of_arg a w1') in *. clearbody w2.
  destruct (bindings (cursor w2)); [|same_world H; apply same_hooks_refl].
  eapply same_hooks_trans; [apply (prepare_call_hooks query)|].
  destruct (statement (cursor (prepare_call query w2))) as [st|];
    [|same_world H; apply same_hooks_refl].
  eapply same_hooks_from; [|exact (execute_bind_trace_step_hooks _ _ _ H)]. done.
Qed.

Lemma close_hooks args : related same_hooks (APSWCursor_close args).
Proof.
  intros w r w' H. unfold APSWCursor_close in H.
  destruct (checks_hooks w) as (Huse & _).
  destruct (CHECK_USE w) as [w0|]; [same_world H; by apply Huse|].
  destruct (negb _); [same_world H; apply same_hooks_refl|].
  destruct args as [|force]; [by same_world H|].
  destruct (negb _); same_world H; apply resetcursor_hooks.
Qed.

Lemma next_row_hooks : related same_hooks next_row.
Proof.
  intros w r w' H. unfold next_row in H.
  set (w0 := set_status C_BEGIN w) in *.
  apply (same_hooks_from w w0); [done|]. clearbody w0.
  destruct (statement (cursor w0)) as [st|]; [|done].
  destruct (rowtrace (cursor w0)); [|same_world H; apply same_hooks_refl].
  eapply (related_bind_at same_hooks same_hooks_trans); [exact H|..].
  - intros a w1. apply dorowtrace_hooks.
  - intros a w1 r1 w2 H1. cbv beta in H1.
    destruct a as [| |o|items]; try destruct (is_Py_None _);
      same_world H1; apply same_hooks_refl.
Qed.

Lemma next_again_hooks fuel : related same_hooks (APSWCursor_next_again fuel).
Proof.
  induction fuel as [|fuel IH]; intros w r w' H; [done|].
  cbn [APSWCursor_next_again] in H.
  eapply (related_bind_at same_hooks same_hooks_trans); [exact H|..].
  - intros a w1 H1. destruct (status_eqb _ _).
    + exact (step_loop_hooks _ _ _ _ H1).
    + same_world H1. apply same_hooks_refl.
  - intros a w1 r1 w2 H1. cbv beta in H1.
    assert (Hgo :
      (if status_eqb (status (cursor w1)) C_DONE then Done RetNULL w1
       else call r0, w3 <- next_row w1 in
            match r0 with
            | inl ret => Done ret w3
            | inr _ => APSWCursor_next_again fuel w3
            end) = Done r1 w2 -> same_hooks w1 w2).
    { intros Hk.
      destruct (status_eqb (status (cursor w1)) C_DONE);
        [same_world Hk; apply same_hooks_refl|].
      eapply (related_bind_at same_hooks same_hooks_trans); [exact Hk|..].
      - intros b w3. apply next_row_hooks.
      - intros b w3 r3 w4 H3. cbv beta in H3.
        destruct b as [ret|[]]; [same_world H3; apply same_hooks_refl|].
        by eapply IH. }
    destruct a; try (by apply Hgo). same_world H1. apply same_hooks_refl.
Qed.

Lemma next_hooks fuel : related same_hooks (APSWCursor_next fuel).
Proof.
  intros w r w' H. unfold APSWCursor_next in H.
  destruct (checks_hooks w) as (Huse & Hclosed).
  destruct (CHECK_USE w) as [w0|]; [same_world H; by apply Huse|].
  destruct (CHECK_CLOSED w) as [w0|]; [same_world H; by apply Hclosed|].
  by eapply next_again_hooks.
Qed.

Lemma hooks_fields w db u f g :
  hooks w = (db, u, f, g) <->
  connection_db (cursor w) = db /\ inuse (cursor w) = u /\
  exectrace (cursor w) = f /\ rowtrace (cursor w) = g.
Proof.
  unfold hooks. split.
  - intros H. repeat split; congruence.
  - by intros (-> & -> & -> & ->).
Qed.

Lemma perform_hooks op w r w' :
  runs_statements op = true -> perform op w = Done r w' -> same_hooks w w'.
Proof.
  intros Hop H. unfold perform in H.
  apply (same_hooks_from w (set_pyerr None w)); [done|].
  destruct op; try discriminate Hop.
  - exact (execute_hooks _ _ _ _ H).
  - exact (executemany_hooks _ _ _ _ H).
  - exact (close_hooks _ _ _ _ H).
  - exact (next_hooks _ _ _ _ H).
Qed.

Lemma perform_all_hooks ops : forall w wn,
  forallb runs_statements ops = true ->
  perform_all ops w = Done () wn -> same_hooks w wn.
Proof.
  induction ops as [|op ops IH]; intros w wn Hops H.
  - injection H as <-. apply same_hooks_refl.
  - cbn [forallb] in Hops. apply andb_true_iff in Hops as [Hop Hops].
    cbn [perform_all] in H.
    destruct (perform op w) as [r w1| |] eqn:H1; try done. cbn [bindM] in H.
    eapply same_hooks_trans; [exact (perform_hooks _ _ _ _ Hop H1)|].
    by apply IH.
Qed.

(** X9.  [execute], [executemany], [next] and [close] never install,
    replace or remove a tracer, and they leave the connection and the
    in-use flag of the cursor as they are, however they end.  So a tracer
    stays until a setter is called again: after [setexectrace] and
    [setrowtrace], and any sequence of those four methods, [getexectrace]
    and [getrowtrace] return the very objects that were installed, and
    None when None was given to remove the tracer. *)
Theorem tracers_persist (w wn : World) (f : option exec_tracer)
  (g : option row_tracer) (ops : list operation) :
  inuse (cursor w) = false -> connection_db (cursor w) = true ->
  forallb runs_statements ops = true ->
  perform_all (Op_setexectrace (as_argument f)
                 :: Op_setrowtrace (as_argument g) :: ops) w = Done () wn ->
  hooks wn = (true, false, f, g) /\
  APSWCursor_getexectrace wn = Done (as_kept f) wn /\
  APSWCursor_getrowtrace wn = Done (as_kept g) wn.
Proof.
  intros Hu Hdb Hops H. cbn [perform_all] in H.
  unfold perform at 1 in H.
  unfold APSWCursor_setexectrace, CHECK_USE, CHECK_CLOSED in H.
  cbn [cursor set_pyerr] in H. rewrite Hu, Hdb in H.
  set (w1 := set_exectrace f (set_pyerr None w)).
  assert (H1 : perform_all (Op_setrowtrace (as_argument g) :: ops) w1
               = Done () wn).
  { destruct f; exact H. }
  clear H. cbn [perform_all] in H1. unfold perform at 1 in H1.
  unfold APSWCursor_setrowtrace, CHECK_USE, CHECK_CLOSED in H1.
  assert (Hw1 : hooks w1 = (true, false, f, rowtrace (cursor w))).
  { apply hooks_fields. subst w1. cbn. by rewrite Hu, Hdb. }
  apply hooks_fields in Hw1 as (Hdb1 & Hu1 & Hf1 & _). clearbody w1.
  change (cursor (set_pyerr None w1)) with (cursor w1) in H1.
  rewrite Hu1, Hdb1 in H1.
  set (w2 := set_rowtrace g (set_pyerr None w1)).
  assert (H2 : perform_all ops w2 = Done () wn).
  { destruct g; exact H1. }
  clear H1.
  assert (Hw2 : hooks w2 = (true, false, f, g)).
  { apply hooks_fields. subst w2. cbn. by rewrite Hu1, Hdb1, Hf1. }
  clearbody w2.
  pose proof (perform_all_hooks ops w2 wn Hops H2) as Hn.
  unfold same_hooks in Hn. rewrite Hw2 in Hn.
  split; [exact Hn|].
  apply hooks_fields in Hn as (Hdbn & Hun & Hfn & Hgn).
  unfold APSWCursor_getexectrace, APSWCursor_getrowtrace, CHECK_USE,
    CHECK_CLOSED, as_kept.
  by rewrite Hun, Hdbn, Hfn, Hgn.
Qed.

Lemma traced_session_runs :
  perform_all traced_session APSWCursor_init = Done () after_traced_session.
Proof. vm_compute. reflexivity. Qed.

Lemma tracers_persist_witness :
  hooks after_traced_session = (true, false, Some allow_all, Some skip_two) /\
  APSWCursor_getexectrace after_traced_session
  = Done (KeptObject allow_all) after_traced_session /\
  APSWCursor_getrowtrace after_traced_session
  = Done (KeptObject skip_two) after_traced_session.
Proof.
  apply (tracers_persist APSWCursor_init after_traced_session
           (Some allow_all) (Some skip_two)
           [Op_execute (Args [three_rows] []); Op_next 2;
            Op_close (CloseArgs None)]);
    [reflexivity|reflexivity|reflexivity|exact traced_session_runs].
Defined.

(** ** Every call returns *)

Lemma step_call_measure st w :
  statement (cursor w) = Some st ->
  step_measure (snd (step_call st w)) = step_measure w.
Proof.
  intros Hst. destruct (step_call_spec st w Hst) as (st1 & Hc & Hnext & _).
  unfold step_measure. rewrite Hc. simpl. rewrite Hst.
  destruct st, st1. simpl in *. by subst.
Qed.

(** A step that returns a row uses up one outcome of the program. *)
Lemma step_call_row st w :
  statement (cursor w) = Some st ->
  Z.land (fst (step_call st w)) 255 = SQLITE_ROW ->
  (rows_left (snd (step_call st w)) < rows_left w)%nat.
Proof.
  intros Hst Hrow. unfold step_call in *.
  destruct st as [[vd|] text rest]; cbn [vdbestatement] in *;
    [|vm_compute in Hrow; discriminate Hrow].
  cbn [fst snd] in *. unfold sqlite3_step in *. cbn [fst snd] in *.
  assert (Hlt : (v_pc vd < length (v_prog vd (v_bound vd)))%nat).
  { destruct (v_prog vd (v_bound vd) !! v_pc vd) eqn:Hlk.
    - by apply lookup_lt_Some in Hlk.
    - cbn in Hrow. vm_compute in Hrow. discriminate Hrow. }
  assert (Hleft : rows_left w = (length (v_prog vd (v_bound vd)) - v_pc vd)%nat).
  { unfold rows_left. by rewrite Hst. }
  rewrite Hleft.
  match goal with
  | |- (rows_left ?x < _)%nat =>
      assert (Hnew : rows_left x
                     = (length (v_prog vd (v_bound vd)) - S (v_pc vd))%nat)
  end.
  { unfold rows_left. destruct (so_raised _); [|done].
    by destruct (PyErr_Occurred _). }
  rewrite Hnew. lia.
Qed.

(** When the loop body leaves [step], it has failed or the state is
    [C_DONE]. *)
Lemma step_advance_returns w ret w' :
  step_advance w = Done (inl ret) w' ->
  ret = RetNULL \/ status (cursor w') = C_DONE.
Proof.
  unfold step_advance. intros H.
  set (wd := set_status C_DONE w) in *. clearbody wd.
  assert (Hnext : forall w1,
             step_next_statement w1 = Done (inl ret) w' -> ret = RetNULL).
  { intros w1 H1. unfold step_next_statement in H1.
    match type of H1 with bindM ?m _ = _ => destruct m as [res w2| |] end;
      try done.
    cbn [bindM] in H1. destruct (negb _); [by injection H1 as <- _|].
    destruct (step_bind_and_trace w2) as [[[]|[]] w3| |]; try done.
    by injection H1 as <- _. }
  destruct (statement (cursor wd)) as [st|]; [|done].
  destruct (has_next st); [left; by eapply Hnext|].
  assert (Hreset : forall w1,
             Done (@inl PyRet unit
                     (if fst (resetcursor 0 w1) =? SQLITE_OK
                      then RetSelf else RetNULL)) (snd (resetcursor 0 w1))
             = Done (inl ret) w' -> status (cursor w') = C_DONE).
  { intros w1 H1. assert (w' = snd (resetcursor 0 w1)) as -> by congruence.
    by destruct (resetcursor_fields 0 w1) as (_ & ? & _). }
  destruct (emiter (cursor wd)) as [it|]; [|right; by eapply Hreset].
  destruct (PyIter_Next it wd) as [[nxt it1] w1].
  destruct (PyErr_Occurred _); [left; by injection H as <- _|].
  destruct nxt as [a|]; [|right; by eapply Hreset].
  destruct (bindings _); [left; by eapply Hnext|].
  left. by injection H as <- _.
Qed.

(** What [step] has achieved when it returns with a row: it went on to a
    later statement, or the program of the statement has one outcome
    less. *)
Lemma step_loop_progress :
  forall (fuel : nat) (w : World) r w',
    cursor_inv w ->
    APSWCursor_step_loop fuel w = Done r w' ->
    r = RetNULL \/ status (cursor w') = C_DONE \/
    (status (cursor w') = C_ROW /\
     ((step_measure w' < step_measure w)%nat \/
      (step_measure w' = step_measure w /\
       (rows_left w' < rows_left w)%nat))).
Proof.
  induction fuel as [|fuel IH]; intros w r w' Hinv H; [done|].
  cbn [APSWCursor_step_loop] in H.
  destruct (statement (cursor w)) as [st|] eqn:Hst; [|done].
  destruct (step_call_spec st w Hst) as (st1 & Hc & Hnext & Hfin).
  pose proof (step_call_measure st w Hst) as Hm.
  pose proof (step_call_row st w Hst) as Hrows.
  set (res := fst (step_call st w)) in *.
  set (w1 := snd (step_call st w)) in *. clearbody res w1.
  destruct (Z.land res 255 =? SQLITE_ROW) eqn:Hrow.
  { apply Z.eqb_eq in Hrow. same_world H. right. right. split; [done|].
    right. split; [exact Hm|]. by apply Hrows. }
  destruct (Z.land res 255 =? SQLITE_DONE) eqn:Hdone; cbn [andb] in H.
  - apply Z.eqb_eq in Hdone.
    destruct (PyErr_Occurred w1); [left; by injection H as <- _|].
    assert (Hinv1 : cursor_inv w1).
    { eapply cursor_inv_set_statement; eauto. }
    assert (Hs1 : is_Some (statement (cursor w1))).
    { rewrite Hc. simpl. eauto. }
    destruct (step_advance_spec w1 Hinv1 Hs1) as (a & w2 & Ha & Hinv2 & Hr).
    rewrite Ha in H. cbn [bindM] in H. destruct a as [ret|[]].
    + assert (ret = r) as -> by congruence.
      assert (w' = w2) as -> by congruence.
      destruct (step_advance_returns _ _ _ Ha); auto.
    + destruct (Hr eq_refl) as (_ & Hm2).
      destruct (IH w2 r w' Hinv2 H) as [?|[?|(Hs & Hp)]]; auto.
      right. right. split; [done|]. left. lia.
  - left. destruct (PyErr_Occurred _); by injection H as <- _.
Qed.

Lemma next_row_again w w' :
  next_row w = Done (inr ()) w' -> cursor w' = cursor (set_status C_BEGIN w).
Proof.
  unfold next_row, APSWCursor_dorowtrace.
  set (w0 := set_status C_BEGIN w). clearbody w0. intros H.
  destruct (statement (cursor w0)); [|done].
  destruct (rowtrace (cursor w0)) as [t|]; [|done].
  destruct (t _) as [[| |o|items]|e]; cbn [bindM] in H; try done;
    try destruct (is_Py_None _); try done; by injection H as <-.
Qed.

(** The loop of [next] ends: by induction on the statements and elements
    left, and then on the rounds left within the statement. *)
Lemma next_again_terminates w :
  cursor_inv w ->
  exists fuel r w', APSWCursor_next_again fuel w = Done r w' /\ cursor_inv w'.
Proof.
  remember (step_measure w) as n1 eqn:Hn1. revert w Hn1.
  induction n1 as [n1 IH1] using lt_wf_ind. intros w Hn1.
  remember (rounds_left w) as n2 eqn:Hn2. revert w Hn1 Hn2.
  induction n2 as [n2 IH2] using lt_wf_ind. intros w -> -> Hinv.
  assert (Hstep : exists s w1,
    (if status_eqb (status (cursor w)) C_BEGIN
     then APSWCursor_step w else Done RetSelf w) = Done s w1 /\
    cursor_inv w1 /\
    (s = RetNULL \/ status (cursor w1) = C_DONE \/
     (status (cursor w1) = C_ROW /\
      ((step_measure w1 < step_measure w)%nat \/
       (step_measure w1 = step_measure w /\
        (2 * rows_left w1 < rounds_left w)%nat))))).
  { unfold rounds_left.
    destruct (status (cursor w)) eqn:Hs; cbn [status_eqb].
    - destruct (step_inv w Hinv) as (s & w1 & Hrun & Hinv1).
      { destruct (statement (cursor w)) eqn:Hst; [eauto|].
        destruct Hinv as (_ & Hb & _). specialize (Hb Hst). congruence. }
      exists s, w1. do 2 (split; [done|]).
      destruct (step_loop_progress _ _ _ _ Hinv Hrun)
        as [?|[?|(? & [?|(? & ?)])]]; auto.
      right. right. split; [done|]. right. split; [done|]. lia.
    - exists RetSelf, w. do 2 (split; [done|]).
      right. right. split; [done|]. right. split; [done|]. lia.
    - exists RetSelf, w. do 2 (split; [done|]). auto. }
  destruct Hstep as (s & w1 & Hrun & Hinv1 & Hcases).
  assert (Hrest : s <> RetNULL ->
    exists fuel r w',
      (if status_eqb (status (cursor w1)) C_DONE then Done RetNULL w1
       else call r0, w2 <- next_row w1 in
            match r0 with
            | inl ret => Done ret w2
            | inr _ => APSWCursor_next_again fuel w2
            end) = Done r w' /\ cursor_inv w').
  { intros Hs. destruct Hcases as [?|[Hd|(Hrow & Hless)]]; [done|..].
    - rewrite Hd. cbn [status_eqb]. by exists 0%nat, RetNULL, w1.
    - rewrite Hrow. cbn [status_eqb].
      destruct (next_row_inv w1 Hinv1) as (r0 & w2 & Hnr & Hinv2);
        [congruence|].
      rewrite Hnr. cbn [bindM]. destruct r0 as [ret|[]].
      + by exists 0%nat, ret, w2.
      + pose proof (next_row_again _ _ Hnr) as Hc.
        assert (Hm2 : step_measure w2 = step_measure w1).
        { unfold step_measure. by rewrite Hc. }
        assert (Hr2 : rounds_left w2 = (2 * rows_left w1)%nat).
        { unfold rounds_left, rows_left. rewrite Hc. cbn. lia. }
        destruct Hless as [Hlt|(Heq & Hlt)].
        * apply (IH1 (step_measure w2)); [lia|done|done].
        * apply (IH2 (rounds_left w2)); [lia|congruence|done|done]. }
  assert (Hs : s = RetNULL \/ s <> RetNULL) by (destruct s; auto).
  destruct Hs as [->|Hs].
  - exists 1%nat, RetNULL, w1. split; [|done].
    cbn [APSWCursor_next_again]. by rewrite Hrun.
  - destruct (Hrest Hs) as (fuel & r & w' & Hgo & Hinv').
    exists (S fuel), r, w'. split; [|done].
    cbn [APSWCursor_next_again]. rewrite Hrun. cbn [bindM].
    by destruct s.
Qed.

(** More fuel does not change what [next] returns. *)
Lemma next_again_more fuel : forall w r w' (k : nat),
  APSWCursor_next_again fuel w = Done r w' ->
  APSWCursor_next_again (fuel + k) w = Done r w'.
Proof.
  induction fuel as [|fuel IH]; intros w r w' k H; [done|].
  cbn [APSWCursor_next_again Nat.add] in *.
  match type of H with bindM ?m _ = _ => destruct m as [s w1| |] end;
    try done.
  cbn [bindM] in *.
  assert (Hgo :
    (if status_eqb (status (cursor w1)) C_DONE then Done RetNULL w1
     else call r0, w2 <- next_row w1 in
          match r0 with
          | inl ret => Done ret w2
          | inr _ => APSWCursor_next_again fuel w2
          end) = Done r w' ->
    (if status_eqb (status (cursor w1)) C_DONE then Done RetNULL w1
     else call r0, w2 <- next_row w1 in
          match r0 with
          | inl ret => Done ret w2
          | inr _ => APSWCursor_next_again (fuel + k) w2
          end) = Done r w').
  { destruct (status_eqb _ _); [done|].
    destruct (next_row w1) as [[ret|[]] w2| |]; cbn [bindM]; try done.
    apply IH. }
  destruct s; auto.
Qed.

(** X10.  In every state reached by calls of the methods, with callbacks
    that return without calling the cursor, statements that yield finitely
    many rows and executemany sources of finitely many elements, every
    method returns.  [execute], [executemany], [close] and the setters
    return whatever their arguments: nowhere is the statement pointer NULL
    when it is dereferenced, and the loop of [step] ends within the bound
    [step_fuel].  The loop of [next], which a row tracer that returns None
    sends back to [again:], ends as well: each round uses up an outcome of
    the statement's program, a statement of the batch or an element of the
    executemany source; and what [next] returns does not depend on the
    number of rounds allowed, above a bound. *)
Theorem every_call_returns (w : World) :
  reachable w ->
  (forall op, (forall fuel, op <> Op_next fuel) ->
              exists r w', perform op w = Done r w') /\
  (exists fuel r w',
      forall fuel' : nat, (fuel <= fuel')%nat ->
                          perform (Op_next fuel') w = Done r w').
Proof.
  intros Hreach. apply reachable_inv in Hreach.
  assert (Hinv0 : cursor_inv (set_pyerr None w)) by (by eapply cursor_inv_ext).
  split.
  - intros op Hop. unfold perform.
    set (w0 := set_pyerr None w) in *. clearbody w0.
    destruct op as [args|args|args|fuel|func|func|].
    + destruct (execute_inv args w0 Hinv0) as (r & w' & H & _). eauto.
    + destruct (executemany_inv args w0 Hinv0) as (r & w' & H & _). eauto.
    + destruct (close_inv args w0 Hinv0) as (r & w' & H & _). eauto.
    + by destruct (Hop fuel).
    + unfold APSWCursor_setexectrace.
      destruct (CHECK_USE w0); [eauto|]. destruct (CHECK_CLOSED w0); [eauto|].
      destruct func as [[name|f]|]; eauto.
    + unfold APSWCursor_setrowtrace.
      destruct (CHECK_USE w0); [eauto|]. destruct (CHECK_CLOSED w0); [eauto|].
      destruct func as [[name|f]|]; eauto.
    + eauto.
  - unfold perform, APSWCursor_next.
    set (w0 := set_pyerr None w) in *. clearbody w0.
    destruct (CHECK_USE w0) as [wx|]; [by exists 0%nat, RetNULL, wx|].
    destruct (CHECK_CLOSED w0) as [wx|]; [by exists 0%nat, RetNULL, wx|].
    destruct (next_again_terminates w0 Hinv0) as (fuel & r & w' & H & _).
    exists fuel, r, w'. intros fuel' Hle.
    replace fuel' with (fuel + (fuel' - fuel))%nat by lia.
    by apply next_again_more.
Qed.

Lemma tracing_rows_1_reachable : reachable tracing_rows_1.
Proof.
  apply (reachable_perform tracing_rows (Op_next 2)
           (RetTuple [PyLong 1; PyLong 1])).
  - apply (reachable_perform (set_rowtrace (Some skip_two) APSWCursor_init)
             (Op_execute (Args [three_rows] [])) RetSelf).
    + apply (reachable_perform APSWCursor_init
               (Op_setrowtrace (Some (inr skip_two))) (RetObject Py_None));
        [apply reachable_init|]. vm_compute. reflexivity.
    + vm_compute. reflexivity.
  - vm_compute. reflexivity.
Qed.

Lemma every_call_returns_witness :
  exists fuel r w',
    forall fuel' : nat, (fuel <= fuel')%nat ->
                        perform (Op_next fuel') tracing_rows_1 = Done r w'.
Proof.
  apply (every_call_returns tracing_rows_1). exact tracing_rows_1_reachable.
Defined.

(** ** A step that fails *)

(** A reset in state [C_DONE] looks neither at the rest of the batch nor
    at the executemany source: it hands the statement back, and raises the
    error of that call if there is one. *)
Lemma resetcursor_done w st :
  status (cursor w) = C_DONE -> statement (cursor w) = Some st ->
  pyerr w = None ->
  fst (resetcursor 0 w) = statementcache_finalize st /\
  log (snd (resetcursor 0 w)) = log w ++ [EvFinalize] /\
  pyerr (snd (resetcursor 0 w))
  = if statementcache_finalize st =? SQLITE_OK then None
    else Some (SQLiteError (statementcache_finalize st)).
Proof.
  intros Hs Hst Herr.
  unfold resetcursor, reset_finalize, reset_remaining_statements,
    reset_remaining_iterator, finalize_call.
  destruct w as [c e l]. destruct c as [db iu s stt b off it oq et rt].
  cbn in Hs, Hst, Herr. subst s stt e. cbn. unfold SET_EXC, PyErr_Occurred.
  cbn. destruct (statementcache_finalize st =? SQLITE_OK); by destruct it.
Qed.

(** X11.  When the engine answers a step with an error code (neither
    SQLITE_ROW nor SQLITE_DONE in its low byte, and not SQLITE_OK), [step]
    returns NULL after one round: the statement is handed back to the cache
    and the cursor is reset.  The exception is the one a user function left
    behind during the step, or else the engine's error for that code.
    Statements left in the batch and elements left in the executemany
    source are dropped without IncompleteExecutionError, and the source is
    not asked for an element. *)
Theorem step_error_resets (w : World) (st : APSWStatement) (vd : vdbe)
  (fuel : nat) :
  statement (cursor w) = Some st -> vdbestatement st = Some vd ->
  pyerr w = None ->
  let o := next_outcome vd in
  Z.land (so_rc o) 255 <> SQLITE_ROW -> Z.land (so_rc o) 255 <> SQLITE_DONE ->
  so_rc o <> SQLITE_OK ->
  exists w',
    APSWCursor_step_loop (S fuel) w = Done RetNULL w' /\
    cursor w' = reset_state (cursor w) /\
    log w' = log w ++ [EvStep (statement_sql st); EvFinalize] /\
    pyerr w' = Some (match so_raised o with
                     | Some e => e
                     | None => SQLiteError (so_rc o)
                     end).
Proof.
  intros Hst Hvd Herr o Hrow Hdone Hok.
  cbn [APSWCursor_step_loop]. rewrite Hst.
  unfold step_call. rewrite Hvd. unfold sqlite3_step. fold (next_outcome vd).
  fold o. cbn [fst snd].
  replace (Z.land (so_rc o) 255 =? SQLITE_ROW) with false
    by (symmetry; by apply Z.eqb_neq).
  replace (Z.land (so_rc o) 255 =? SQLITE_DONE) with false
    by (symmetry; by apply Z.eqb_neq).
  cbn [andb].
  set (st1 := {| vdbestatement :=
                   Some {| v_params := v_params vd; v_prog := v_prog vd;
                           v_bound := v_bound vd; v_pc := S (v_pc vd);
                           v_rc := so_rc o; v_row := so_row o |};
                 utf8 := utf8 st; next := next st |}).
  assert (Hfin : statementcache_finalize st1 = so_rc o).
  { unfold statementcache_finalize, sqlite3_reset_rc. cbn.
    replace (Z.land (so_rc o) 255 =? SQLITE_ROW) with false
      by (symmetry; by apply Z.eqb_neq).
    replace (Z.land (so_rc o) 255 =? SQLITE_DONE) with false
      by (symmetry; by apply Z.eqb_neq).
    by replace (so_rc o =? SQLITE_OK) with false
      by (symmetry; by apply Z.eqb_neq). }
  set (w1 := set_statement (Some st1) (emit (EvStep (statement_sql st)) w)).
  assert (Hw1 : reset_state (cursor w1) = reset_state (cursor w) /\
                log w1 = log w ++ [EvStep (statement_sql st)] /\
                pyerr w1 = None /\ statement (cursor w1) = Some st1).
  { subst w1. by destruct w as [[] ? ?]. }
  destruct Hw1 as (Hc1 & Hl1 & He1 & Hst1). clearbody w1.
  assert (Hp1 : PyErr_Occurred w1 = false)
    by (unfold PyErr_Occurred; by rewrite He1).
  rewrite Hp1.
  set (w2 := set_status C_DONE
               match so_raised o with
               | Some e => PyErr_Format e w1
               | None => w1
               end).
  assert (Hw2 : reset_state (cursor w2) = reset_state (cursor w) /\
                log w2 = log w ++ [EvStep (statement_sql st)] /\
                pyerr w2 = so_raised o /\ statement (cursor w2) = Some st1 /\
                status (cursor w2) = C_DONE).
  { subst w2. rewrite <- Hc1, <- Hl1.
    destruct (so_raised o); destruct w1 as [[] ? ?]; cbn in *; by subst. }
  destruct Hw2 as (Hc2 & Hl2 & He2 & Hst2 & Hs2). clearbody w2.
  assert (Hp2 : PyErr_Occurred w2
                = match so_raised o with Some _ => true | None => false end)
    by (unfold PyErr_Occurred; by rewrite He2).
  rewrite Hp2.
  destruct (so_raised o) as [e|].
  - eexists. split; [reflexivity|].
    rewrite resetcursor_cursor.
    destruct (resetcursor_forced_log 1 w2) as (Hl & He); [done|].
    rewrite Hl, He, Hst2, Hl2, <- app_assoc. by rewrite Hc2, He2.
  - eexists. split; [reflexivity|].
    rewrite resetcursor_cursor.
    destruct (resetcursor_done w2 st1 Hs2 Hst2 He2) as (_ & Hl & He).
    rewrite Hl, He, Hl2, Hfin, <- app_assoc.
    replace (so_rc o =? SQLITE_OK) with false
      by (symmetry; by apply Z.eqb_neq).
    by rewrite Hc2.
Qed.

Lemma step_error_resets_witness :
  exists w',
    APSWCursor_step_loop 1 busy_prepared = Done RetNULL w' /\
    cursor w' = reset_state (cursor busy_prepared) /\
    log w' = log busy_prepared ++ [EvStep "update t set x = 1"; EvFinalize] /\
    pyerr w' = Some (SQLiteError SQLITE_BUSY).
Proof.
  apply (step_error_resets busy_prepared (held_statement busy_prepared)
           {| v_params := []; v_prog := fun _ => [StepError SQLITE_BUSY];
              v_bound := []; v_pc := 0; v_rc := SQLITE_OK; v_row := [] |} 0);
    [reflexivity|reflexivity|reflexivity|done|done|done].
Defined.

(** ** Iterating over the rows of a statement *)

(** [next] when the step returns a row. *)
Lemma next_steps_to_row sql prog k row0 row w :
  iterating sql prog k C_BEGIN row0 w ->
  prog [] !! k = Some (StepRow row) ->
  exists w',
    perform (Op_next 1) w = Done (row_tuple row) w' /\
    iterating sql prog (S k) C_BEGIN row w' /\
    pyerr w' = None /\ log w' = log w ++ [EvStep sql].
Proof.
  intros (rc & b & off & oq & et & Hc) Hk.
  destruct w as [c e l]. cbn in Hc. subst c.
  unfold perform, APSWCursor_next, CHECK_USE, CHECK_CLOSED.
  cbn [set_pyerr cursor inuse connection_db APSWCursor_next_again status
         status_eqb].
  unfold APSWCursor_step, step_fuel.
  cbn [APSWCursor_step_loop cursor statement set_pyerr].
  unfold step_call, sqlite3_step. cbn [vdbestatement v_prog v_bound v_pc].
  rewrite Hk. cbn.
  eexists. split; [reflexivity|]. split; [|done].
  by exists SQLITE_ROW, b, off, oq, et.
Qed.

(** [next] when the step reports the end of the rows. *)
Lemma next_steps_to_done sql prog k row0 w :
  iterating sql prog k C_BEGIN row0 w ->
  default StepDone (prog [] !! k) = StepDone ->
  exists w',
    perform (Op_next 1) w = Done RetNULL w' /\
    idle w' /\ pyerr w' = None /\ log w' = log w ++ [EvStep sql; EvFinalize].
Proof.
  intros (rc & b & off & oq & et & Hc) Hk.
  destruct w as [c e l]. cbn in Hc. subst c.
  unfold perform, APSWCursor_next, CHECK_USE, CHECK_CLOSED.
  cbn [set_pyerr cursor inuse connection_db APSWCursor_next_again status
         status_eqb].
  unfold APSWCursor_step, step_fuel.
  cbn [APSWCursor_step_loop cursor statement set_pyerr].
  unfold step_call, sqlite3_step. cbn [vdbestatement v_prog v_bound v_pc].
  rewrite Hk. cbn.
  eexists. split; [reflexivity|]. split; [done|]. split; [done|].
  change (Z.land SQLITE_DONE 255 =? SQLITE_ROW) with false.
  change (Z.land SQLITE_DONE 255 =? SQLITE_DONE) with true.
  cbn. by rewrite <- ?app_assoc.
Qed.

(** [next] when a row is ready. *)
Lemma next_returns_ready sql prog k row w :
  iterating sql prog k C_ROW row w ->
  exists w',
    perform (Op_next 1) w = Done (row_tuple row) w' /\
    iterating sql prog k C_BEGIN row w' /\
    pyerr w' = None /\ log w' = log w.
Proof.
  intros (rc & b & off & oq & et & Hc).
  destruct w as [c e l]. cbn in Hc. subst c.
  eexists. split; [reflexivity|]. split; [|done].
  by exists rc, b, off, oq, et.
Qed.

(** The calls of [next] from a statement that has rows left. *)
Lemma fetch_rows sql prog :
  forall (rows : list (list SqlValue)) rest (k : nat) row0 (w : World),
    iterating sql prog k C_BEGIN row0 w ->
    drop k (prog []) = (StepRow <$> rows) ++ StepDone :: rest ->
    exists w',
      fetch (S (length rows)) w = Done ((row_tuple <$> rows) ++ [RetNULL]) w' /\
      idle w' /\ pyerr w' = None /\
      log w' = log w ++ replicate (S (length rows)) (EvStep sql) ++ [EvFinalize].
Proof.
  induction rows as [|row rows IH]; intros rest k row0 w Hit Hdrop.
  - assert (Hk : prog [] !! k = Some StepDone).
    { rewrite <- (Nat.add_0_r k), <- lookup_drop, Hdrop. done. }
    destruct (next_steps_to_done sql prog k row0 w Hit) as (w' & Hn & Hi & He & Hl).
    { by rewrite Hk. }
    exists w'. cbn [fetch length]. rewrite Hn. cbn [bindM].
    split; [done|]. split; [done|]. split; [done|]. exact Hl.
  - assert (Hk : prog [] !! k = Some (StepRow row)).
    { rewrite <- (Nat.add_0_r k), <- lookup_drop, Hdrop. done. }
    destruct (next_steps_to_row sql prog k row0 row w Hit Hk)
      as (w1 & Hn & Hit1 & He1 & Hl1).
    destruct (IH rest (S k) row w1 Hit1) as (w' & Hf & Hi & He & Hl).
    { rewrite (drop_S _ _ _ Hk) in Hdrop. by injection Hdrop as ->. }
    exists w'. cbn [fetch length]. rewrite Hn. cbn [bindM].
    cbn [fetch] in Hf. rewrite Hf. cbn [bindM].
    split; [done|]. split; [done|]. split; [done|].
    rewrite Hl, Hl1, <- app_assoc. done.
Qed.

(** A reset of a cursor that has nothing in progress. *)
Lemma resetcursor_nothing w :
  statement (cursor w) = None -> emiter (cursor w) = None ->
  resetcursor 0 w = (SQLITE_OK, set_cursor (reset_state (cursor w)) w).
Proof.
  intros Hst Hit.
  destruct w as [c e l]. destruct c as [db iu s stt b off it oq et rt].
  cbn in Hst, Hit. subst. by destruct stt.
Qed.

(** Without parameters, bindings and tracer, [execute] goes straight from
    the prepared statement to [step]. *)
Lemma execute_bind_trace_step_plain w st :
  statement (cursor w) = Some st ->
  sqlite3_bind_parameter_count (vdbestatement st) = 0 ->
  bindings (cursor w) = None -> exectrace (cursor w) = None ->
  execute_bind_trace_step w
  = APSWCursor_step (set_status C_BEGIN (set_bindingsoffset 0 w)).
Proof.
  intros Hst Hn Hb Ht. unfold execute_bind_trace_step, APSWCursor_dobindings.
  cbn [set_bindingsoffset set_cursor cursor statement bindings exectrace].
  rewrite Hst, Hn, Hb, Ht.
  change ((0 =? 0) && negb false) with true. cbv iota. cbn [bindM].
  change (negb (0 =? 0)) with false. cbv iota.
  cbn [set_bindingsoffset set_cursor cursor exectrace]. rewrite Ht.
  reflexivity.
Qed.

(** [step] on the statement, when the engine has a row and when it has
    none. *)
Lemma step_to_row sql prog k row0 row w :
  iterating sql prog k C_BEGIN row0 w -> pyerr w = None ->
  prog [] !! k = Some (StepRow row) ->
  exists w',
    APSWCursor_step w = Done RetSelf w' /\
    iterating sql prog (S k) C_ROW row w' /\
    pyerr w' = None /\ log w' = log w ++ [EvStep sql].
Proof.
  intros (rc & b & off & oq & et & Hc) He Hk.
  destruct w as [c e l]. cbn in Hc, He. subst c e.
  unfold APSWCursor_step, step_fuel.
  cbn [APSWCursor_step_loop cursor statement].
  unfold step_call, sqlite3_step. cbn [vdbestatement v_prog v_bound v_pc].
  rewrite Hk. cbn.
  eexists. split; [reflexivity|]. split; [|done].
  by exists SQLITE_ROW, b, off, oq, et.
Qed.

Lemma step_to_done sql prog k row0 w :
  iterating sql prog k C_BEGIN row0 w -> pyerr w = None ->
  default StepDone (prog [] !! k) = StepDone ->
  exists w',
    APSWCursor_step w = Done RetSelf w' /\
    idle w' /\ connection_db (cursor w') = true /\ emiter (cursor w') = None /\
    rowtrace (cursor w') = None /\
    pyerr w' = None /\ log w' = log w ++ [EvStep sql; EvFinalize].
Proof.
  intros (rc & b & off & oq & et & Hc) He Hk.
  destruct w as [c e l]. cbn in Hc, He. subst c e.
  unfold APSWCursor_step, step_fuel.
  cbn [APSWCursor_step_loop cursor statement].
  unfold step_call, sqlite3_step. cbn [vdbestatement v_prog v_bound v_pc].
  rewrite Hk. cbn.
  eexists. split; [reflexivity|]. do 5 (split; [done|]).
  change (Z.land SQLITE_DONE 255 =? SQLITE_ROW) with false.
  change (Z.land SQLITE_DONE 255 =? SQLITE_DONE) with true.
  cbn. by rewrite <- ?app_assoc.
Qed.

(** [execute(sql)] on a cursor that has nothing in progress and no tracer
    comes to [step] with the statement prepared. *)
Lemma execute_one_statement sql prog w :
  inuse (cursor w) = false -> connection_db (cursor w) = true ->
  statement (cursor w) = None -> emiter (cursor w) = None ->
  exectrace (cursor w) = None -> rowtrace (cursor w) = None ->
  exists wb,
    perform (Op_execute (Args (one_statement sql prog) [])) w
    = APSWCursor_step wb /\
    iterating sql prog 0 C_BEGIN [] wb /\ pyerr wb = None /\
    log wb = log w ++ [EvPrepare sql true].
Proof.
  intros Hu Hdb Hst Hit Het Hrt.
  unfold perform, APSWCursor_execute, CHECK_USE, CHECK_CLOSED.
  change (cursor (set_pyerr None w)) with (cursor w). rewrite Hu, Hdb.
  rewrite (resetcursor_nothing (set_pyerr None w)) by done.
  cbn [fst snd]. change (negb (SQLITE_OK =? SQLITE_OK)) with false.
  cbv iota.
  set (wr := set_cursor (reset_state (cursor (set_pyerr None w)))
               (set_pyerr None w)).
  assert (Hwr : cursor wr = reset_state (cursor w) /\ pyerr wr = None /\
                log wr = log w) by done.
  destruct Hwr as (Hcr & Her & Hlr). clearbody wr.
  set (st0 := {| vdbestatement :=
                   Some {| v_params := []; v_prog := prog; v_bound := [];
                           v_pc := 0; v_rc := SQLITE_OK; v_row := [] |};
                 utf8 := one_statement sql prog; next := None |}).
  change (prepare_call (one_statement sql prog) wr)
    with (set_statement (Some st0) (emit (EvPrepare sql true) wr)).
  set (w3 := set_statement (Some st0) (emit (EvPrepare sql true) wr)).
  assert (Hs3 : statement (cursor w3) = Some st0) by done.
  rewrite Hs3.
  rewrite (execute_bind_trace_step_plain w3 st0 Hs3);
    [|done|subst w3; cbn; by rewrite Hcr..].
  eexists. split; [reflexivity|].
  split; [|split; [exact Her|subst w3; cbn; by rewrite Hlr]].
  exists SQLITE_OK, None, 0, None, None. subst w3. cbn. rewrite Hcr. cbn.
  by rewrite Hu, Hdb, Het, Hrt.
Qed.

(** [next] on a cursor that has nothing left to run. *)
Lemma next_at_end w :
  idle w -> connection_db (cursor w) = true ->
  perform (Op_next 1) w = Done RetNULL (set_pyerr None w).
Proof.
  intros (Hu & _ & Hs & _) Hdb.
  unfold perform, APSWCursor_next, CHECK_USE, CHECK_CLOSED.
  change (cursor (set_pyerr None w)) with (cursor w). rewrite Hu, Hdb.
  cbn [APSWCursor_next_again].
  change (cursor (set_pyerr None w)) with (cursor w). rewrite Hs.
  cbn [status_eqb bindM].
  change (cursor (set_pyerr None w)) with (cursor w). by rewrite Hs.
Qed.

(** X12.  On a cursor with nothing in progress and no tracer,
    [execute(sql)] of one statement without parameters followed by calls
    of [next] yields the rows of the statement, each exactly once and in
    the order in which the engine produces them, every row as the tuple of
    its converted columns; the call after the last row returns NULL with
    no exception pending, which ends the iteration.  The statement is
    prepared once, stepped once for each row and once more, and handed
    back once; the cursor is idle afterwards. *)
Theorem iteration_yields_rows (w : World) (sql : string)
  (prog : list SqlValue -> list step_outcome)
  (rows : list (list SqlValue)) (rest : list step_outcome) :
  inuse (cursor w) = false -> connection_db (cursor w) = true ->
  statement (cursor w) = None -> emiter (cursor w) = None ->
  exectrace (cursor w) = None -> rowtrace (cursor w) = None ->
  prog [] = (StepRow <$> rows) ++ StepDone :: rest ->
  exists w1 w2,
    perform (Op_execute (Args (one_statement sql prog) [])) w
    = Done RetSelf w1 /\
    fetch (S (length rows)) w1
    = Done ((row_tuple <$> rows) ++ [RetNULL]) w2 /\
    idle w2 /\ pyerr w2 = None /\
    log w2 = log w ++ EvPrepare sql true
                   :: replicate (S (length rows)) (EvStep sql)
                   ++ [EvFinalize].
Proof.
  intros Hu Hdb Hst Hit Het Hrt Hprog.
  destruct (execute_one_statement sql prog w Hu Hdb Hst Hit Het Hrt)
    as (wb & Hex & Hitb & Heb & Hlb).
  rewrite Hex. destruct rows as [|row rows].
  - destruct (step_to_done sql prog 0 [] wb Hitb Heb)
      as (w1 & Hstep & Hi & Hdb1 & _ & _ & He1 & Hl1).
    { by rewrite Hprog. }
    exists w1, (set_pyerr None w1). split; [exact Hstep|].
    cbn [fetch length]. rewrite (next_at_end w1 Hi Hdb1). cbn [bindM].
    split; [done|]. split; [exact Hi|]. split; [done|].
    cbn. by rewrite Hl1, Hlb, <- app_assoc.
  - destruct (step_to_row sql prog 0 [] row wb Hitb Heb)
      as (w1 & Hstep & Hit1 & He1 & Hl1).
    { by rewrite Hprog. }
    destruct (next_returns_ready sql prog 1 row w1 Hit1)
      as (w1' & Hn & Hit1' & He1' & Hl1').
    destruct (fetch_rows sql prog rows rest 1 row w1' Hit1')
      as (w2 & Hf & Hi & He & Hl).
    { by rewrite Hprog. }
    exists w1, w2. split; [exact Hstep|].
    change (fetch (S (length (row :: rows))) w1)
      with (call r, wx <- perform (Op_next 1) w1 in
            call rs, wy <- fetch (S (length rows)) wx in
            Done (r :: rs) wy).
    rewrite Hn. cbn [bindM]. rewrite Hf. cbn [bindM].
    split; [done|]. split; [exact Hi|]. split; [exact He|].
    rewrite Hl, Hl1', Hl1, Hlb, <- !app_assoc. done.
Qed.

Lemma iteration_yields_rows_witness :
  exists w1 w2,
    perform (Op_execute (Args [three_rows] [])) APSWCursor_init
    = Done RetSelf w1 /\
    fetch 4 w1
    = Done [RetTuple [PyLong 1]; RetTuple [PyLong 2]; RetTuple [PyLong 3];
            RetNULL] w2 /\
    idle w2 /\ pyerr w2 = None /\
    log w2 = [EvPrepare "select x from t" true;
              EvStep "select x from t"; EvStep "select x from t";
              EvStep "select x from t"; EvStep "select x from t";
              EvFinalize].
Proof.
  exact (iteration_yields_rows APSWCursor_init "select x from t"
           (fun _ => [StepRow [SqlInteger 1]; StepRow [SqlInteger 2];
                      StepRow [SqlInteger 3]; StepDone])
           [[SqlInteger 1]; [SqlInteger 2]; [SqlInteger 3]] []
           eq_refl eq_refl eq_refl eq_refl eq_refl eq_refl eq_refl).
Defined.

(** ** The contract of the value binder *)

(** The engine's answer to a bind call does not depend on the value. *)
Lemma bind_rc_any w arg v v' : bind_rc w arg v = bind_rc w arg v'.
Proof.
  unfold bind_rc, sqlite3_bind. destruct (statement (cursor w)) as [st|]; [|done].
  destruct (vdbestatement st) as [vd|]; [|done].
  destruct (0 <? v_pc vd)%nat; [done|]. by destruct (_ && _).
Qed.

(** X13.  The value binder, called with no exception pending on a cursor
    that holds a statement, returns 0 or -1 and calls the engine at most
    once.  It returns 0 exactly when no exception is pending afterwards,
    and exactly when the object has a value the engine can take and the
    engine accepts the call; the parameter then holds that value.  It
    returns -1 without having called the engine only for an object that
    has no such value. *)
Theorem dobinding_contract (arg : Z) (obj : PyObject) (w : World)
  (st : APSWStatement) :
  statement (cursor w) = Some st -> pyerr w = None ->
  exists r w',
    APSWCursor_dobinding arg obj w = Done r w' /\
    (r = 0 \/ r = -1) /\
    (r = 0 <-> pyerr w' = None) /\
    (r = 0 <->
     exists v, engine_value obj = Some v /\ bind_rc w arg v = SQLITE_OK) /\
    (r = 0 -> exists v, engine_value obj = Some v /\ bound_at arg v w w') /\
    ((log w' = log w /\ cursor w' = cursor w /\ engine_value obj = None) \/
     exists v, bound_at arg v w w').
Proof.
  intros Hst Herr.
  destruct (dobinding_cases arg obj w st Hst Herr) as (r & w' & Hrun & Hcase).
  exists r, w'. split; [exact Hrun|].
  destruct Hcase as [w' v Hv Hb Hrc He|w' e Hv Hc Hl He|w' v e Hb Hwhy He].
  - split; [by left|]. split; [done|]. split; [|eauto 10].
    split; [eauto|done].
  - split; [by right|]. split; [by rewrite He|]. split; [|split; [done|auto]].
    split; [done|]. intros (v & Hv' & _). congruence.
  - split; [by right|]. split; [by rewrite He|]. split; [|split; [done|eauto]].
    split; [done|]. intros (v' & Hv' & Hrc).
    destruct Hwhy as [Hne|Hnone]; [|congruence].
    by rewrite (bind_rc_any w arg v v') in Hne.
Qed.

Lemma dobinding_contract_witness :
  exists r w',
    APSWCursor_dobinding 1 (PyFloat 4611686018427387904) first_of_two
    = Done r w' /\
    (r = 0 \/ r = -1) /\
    (r = 0 <-> pyerr w' = None) /\
    (r = 0 <->
     exists v, engine_value (PyFloat 4611686018427387904) = Some v /\
               bind_rc first_of_two 1 v = SQLITE_OK) /\
    (r = 0 ->
     exists v, engine_value (PyFloat 4611686018427387904) = Some v /\
               bound_at 1 v first_of_two w') /\
    ((log w' = log first_of_two /\ cursor w' = cursor first_of_two /\
      engine_value (PyFloat 4611686018427387904) = None) \/
     exists v, bound_at 1 v first_of_two w').
Proof.
  apply (dobinding_contract 1 (PyFloat 4611686018427387904) first_of_two
           (held_statement first_of_two)); reflexivity.
Defined.

(** ** [executemany] on a statement that returns no row *)

(** Setting the statement overrides an earlier setting. *)
Lemma set_statement_twice s s' w w1 :
  cursor w1 = cursor (set_statement s w) ->
  cursor (set_statement s' w1) = cursor (set_statement s' w).
Proof. intros H. unfold set_statement, set_cursor. cbn. by rewrite H. Qed.

(** Binding a sequence to a statement that has not been stepped: every
    value the binder accepts is taken by the engine, and the parameters
    hold the values afterwards. *)
Lemma dobindings_seq_bound items :
  forall (todo k : nat) (w : World) (st : APSWStatement) (vd : vdbe) vals,
    statement (cursor w) = Some st -> vdbestatement st = Some vd ->
    v_pc vd = 0%nat -> pyerr w = None ->
    bindings (cursor w) = Some (BSeq items) ->
    0 <= bindingsoffset (cursor w) ->
    (k + todo <= length (v_params vd))%nat ->
    length (v_bound vd) = length (v_params vd) ->
    Forall2 (fun x y => engine_value x = Some y)
            (take todo (drop (k + Z.to_nat (bindingsoffset (cursor w))) items))
            vals ->
    length vals = todo ->
    exists w',
      dobindings_seq (Z.of_nat k + 1) todo w = Done 0 w' /\
      pyerr w' = None /\
      log w' = log w ++ bind_events (Z.of_nat k + 1) vals /\
      cursor w'
      = cursor (set_statement
                  (Some {| vdbestatement :=
                             Some {| v_params := v_params vd;
                                     v_prog := v_prog vd;
                                     v_bound :=
                                       take k (v_bound vd) ++ vals
                                         ++ drop (k + todo) (v_bound vd);
                                     v_pc := v_pc vd; v_rc := v_rc vd;
                                     v_row := v_row vd |};
                           utf8 := utf8 st; next := next st |}) w).
Proof.
  induction todo as [|todo IH];
    intros k w st vd vals Hst Hvd Hpc Herr Hb Hoff Hk Hlen Hvals Hn.
  - destruct vals; [|done]. exists w. split; [done|]. split; [done|].
    split; [by rewrite app_nil_r|].
    rewrite Nat.add_0_r. cbn [app]. rewrite take_drop.
    destruct w as [c e l]. destruct c. cbn in Hst. subst.
    destruct st as [v u nx]. cbn in Hvd. subst v. by destruct vd.
  - set (j := (k + Z.to_nat (bindingsoffset (cursor w)))%nat) in *.
    destruct (items !! j) as [obj|] eqn:Hobj.
    2:{ rewrite (drop_ge items j) in Hvals
          by (by apply lookup_ge_None_1).
        rewrite take_nil in Hvals. apply Forall2_nil_inv_l in Hvals.
        by subst vals. }
    rewrite (drop_S _ _ _ Hobj) in Hvals. cbn [take] in Hvals.
    apply Forall2_cons_inv_l in Hvals as (v & vals' & Hv & Hvals & ->).
    cbn [dobindings_seq]. unfold PySequence_Fast_GET_ITEM. rewrite Hb.
    replace (Z.of_nat k + 1 - 1 + bindingsoffset (cursor w) <? 0) with false
      by (symmetry; apply Z.ltb_ge; lia).
    replace (Z.to_nat (Z.of_nat k + 1 - 1 + bindingsoffset (cursor w)))
      with j by (subst j; lia).
    rewrite Hobj.
    assert (Hrc : forall x, bind_rc w (Z.of_nat k + 1) x = SQLITE_OK).
    { intros x. unfold bind_rc. rewrite Hst, Hvd.
      rewrite sqlite3_bind_fresh by (done || lia). done. }
    destruct (dobinding_cases (Z.of_nat k + 1) obj w st Hst Herr)
      as (r & w1 & Hrun & Hcase).
    rewrite Hrun. cbn [bindM].
    destruct Hcase as [w1 v0 Hv0 Hbound _ He1|w1 e Hnone _ _ _|w1 v0 e _ Hwhy _];
      [|congruence|destruct Hwhy as [Hne|Hnone]; [by rewrite Hrc in Hne|congruence]].
    assert (v0 = v) as -> by congruence.
    change (0 =? 0) with true. cbv iota.
    destruct Hbound as (st0 & Hst0 & Hc1 & Hl1).
    assert (st0 = st) as -> by congruence.
    rewrite Hvd, sqlite3_bind_fresh in Hc1 by (done || lia). cbn [snd] in Hc1.
    set (vd1 := {| v_params := v_params vd; v_prog := v_prog vd;
                   v_bound := <[k:=v]> (v_bound vd); v_pc := v_pc vd;
                   v_rc := v_rc vd; v_row := v_row vd |}) in *.
    set (st1 := {| vdbestatement := Some vd1; utf8 := utf8 st;
                   next := next st |}) in *.
    assert (Hfields : statement (cursor w1) = Some st1 /\
                      bindings (cursor w1) = bindings (cursor w) /\
                      bindingsoffset (cursor w1) = bindingsoffset (cursor w)).
    { by rewrite Hc1. }
    destruct Hfields as (Hst1 & Hb1 & Ho1).
    destruct (IH (S k) w1 st1 vd1 vals') as (w' & Hrun' & He' & Hl' & Hc');
      try done.
    + by rewrite Hb1.
    + by rewrite Ho1.
    + cbn. lia.
    + cbn. by rewrite length_insert.
    + rewrite Ho1. by replace (S k + Z.to_nat (bindingsoffset (cursor w)))%nat
        with (S j) by (subst j; lia).
    + by injection Hn.
    + exists w'.
      replace (Z.of_nat k + 1 + 1) with (Z.of_nat (S k) + 1) by lia.
      split; [exact Hrun'|]. split; [exact He'|]. split.
      * rewrite Hl', Hl1, <- app_assoc. cbn [bind_events app].
        by replace (Z.of_nat k + 1 + 1) with (Z.of_nat (S k) + 1) by lia.
      * rewrite Hc'. rewrite (set_statement_twice _ _ _ _ Hc1).
        subst st1 vd1. cbn [v_params v_prog v_bound v_pc v_rc v_row utf8 next].
        assert (Hkl : (k < length (v_bound vd))%nat) by lia.
        rewrite (take_S_r (<[k:=v]> (v_bound vd)) k v)
          by (by apply list_lookup_insert_eq).
        rewrite take_insert_ge by lia.
        rewrite drop_insert_lt by lia.
        replace (S k + todo)%nat with (k + S todo)%nat by lia.
        by rewrite <- app_assoc.
Qed.

(** The resolver on a prepared statement and a sequence that gives one
    value to each of its parameters. *)
Lemma dobindings_all_bound w st vd items vals :
  statement (cursor w) = Some st -> vdbestatement st = Some vd ->
  next st = None -> v_pc vd = 0%nat -> pyerr w = None ->
  bindings (cursor w) = Some (BSeq items) -> bindingsoffset (cursor w) = 0 ->
  length items = length (v_params vd) ->
  Z.of_nat (length items) <= 2147483647 ->
  length (v_bound vd) = length (v_params vd) ->
  mapM engine_value items = Some vals ->
  exists w',
    APSWCursor_dobindings w = Done 0 w' /\
    pyerr w' = None /\
    log w' = log w ++ bind_events 1 vals /\
    cursor w'
    = cursor (set_bindingsoffset (Z.of_nat (length items))
                (set_statement
                   (Some {| vdbestatement :=
                              Some {| v_params := v_params vd;
                                      v_prog := v_prog vd; v_bound := vals;
                                      v_pc := v_pc vd; v_rc := v_rc vd;
                                      v_row := v_row vd |};
                            utf8 := utf8 st; next := next st |}) w)).
Proof.
  intros Hst Hvd Hnext Hpc Herr Hb Hoff Hlen Hmax Hbl Hvals.
  apply mapM_Some_1 in Hvals.
  pose proof (Forall2_length _ _ _ Hvals) as Hlv.
  assert (H0 : 0 <= bindingsoffset (cursor w)) by (by rewrite Hoff).
  assert (Hfit : (0 + length items <= length (v_params vd))%nat) by lia.
  assert (Hobjs : Forall2 (fun x y => engine_value x = Some y)
                    (take (length items)
                       (drop (0 + Z.to_nat (bindingsoffset (cursor w))) items))
                    vals).
  { rewrite Hoff. change (0 + Z.to_nat 0)%nat with 0%nat.
    by rewrite drop_0, firstn_all. }
  destruct (dobindings_seq_bound items (length items) 0 w st vd vals
              Hst Hvd Hpc Herr Hb H0 Hfit Hbl Hobjs (eq_sym Hlv))
    as (w1 & Hrun & He1 & Hl1 & Hc1).
  unfold APSWCursor_dobindings. rewrite Hst, Hb, Hvd.
  cbn [sqlite3_bind_parameter_count]. rewrite !andb_false_r.
  unfold has_next. rewrite Hnext. cbn [andb negb].
  rewrite to_int_small by lia. rewrite Hoff, <- Hlen, Z.sub_0_r, Z.eqb_refl.
  cbn [negb]. rewrite Nat2Z.id.
  change 1 with (Z.of_nat 0 + 1) at 1. rewrite Hrun. cbn [bindM].
  change (0 =? 0) with true. cbv iota.
  eexists. split; [reflexivity|]. split; [exact He1|]. split; [exact Hl1|].
  cbn [set_bindingsoffset set_cursor cursor]. rewrite Hc1.
  cbn. rewrite Hoff. cbn.
  rewrite drop_ge by lia. rewrite app_nil_r, ?Z.add_0_l. cbn [take app].
  by rewrite ?Hnext.
Qed.

(** The rounds of [step], one equation at a time. *)

(** A step that reports the end of the rows, with no exception left
    behind, leads on to [step_advance]. *)
Lemma step_loop_done fuel w st vd :
  statement (cursor w) = Some st -> vdbestatement st = Some vd ->
  default StepDone (v_prog vd (v_bound vd) !! v_pc vd) = StepDone ->
  pyerr w = None ->
  APSWCursor_step_loop (S fuel) w
  = call r, w2 <-
      step_advance
        (set_statement
           (Some {| vdbestatement :=
                      Some {| v_params := v_params vd; v_prog := v_prog vd;
                              v_bound := v_bound vd; v_pc := S (v_pc vd);
                              v_rc := SQLITE_DONE; v_row := [] |};
                    utf8 := utf8 st; next := next st |})
           (emit (EvStep (statement_sql st)) w)) in
    match r with
    | inl ret => Done ret w2
    | inr _ => APSWCursor_step_loop fuel w2
    end.
Proof.
  intros Hst Hvd Hno Herr. cbn [APSWCursor_step_loop]. rewrite Hst.
  unfold step_call. rewrite Hvd. unfold sqlite3_step. rewrite Hno.
  cbn [fst snd StepDone so_rc so_raised so_row].
  change (Z.land SQLITE_DONE 255 =? SQLITE_ROW) with false.
  change (Z.land SQLITE_DONE 255 =? SQLITE_DONE) with true.
  cbn [andb]. unfold PyErr_Occurred at 1.
  cbn [pyerr set_statement set_cursor emit]. rewrite Herr. reflexivity.
Qed.

(** In executemany mode, when the source has another element: the
    statement is handed back and the element becomes the bindings. *)
Lemma step_advance_next_element w st items it :
  statement (cursor w) = Some st -> next st = None ->
  emiter (cursor w) = Some (element items :: it) -> pyerr w = None ->
  step_advance w
  = step_next_statement
      (set_bindings (Some (BSeq items))
         (set_bindingsoffset 0
            (set_bindings None
               (set_statement None
                  (emit EvFinalize
                     (set_emiter (Some it)
                        (emit EvIterNext (set_status C_DONE w)))))))).
Proof.
  intros Hst Hnext Hit Herr. unfold step_advance.
  cbn [set_status set_cursor cursor statement emiter]. rewrite Hst, Hit.
  unfold has_next. rewrite Hnext. unfold element, PyIter_Next.
  unfold PyErr_Occurred.
  cbn [pyerr set_emiter set_cursor emit set_status]. rewrite Herr.
  reflexivity.
Qed.

(** At the end of the source the cursor is reset. *)
Lemma step_advance_source_end w st :
  statement (cursor w) = Some st -> next st = None ->
  emiter (cursor w) = Some [] -> pyerr w = None ->
  step_advance w
  = let r := resetcursor 0
               (set_emiter (Some [])
                  (emit EvIterNext (set_status C_DONE w))) in
    Done (inl (if fst r =? SQLITE_OK then RetSelf else RetNULL)) (snd r).
Proof.
  intros Hst Hnext Hit Herr. unfold step_advance.
  cbn [set_status set_cursor cursor statement emiter]. rewrite Hst, Hit.
  unfold has_next. rewrite Hnext. unfold PyIter_Next.
  rewrite clear_StopIteration_none by exact Herr.
  unfold PyErr_Occurred.
  cbn [pyerr set_emiter set_cursor emit set_status]. rewrite Herr.
  reflexivity.
Qed.

(** The original text is prepared again. *)
Lemma step_next_statement_many sql params prog w :
  statement (cursor w) = None ->
  emoriginalquery (cursor w) = Some (many_statement sql params prog) ->
  step_next_statement w
  = call r, w2 <-
      step_bind_and_trace
        (prepare_call (many_statement sql params prog) w) in
    match r with
    | inl _ => Done (inl RetNULL) w2
    | inr _ => Done (inr ()) w2
    end.
Proof.
  intros Hst Hq. unfold step_next_statement. rewrite Hst, Hq.
  cbn [bindM].
  change (prepare_call (many_statement sql params prog) w)
    with (set_statement
            (Some {| vdbestatement :=
                       Some {| v_params := params; v_prog := prog;
                               v_bound := replicate (length params) SqlNull;
                               v_pc := 0; v_rc := SQLITE_OK; v_row := [] |};
                     utf8 := many_statement sql params prog; next := None |})
            (emit (EvPrepare sql true) w)).
  cbn [statement cursor set_statement set_cursor].
  change (negb (SQLITE_OK =? SQLITE_OK)) with false. reflexivity.
Qed.

(** Without an execution tracer, a statement that is bound goes on to be
    stepped. *)
Lemma step_bind_and_trace_bound w w1 :
  APSWCursor_dobindings w = Done 0 w1 -> exectrace (cursor w1) = None ->
  step_bind_and_trace w = Done (inr ()) (set_status C_BEGIN w1).
Proof.
  intros Hrun Ht. unfold step_bind_and_trace. rewrite Hrun. cbn [bindM].
  change (negb (0 =? 0)) with false. cbv iota. by rewrite Ht.
Qed.

Lemma execute_bind_trace_step_bound w w1 :
  exectrace (cursor w) = None ->
  APSWCursor_dobindings (set_bindingsoffset 0 w) = Done 0 w1 ->
  exectrace (cursor w1) = None ->
  execute_bind_trace_step w = APSWCursor_step (set_status C_BEGIN w1).
Proof.
  intros Ht Hrun Ht1. unfold execute_bind_trace_step. rewrite Hrun.
  cbn [bindM]. change (negb (0 =? 0)) with false. cbv iota.
  rewrite Ht1. cbn [bindM]. reflexivity.
Qed.

(** One round of [step] in [executemany], up to the resolver: the statement
    is done, the source has another element, the statement is handed back
    and prepared again. *)
Lemma step_many_restart sql params prog items it bound fuel w :
  many_ready sql params prog (element items :: it) bound w ->
  yields_nothing prog bound ->
  exists w3 db rt,
    APSWCursor_step_loop (S fuel) w
    = (call r, w2 <- (call r, w2 <- step_bind_and_trace w3 in
                      match r with
                      | inl _ => Done (inl RetNULL) w2
                      | inr _ => Done (inr ()) w2
                      end) in
       match r with
       | inl ret => Done ret w2
       | inr _ => APSWCursor_step_loop fuel w2
       end) /\
    statement (cursor w3)
    = Some {| vdbestatement :=
                Some {| v_params := params; v_prog := prog;
                        v_bound := replicate (length params) SqlNull;
                        v_pc := 0; v_rc := SQLITE_OK; v_row := [] |};
              utf8 := many_statement sql params prog; next := None |} /\
    bindings (cursor w3) = Some (BSeq items) /\
    bindingsoffset (cursor w3) = 0 /\
    emiter (cursor w3) = Some it /\
    emoriginalquery (cursor w3) = Some (many_statement sql params prog) /\
    exectrace (cursor w3) = None /\ inuse (cursor w3) = false /\
    connection_db (cursor w3) = db /\ rowtrace (cursor w3) = rt /\
    pyerr w3 = None /\
    log w3 = log w ++ [EvStep sql; EvIterNext; EvFinalize; EvPrepare sql true].
Proof.
  intros (Herr & db & rc & row & b & off & rt & Hc) Hno.
  set (q := many_statement sql params prog) in *.
  set (vd := {| v_params := params; v_prog := prog; v_bound := bound;
                v_pc := 0; v_rc := rc; v_row := row |}) in *.
  set (st := {| vdbestatement := Some vd; utf8 := q; next := None |}) in *.
  assert (Hst : statement (cursor w) = Some st) by (by rewrite Hc).
  rewrite (step_loop_done fuel w st vd Hst eq_refl Hno Herr).
  (* after the step *)
  match goal with
  | |- context [step_advance ?x] => set (w1 := x)
  end.
  set (st1 := {| vdbestatement :=
                   Some {| v_params := params; v_prog := prog;
                           v_bound := bound; v_pc := 1; v_rc := SQLITE_DONE;
                           v_row := [] |};
                 utf8 := q; next := None |}).
  assert (H1 : statement (cursor w1) = Some st1 /\
               emiter (cursor w1) = Some (element items :: it) /\
               emoriginalquery (cursor w1) = Some q /\
               exectrace (cursor w1) = None /\ inuse (cursor w1) = false /\
               connection_db (cursor w1) = db /\ rowtrace (cursor w1) = rt /\
               pyerr w1 = None /\ log w1 = log w ++ [EvStep sql]).
  { subst w1. cbn [set_statement set_cursor emit cursor pyerr log statement
                     emiter emoriginalquery exectrace inuse connection_db
                     rowtrace].
    rewrite Hc, Herr. by repeat split. }
  clearbody w1.
  destruct H1 as (Hst1 & Hit1 & Hq1 & Ht1 & Hu1 & Hdb1 & Hrt1 & He1 & Hl1).
  rewrite (step_advance_next_element w1 st1 items it Hst1 eq_refl Hit1 He1).
  (* the next element is in place *)
  match goal with
  | |- context [step_next_statement ?x] => set (w2 := x)
  end.
  assert (H2 : statement (cursor w2) = None /\
               bindings (cursor w2) = Some (BSeq items) /\
               bindingsoffset (cursor w2) = 0 /\
               emiter (cursor w2) = Some it /\
               emoriginalquery (cursor w2) = Some q /\
               exectrace (cursor w2) = None /\ inuse (cursor w2) = false /\
               connection_db (cursor w2) = db /\ rowtrace (cursor w2) = rt /\
               pyerr w2 = None /\
               log w2 = log w ++ [EvStep sql; EvIterNext; EvFinalize]).
  { subst w2. cbn [set_statement set_bindings set_bindingsoffset set_emiter
                     set_status set_cursor emit cursor pyerr log statement
                     bindings bindingsoffset emiter emoriginalquery exectrace
                     inuse connection_db rowtrace].
    rewrite Hq1, Ht1, Hu1, Hdb1, Hrt1, He1, Hl1, <- !app_assoc.
    by repeat split. }
  clearbody w2.
  destruct H2 as (Hst2 & Hb2 & Ho2 & Hit2 & Hq2 & Ht2 & Hu2 & Hdb2 & Hrt2
                  & He2 & Hl2).
  rewrite (step_next_statement_many sql params prog w2 Hst2 Hq2).
  (* the statement is prepared again *)
  set (vd0 := {| v_params := params; v_prog := prog;
                 v_bound := replicate (length params) SqlNull;
                 v_pc := 0; v_rc := SQLITE_OK; v_row := [] |}).
  set (st0 := {| vdbestatement := Some vd0; utf8 := q; next := None |}).
  change (prepare_call (many_statement sql params prog) w2)
    with (set_statement (Some st0) (emit (EvPrepare sql true) w2)).
  set (w3 := set_statement (Some st0) (emit (EvPrepare sql true) w2)).
  assert (H3 : statement (cursor w3) = Some st0 /\
               bindings (cursor w3) = Some (BSeq items) /\
               bindingsoffset (cursor w3) = 0 /\
               emiter (cursor w3) = Some it /\
               emoriginalquery (cursor w3) = Some q /\
               exectrace (cursor w3) = None /\ inuse (cursor w3) = false /\
               connection_db (cursor w3) = db /\ rowtrace (cursor w3) = rt /\
               status (cursor w3) = status (cursor w2) /\
               pyerr w3 = None /\
               log w3 = log w ++ [EvStep sql; EvIterNext; EvFinalize;
                                  EvPrepare sql true]).
  { subst w3. cbn [set_statement set_cursor emit cursor pyerr log statement
                     bindings bindingsoffset emiter emoriginalquery exectrace
                     inuse connection_db rowtrace status].
    rewrite Hb2, Ho2, Hit2, Hq2, Ht2, Hu2, Hdb2, Hrt2, He2, Hl2, <- !app_assoc.
    by repeat split. }
  clearbody w3.
  destruct H3 as (Hst3 & Hb3 & Ho3 & Hit3 & Hq3 & Ht3 & Hu3 & Hdb3 & Hrt3
                  & _ & He3 & Hl3).
  exists w3, db, rt. split; [reflexivity|]. by repeat split.
Qed.

(** The resolver in that round. *)
Lemma step_many_bind sql params prog items vals it db rt w3 :
  let q := many_statement sql params prog in
  let vd0 := {| v_params := params; v_prog := prog;
                v_bound := replicate (length params) SqlNull;
                v_pc := 0; v_rc := SQLITE_OK; v_row := [] |} in
  let st0 := {| vdbestatement := Some vd0; utf8 := q; next := None |} in
  statement (cursor w3) = Some st0 ->
  bindings (cursor w3) = Some (BSeq items) ->
  bindingsoffset (cursor w3) = 0 ->
  emiter (cursor w3) = Some it ->
  emoriginalquery (cursor w3) = Some q ->
  exectrace (cursor w3) = None -> inuse (cursor w3) = false ->
  connection_db (cursor w3) = db -> rowtrace (cursor w3) = rt ->
  pyerr w3 = None ->
  Z.of_nat (length params) <= 2147483647 ->
  length items = length params -> mapM engine_value items = Some vals ->
  exists w4,
    step_bind_and_trace w3 = Done (inr ()) (set_status C_BEGIN w4) /\
    many_ready sql params prog it vals (set_status C_BEGIN w4) /\
    log w4 = log w3 ++ bind_events 1 vals.
Proof.
  intros q vd0 st0 Hst3 Hb3 Ho3 Hit3 Hq3 Ht3 Hu3 Hdb3 Hrt3 He3 Hmax Hlen Hvals.
  destruct (dobindings_all_bound w3 st0 vd0 items vals Hst3 eq_refl eq_refl
              eq_refl He3 Hb3 Ho3)
    as (w4 & Hrun & He4 & Hl4 & Hc4).
  { exact Hlen. }
  { by rewrite Hlen. }
  { apply length_replicate. }
  { exact Hvals. }
  assert (H4 : cursor w4
               = {| connection_db := db; inuse := false;
                    statement :=
                      Some {| vdbestatement :=
                                Some {| v_params := params; v_prog := prog;
                                        v_bound := vals; v_pc := 0;
                                        v_rc := SQLITE_OK; v_row := [] |};
                              utf8 := q; next := None |};
                    status := status (cursor w3);
                    bindings := Some (BSeq items);
                    bindingsoffset := Z.of_nat (length items);
                    emiter := Some it; emoriginalquery := Some q;
                    exectrace := None; rowtrace := rt |}).
  { rewrite Hc4.
    cbn [set_bindingsoffset set_statement set_cursor cursor].
    by rewrite Hb3, Hit3, Hq3, Ht3, Hu3, Hdb3, Hrt3. }
  clear Hc4.
  exists w4. split.
  { apply step_bind_and_trace_bound; [exact Hrun|by rewrite H4]. }
  split; [|exact Hl4].
  split; [exact He4|].
  exists db, SQLITE_OK, [], (Some (BSeq items)), (Z.of_nat (length items)), rt.
  cbn [set_status set_cursor cursor]. by rewrite H4.
Qed.

(** One round of [step] in [executemany]. *)
Lemma step_many_round sql params prog items vals it bound fuel w :
  many_ready sql params prog (element items :: it) bound w ->
  yields_nothing prog bound ->
  Z.of_nat (length params) <= 2147483647 ->
  length items = length params -> mapM engine_value items = Some vals ->
  exists w',
    APSWCursor_step_loop (S fuel) w = APSWCursor_step_loop fuel w' /\
    many_ready sql params prog it vals w' /\
    log w' = log w ++ [EvStep sql; EvIterNext; EvFinalize; EvPrepare sql true]
                   ++ bind_events 1 vals.
Proof.
  intros Hready Hno Hmax Hlen Hvals.
  destruct (step_many_restart sql params prog items it bound fuel w Hready Hno)
    as (w3 & db & rt & Hloop & Hst3 & Hb3 & Ho3 & Hit3 & Hq3 & Ht3 & Hu3
        & Hdb3 & Hrt3 & He3 & Hl3).
  destruct (step_many_bind sql params prog items vals it db rt w3
              Hst3 Hb3 Ho3 Hit3 Hq3 Ht3 Hu3 Hdb3 Hrt3 He3 Hmax Hlen Hvals)
    as (w4 & Hbind & Hready4 & Hl4).
  exists (set_status C_BEGIN w4). split.
  - rewrite Hloop, Hbind. reflexivity.
  - split; [exact Hready4|].
    change (log (set_status C_BEGIN w4)) with (log w4).
    by rewrite Hl4, Hl3, <- app_assoc.
Qed.

(** The last round: the source is at its end and the cursor is reset. *)
Lemma step_many_end sql params prog bound fuel w :
  many_ready sql params prog [] bound w ->
  yields_nothing prog bound ->
  exists w',
    APSWCursor_step_loop (S fuel) w = Done RetSelf w' /\
    idle w' /\ pyerr w' = None /\
    log w' = log w ++ [EvStep sql; EvIterNext; EvFinalize].
Proof.
  intros (Herr & db & rc & row & b & off & rt & Hc) Hno.
  set (q := many_statement sql params prog) in *.
  set (vd := {| v_params := params; v_prog := prog; v_bound := bound;
                v_pc := 0; v_rc := rc; v_row := row |}) in *.
  set (st := {| vdbestatement := Some vd; utf8 := q; next := None |}) in *.
  assert (Hst : statement (cursor w) = Some st) by (by rewrite Hc).
  rewrite (step_loop_done fuel w st vd Hst eq_refl Hno Herr).
  match goal with
  | |- context [step_advance ?x] => set (w1 := x)
  end.
  set (st1 := {| vdbestatement :=
                   Some {| v_params := params; v_prog := prog;
                           v_bound := bound; v_pc := 1; v_rc := SQLITE_DONE;
                           v_row := [] |};
                 utf8 := q; next := None |}).
  assert (H1 : statement (cursor w1) = Some st1 /\
               emiter (cursor w1) = Some [] /\ inuse (cursor w1) = false /\
               pyerr w1 = None /\ log w1 = log w ++ [EvStep sql]).
  { subst w1. cbn [set_statement set_cursor emit cursor pyerr log statement
                     emiter inuse].
    rewrite Hc, Herr. by repeat split. }
  clearbody w1. destruct H1 as (Hst1 & Hit1 & Hu1 & He1 & Hl1).
  rewrite (step_advance_source_end w1 st1 Hst1 eq_refl Hit1 He1).
  cbv zeta.
  set (w2 := set_emiter (Some []) (emit EvIterNext (set_status C_DONE w1))).
  assert (H2 : status (cursor w2) = C_DONE /\
               statement (cursor w2) = Some st1 /\ inuse (cursor w2) = false /\
               pyerr w2 = None /\ log w2 = log w ++ [EvStep sql; EvIterNext]).
  { subst w2. cbn [set_emiter set_status set_cursor emit cursor pyerr log
                     statement status inuse].
    rewrite Hst1, Hu1, He1, Hl1, <- app_assoc. by repeat split. }
  clearbody w2. destruct H2 as (Hs2 & Hst2 & Hu2 & He2 & Hl2).
  destruct (resetcursor_done w2 st1 Hs2 Hst2 He2) as (Hres & Hlog & Hpy).
  assert (Hfin : statementcache_finalize st1 = SQLITE_OK) by reflexivity.
  rewrite Hfin in Hres, Hpy. rewrite Hres. cbn [bindM].
  change (SQLITE_OK =? SQLITE_OK) with true in *. cbv iota in *.
  eexists. split; [reflexivity|].
  destruct (resetcursor_fields 0 w2) as (Hf1 & Hf2 & _ & _ & Hf5 & _ & Hf7 & _).
  split; [|split; [exact Hpy|]].
  - unfold idle. by rewrite Hf1, Hf2, Hf5, Hf7.
  - by rewrite Hlog, Hl2, <- app_assoc.
Qed.

(** All the rounds: the statement runs once for each element left. *)
Lemma step_many_rounds sql params prog :
  Z.of_nat (length params) <= 2147483647 ->
  forall batches valss,
    Forall2 (fits params prog) batches valss ->
    forall (fuel : nat) bound w,
      many_ready sql params prog (element <$> batches) bound w ->
      yields_nothing prog bound ->
      (length batches < fuel)%nat ->
      exists w',
        APSWCursor_step_loop fuel w = Done RetSelf w' /\
        idle w' /\ pyerr w' = None /\
        log w' = log w ++ many_log sql valss.
Proof.
  intros Hmax batches valss Hfits.
  induction Hfits as [|items vals batches valss (Hlen & Hvals & Hno') _ IH];
    intros fuel bound w Hready Hno Hfuel.
  - destruct fuel as [|fuel]; [cbn in Hfuel; lia|].
    exact (step_many_end sql params prog bound fuel w Hready Hno).
  - destruct fuel as [|fuel]; [cbn in Hfuel; lia|].
    destruct (step_many_round sql params prog items vals _
                bound fuel w Hready Hno Hmax Hlen Hvals)
      as (w1 & Hloop & Hready1 & Hl1).
    destruct (IH fuel vals w1 Hready1 Hno') as (w' & Hrun & Hi & He & Hl).
    { cbn in Hfuel. lia. }
    exists w'. split; [by rewrite Hloop|]. split; [exact Hi|].
    split; [exact He|].
    rewrite Hl, Hl1. cbn [many_log]. by rewrite <- !app_assoc.
Qed.

(** [executemany] up to the resolver, on a cursor that has nothing in
    progress: the source is asked for its first element and the statement
    is prepared. *)
Lemma executemany_start sql params prog items it w :
  inuse (cursor w) = false -> connection_db (cursor w) = true ->
  statement (cursor w) = None -> emiter (cursor w) = None ->
  exectrace (cursor w) = None ->
  exists wq,
    perform (Op_executemany
               (Some (many_statement sql params prog,
                      Some (element items :: it)))) w
    = execute_bind_trace_step wq /\
    statement (cursor wq)
    = Some {| vdbestatement :=
                Some {| v_params := params; v_prog := prog;
                        v_bound := replicate (length params) SqlNull;
                        v_pc := 0; v_rc := SQLITE_OK; v_row := [] |};
              utf8 := many_statement sql params prog; next := None |} /\
    bindings (cursor wq) = Some (BSeq items) /\
    emiter (cursor wq) = Some it /\
    emoriginalquery (cursor wq) = Some (many_statement sql params prog) /\
    exectrace (cursor wq) = None /\ inuse (cursor wq) = false /\
    connection_db (cursor wq) = true /\
    rowtrace (cursor wq) = rowtrace (cursor w) /\
    pyerr wq = None /\
    log wq = log w ++ [EvIterNext; EvPrepare sql true].
Proof.
  intros Hu Hdb Hst Hit Het.
  unfold perform, APSWCursor_executemany, CHECK_USE, CHECK_CLOSED.
  change (cursor (set_pyerr None w)) with (cursor w). rewrite Hu, Hdb.
  rewrite (resetcursor_nothing (set_pyerr None w)) by done.
  cbn [fst snd]. change (negb (SQLITE_OK =? SQLITE_OK)) with false.
  cbv iota.
  set (wr := set_cursor (reset_state (cursor (set_pyerr None w)))
               (set_pyerr None w)).
  assert (Hwr : cursor wr = reset_state (cursor w) /\ pyerr wr = None /\
                log wr = log w) by done.
  destruct Hwr as (Hcr & Her & Hlr). clearbody wr.
  unfold element, PyIter_Next. cbv iota beta.
  unfold bindings_of_arg.
  match goal with
  | |- context [bindings (cursor ?x)] => set (w2 := x)
  end.
  assert (H2 : bindings (cursor w2) = Some (BSeq items) /\
               emiter (cursor w2) = Some it /\
               exectrace (cursor w2) = None /\ inuse (cursor w2) = false /\
               connection_db (cursor w2) = true /\
               rowtrace (cursor w2) = rowtrace (cursor w) /\
               pyerr w2 = None /\ log w2 = log w ++ [EvIterNext]).
  { subst w2. cbn [set_bindings set_emiter set_cursor emit cursor pyerr log
                     bindings emiter exectrace inuse connection_db rowtrace].
    rewrite Hcr, Her, Hlr. cbn [reset_state exectrace inuse connection_db
                                   rowtrace].
    by rewrite Hu, Hdb, Het. }
  clearbody w2. destruct H2 as (Hb2 & Hit2 & Ht2 & Hu2 & Hdb2 & Hrt2 & He2 & Hl2).
  rewrite Hb2.
  set (st0 := {| vdbestatement :=
                   Some {| v_params := params; v_prog := prog;
                           v_bound := replicate (length params) SqlNull;
                           v_pc := 0; v_rc := SQLITE_OK; v_row := [] |};
                 utf8 := many_statement sql params prog; next := None |}).
  change (prepare_call (many_statement sql params prog) w2)
    with (set_statement (Some st0) (emit (EvPrepare sql true) w2)).
  set (w3 := set_statement (Some st0) (emit (EvPrepare sql true) w2)).
  assert (Hs3 : statement (cursor w3) = Some st0) by done.
  rewrite Hs3.
  eexists. split; [reflexivity|].
  subst w3.
  cbn [set_emoriginalquery set_statement set_cursor emit cursor pyerr log
         statement bindings emiter emoriginalquery exectrace inuse
         connection_db rowtrace utf8].
  rewrite Hb2, Hit2, Ht2, Hu2, Hdb2, Hrt2, He2, Hl2, <- app_assoc.
  by repeat split.
Qed.

(** [executemany] when the first element of the source is bound: the rest
    is up to [step]. *)
Lemma executemany_first sql params prog items vals it w :
  inuse (cursor w) = false -> connection_db (cursor w) = true ->
  statement (cursor w) = None -> emiter (cursor w) = None ->
  exectrace (cursor w) = None ->
  Z.of_nat (length params) <= 2147483647 ->
  length items = length params -> mapM engine_value items = Some vals ->
  exists wb,
    perform (Op_executemany
               (Some (many_statement sql params prog,
                      Some (element items :: it)))) w
    = APSWCursor_step wb /\
    many_ready sql params prog it vals wb /\
    log wb = log w ++ [EvIterNext; EvPrepare sql true] ++ bind_events 1 vals.
Proof.
  intros Hu Hdb Hst Hit Het Hmax Hlen Hvals.
  destruct (executemany_start sql params prog items it w Hu Hdb Hst Hit Het)
    as (wq & Hrun & Hstq & Hbq & Hitq & Hqq & Htq & Huq & Hdbq & Hrtq & Heq
        & Hlq).
  set (vd0 := {| v_params := params; v_prog := prog;
                 v_bound := replicate (length params) SqlNull;
                 v_pc := 0; v_rc := SQLITE_OK; v_row := [] |}) in *.
  set (st0 := {| vdbestatement := Some vd0;
                 utf8 := many_statement sql params prog; next := None |}) in *.
  destruct (dobindings_all_bound (set_bindingsoffset 0 wq) st0 vd0 items vals)
    as (w4 & Hbind & He4 & Hl4 & Hc4); try done.
  { by rewrite Hlen. }
  { apply length_replicate. }
  assert (H4 : cursor w4
               = {| connection_db := true; inuse := false;
                    statement :=
                      Some {| vdbestatement :=
                                Some {| v_params := params; v_prog := prog;
                                        v_bound := vals; v_pc := 0;
                                        v_rc := SQLITE_OK; v_row := [] |};
                              utf8 := many_statement sql params prog;
                              next := None |};
                    status := status (cursor wq);
                    bindings := Some (BSeq items);
                    bindingsoffset := Z.of_nat (length items);
                    emiter := Some it;
                    emoriginalquery := Some (many_statement sql params prog);
                    exectrace := None; rowtrace := rowtrace (cursor w) |}).
  { rewrite Hc4.
    cbn [set_bindingsoffset set_statement set_cursor cursor].
    by rewrite Hbq, Hitq, Hqq, Htq, Huq, Hdbq, Hrtq. }
  clear Hc4.
  exists (set_status C_BEGIN w4). split.
  - rewrite Hrun.
    apply execute_bind_trace_step_bound; [exact Htq|exact Hbind|by rewrite H4].
  - split.
    + split; [exact He4|].
      exists true, SQLITE_OK, [], (Some (BSeq items)),
        (Z.of_nat (length items)), (rowtrace (cursor w)).
      cbn [set_status set_cursor cursor]. by rewrite H4.
    + change (log (set_status C_BEGIN w4)) with (log w4).
      rewrite Hl4. change (log (set_bindingsoffset 0 wq)) with (log wq).
      by rewrite Hlq, <- app_assoc.
Qed.

(** X14.  [executemany] on a cursor with nothing in progress and no
    execution tracer, given a statement and a source whose elements each
    give one bindable value to every parameter and make the statement
    return no row (an INSERT, say): the call returns the cursor with no
    exception pending, having run the statement once for every element of
    the source, in the order of the source.  For each element the log
    shows the statement prepared from the original text, the values of
    that element bound to parameters 1, 2, ..., and one step; between two
    runs the source is asked for the next element and the statement is
    handed back.  After the source has reported its end the statement is
    handed back a last time and the cursor is idle. *)
Theorem executemany_runs_each (w : World) (sql : string)
  (params : list (option string)) (prog : list SqlValue -> list step_outcome)
  (items : list PyObject) (vals : list SqlValue)
  (batches : list (list PyObject)) (valss : list (list SqlValue)) :
  inuse (cursor w) = false -> connection_db (cursor w) = true ->
  statement (cursor w) = None -> emiter (cursor w) = None ->
  exectrace (cursor w) = None ->
  Z.of_nat (length params) <= 2147483647 ->
  Forall2 (fits params prog) (items :: batches) (vals :: valss) ->
  exists w',
    perform (Op_executemany
               (Some (many_statement sql params prog,
                      Some (element <$> items :: batches)))) w
    = Done RetSelf w' /\
    idle w' /\ pyerr w' = None /\
    log w' = log w ++ [EvIterNext; EvPrepare sql true]
                   ++ bind_events 1 vals ++ many_log sql valss.
Proof.
  intros Hu Hdb Hst Hit Het Hmax Hfits.
  apply Forall2_cons_1 in Hfits as ((Hlen & Hvals & Hno) & Hrest).
  cbn [fmap list_fmap].
  destruct (executemany_first sql params prog items vals (element <$> batches)
              w Hu Hdb Hst Hit Het Hmax Hlen Hvals)
    as (wb & Hrun & Hready & Hlb).
  assert (Hfuel : (length batches < step_fuel wb)%nat).
  { destruct Hready as (_ & db & rc & row & b & off & rt & Hc).
    unfold step_fuel, step_measure. rewrite Hc.
    cbn [cursor statement emiter emoriginalquery statements_left next
           many_statement length].
    rewrite length_fmap. lia. }
  destruct (step_many_rounds sql params prog Hmax batches valss Hrest
              (step_fuel wb) vals wb Hready Hno Hfuel)
    as (w' & Hloop & Hi & He & Hl).
  exists w'. split.
  - rewrite Hrun. exact Hloop.
  - split; [exact Hi|]. split; [exact He|].
    by rewrite Hl, Hlb, <- !app_assoc.
Qed.

Lemma executemany_runs_each_witness :
  exists w',
    perform (Op_executemany
               (Some (many_statement "insert into t values (?)" [None]
                        (fun _ => [StepDone]),
                      Some (element <$> [[PyLong 1]; [PyLong 2]]))))
            APSWCursor_init
    = Done RetSelf w' /\
    idle w' /\ pyerr w' = None /\
    log w' = log APSWCursor_init
               ++ [EvIterNext; EvPrepare "insert into t values (?)" true]
               ++ bind_events 1 [SqlInteger 1]
               ++ many_log "insert into t values (?)" [[SqlInteger 2]].
Proof.
  apply (executemany_runs_each APSWCursor_init "insert into t values (?)"
           [None] (fun _ => [StepDone]) [PyLong 1] [SqlInteger 1]
           [[PyLong 2]] [[SqlInteger 2]]);
    [reflexivity|reflexivity|reflexivity|reflexivity|reflexivity|done|].
  constructor; [split; [reflexivity|split; reflexivity]|].
  constructor; [split; [reflexivity|split; reflexivity]|].
  constructor.
Defined.


(** ** A row tracer that raises *)

(** X15.  When the row tracer raises, [next] returns NULL with the
    tracer's exception pending, and the execution is not aborted: the
    statement is neither reset nor handed back, and the cursor is left as
    after a row that was delivered, so that the row is lost and the next
    call of [next] goes on with the row that follows. *)
Theorem rowtrace_raises (w wr : World) (st : APSWStatement)
    (tracer : row_tracer) (e : exn) (fuel : nat) :
  inuse (cursor w) = false -> connection_db (cursor w) = true ->
  row_fetched w wr -> pyerr wr = None ->
  statement (cursor wr) = Some st -> rowtrace (cursor wr) = Some tracer ->
  tracer (current_row st) = Raised e ->
  APSWCursor_next (S fuel) w = Done RetNULL (PyErr_Format e (after_row st wr)) /\
  statement (cursor (after_row st wr)) = Some st /\
  status (cursor (after_row st wr)) = C_BEGIN /\
  forall n, perform (Op_next n) (PyErr_Format e (after_row st wr))
            = APSWCursor_next n (after_row st wr).
Proof.
  intros Hu Hdb Hrow Herr Hst Htr Hraise.
  assert (Hnext : APSWCursor_next (S fuel) w
                  = call r, w1 <- next_row wr in
                    match r with
                    | inl ret => Done ret w1
                    | inr _ => APSWCursor_next_again fuel w1
                    end).
  { unfold APSWCursor_next, CHECK_USE, CHECK_CLOSED. rewrite Hu, Hdb.
    cbn [APSWCursor_next_again].
    destruct Hrow as [[Hs ->]|(Hs & r & Hstep & Hr & Hs')].
    - rewrite Hs. cbn [status_eqb bindM]. by rewrite Hs.
    - rewrite Hs. cbn [status_eqb]. rewrite Hstep. cbn [bindM].
      rewrite Hs'. by destruct r. }
  split.
  - rewrite Hnext. unfold next_row, APSWCursor_dorowtrace.
    cbn [set_status set_cursor cursor statement rowtrace].
    rewrite Hst, Htr. cbn [set_status set_cursor cursor statement rowtrace].
    by rewrite Hraise.
  - split; [by rewrite <- Hst|]. split; [done|].
    intros n. unfold perform. f_equal.
    unfold after_row. destruct wr as [c e0 l]. cbn in Herr. by subst e0.
Qed.

Lemma raising_rows_stepped :
  inuse (cursor raising_rows_1) = false /\
  connection_db (cursor raising_rows_1) = true /\
  row_fetched raising_rows_1 raising_rows_2 /\
  pyerr raising_rows_2 = None /\
  statement (cursor raising_rows_2) = Some (held_statement raising_rows_2) /\
  rowtrace (cursor raising_rows_2) = Some raise_on_two /\
  raise_on_two (current_row (held_statement raising_rows_2))
  = Raised (PyException "ValueError").
Proof.
  split; [vm_compute; reflexivity|]. split; [vm_compute; reflexivity|].
  split.
  { right. split; [vm_compute; reflexivity|]. exists RetSelf.
    split; [vm_compute; reflexivity|]. split; [discriminate|].
    vm_compute. reflexivity. }
  split; [vm_compute; reflexivity|].
  split; [vm_compute; reflexivity|]. split; vm_compute; reflexivity.
Qed.

Lemma rowtrace_raises_witness :
  APSWCursor_next 2 raising_rows_1
  = Done RetNULL
      (PyErr_Format (PyException "ValueError")
         (after_row (held_statement raising_rows_2) raising_rows_2)) /\
  perform (Op_next 2)
    (PyErr_Format (PyException "ValueError")
       (after_row (held_statement raising_rows_2) raising_rows_2))
  = APSWCursor_next 2 (after_row (held_statement raising_rows_2) raising_rows_2).
Proof.
  destruct raising_rows_stepped as (Hu & Hdb & Hrow & He & Hst & Htr & Hv).
  destruct (rowtrace_raises raising_rows_1 raising_rows_2
              (held_statement raising_rows_2) raise_on_two
              (PyException "ValueError") 1 Hu Hdb Hrow He Hst Htr Hv)
    as (Hnext & _ & _ & Hgo).
  split; [exact Hnext|exact (Hgo 2%nat)].
Defined.

(** The call after the failure returns the row that follows. *)
Example next_after_raising_tracer :
  APSWCursor_next 2 (after_row (held_statement raising_rows_2) raising_rows_2)
  = Done (RetTuple [PyLong 3])
      (world_of
         (APSWCursor_next 2
            (after_row (held_statement raising_rows_2) raising_rows_2))).
Proof. vm_compute. reflexivity. Qed.


(** ** A batch of statements that return no row *)

(** The resolver on a prepared statement of a batch: the statement takes
    the values that follow those of the statements before it. *)
Lemma dobindings_slice_bound w st vd items vals (o : nat) :
  statement (cursor w) = Some st -> vdbestatement st = Some vd ->
  v_pc vd = 0%nat -> pyerr w = None ->
  bindings (cursor w) = Some (BSeq items) ->
  bindingsoffset (cursor w) = Z.of_nat o ->
  (o + length (v_params vd) <= length items)%nat ->
  (next st = None -> (o + length (v_params vd))%nat = length items) ->
  Z.of_nat (length items) <= 2147483647 ->
  length (v_bound vd) = length (v_params vd) ->
  mapM engine_value (take (length (v_params vd)) (drop o items)) = Some vals ->
  exists w',
    APSWCursor_dobindings w = Done 0 w' /\
    pyerr w' = None /\
    log w' = log w ++ bind_events 1 vals /\
    cursor w'
    = cursor (set_bindingsoffset (Z.of_nat (o + length (v_params vd)))
                (set_statement
                   (Some {| vdbestatement :=
                              Some {| v_params := v_params vd;
                                      v_prog := v_prog vd; v_bound := vals;
                                      v_pc := v_pc vd; v_rc := v_rc vd;
                                      v_row := v_row vd |};
                            utf8 := utf8 st; next := next st |}) w)).
Proof.
  intros Hst Hvd Hpc Herr Hb Hoff Hfit Hlast Hmax Hbl Hvals.
  apply mapM_Some_1 in Hvals.
  pose proof (Forall2_length _ _ _ Hvals) as Hlv.
  rewrite length_take, length_drop in Hlv.
  set (n := length (v_params vd)) in *.
  assert (Hn : length vals = n) by lia.
  assert (H0 : 0 <= bindingsoffset (cursor w)) by (rewrite Hoff; lia).
  assert (Hk : (0 + n <= length (v_params vd))%nat) by (subst n; lia).
  assert (Hobjs : Forall2 (fun x y => engine_value x = Some y)
                    (take n
                       (drop (0 + Z.to_nat (bindingsoffset (cursor w))) items))
                    vals).
  { rewrite Hoff, Nat2Z.id. exact Hvals. }
  destruct (dobindings_seq_bound items n 0 w st vd vals
              Hst Hvd Hpc Herr Hb H0 Hk Hbl Hobjs Hn)
    as (w1 & Hrun & He1 & Hl1 & Hc1).
  unfold APSWCursor_dobindings. rewrite Hst, Hb, Hvd.
  cbn [sqlite3_bind_parameter_count]. fold n. rewrite !andb_false_r.
  rewrite to_int_small by lia. rewrite Hoff.
  replace (has_next st && (Z.of_nat (length items) - Z.of_nat o <? Z.of_nat n))
    with false by (symmetry; apply andb_false_iff; right; apply Z.ltb_ge; lia).
  replace (negb (has_next st)
           && negb (Z.of_nat (length items) - Z.of_nat o =? Z.of_nat n))
    with false.
  2:{ symmetry. unfold has_next. destruct (next st) eqn:Hnx; [done|].
      cbn [negb andb]. apply negb_false_iff, Z.eqb_eq.
      specialize (Hlast eq_refl). lia. }
  rewrite Nat2Z.id.
  change 1 with (Z.of_nat 0 + 1) at 1. rewrite Hrun. cbn [bindM].
  change (0 =? 0) with true. cbv iota.
  eexists. split; [reflexivity|]. split; [exact He1|]. split; [exact Hl1|].
  cbn [set_bindingsoffset set_cursor cursor]. rewrite Hc1.
  cbn [set_statement set_cursor cursor connection_db inuse statement status
         bindings bindingsoffset emiter emoriginalquery exectrace rowtrace].
  rewrite Hoff. cbn [take app Nat.add].
  rewrite drop_ge by lia. rewrite app_nil_r.
  by rewrite Nat2Z.inj_add.
Qed.

(** When another statement follows, [step] moves on to it. *)
Lemma step_advance_next_statement w st q :
  statement (cursor w) = Some st -> next st = Some q ->
  step_advance w = step_next_statement (set_status C_DONE w).
Proof.
  intros Hst Hnext. unfold step_advance.
  cbn [set_status set_cursor cursor statement]. rewrite Hst.
  unfold has_next. by rewrite Hnext.
Qed.

(** After the last statement of the batch the cursor is reset. *)
Lemma step_advance_batch_end w st :
  statement (cursor w) = Some st -> next st = None ->
  emiter (cursor w) = None ->
  step_advance w
  = let r := resetcursor 0 (set_status C_DONE w) in
    Done (inl (if fst r =? SQLITE_OK then RetSelf else RetNULL)) (snd r).
Proof.
  intros Hst Hnext Hit. unfold step_advance.
  cbn [set_status set_cursor cursor statement emiter]. rewrite Hst, Hit.
  unfold has_next. by rewrite Hnext.
Qed.

(** The statement is handed back and the one that follows is prepared. *)
Lemma step_next_statement_batch sql params prog rest w st :
  statement (cursor w) = Some st ->
  next st = Some (Compiles sql params prog :: rest) ->
  statementcache_finalize st = SQLITE_OK ->
  step_next_statement w
  = call r, w2 <-
      step_bind_and_trace
        (set_statement
           (Some {| vdbestatement :=
                      Some {| v_params := params; v_prog := prog;
                              v_bound := replicate (length params) SqlNull;
                              v_pc := 0; v_rc := SQLITE_OK; v_row := [] |};
                    utf8 := Compiles sql params prog :: rest;
                    next := remaining rest |})
           (emit (EvPrepare sql true)
              (emit EvFinalize (emit EvNextStatement w)))) in
    match r with
    | inl _ => Done (inl RetNULL) w2
    | inr _ => Done (inr ()) w2
    end.
Proof.
  intros Hst Hnext Hfin. unfold step_next_statement, statementcache_next.
  rewrite Hst, Hnext. unfold finalize_call. cbn [fst snd]. rewrite Hfin.
  change (negb (SQLITE_OK =? SQLITE_OK)) with false. cbv iota.
  change (prepare_call (Compiles sql params prog :: rest)
            (emit EvFinalize (emit EvNextStatement w)))
    with (set_statement
            (Some {| vdbestatement :=
                       Some {| v_params := params; v_prog := prog;
                               v_bound := replicate (length params) SqlNull;
                               v_pc := 0; v_rc := SQLITE_OK; v_row := [] |};
                     utf8 := Compiles sql params prog :: rest;
                     next := remaining rest |})
            (emit (EvPrepare sql true)
               (emit EvFinalize (emit EvNextStatement w)))).
  cbn [bindM statement cursor set_statement set_cursor].
  unfold SET_EXC. change (negb (SQLITE_OK =? SQLITE_OK)) with false.
  cbn [andb]. reflexivity.
Qed.

(** One round of [step] in a batch, up to the resolver. *)
Lemma step_batch_restart sql params prog sql' params' prog' rest items bound
    o fuel w :
  batch_ready sql params prog (Compiles sql' params' prog' :: rest)
              items bound o w ->
  yields_nothing prog bound ->
  exists w3 db rt oq,
    APSWCursor_step_loop (S fuel) w
    = (call r, w2 <- (call r, w2 <- step_bind_and_trace w3 in
                      match r with
                      | inl _ => Done (inl RetNULL) w2
                      | inr _ => Done (inr ()) w2
                      end) in
       match r with
       | inl ret => Done ret w2
       | inr _ => APSWCursor_step_loop fuel w2
       end) /\
    statement (cursor w3)
    = Some {| vdbestatement :=
                Some {| v_params := params'; v_prog := prog';
                        v_bound := replicate (length params') SqlNull;
                        v_pc := 0; v_rc := SQLITE_OK; v_row := [] |};
              utf8 := Compiles sql' params' prog' :: rest;
              next := remaining rest |} /\
    bindings (cursor w3) = Some (BSeq items) /\
    bindingsoffset (cursor w3) = Z.of_nat o /\
    emiter (cursor w3) = None /\ emoriginalquery (cursor w3) = oq /\
    exectrace (cursor w3) = None /\ inuse (cursor w3) = false /\
    connection_db (cursor w3) = db /\ rowtrace (cursor w3) = rt /\
    pyerr w3 = None /\
    log w3 = log w ++ [EvStep sql; EvNextStatement; EvFinalize;
                       EvPrepare sql' true].
Proof.
  intros (Herr & db & rc & row & oq & rt & Hc) Hno.
  set (q' := Compiles sql' params' prog' :: rest) in *.
  set (vd := {| v_params := params; v_prog := prog; v_bound := bound;
                v_pc := 0; v_rc := rc; v_row := row |}) in *.
  set (st := {| vdbestatement := Some vd;
                utf8 := Compiles sql params prog :: q';
                next := remaining q' |}) in *.
  assert (Hst : statement (cursor w) = Some st) by (by rewrite Hc).
  rewrite (step_loop_done fuel w st vd Hst eq_refl Hno Herr).
  match goal with
  | |- context [step_advance ?x] => set (w1 := x)
  end.
  set (st1 := {| vdbestatement :=
                   Some {| v_params := params; v_prog := prog;
                           v_bound := bound; v_pc := 1; v_rc := SQLITE_DONE;
                           v_row := [] |};
                 utf8 := Compiles sql params prog :: q';
                 next := remaining q' |}).
  assert (H1 : statement (cursor w1) = Some st1 /\
               bindings (cursor w1) = Some (BSeq items) /\
               bindingsoffset (cursor w1) = Z.of_nat o /\
               emiter (cursor w1) = None /\ emoriginalquery (cursor w1) = oq /\
               exectrace (cursor w1) = None /\ inuse (cursor w1) = false /\
               connection_db (cursor w1) = db /\ rowtrace (cursor w1) = rt /\
               pyerr w1 = None /\ log w1 = log w ++ [EvStep sql]).
  { subst w1. cbn [set_statement set_cursor emit cursor pyerr log statement
                     bindings bindingsoffset emiter emoriginalquery exectrace
                     inuse connection_db rowtrace].
    rewrite Hc, Herr. by repeat split. }
  clearbody w1.
  destruct H1 as (Hst1 & Hb1 & Ho1 & Hit1 & Hq1 & Ht1 & Hu1 & Hdb1 & Hrt1
                  & He1 & Hl1).
  rewrite (step_advance_next_statement w1 st1 q' Hst1 eq_refl).
  set (wd := set_status C_DONE w1).
  assert (Hd : statement (cursor wd) = Some st1) by exact Hst1.
  rewrite (step_next_statement_batch sql' params' prog' rest wd st1 Hd
             eq_refl eq_refl).
  match goal with
  | |- context [step_bind_and_trace ?x] => set (w3 := x)
  end.
  assert (H3 : bindings (cursor w3) = Some (BSeq items) /\
               bindingsoffset (cursor w3) = Z.of_nat o /\
               emiter (cursor w3) = None /\ emoriginalquery (cursor w3) = oq /\
               exectrace (cursor w3) = None /\ inuse (cursor w3) = false /\
               connection_db (cursor w3) = db /\ rowtrace (cursor w3) = rt /\
               pyerr w3 = None /\
               log w3 = log w ++ [EvStep sql; EvNextStatement; EvFinalize;
                                  EvPrepare sql' true]).
  { subst w3 wd.
    cbn [set_statement set_status set_cursor emit cursor pyerr log statement
           bindings bindingsoffset emiter emoriginalquery exectrace inuse
           connection_db rowtrace].
    rewrite Hb1, Ho1, Hit1, Hq1, Ht1, Hu1, Hdb1, Hrt1, He1, Hl1, <- !app_assoc.
    by repeat split. }
  exists w3, db, rt, oq. split; [reflexivity|]. split; [reflexivity|].
  exact H3.
Qed.

(** The resolver in that round. *)
Lemma step_batch_bind sql params prog rest items vals (o : nat) db rt oq w3 :
  statement (cursor w3)
  = Some {| vdbestatement :=
              Some {| v_params := params; v_prog := prog;
                      v_bound := replicate (length params) SqlNull;
                      v_pc := 0; v_rc := SQLITE_OK; v_row := [] |};
            utf8 := Compiles sql params prog :: rest;
            next := remaining rest |} ->
  bindings (cursor w3) = Some (BSeq items) ->
  bindingsoffset (cursor w3) = Z.of_nat o ->
  emiter (cursor w3) = None -> emoriginalquery (cursor w3) = oq ->
  exectrace (cursor w3) = None -> inuse (cursor w3) = false ->
  connection_db (cursor w3) = db -> rowtrace (cursor w3) = rt ->
  pyerr w3 = None ->
  Z.of_nat (length items) <= 2147483647 ->
  mapM engine_value (take (length params) (drop o items)) = Some vals ->
  (o + length params <= length items)%nat ->
  (rest = [] -> (o + length params)%nat = length items) ->
  exists w4,
    APSWCursor_dobindings w3 = Done 0 w4 /\
    exectrace (cursor w4) = None /\
    batch_ready sql params prog rest items vals (o + length params)
                (set_status C_BEGIN w4) /\
    log w4 = log w3 ++ bind_events 1 vals.
Proof.
  intros Hst3 Hb3 Ho3 Hit3 Hq3 Ht3 Hu3 Hdb3 Hrt3 He3 Hmax Hvals Hfit Hlast.
  set (vd0 := {| v_params := params; v_prog := prog;
                 v_bound := replicate (length params) SqlNull;
                 v_pc := 0; v_rc := SQLITE_OK; v_row := [] |}) in *.
  set (st0 := {| vdbestatement := Some vd0;
                 utf8 := Compiles sql params prog :: rest;
                 next := remaining rest |}) in *.
  destruct (dobindings_slice_bound w3 st0 vd0 items vals o Hst3 eq_refl
              eq_refl He3 Hb3 Ho3 Hfit)
    as (w4 & Hrun & He4 & Hl4 & Hc4).
  { cbn [next st0]. intros Hr. apply Hlast. by destruct rest. }
  { exact Hmax. }
  { apply length_replicate. }
  { exact Hvals. }
  assert (H4 : cursor w4
               = {| connection_db := db; inuse := false;
                    statement :=
                      Some {| vdbestatement :=
                                Some {| v_params := params; v_prog := prog;
                                        v_bound := vals; v_pc := 0;
                                        v_rc := SQLITE_OK; v_row := [] |};
                              utf8 := Compiles sql params prog :: rest;
                              next := remaining rest |};
                    status := status (cursor w3);
                    bindings := Some (BSeq items);
                    bindingsoffset := Z.of_nat (o + length params);
                    emiter := None; emoriginalquery := oq;
                    exectrace := None; rowtrace := rt |}).
  { rewrite Hc4.
    cbn [set_bindingsoffset set_statement set_cursor cursor].
    by rewrite Hb3, Hit3, Hq3, Ht3, Hu3, Hdb3, Hrt3. }
  clear Hc4.
  exists w4. split; [exact Hrun|]. split; [by rewrite H4|].
  split; [|exact Hl4].
  split; [exact He4|].
  exists db, SQLITE_OK, [], oq, rt.
  cbn [set_status set_cursor cursor]. by rewrite H4.
Qed.

(** One round of [step] in a batch: the statement is done and the one that
    follows is prepared and bound. *)
Lemma step_batch_round sql params prog sql' params' prog' rest items vals'
    bound o fuel w :
  batch_ready sql params prog (Compiles sql' params' prog' :: rest)
              items bound o w ->
  yields_nothing prog bound ->
  Z.of_nat (length items) <= 2147483647 ->
  mapM engine_value (take (length params') (drop o items)) = Some vals' ->
  (o + length params' <= length items)%nat ->
  (rest = [] -> (o + length params')%nat = length items) ->
  exists w',
    APSWCursor_step_loop (S fuel) w = APSWCursor_step_loop fuel w' /\
    batch_ready sql' params' prog' rest items vals' (o + length params') w' /\
    log w' = log w ++ [EvStep sql; EvNextStatement; EvFinalize;
                       EvPrepare sql' true] ++ bind_events 1 vals'.
Proof.
  intros Hready Hno Hmax Hvals Hfit Hlast.
  destruct (step_batch_restart sql params prog sql' params' prog' rest items
              bound o fuel w Hready Hno)
    as (w3 & db & rt & oq & Hloop & Hst3 & Hb3 & Ho3 & Hit3 & Hq3 & Ht3 & Hu3
        & Hdb3 & Hrt3 & He3 & Hl3).
  destruct (step_batch_bind sql' params' prog' rest items vals' o db rt oq w3
              Hst3 Hb3 Ho3 Hit3 Hq3 Ht3 Hu3 Hdb3 Hrt3 He3 Hmax Hvals Hfit Hlast)
    as (w4 & Hbind & Ht4 & Hready4 & Hl4).
  exists (set_status C_BEGIN w4). split.
  - rewrite Hloop, (step_bind_and_trace_bound w3 w4 Hbind Ht4). reflexivity.
  - split; [exact Hready4|].
    change (log (set_status C_BEGIN w4)) with (log w4).
    by rewrite Hl4, Hl3, <- app_assoc.
Qed.

(** The last round: the batch is over and the cursor is reset. *)
Lemma step_batch_end sql params prog items bound o fuel w :
  batch_ready sql params prog [] items bound o w ->
  yields_nothing prog bound ->
  exists w',
    APSWCursor_step_loop (S fuel) w = Done RetSelf w' /\
    idle w' /\ pyerr w' = None /\
    log w' = log w ++ [EvStep sql; EvFinalize].
Proof.
  intros (Herr & db & rc & row & oq & rt & Hc) Hno.
  set (vd := {| v_params := params; v_prog := prog; v_bound := bound;
                v_pc := 0; v_rc := rc; v_row := row |}) in *.
  set (st := {| vdbestatement := Some vd;
                utf8 := [Compiles sql params prog]; next := None |}) in *.
  assert (Hst : statement (cursor w) = Some st) by (by rewrite Hc).
  rewrite (step_loop_done fuel w st vd Hst eq_refl Hno Herr).
  match goal with
  | |- context [step_advance ?x] => set (w1 := x)
  end.
  set (st1 := {| vdbestatement :=
                   Some {| v_params := params; v_prog := prog;
                           v_bound := bound; v_pc := 1; v_rc := SQLITE_DONE;
                           v_row := [] |};
                 utf8 := [Compiles sql params prog]; next := None |}).
  assert (H1 : statement (cursor w1) = Some st1 /\
               emiter (cursor w1) = None /\ inuse (cursor w1) = false /\
               pyerr w1 = None /\ log w1 = log w ++ [EvStep sql]).
  { subst w1. cbn [set_statement set_cursor emit cursor pyerr log statement
                     emiter inuse].
    rewrite Hc, Herr. by repeat split. }
  clearbody w1. destruct H1 as (Hst1 & Hit1 & Hu1 & He1 & Hl1).
  rewrite (step_advance_batch_end w1 st1 Hst1 eq_refl Hit1).
  cbv zeta.
  set (w2 := set_status C_DONE w1).
  assert (H2 : status (cursor w2) = C_DONE /\
               statement (cursor w2) = Some st1 /\ inuse (cursor w2) = false /\
               pyerr w2 = None /\ log w2 = log w ++ [EvStep sql]).
  { subst w2. cbn [set_status set_cursor cursor pyerr log statement status
                     inuse].
    by rewrite Hst1, Hu1, He1, Hl1. }
  clearbody w2. destruct H2 as (Hs2 & Hst2 & Hu2 & He2 & Hl2).
  destruct (resetcursor_done w2 st1 Hs2 Hst2 He2) as (Hres & Hlog & Hpy).
  assert (Hfin : statementcache_finalize st1 = SQLITE_OK) by reflexivity.
  rewrite Hfin in Hres, Hpy. rewrite Hres. cbn [bindM].
  change (SQLITE_OK =? SQLITE_OK) with true in *. cbv iota in *.
  eexists. split; [reflexivity|].
  destruct (resetcursor_fields 0 w2) as (Hf1 & Hf2 & _ & _ & Hf5 & _ & Hf7 & _).
  split; [|split; [exact Hpy|]].
  - unfold idle. by rewrite Hf1, Hf2, Hf5, Hf7.
  - by rewrite Hlog, Hl2, <- app_assoc.
Qed.

(** From a statement that is bound, [step] runs the rest of the batch. *)
Lemma step_batch_rounds items :
  Z.of_nat (length items) <= 2147483647 ->
  forall rest valss sql params prog bound (o fuel : nat) w,
    batch_ready sql params prog rest items bound o w ->
    yields_nothing prog bound ->
    batch_fits rest items o valss ->
    (length rest < fuel)%nat ->
    exists w',
      APSWCursor_step_loop fuel w = Done RetSelf w' /\
      idle w' /\ pyerr w' = None /\
      log w' = log w ++ batch_steps (Compiles sql params prog :: rest) valss.
Proof.
  intros Hmax rest.
  induction rest as [|s rest IH];
    intros valss sql params prog bound o fuel w Hready Hno Hfits Hfuel.
  - destruct fuel as [|fuel]; [cbn in Hfuel; lia|].
    destruct valss; [|destruct Hfits].
    exact (step_batch_end sql params prog items bound o fuel w Hready Hno).
  - destruct fuel as [|fuel]; [cbn in Hfuel; lia|].
    destruct s as [sql' params' prog'| |]; [|destruct Hfits..].
    destruct valss as [|vals' valss]; [destruct Hfits|].
    destruct Hfits as (Hvals & Hfit & Hno' & Hrest).
    destruct (step_batch_round sql params prog sql' params' prog' rest items
                vals' bound o fuel w Hready Hno Hmax Hvals Hfit)
      as (w1 & Hloop & Hready1 & Hl1).
    { intros ->. by destruct valss. }
    destruct (IH valss sql' params' prog' vals' (o + length params')%nat fuel
                w1 Hready1 Hno' Hrest)
      as (w' & Hrun & Hi & He & Hl).
    { cbn in Hfuel. lia. }
    exists w'. split; [by rewrite Hloop|]. split; [exact Hi|].
    split; [exact He|].
    rewrite Hl, Hl1. cbn [batch_steps stmt_sql]. by rewrite <- !app_assoc.
Qed.

(** [execute] with a sequence of bindings, up to the resolver, on a cursor
    that has nothing in progress: the sequence is stored and the first
    statement is prepared. *)
Lemma execute_batch_start sql params prog rest items w :
  inuse (cursor w) = false -> connection_db (cursor w) = true ->
  statement (cursor w) = None -> emiter (cursor w) = None ->
  exectrace (cursor w) = None ->
  exists wq,
    perform (Op_execute (Args (Compiles sql params prog :: rest)
                              [ArgObject (Returned items)])) w
    = execute_bind_trace_step wq /\
    statement (cursor wq)
    = Some {| vdbestatement :=
                Some {| v_params := params; v_prog := prog;
                        v_bound := replicate (length params) SqlNull;
                        v_pc := 0; v_rc := SQLITE_OK; v_row := [] |};
              utf8 := Compiles sql params prog :: rest;
              next := remaining rest |} /\
    bindings (cursor wq) = Some (BSeq items) /\
    emiter (cursor wq) = None /\ emoriginalquery (cursor wq) = None /\
    exectrace (cursor wq) = None /\ inuse (cursor wq) = false /\
    connection_db (cursor wq) = true /\
    rowtrace (cursor wq) = rowtrace (cursor w) /\
    pyerr wq = None /\
    log wq = log w ++ [EvPrepare sql true].
Proof.
  intros Hu Hdb Hst Hit Het.
  unfold perform, APSWCursor_execute, CHECK_USE, CHECK_CLOSED.
  change (cursor (set_pyerr None w)) with (cursor w). rewrite Hu, Hdb.
  rewrite (resetcursor_nothing (set_pyerr None w)) by done.
  cbn [fst snd]. change (negb (SQLITE_OK =? SQLITE_OK)) with false.
  cbv iota.
  set (wr := set_cursor (reset_state (cursor (set_pyerr None w)))
               (set_pyerr None w)).
  assert (Hwr : cursor wr = reset_state (cursor w) /\ pyerr wr = None /\
                log wr = log w) by done.
  destruct Hwr as (Hcr & Her & Hlr). clearbody wr.
  unfold bindings_of_arg. cbv zeta.
  match goal with
  | |- context [bindings (cursor ?x)] => set (w2 := x)
  end.
  assert (H2 : bindings (cursor w2) = Some (BSeq items) /\
               emiter (cursor w2) = None /\
               emoriginalquery (cursor w2) = None /\
               exectrace (cursor w2) = None /\ inuse (cursor w2) = false /\
               connection_db (cursor w2) = true /\
               rowtrace (cursor w2) = rowtrace (cursor w) /\
               pyerr w2 = None /\ log w2 = log w).
  { subst w2. cbn [set_bindings set_cursor cursor pyerr log bindings emiter
                     emoriginalquery exectrace inuse connection_db rowtrace].
    rewrite Hcr, Her, Hlr.
    cbn [reset_state emiter emoriginalquery exectrace inuse connection_db
           rowtrace].
    by rewrite Hu, Hdb, Het. }
  clearbody w2.
  destruct H2 as (Hb2 & Hit2 & Hq2 & Ht2 & Hu2 & Hdb2 & Hrt2 & He2 & Hl2).
  rewrite Hb2.
  set (st0 := {| vdbestatement :=
                   Some {| v_params := params; v_prog := prog;
                           v_bound := replicate (length params) SqlNull;
                           v_pc := 0; v_rc := SQLITE_OK; v_row := [] |};
                 utf8 := Compiles sql params prog :: rest;
                 next := remaining rest |}).
  change (prepare_call (Compiles sql params prog :: rest) w2)
    with (set_statement (Some st0) (emit (EvPrepare sql true) w2)).
  set (w3 := set_statement (Some st0) (emit (EvPrepare sql true) w2)).
  assert (Hs3 : statement (cursor w3) = Some st0) by done.
  rewrite Hs3.
  eexists. split; [reflexivity|].
  subst w3.
  cbn [set_statement set_cursor emit cursor pyerr log statement bindings
         emiter emoriginalquery exectrace inuse connection_db rowtrace].
  rewrite Hb2, Hit2, Hq2, Ht2, Hu2, Hdb2, Hrt2, He2, Hl2.
  by repeat split.
Qed.

(** [execute] when the first statement is bound: the rest is up to
    [step]. *)
Lemma execute_batch_first sql params prog rest items vals w :
  inuse (cursor w) = false -> connection_db (cursor w) = true ->
  statement (cursor w) = None -> emiter (cursor w) = None ->
  exectrace (cursor w) = None ->
  Z.of_nat (length items) <= 2147483647 ->
  mapM engine_value (take (length params) (drop 0 items)) = Some vals ->
  (0 + length params <= length items)%nat ->
  (rest = [] -> (0 + length params)%nat = length items) ->
  exists wb,
    perform (Op_execute (Args (Compiles sql params prog :: rest)
                              [ArgObject (Returned items)])) w
    = APSWCursor_step wb /\
    batch_ready sql params prog rest items vals (0 + length params) wb /\
    log wb = log w ++ [EvPrepare sql true] ++ bind_events 1 vals.
Proof.
  intros Hu Hdb Hst Hit Het Hmax Hvals Hfit Hlast.
  destruct (execute_batch_start sql params prog rest items w Hu Hdb Hst Hit
              Het)
    as (wq & Hrun & Hstq & Hbq & Hitq & Hqq & Htq & Huq & Hdbq & Hrtq & Heq
        & Hlq).
  destruct (step_batch_bind sql params prog rest items vals 0 true
              (rowtrace (cursor w)) None (set_bindingsoffset 0 wq))
    as (w4 & Hbind & Ht4 & Hready4 & Hl4); try done.
  exists (set_status C_BEGIN w4). split.
  - rewrite Hrun.
    apply execute_bind_trace_step_bound; [exact Htq|exact Hbind|exact Ht4].
  - split; [exact Hready4|].
    change (log (set_status C_BEGIN w4)) with (log w4).
    rewrite Hl4. change (log (set_bindingsoffset 0 wq)) with (log wq).
    by rewrite Hlq, <- app_assoc.
Qed.

(** X16.  [execute] on a cursor with nothing in progress and no execution
    tracer, given a text of several statements and one sequence of
    bindings: when every statement compiles, the values of the sequence
    are shared out among the statements in order, each statement taking as
    many as it has parameters and none being left over, and no statement
    returns a row, then the one call runs the whole text.  It returns the
    cursor with no exception pending; every statement is prepared, bound
    to its own slice of the sequence at parameters 1, 2, ... and stepped
    once, in the order of the text; each statement is handed back before
    the one that follows is prepared, the last by the reset that leaves
    the cursor idle. *)
Theorem execute_runs_batch (w : World) (sql : string)
  (params : list (option string)) (prog : list SqlValue -> list step_outcome)
  (rest : query) (items : list PyObject) (vals : list SqlValue)
  (valss : list (list SqlValue)) :
  inuse (cursor w) = false -> connection_db (cursor w) = true ->
  statement (cursor w) = None -> emiter (cursor w) = None ->
  exectrace (cursor w) = None ->
  Z.of_nat (length items) <= 2147483647 ->
  batch_fits (Compiles sql params prog :: rest) items 0 (vals :: valss) ->
  exists w',
    perform (Op_execute (Args (Compiles sql params prog :: rest)
                              [ArgObject (Returned items)])) w
    = Done RetSelf w' /\
    idle w' /\ pyerr w' = None /\
    log w' = log w ++ [EvPrepare sql true] ++ bind_events 1 vals
                   ++ batch_steps (Compiles sql params prog :: rest) valss.
Proof.
  intros Hu Hdb Hst Hit Het Hmax (Hvals & Hfit & Hno & Hrest).
  destruct (execute_batch_first sql params prog rest items vals w Hu Hdb Hst
              Hit Het Hmax Hvals Hfit)
    as (wb & Hrun & Hready & Hlb).
  { intros ->. by destruct valss. }
  assert (Hfuel : (length rest < step_fuel wb)%nat).
  { destruct Hready as (_ & db & rc & row & oq & rt & Hc).
    unfold step_fuel, step_measure. rewrite Hc.
    cbn [cursor statement emiter statements_left next].
    destruct rest; cbn [remaining length]; lia. }
  destruct (step_batch_rounds items Hmax rest valss sql params prog vals
              (0 + length params)%nat (step_fuel wb) wb Hready Hno Hrest Hfuel)
    as (w' & Hloop & Hi & He & Hl).
  exists w'. split.
  - rewrite Hrun. exact Hloop.
  - split; [exact Hi|]. split; [exact He|].
    by rewrite Hl, Hlb, <- !app_assoc.
Qed.

Lemma execute_runs_batch_witness :
  exists w',
    perform (Op_execute
               (Args [Compiles "insert into t values (?)" [None]
                        (fun _ => [StepDone]);
                      Compiles "insert into u values (?, ?)" [None; None]
                        (fun _ => [StepDone])]
                     [ArgObject (Returned [PyLong 1; PyLong 2; PyLong 3])]))
            APSWCursor_init
    = Done RetSelf w' /\
    idle w' /\ pyerr w' = None /\
    log w' = log APSWCursor_init
               ++ [EvPrepare "insert into t values (?)" true]
               ++ bind_events 1 [SqlInteger 1]
               ++ batch_steps
                    [Compiles "insert into t values (?)" [None]
                       (fun _ => [StepDone]);
                     Compiles "insert into u values (?, ?)" [None; None]
                       (fun _ => [StepDone])]
                    [[SqlInteger 2; SqlInteger 3]].
Proof.
  apply (execute_runs_batch APSWCursor_init "insert into t values (?)"
           [None] (fun _ => [StepDone])
           [Compiles "insert into u values (?, ?)" [None; None]
              (fun _ => [StepDone])]
           [PyLong 1; PyLong 2; PyLong 3] [SqlInteger 1]
           [[SqlInteger 2; SqlInteger 3]]);
    [reflexivity|reflexivity|reflexivity|reflexivity|reflexivity|done|].
  split; [reflexivity|]. split; [cbn; lia|]. split; [reflexivity|].
  split; [reflexivity|]. split; [cbn; lia|]. split; [reflexivity|].
  reflexivity.
Defined.


(** ** C1: the length of the sequence in a C [int] *)

(** [int sz] receives [PySequence_Fast_GET_SIZE]: of a sequence of
    2^32 + 1 items it keeps 1.  The last statement of a batch, with one
    parameter and the offset at 0, is then bound from the first item and
    the resolver reports no error. *)
Lemma dobindings_int_truncates w st vd items obj v :
  statement (cursor w) = Some st -> vdbestatement st = Some vd ->
  next st = None -> length (v_params vd) = 1%nat ->
  length (v_bound vd) = 1%nat -> v_pc vd = 0%nat ->
  bindings (cursor w) = Some (BSeq items) -> bindingsoffset (cursor w) = 0 ->
  pyerr w = None ->
  Z.of_nat (length items) = 4294967297 ->
  items !! 0%nat = Some obj -> engine_value obj = Some v ->
  exists w',
    APSWCursor_dobindings w = Done 0 w' /\ pyerr w' = None /\
    log w' = log w ++ [EvBind 1 v] /\
    bindingsoffset (cursor w') = 1 /\
    exectrace (cursor w') = exectrace (cursor w).
Proof.
  intros Hst Hvd Hnext Hn Hbl Hpc Hb Hoff Herr Hlen Hobj Hv.
  destruct (dobindings_seq_bound items 1 0 w st vd [v] Hst Hvd Hpc Herr Hb)
    as (w1 & Hrun & He1 & Hl1 & Hc1).
  { rewrite Hoff. lia. }
  { rewrite Hn. cbn. lia. }
  { by rewrite Hbl, Hn. }
  { rewrite Hoff. change (0 + Z.to_nat 0)%nat with 0%nat.
    rewrite (drop_S _ _ _ Hobj). cbn [take]. by constructor. }
  { reflexivity. }
  exists (set_bindingsoffset (bindingsoffset (cursor w1) + 1) w1).
  split.
  - unfold APSWCursor_dobindings. rewrite Hst, Hb, Hoff.
    unfold sqlite3_bind_parameter_count, has_next. rewrite Hvd, Hn, Hnext, Hlen.
    change (Z.of_nat 1) with 1.
    change (to_int 4294967297) with 1.
    change ((1 =? 0) && negb true) with false.
    change ((1 >? 0) && negb true) with false.
    change (false && (1 - 0 <? 1)) with false.
    change (negb false && negb (1 - 0 =? 1)) with false.
    cbv iota. change (Z.to_nat 1) with 1%nat.
    change (Z.of_nat 0 + 1) with 1 in Hrun. rewrite Hrun. cbn [bindM].
    change (0 =? 0) with true. reflexivity.
  - split; [exact He1|]. split; [exact Hl1|].
    cbn [set_bindingsoffset set_cursor cursor bindingsoffset exectrace].
    rewrite Hc1. cbn [set_statement set_cursor cursor bindingsoffset exectrace].
    by rewrite Hoff.
Qed.

Lemma long_sequence_length : Z.of_nat (length long_sequence) = 4294967297.
Proof. unfold long_sequence. rewrite length_replicate. lia. Qed.

Lemma long_sequence_first : long_sequence !! 0%nat = Some (PyLong 7).
Proof. unfold long_sequence. apply lookup_replicate_2. lia. Qed.

Opaque long_sequence.

(** C1.  The failing input: [execute("select ?", seq)] with a sequence of
    2^32 + 1 items.  The statement is the last of its batch and declares
    one parameter, the offset is 0, and [available - offset] is not 1, so
    that the specification asks for a BindingsError.  The resolver, which
    holds the length in a C [int], binds parameter 1 from the first item
    and returns 0 with no exception pending; [execute] goes on to step the
    statement. *)
Theorem dobindings_length_truncated :
  exists wq st w' wb,
    perform execute_long APSWCursor_init = execute_bind_trace_step wq /\
    statement (cursor wq) = Some st /\ has_next st = false /\
    sqlite3_bind_parameter_count (vdbestatement st) = 1 /\
    bindings (cursor wq) = Some (BSeq long_sequence) /\
    Z.of_nat (length long_sequence) - 0 <> 1 /\
    APSWCursor_dobindings (set_bindingsoffset 0 wq) = Done 0 w' /\
    pyerr w' = None /\
    log w' = [EvPrepare "select ?" true; EvBind 1 (SqlInteger 7)] /\
    bindingsoffset (cursor w') = 1 /\
    perform execute_long APSWCursor_init = APSWCursor_step wb /\
    pyerr wb = None /\ log wb = log w'.
Proof.
  destruct (execute_batch_start "select ?" [None]
              (fun bound => [StepRow bound; StepDone]) [] long_sequence
              APSWCursor_init eq_refl eq_refl eq_refl eq_refl eq_refl)
    as (wq & Hrun & Hstq & Hbq & Hitq & Hqq & Htq & Huq & Hdbq & Hrtq & Heq
        & Hlq).
  set (vd := {| v_params := [None];
                v_prog := fun bound => [StepRow bound; StepDone];
                v_bound := replicate (length [@None string]) SqlNull;
                v_pc := 0; v_rc := SQLITE_OK; v_row := [] |}) in *.
  set (st := {| vdbestatement := Some vd;
                utf8 := [Compiles "select ?" [None]
                           (fun bound => [StepRow bound; StepDone])];
                next := remaining [] |}) in *.
  destruct (dobindings_int_truncates (set_bindingsoffset 0 wq) st vd
              long_sequence (PyLong 7) (SqlInteger 7) Hstq eq_refl eq_refl
              eq_refl eq_refl eq_refl Hbq eq_refl Heq long_sequence_length
              long_sequence_first eq_refl)
    as (w' & Hbind & He' & Hl' & Ho' & Ht').
  exists wq, st, w', (set_status C_BEGIN w').
  split; [exact Hrun|]. split; [exact Hstq|]. split; [reflexivity|].
  split; [reflexivity|]. split; [exact Hbq|].
  split; [rewrite long_sequence_length; lia|].
  split; [exact Hbind|]. split; [exact He'|].
  split.
  { rewrite Hl'. change (log (set_bindingsoffset 0 wq)) with (log wq).
    by rewrite Hlq. }
  split; [exact Ho'|]. split; [|split; [exact He'|reflexivity]].
  etrans; [exact Hrun|].
  apply execute_bind_trace_step_bound; [exact Htq|exact Hbind|].
  rewrite Ht'. exact Htq.
Qed.


(** ** C9: [execute] of statements without parameters *)





















(** ** C5: no step before the tracer is asked *)

Lemma steps_shown_app evs1 : forall cur evs2,
  steps_shown cur (evs1 ++ evs2)
  <-> steps_shown cur evs1 /\ steps_shown (shown_after cur evs1) evs2.
Proof.
  induction evs1 as [|ev evs1 IH]; intros cur evs2; [cbn; tauto|].
  destruct ev; cbn [app steps_shown shown_after]; rewrite IH; tauto.
Qed.

Lemma shown_after_app evs1 : forall cur evs2,
  shown_after cur (evs1 ++ evs2) = shown_after (shown_after cur evs1) evs2.
Proof.
  induction evs1 as [|ev evs1 IH]; intros cur evs2; [done|].
  destruct ev; cbn [app shown_after]; by rewrite IH.
Qed.

Lemma steps_shown_stepless evs : forall cur,
  Forall (fun ev => is_step ev = false) evs -> steps_shown cur evs.
Proof.
  induction evs as [|ev evs IH]; intros cur H; [done|].
  apply Forall_cons in H as [Hev H]. destruct ev; cbn; auto. discriminate Hev.
Qed.

Lemma shown_after_unmarked evs : forall cur,
  Forall (fun ev => is_mark ev = false) evs -> shown_after cur evs = cur.
Proof.
  induction evs as [|ev evs IH]; intros cur H; [done|].
  apply Forall_cons in H as [Hev H]. destruct ev; cbn; auto; discriminate Hev.
Qed.

Lemma same_hooks_exectrace w w' :
  same_hooks w w' -> exectrace (cursor w') = exectrace (cursor w).
Proof. unfold same_hooks, hooks. by intros [= _ _ ? _]. Qed.

Lemma unmarked_stepless w w' : unmarked w w' -> stepless w w'.
Proof. intros (evs & Hl & Hs & _). by exists evs. Qed.

Lemma unmarked_same w w' : log w' = log w -> unmarked w w'.
Proof.
  intros H. exists []. split; [by rewrite app_nil_r|]. split; constructor.
Qed.

Lemma unmarked_trans a b c : unmarked a b -> unmarked b c -> unmarked a c.
Proof.
  intros (e1 & H1 & S1 & M1) (e2 & H2 & S2 & M2). exists (e1 ++ e2).
  split; [by rewrite H2, H1, app_assoc|]. split; by apply Forall_app.
Qed.

Lemma stepless_same w w' : log w' = log w -> stepless w w'.
Proof. intros H. by apply unmarked_stepless, unmarked_same. Qed.

Lemma stepless_trans a b c : stepless a b -> stepless b c -> stepless a c.
Proof.
  intros (e1 & H1 & S1) (e2 & H2 & S2). exists (e1 ++ e2).
  split; [by rewrite H2, H1, app_assoc|]. by apply Forall_app.
Qed.

Lemma stepless_events evs w w' :
  log w' = log w ++ evs -> forallb (fun ev => negb (is_step ev)) evs = true ->
  stepless w w'.
Proof.
  intros Hl Hn. exists evs. split; [done|]. apply Forall_forall.
  intros ev Hin. apply list_elem_of_In in Hin.
  pose proof (proj1 (forallb_forall _ _) Hn ev Hin) as Hev.
  cbv beta in Hev. destruct (is_step ev); [discriminate Hev|reflexivity].
Qed.

Lemma consulted_after ok s a b c :
  stepless a b -> consulted ok s b c -> consulted ok s a c.
Proof.
  intros (e1 & H1 & S1) (e2 & H2 & S2 & Hok & Hno). exists (e1 ++ e2).
  split; [by rewrite H2, H1, app_assoc|]. split; [by apply Forall_app|].
  split; [|done]. intros Hk cur. rewrite shown_after_app. by apply Hok.
Qed.

Lemma consulted_failed (ok : Prop) s w w' :
  stepless w w' -> ~ ok -> status (cursor w') = s -> consulted ok s w w'.
Proof. intros (evs & Hl & Hs) Hn Hst. exists evs. by repeat split. Qed.

Lemma consulted_weaken (ok1 ok2 : Prop) s w w' :
  consulted ok1 s w w' -> (ok2 <-> ok1) -> consulted ok2 s w w'.
Proof.
  intros (evs & Hl & Hs & Hok & Hno) H. exists evs.
  split; [done|]. split; [done|]. split; [tauto|tauto].
Qed.

Lemma always_shown_after a b c :
  stepless a b -> always_shown b c -> always_shown a c.
Proof.
  intros (e1 & H1 & S1) (e2 & H2 & S2). exists (e1 ++ e2).
  split; [by rewrite H2, H1, app_assoc|]. intros cur.
  apply steps_shown_app. split; [by apply steps_shown_stepless|apply S2].
Qed.

Lemma stepless_always_shown w w' : stepless w w' -> always_shown w w'.
Proof.
  intros (evs & Hl & Hs). exists evs. split; [done|].
  intros cur. by apply steps_shown_stepless.
Qed.

Ltac returned H :=
  cbv zeta in H;
  match type of H with
  | Done ?a ?x = Done ?r ?y =>
      assert (r = a) as -> by congruence; assert (y = x) as -> by congruence
  end.

(** The pieces of the pipeline that take no step. *)
Lemma resetcursor_unmarked force w : unmarked w (snd (resetcursor force w)).
Proof.
  destruct (resetcursor_log force w) as (evs & Hl & Hk). exists evs.
  split; [done|].
  split; (eapply Forall_impl; [exact Hk|]); by intros ev [-> | ->].
Qed.

Lemma prepare_call_log q w :
  exists sql ok, log (prepare_call q w) = log w ++ [EvPrepare sql ok].
Proof.
  unfold prepare_call. destruct (statementcache_prepare q); eexists _, _;
    cbn [set_statement set_cursor log]; rewrite ?SET_EXC_log; reflexivity.
Qed.

Lemma prepare_call_stepless q w : stepless w (prepare_call q w).
Proof.
  destruct (prepare_call_log q w) as (sql & ok & Hl).
  by apply (stepless_events [EvPrepare sql ok]).
Qed.

Lemma statementcache_next_stepless st w r w' :
  statementcache_next st w = Done r w' ->
  stepless w w' /\ status (cursor w') = status (cursor w).
Proof.
  unfold statementcache_next. destruct (next st) as [q|]; [|done].
  cbv zeta. unfold finalize_call. cbn [fst snd].
  assert (H0 : stepless w (emit EvFinalize (emit EvNextStatement w))).
  { apply (stepless_events [EvNextStatement; EvFinalize]); [|done].
    cbn [emit log]. by rewrite <- app_assoc. }
  destruct (negb _); intros H; same_world H.
  - split; [|done]. eapply stepless_trans; [exact H0|]. by apply stepless_same.
  - split; [eapply stepless_trans; [exact H0|apply prepare_call_stepless]|].
    by rewrite prepare_call_cursor.
Qed.

Lemma dobindings_unmarked w r w' :
  APSWCursor_dobindings w = Done r w' -> unmarked w w'.
Proof.
  intros H. destruct (dobindings_binds_only _ _ _ H) as (evs & Hl & Hb).
  exists evs. split; [done|].
  split; (eapply Forall_impl; [exact Hb|]); intros ev Hev; by destruct ev.
Qed.

(** The tracer is asked about the statement held. *)
Lemma doexectrace_shown saved w r w' :
  APSWCursor_doexectrace saved w = Done r w' ->
  cursor w' = cursor w /\
  exists st b, statement (cursor w) = Some st /\
               log w' = log w ++ [EvExecTrace (statement_sql st) b].
Proof.
  unfold APSWCursor_doexectrace.
  destruct (exectrace (cursor w)) as [t|]; [|done].
  destruct (statement (cursor w)) as [st|]; [|done].
  intros H. split.
  - by destruct (t _ _) as [e|e|[]]; returned H.
  - exists st, (exectrace_bindings saved w). split; [done|].
    by destruct (t _ _) as [e|e|[]]; returned H.
Qed.

(** From the new statement to the end of the loop body: with a tracer
    installed, the statement goes on only when the tracer was asked. *)
Lemma step_bind_and_trace_consulted t w r w' :
  exectrace (cursor w) = Some t ->
  step_bind_and_trace w = Done r w' ->
  consulted (r = inr ()) (status (cursor w)) w w'.
Proof.
  unfold step_bind_and_trace. intros Ht H.
  destruct (APSWCursor_dobindings w) as [a w1| |] eqn:Hb; try done.
  pose proof (dobindings_unmarked _ _ _ Hb) as Hu.
  pose proof (same_hooks_exectrace _ _ (dobindings_hooks _ _ _ Hb)) as Ht1.
  destruct (dobindings_quiet _ _ _ Hb) as [_ Hs1].
  rewrite Ht in Ht1. cbn [bindM] in H.
  eapply consulted_after; [by apply unmarked_stepless|]. rewrite <- Hs1.
  clear Hb Hu Hs1.
  destruct (negb (a =? 0)).
  { returned H.
    apply consulted_failed; [by apply stepless_same|done|done]. }
  rewrite Ht1 in H.
  destruct (APSWCursor_doexectrace _ w1) as [b w2| |] eqn:Htr; try done.
  destruct (doexectrace_shown _ _ _ _ Htr) as (Hc & st & tb & Hst & Hl).
  cbn [bindM] in H.
  assert (Hless : stepless w1 w2)
    by (by apply (stepless_events [EvExecTrace (statement_sql st) tb])).
  destruct (negb (b =? 0)).
  - returned H.
    apply consulted_failed; [done|done|by rewrite Hc].
  - returned H. exists [EvExecTrace (statement_sql st) tb].
    split; [done|]. split; [by repeat constructor|]. split; [|done].
    intros _ cur. unfold held_sql.
    cbn [shown_after set_status set_cursor cursor statement].
    by rewrite Hc, Hst.
Qed.

Lemma step_next_statement_consulted t w r w' :
  exectrace (cursor w) = Some t ->
  step_next_statement w = Done r w' ->
  consulted (r = inr ()) (status (cursor w)) w w'.
Proof.
  unfold step_next_statement. intros Ht H.
  match type of H with bindM ?m _ = _ => destruct m as [res w1| |] eqn:Hm end;
    try done.
  assert (H1 : stepless w w1 /\ status (cursor w1) = status (cursor w) /\
               exectrace (cursor w1) = Some t).
  { destruct (statement (cursor w)) as [st1|].
    - destruct (statementcache_next st1 w) as [res0 w0| |] eqn:Hn; try done.
      cbn [bindM] in Hm. same_world Hm.
      destruct (statementcache_next_stepless _ _ _ _ Hn) as (Hl & Hs).
      pose proof (same_hooks_exectrace _ _ (statementcache_next_hooks _ _ _ _ Hn))
        as Ht0.
      split; [|split].
      + eapply stepless_trans; [exact Hl|]. apply stepless_same, SET_EXC_log.
      + by rewrite SET_EXC_cursor.
      + rewrite SET_EXC_cursor. congruence.
    - destruct (emoriginalquery (cursor w)); [|done]. same_world Hm.
      split; [apply prepare_call_stepless|].
      rewrite prepare_call_cursor. by split. }
  clear Hm. destruct H1 as (Hl1 & Hs1 & Ht1). cbn [bindM] in H.
  eapply consulted_after; [exact Hl1|]. rewrite <- Hs1.
  destruct (negb (res =? SQLITE_OK)).
  { returned H.
    apply consulted_failed; [by apply stepless_same|done|done]. }
  destruct (step_bind_and_trace w1) as [b w2| |] eqn:Hb; try done.
  pose proof (step_bind_and_trace_consulted t _ _ _ Ht1 Hb) as Hcons.
  cbn [bindM] in H.
  destruct b as [[]|[]]; returned H;
    (eapply consulted_weaken; [exact Hcons|]); split; done.
Qed.

Lemma step_advance_consulted t w r w' :
  exectrace (cursor w) = Some t ->
  step_advance w = Done r w' -> consulted (r = inr ()) C_DONE w w'.
Proof.
  unfold step_advance. intros Ht H.
  set (wd := set_status C_DONE w) in *.
  assert (Hd : stepless w wd /\ status (cursor wd) = C_DONE /\
               exectrace (cursor wd) = Some t)
    by (split; [by apply stepless_same|by split]).
  clearbody wd. destruct Hd as (Hd & Hsd & Htd).
  eapply consulted_after; [exact Hd|]. clear Hd.
  destruct (statement (cursor wd)) as [st|]; [|done].
  destruct (has_next st).
  { rewrite <- Hsd. by apply (step_next_statement_consulted t). }
  destruct (emiter (cursor wd)) as [it|].
  2:{ returned H.
      apply consulted_failed;
        [apply unmarked_stepless, resetcursor_unmarked|done|].
      by destruct (resetcursor_fields 0 wd) as (_ & ? & _). }
  pose proof (PyIter_Next_log it wd) as Hn.
  pose proof (PyIter_Next_cursor it wd) as Hc.
  destruct (PyIter_Next it wd) as [[nxt it1] w1]. cbn [snd] in Hn, Hc.
  set (w1' := set_emiter (Some it1) w1) in *.
  assert (H1 : stepless wd w1' /\ status (cursor w1') = C_DONE /\
               exectrace (cursor w1') = Some t).
  { split; [by apply (stepless_events [EvIterNext])|].
    subst w1'. cbn [set_emiter set_cursor cursor status exectrace].
    rewrite Hc. by split. }
  clearbody w1'. destruct H1 as (Hl1 & Hs1 & Ht1).
  eapply consulted_after; [exact Hl1|].
  destruct (PyErr_Occurred w1').
  { returned H.
    apply consulted_failed; [by apply stepless_same|done|done]. }
  destruct nxt as [a|].
  2:{ returned H.
      apply consulted_failed;
        [apply unmarked_stepless, resetcursor_unmarked|done|].
      by destruct (resetcursor_fields 0 w1') as (_ & ? & _). }
  set (w2 := bindings_of_arg a _) in *.
  assert (H2 : stepless w1' w2 /\ status (cursor w2) = C_DONE /\
               exectrace (cursor w2) = Some t).
  { subst w2. unfold finalize_call. cbn [snd].
    split; [|destruct a as [d|[items|e]]; by split].
    apply (stepless_events [EvFinalize]); [|done].
    by destruct a as [d|[items|e]]. }
  clearbody w2. destruct H2 as (Hl2 & Hs2 & Ht2).
  eapply consulted_after; [exact Hl2|].
  destruct (bindings (cursor w2)).
  - rewrite <- Hs2. by apply (step_next_statement_consulted t).
  - returned H.
    apply consulted_failed; [by apply stepless_same|done|done].
Qed.

(** A step is a step of the statement held. *)
Lemma step_call_shown st w :
  statement (cursor w) = Some st ->
  held_sql (snd (step_call st w)) = held_sql w /\
  exists evs,
    log (snd (step_call st w)) = log w ++ evs /\
    steps_shown (held_sql w) evs /\
    shown_after (held_sql w) evs = held_sql w.
Proof.
  intros Hst. unfold held_sql. rewrite Hst. unfold step_call.
  destruct (vdbestatement st) as [vd|].
  2:{ cbn [snd]. rewrite Hst. split; [done|]. exists [].
      by rewrite app_nil_r. }
  cbn [snd].
  assert (Hw : forall w1 : World,
             cursor (match so_raised (fst (sqlite3_step vd)) with
                     | Some e => if PyErr_Occurred w1 then w1
                                 else PyErr_Format e w1
                     | None => w1
                     end) = cursor w1 /\
             log (match so_raised (fst (sqlite3_step vd)) with
                  | Some e => if PyErr_Occurred w1 then w1
                              else PyErr_Format e w1
                  | None => w1
                  end) = log w1).
  { intros w1. destruct (so_raised _); [|done]. by destruct (PyErr_Occurred w1). }
  destruct (Hw (set_statement
                  (Some {| vdbestatement := Some (snd (sqlite3_step vd));
                           utf8 := utf8 st; next := next st |})
                  (emit (EvStep (statement_sql st)) w))) as (-> & ->).
  split; [done|]. exists [EvStep (statement_sql st)]. by repeat split.
Qed.

(** [step], entered with the statement held shown: every step it takes is
    taken on a statement shown. *)
Lemma step_loop_shown t fuel : forall w r w',
  exectrace (cursor w) = Some t ->
  APSWCursor_step_loop fuel w = Done r w' -> stepped_shown w w'.
Proof.
  induction fuel as [|fuel IH]; intros w r w' Ht H; [done|].
  cbn [APSWCursor_step_loop] in H.
  destruct (statement (cursor w)) as [st|] eqn:Hst; [|done].
  destruct (step_call_shown st w Hst) as (Hh1 & evs1 & Hl1 & Hs1 & Ha1).
  pose proof (same_hooks_exectrace _ _ (step_call_hooks st w)) as Ht1.
  rewrite Ht in Ht1.
  set (res := fst (step_call st w)) in *.
  set (w1 := snd (step_call st w)) in *. clearbody res w1. cbv zeta in H.
  assert (Hret : forall w2,
             log w2 = log w1 -> held_sql w2 = held_sql w1 ->
             stepped_shown w w2).
  { intros w2 Hl2 Hh2. exists evs1. split; [congruence|]. split; [done|].
    right. congruence. }
  assert (Hreset : forall w2,
             stepless w1 w2 -> status (cursor w2) = C_DONE ->
             stepped_shown w w2).
  { intros w2 (evs2 & Hl2 & Hs2) Hd. exists (evs1 ++ evs2).
    split; [by rewrite Hl2, Hl1, app_assoc|].
    split; [|by left]. apply steps_shown_app.
    split; [done|by apply steps_shown_stepless]. }
  destruct (Z.land res 255 =? SQLITE_ROW).
  { returned H. by apply Hret. }
  destruct (Z.land res 255 =? SQLITE_DONE); cbn [andb] in H.
  - destruct (PyErr_Occurred w1).
    { returned H. apply Hreset; [by apply stepless_same|done]. }
    destruct (step_advance w1) as [a w2| |] eqn:Ha; try done.
    pose proof (step_advance_consulted t _ _ _ Ht1 Ha)
      as (evs2 & Hl2 & Hs2 & Hok & Hno).
    pose proof (same_hooks_exectrace _ _ (step_advance_hooks _ _ _ Ha)) as Ht2.
    rewrite Ht1 in Ht2. cbn [bindM] in H.
    destruct a as [ret|[]].
    + returned H. apply Hreset; [by exists evs2|].
      apply Hno. discriminate.
    + destruct (IH _ _ _ Ht2 H) as (evs3 & Hl3 & Hs3 & Hend).
      exists (evs1 ++ evs2 ++ evs3).
      split; [by rewrite Hl3, Hl2, Hl1, <- !app_assoc|].
      assert (Hflag : shown_after (held_sql w) (evs1 ++ evs2) = held_sql w2).
      { rewrite shown_after_app. by apply Hok. }
      split.
      * rewrite app_assoc. apply steps_shown_app. split.
        -- apply steps_shown_app. split; [done|by apply steps_shown_stepless].
        -- by rewrite Hflag.
      * destruct Hend as [Hd|Hend]; [by left|right].
        by rewrite app_assoc, shown_after_app, Hflag.
  - destruct (PyErr_Occurred _); returned H;
      (apply Hreset;
       [eapply stepless_trans;
        [|apply unmarked_stepless, resetcursor_unmarked];
        by apply stepless_same
       |by destruct (resetcursor_fields 1 (set_status C_DONE w1))
             as (_ & ? & _)
        || by destruct (resetcursor_fields 0 (set_status C_DONE w1))
             as (_ & ? & _)]).
Qed.

(** What [execute] and [executemany] share: the tracer is asked before
    [step] is entered. *)
Lemma execute_bind_trace_step_shown t w r w' :
  exectrace (cursor w) = Some t ->
  execute_bind_trace_step w = Done r w' -> always_shown w w'.
Proof.
  unfold execute_bind_trace_step. intros Ht H.
  set (w0 := set_bindingsoffset 0 w) in *.
  assert (H0 : stepless w w0 /\ exectrace (cursor w0) = Some t)
    by (split; [by apply stepless_same|done]).
  clearbody w0. destruct H0 as (Hl0 & Ht0).
  eapply always_shown_after; [exact Hl0|]. clear Hl0. cbv zeta in H.
  destruct (APSWCursor_dobindings w0) as [a w1| |] eqn:Hb; try done.
  pose proof (dobindings_unmarked _ _ _ Hb) as (evs1 & Hl1 & Hs1 & Hm1).
  pose proof (same_hooks_exectrace _ _ (dobindings_hooks _ _ _ Hb)) as Ht1.
  rewrite Ht0 in Ht1. cbn [bindM] in H.
  destruct (negb (a =? 0)).
  { returned H. apply stepless_always_shown. by exists evs1. }
  rewrite Ht1 in H.
  destruct (APSWCursor_doexectrace _ w1) as [b w2| |] eqn:Htr; try done.
  destruct (doexectrace_shown _ _ _ _ Htr) as (Hc & st & tb & Hst & Hl2).
  cbn [bindM] in H.
  destruct (negb (b =? 0)).
  { returned H. apply stepless_always_shown.
    apply (stepless_trans _ w1); [by exists evs1|].
    by apply (stepless_events [EvExecTrace (statement_sql st) tb]). }
  assert (Ht2 : exectrace (cursor (set_status C_BEGIN w2)) = Some t)
    by (cbn [set_status set_cursor cursor exectrace]; by rewrite Hc).
  destruct (step_loop_shown t _ _ _ _ Ht2 H) as (evs3 & Hl3 & Hs3 & _).
  assert (Hh : held_sql (set_status C_BEGIN w2) = Some (statement_sql st)).
  { unfold held_sql. cbn [set_status set_cursor cursor statement].
    by rewrite Hc, Hst. }
  rewrite Hh in Hs3.
  exists (evs1 ++ EvExecTrace (statement_sql st) tb :: evs3).
  split.
  { rewrite Hl3. change (log (set_status C_BEGIN w2)) with (log w2).
    rewrite Hl2, Hl1, <- !app_assoc. reflexivity. }
  intros cur. apply steps_shown_app.
  split; [by apply steps_shown_stepless|]. exact Hs3.
Qed.

Lemma prepare_and_run_shown t q w r w' :
  exectrace (cursor w) = Some t ->
  match statement (cursor (prepare_call q w)) with
  | None => Done RetNULL (prepare_call q w)
  | Some _ => execute_bind_trace_step (prepare_call q w)
  end = Done r w' ->
  always_shown w w'.
Proof.
  intros Ht H. eapply always_shown_after; [apply prepare_call_stepless|].
  destruct (statement (cursor (prepare_call q w))).
  - apply (execute_bind_trace_step_shown t _ r); [|done].
    by rewrite prepare_call_cursor.
  - returned H. apply stepless_always_shown. by apply stepless_same.
Qed.

Lemma execute_shown t args w r w' :
  exectrace (cursor w) = Some t ->
  APSWCursor_execute args w = Done r w' -> always_shown w w'.
Proof.
  unfold APSWCursor_execute, CHECK_USE, CHECK_CLOSED. intros Ht H.
  destruct (inuse (cursor w)).
  { returned H. apply stepless_always_shown, stepless_same.
    by destruct (PyErr_Occurred w). }
  destruct (connection_db (cursor w)).
  2:{ returned H. by apply stepless_always_shown, stepless_same. }
  pose proof (resetcursor_unmarked 0 w) as Hr.
  destruct (resetcursor_fields 0 w) as (_ & _ & _ & _ & _ & _ & _ & _ & Htr & _).
  rewrite Ht in Htr.
  destruct (resetcursor 0 w) as [res wr]. cbn [fst snd] in *.
  eapply always_shown_after; [by apply unmarked_stepless|]. clear Hr.
  destruct (negb (res =? SQLITE_OK)).
  { returned H. by apply stepless_always_shown, stepless_same. }
  destruct args as [|q more].
  { returned H. by apply stepless_always_shown, stepless_same. }
  destruct more as [|a [|a2 more]].
  - cbv zeta in H. by apply (prepare_and_run_shown t q wr r).
  - cbv zeta in H.
    assert (Ha : stepless wr (bindings_of_arg a wr) /\
                 exectrace (cursor (bindings_of_arg a wr)) = Some t).
    { destruct a as [d|[items|e]]; (split; [by apply stepless_same|done]). }
    destruct Ha as (Hla & Hta).
    eapply always_shown_after; [exact Hla|].
    destruct (bindings (cursor (bindings_of_arg a wr))).
    + by apply (prepare_and_run_shown t q _ r).
    + returned H. by apply stepless_always_shown, stepless_same.
  - returned H. by apply stepless_always_shown, stepless_same.
Qed.

Lemma executemany_shown t args w r w' :
  exectrace (cursor w) = Some t ->
  APSWCursor_executemany args w = Done r w' -> always_shown w w'.
Proof.
  unfold APSWCursor_executemany, CHECK_USE, CHECK_CLOSED. intros Ht H.
  destruct (inuse (cursor w)).
  { returned H. apply stepless_always_shown, stepless_same.
    by destruct (PyErr_Occurred w). }
  destruct (connection_db (cursor w)).
  2:{ returned H. by apply stepless_always_shown, stepless_same. }
  pose proof (resetcursor_unmarked 0 w) as Hr.
  destruct (resetcursor_fields 0 w) as (_ & _ & _ & _ & _ & _ & _ & _ & Htr & _).
  rewrite Ht in Htr.
  destruct (resetcursor 0 w) as [res wr]. cbn [fst snd] in *.
  eapply always_shown_after; [by apply unmarked_stepless|]. clear Hr.
  destruct (negb (res =? SQLITE_OK)).
  { returned H. by apply stepless_always_shown, stepless_same. }
  destruct args as [[q [it|]]|].
  2,3: returned H; by apply stepless_always_shown, stepless_same.
  cbv zeta in H.
  pose proof (PyIter_Next_log it (set_emiter (Some it) wr)) as Hn.
  pose proof (PyIter_Next_cursor it (set_emiter (Some it) wr)) as Hc.
  destruct (PyIter_Next it (set_emiter (Some it) wr)) as [[nxt it1] w1].
  cbn [snd] in Hn, Hc.
  set (w1' := set_emiter (Some it1) w1) in *.
  assert (H1 : stepless wr w1' /\ exectrace (cursor w1') = Some t).
  { split; [by apply (stepless_events [EvIterNext])|].
    subst w1'. cbn [set_emiter set_cursor cursor exectrace]. by rewrite Hc. }
  clearbody w1'. destruct H1 as (Hl1 & Ht1).
  eapply always_shown_after; [exact Hl1|].
  destruct nxt as [a|].
  2:{ destruct (PyErr_Occurred w1'); returned H;
        by apply stepless_always_shown, stepless_same. }
  set (w2 := bindings_of_arg a w1') in *.
  assert (H2 : stepless w1' w2 /\ exectrace (cursor w2) = Some t).
  { subst w2. destruct a as [d|[items|e]];
      (split; [by apply stepless_same|done]). }
  clearbody w2. destruct H2 as (Hl2 & Ht2).
  eapply always_shown_after; [exact Hl2|].
  destruct (bindings (cursor w2)).
  2:{ returned H. by apply stepless_always_shown, stepless_same. }
  eapply always_shown_after; [apply (prepare_call_stepless q)|].
  pose proof (prepare_call_cursor q w2) as Hcp.
  destruct (statement (cursor (prepare_call q w2))) as [st|].
  2:{ returned H. by apply stepless_always_shown, stepless_same. }
  eapply always_shown_after;
    [|apply (execute_bind_trace_step_shown t _ r); [|exact H]].
  - by apply stepless_same.
  - cbn [set_emoriginalquery set_cursor cursor exectrace]. by rewrite Hcp.
Qed.

Lemma status_not_done s : status_eqb s C_DONE = false -> s <> C_DONE.
Proof. by destruct s. Qed.

(** The row is built and traced: no step, no prepare, no call of the
    execution tracer. *)
Lemma next_row_unmarked w r w' :
  next_row w = Done r w' -> unmarked w w' /\ held_sql w' = held_sql w.
Proof.
  unfold next_row. cbv zeta.
  change (statement (cursor (set_status C_BEGIN w)))
    with (statement (cursor w)).
  change (rowtrace (cursor (set_status C_BEGIN w)))
    with (rowtrace (cursor w)).
  destruct (statement (cursor w)) as [st|] eqn:Hst; [|done].
  unfold APSWCursor_dorowtrace.
  change (rowtrace (cursor (set_status C_BEGIN w)))
    with (rowtrace (cursor w)).
  destruct (rowtrace (cursor w)) as [tr|].
  2:{ intros H. returned H. split; [by apply unmarked_same|].
      unfold held_sql. by cbn [set_status set_cursor cursor statement]. }
  set (w1 := emit (EvRowTrace (current_row st)) (set_status C_BEGIN w)).
  assert (H1 : unmarked w w1 /\ held_sql w1 = held_sql w).
  { split; [|done]. exists [EvRowTrace (current_row st)].
    split; [done|]. split; by repeat constructor. }
  clearbody w1. destruct H1 as (Hu & Hh).
  assert (Hany : forall e, unmarked w (PyErr_Format e w1) /\
                           held_sql (PyErr_Format e w1) = held_sql w).
  { intros e. split; [|done].
    eapply unmarked_trans; [exact Hu|]. by apply unmarked_same. }
  destruct (tr (current_row st)) as [r2|e]; cbn [bindM].
  - destruct r2 as [| |o|items]; try destruct (is_Py_None _);
      intros H; returned H; by split.
  - intros H. returned H. apply Hany.
Qed.

(** [next], entered with the statement held shown. *)
Lemma next_again_shown t fuel : forall w r w',
  exectrace (cursor w) = Some t ->
  APSWCursor_next_again fuel w = Done r w' ->
  exists evs, log w' = log w ++ evs /\ steps_shown (held_sql w) evs.
Proof.
  induction fuel as [|fuel IH]; intros w r w' Ht H; [done|].
  cbn [APSWCursor_next_again] in H.
  match type of H with bindM ?m _ = _ => destruct m as [stepped w1| |] eqn:Hm end;
    try done.
  assert (H1 : exectrace (cursor w1) = Some t /\ stepped_shown w w1).
  { destruct (status_eqb (status (cursor w)) C_BEGIN).
    - split; [|exact (step_loop_shown t _ _ _ _ Ht Hm)].
      rewrite (same_hooks_exectrace _ _ (step_loop_hooks _ _ _ _ Hm)).
      exact Ht.
    - returned Hm. split; [done|]. exists []. rewrite app_nil_r.
      split; [done|]. split; [done|by right]. }
  clear Hm. destruct H1 as (Ht1 & evs1 & Hl1 & Hs1 & Hend). cbn [bindM] in H.
  assert (Hstop : Done RetNULL w1 = Done r w' ->
                  exists evs, log w' = log w ++ evs /\
                              steps_shown (held_sql w) evs).
  { intros H0. returned H0. by exists evs1. }
  assert (Hrow : (if status_eqb (status (cursor w1)) C_DONE
                  then Done RetNULL w1
                  else call r0, w0 <- next_row w1 in
                       match r0 with
                       | inl ret => Done ret w0
                       | inr _ => APSWCursor_next_again fuel w0
                       end) = Done r w' ->
                 exists evs, log w' = log w ++ evs /\
                             steps_shown (held_sql w) evs).
  { clear H. intros H.
    destruct (status_eqb (status (cursor w1)) C_DONE) eqn:Hd; [by apply Hstop|].
    apply status_not_done in Hd. destruct Hend as [Hend|Hend]; [done|].
    destruct (next_row w1) as [r0 w2| |] eqn:Hn; try done.
    destruct (next_row_unmarked _ _ _ Hn) as ((evs2 & Hl2 & Hs2 & Hm2) & Hh2).
    pose proof (same_hooks_exectrace _ _ (next_row_hooks _ _ _ Hn)) as Ht2.
    rewrite Ht1 in Ht2. cbn [bindM] in H.
    assert (Hflag : shown_after (held_sql w) (evs1 ++ evs2) = held_sql w2).
    { rewrite shown_after_app, shown_after_unmarked by done. congruence. }
    assert (Hs12 : steps_shown (held_sql w) (evs1 ++ evs2)).
    { apply steps_shown_app. split; [done|by apply steps_shown_stepless]. }
    destruct r0 as [ret|[]].
    - returned H. exists (evs1 ++ evs2).
      split; [by rewrite Hl2, Hl1, app_assoc|done].
    - destruct (IH _ _ _ Ht2 H) as (evs3 & Hl3 & Hs3).
      exists ((evs1 ++ evs2) ++ evs3).
      split; [by rewrite Hl3, Hl2, Hl1, !app_assoc|].
      apply steps_shown_app. split; [done|]. by rewrite Hflag. }
  destruct stepped; auto.
Qed.

(** Whatever a method does with a tracer installed, it steps no statement
    that it prepared without having asked the tracer in between. *)
Lemma perform_shown t op w r w' :
  exectrace (cursor w) = Some t ->
  perform op w = Done r w' ->
  exists evs, log w' = log w ++ evs /\ steps_shown (held_sql w) evs.
Proof.
  intros Ht H. unfold perform in H. cbv zeta in H.
  set (w0 := set_pyerr None w) in *.
  assert (H0 : log w0 = log w /\ held_sql w0 = held_sql w /\
               exectrace (cursor w0) = Some t) by done.
  clearbody w0. destruct H0 as (Hl0 & Hh0 & Ht0). rewrite <- Hl0, <- Hh0.
  assert (Hany : always_shown w0 w' ->
                 exists evs, log w' = log w0 ++ evs /\
                             steps_shown (held_sql w0) evs).
  { intros (evs & Hl & Hs). exists evs. split; [done|apply Hs]. }
  assert (Hsame : forall w1, Done r w1 = Done r w' -> log w1 = log w0 ->
                 exists evs, log w' = log w0 ++ evs /\
                             steps_shown (held_sql w0) evs).
  { intros w1 [= <-] Hl. exists []. by rewrite app_nil_r. }
  destruct op as [args|args|args|fuel|func|func|].
  - apply Hany. by apply (execute_shown t args _ r).
  - apply Hany. by apply (executemany_shown t args _ r).
  - apply Hany, stepless_always_shown.
    unfold APSWCursor_close, CHECK_USE in H.
    destruct (inuse (cursor w0)).
    { returned H. apply stepless_same. by destruct (PyErr_Occurred w0). }
    destruct (negb (connection_db (cursor w0))).
    { returned H. by apply stepless_same. }
    destruct args as [|force].
    { returned H. by apply stepless_same. }
    cbv zeta in H.
    pose proof (resetcursor_unmarked (default 0 force) w0) as Hr.
    destruct (negb (_ =? SQLITE_OK)); returned H; by apply unmarked_stepless.
  - unfold APSWCursor_next, CHECK_USE, CHECK_CLOSED in H.
    destruct (inuse (cursor w0)).
    { returned H. exists []. rewrite app_nil_r.
      split; [by destruct (PyErr_Occurred w0)|done]. }
    destruct (connection_db (cursor w0)).
    2:{ returned H. exists []. by rewrite app_nil_r. }
    by apply (next_again_shown t fuel _ r).
  - unfold APSWCursor_setexectrace, CHECK_USE, CHECK_CLOSED in H.
    destruct (inuse (cursor w0)).
    { returned H. exists []. rewrite app_nil_r.
      split; [by destruct (PyErr_Occurred w0)|done]. }
    destruct (connection_db (cursor w0)).
    2:{ returned H. exists []. by rewrite app_nil_r. }
    destruct func as [[msg|f]|]; returned H; exists [];
      by rewrite app_nil_r.
  - unfold APSWCursor_setrowtrace, CHECK_USE, CHECK_CLOSED in H.
    destruct (inuse (cursor w0)).
    { returned H. exists []. rewrite app_nil_r.
      split; [by destruct (PyErr_Occurred w0)|done]. }
    destruct (connection_db (cursor w0)).
    2:{ returned H. exists []. by rewrite app_nil_r. }
    destruct func as [[msg|f]|]; returned H; exists [];
      by rewrite app_nil_r.
  - returned H. exists []. by rewrite app_nil_r.
Qed.

(** C5.  With an execution tracer [t] installed:
    - when [t] answers the statement about to run with a false value,
      [APSWCursor_doexectrace] fails with AbortError pending, having done
      nothing but the trace call;
    - whatever a method ([execute], [executemany], [next], ...) does, a
      statement that it prepares is not stepped before [t] was called
      with it: in what the method adds to the log, every step is a step of
      the statement that [t] was shown last, and between the prepare of a
      statement and its first step lies the trace call (the statement held
      on entry counts as shown);
    - in what a method adds to the log, a trace call that [t] answered
      with a false value is the last event: the method returned NULL with
      AbortError pending, and the statement traced is held in state
      [C_DONE] with no step taken on it.  Whatever is called afterwards,
      the log stays as it is or goes on with the statement being handed
      back to the cache: the statement is never stepped and yields no
      row. *)
Theorem exectrace_veto (w : World) (t : exec_tracer) :
  exectrace (cursor w) = Some t ->
  (forall saved st,
      statement (cursor w) = Some st ->
      t (statement_sql st) (exectrace_bindings saved w) = ET_returned false ->
      APSWCursor_doexectrace saved w
      = Done (-1)
          (PyErr_Format ExcTraceAbort
             (emit (EvExecTrace (statement_sql st) (exectrace_bindings saved w))
                   w)))
  /\
  (forall op r w' evs,
      perform op w = Done r w' -> log w' = log w ++ evs ->
      steps_shown (held_sql w) evs)
  /\
  (forall op r w' sql b before after,
      perform op w = Done r w' ->
      log w' = log w ++ before ++ EvExecTrace sql b :: after ->
      t sql b = ET_returned false ->
      after = [] /\ r = RetNULL /\ pyerr w' = Some ExcTraceAbort /\
      (exists st, parked st w' /\ statement_sql st = sql /\ unstepped st) /\
      (forall ops wn,
          perform_all ops w' = Done () wn ->
          log wn = log w' \/ exists evs, log wn = log w' ++ EvFinalize :: evs)).
Proof.
  intros Ht. destruct (exectrace_veto_parks w t Ht) as (Hveto & Hparks).
  split; [exact Hveto|]. split; [|exact Hparks].
  intros op r w' evs Hop Hlog.
  destruct (perform_shown t op w r w' Ht Hop) as (evs' & Hl & Hs).
  rewrite Hl in Hlog. apply app_inv_head in Hlog. by subst evs'.
Qed.

Lemma exectrace_veto_witness :
  APSWCursor_doexectrace 0 vetoing_select_1
  = Done (-1)
      (PyErr_Format ExcTraceAbort
         (emit (EvExecTrace "select 1" TB_None) vetoing_select_1)) /\
  perform (Op_next 2) before_select_2
  = Done RetNULL (world_of (perform (Op_next 2) before_select_2)) /\
  log (world_of (perform (Op_next 2) before_select_2))
  = log before_select_2
    ++ [EvStep "select 1"; EvNextStatement; EvFinalize;
        EvPrepare "select 2" true; EvExecTrace "select 2" TB_None] /\
  steps_shown (held_sql before_select_2)
    [EvStep "select 1"; EvNextStatement; EvFinalize;
     EvPrepare "select 2" true; EvExecTrace "select 2" TB_None] /\
  pyerr (world_of (perform (Op_next 2) before_select_2)) = Some ExcTraceAbort /\
  (exists st,
      parked st (world_of (perform (Op_next 2) before_select_2)) /\
      statement_sql st = "select 2"%string /\ unstepped st) /\
  (forall ops wn,
      perform_all ops (world_of (perform (Op_next 2) before_select_2))
      = Done () wn ->
      log wn = log (world_of (perform (Op_next 2) before_select_2)) \/
      exists evs,
        log wn = log (world_of (perform (Op_next 2) before_select_2))
                 ++ EvFinalize :: evs).
Proof.
  assert (Hrun : perform (Op_next 2) before_select_2
                 = Done RetNULL (world_of (perform (Op_next 2) before_select_2)))
    by (vm_compute; reflexivity).
  assert (Hlog : log (world_of (perform (Op_next 2) before_select_2))
                 = log before_select_2
                   ++ [EvStep "select 1"; EvNextStatement; EvFinalize;
                       EvPrepare "select 2" true]
                   ++ EvExecTrace "select 2" TB_None :: [])
    by (vm_compute; reflexivity).
  assert (Ht : exectrace (cursor before_select_2) = Some veto_select_2)
    by (vm_compute; reflexivity).
  destruct (exectrace_veto before_select_2 veto_select_2 Ht)
    as (_ & Hshown & Hparks).
  split; [|split; [exact Hrun|split; [exact Hlog|split]]].
  - apply (proj1 (exectrace_veto vetoing_select_1 veto_all eq_refl) 0
             (default {| vdbestatement := None; utf8 := []; next := None |}
                      (statement (cursor vetoing_select_1))));
      reflexivity.
  - exact (Hshown (Op_next 2) RetNULL _ _ Hrun Hlog).
  - apply (Hparks (Op_next 2) RetNULL _ "select 2"%string TB_None
             [EvStep "select 1"; EvNextStatement; EvFinalize;
              EvPrepare "select 2" true] [] Hrun Hlog eq_refl).
Defined.
